(* ===== verification/_CoqProject ===== *)
-Q . S2P
Prelude.v
RustStr.v
Json.v
Core.v
Replay.v
ReplaySpec.v
FileReplay.v
FileRace.v
Jose.v
JoseSigners.v
Url.v
NetAddr.v
Verify.v
Dpop.v
Config.v
HttpForms.v
HttpState.v
HttpToken.v
HttpToy.v
HttpExchange.v
HttpGranted.v
HttpServer.v
HttpOnline.v
HttpTyped.v
Conc.v
HttpConc.v
HttpThreads.v
ThreadReplay.v
ThreadRevoke.v
HttpGates.v
HttpBootstrap.v
ThreadRestart.v
HttpLifecycle.v
CliIo.v
CliText.v
CliKeys.v
CliRotate.v
CliExchange.v
CliFiles.v
CliDocs.v
CliSafety.v
CliRestart.v
CliPqc.v
CliClient.v
CliMain.v
