(* ===== verification/Prelude.v ===== *)
(** * Verification of sts-delegate-rs

    sts-delegate-rs is a security token service: an OAuth token-exchange server
    (RFC 8693) that takes a user's token and the assertion of an agent, and mints
    a short-lived, downscoped token for one target.  It also introspects (RFC
    7662) and revokes (RFC 7009) what it has minted.  A command line starts the
    server, keeps its key files and calls its token endpoint.  This library is a
    shallow embedding of the crates under src/crates, and the theorems that make
    them correct.  This file is its prelude.

    ** The program and the files that model it

    The crates are layered as in the Cargo workspace, and so are the files.

    - Prelude: [result], the state-and-error monad [Eff], [i64] arithmetic with
      its wrap-around, generic lemmas and tactics.
    - RustStr, Json, Url, NetAddr: what the sources use of Rust's [str], of
      [serde_json::Value], of the [url] crate's accessors (a parameter) and of
      [SocketAddr::from_str].
    - Core (sts-core/src/lib.rs): request and claim records, [resolve_target],
      [downscope], [build_act], [build_scoped_payload].
    - Replay, FileReplay, FileRace (sts-replay/src/lib.rs): the trait
      [ReplayStore] as a class; [InMemoryReplayStore]; [FileReplayStore] over an
      explicit directory in which every system call may fail; the same function
      as a program counter over system calls, for several processes at once.
      ReplaySpec: the ideal store that the in-memory one implements.
    - Jose, JoseSigners (sts-jose/src/lib.rs): JWKs, compact JWS verification,
      backend selection, the four signers and the conversions of their keys.
    - Verify (sts-verify/src/lib.rs): issuers, discovery, subject tokens, actor
      and client assertions.
    - Dpop (sts-dpop/src/lib.rs): RFC 9449 proofs and holder keys.
    - Config (sts-config/src/lib.rs): the configuration and the two policies.
    - HttpForms, HttpState, HttpToken, HttpBootstrap (sts-http/src/lib.rs):
      forms and request checks; revocations, metrics, metadata and routes; the
      token, introspection and revocation handlers; start-up.
    - HttpToy: a small concrete server for examples.  HttpGates, HttpExchange,
      HttpGranted, HttpServer, HttpOnline, HttpTyped: the theorems about the
      handlers.
    - Conc: threads that share a world, and a logic for them.  HttpConc: the
      handlers as threads.  HttpThreads, ThreadReplay, ThreadRevoke: the theorems
      about requests that run at the same time.  ThreadRestart: a server that
      stops at any point and starts again on what its store has left on disk.
      HttpLifecycle: a token from the endpoint that mints it, through the signer
      and the published keys, to introspection.
    - CliIo: the system calls of the command line, as programs over them.
      CliText, CliKeys, CliRotate, CliExchange, CliMain (sts-cli/src/main.rs):
      what is printed; reading key sets; writing, generating and rotating key
      files; the exchange client and token verification; the commands.
      CliFiles, CliDocs, CliSafety, CliPqc, CliClient: the theorems about them.
      CliRestart: a rotation and the server's start after it, together.

    Definitions keep the names of the Rust items; a method carries its type's
    name as a prefix where two would clash ([file_check_and_record]).

    ** How the code is translated

    A fallible function returns [result E A]; [?] is [let?].  A function that
    also touches the world is in [Eff W E A := W -> result E A * W]: the world
    comes back also with an error, so what was recorded before an error stays
    recorded.  [let? x := ..], [do? x <- ..] and [do! x <- ..] follow the order of
    the statements.  An [i64] is a [Z]; [+] and [-] on it wrap ([i64_add],
    [i64_sub], as in a release build), [saturating_add] and [abs_diff] are as
    documented; counters of [u64] wrap at 2^64.  A [String] is a byte string
    holding UTF-8; [trim] and [split_whitespace] know the Unicode white space.
    [BTreeMap], [BTreeSet] and [HashMap] are [gmap] and [gset]; where order is
    seen the keys are sorted ([btree_iter]).  A JSON object is an association
    list in key order.  A mutex is its value and its poison flag.

    The world of a handler, [HttpState.World], holds the replay store, the
    revocation list, the metrics, a clock and a random source as functions of
    the number of reads, so a proof about all worlds covers every clock
    (theorems that need a clock that does not go back say so).  The members of
    Rust's [HttpState] that handlers change are in the world; start-up makes them
    as [HttpState.Shared].

    Requests run at the same time.  [Conc.Steps] takes a handler, a computation
    on the world, apart into atomic actions by its structure: what the code does
    under one lock (a call on the in-memory replay store or on the revocation
    list, an update of a map of counters), one atomic instruction, one reading of
    the clock, one draw of random bytes.  A schedule is a list of arrivals and
    turns, [Conc.exec] runs it, and every theorem is for all schedules, those
    that stop in the middle included.  [steps_alone] says that the actions run
    alone are the handler, and [sequential_schedules] that the server that takes
    one request after the other is one of the schedules.  [Conc.guards] is a
    rely/guarantee logic: each thread has a ghost state, its actions are moves
    that keep an invariant of the world and all ghost states ([pool_exec]).  A
    call on the file-backed store is one action here; how such calls interleave
    below that is the subject of FileRace.

    A command that works on files is a term of [CliIo.Io], a tree of system
    calls branching on their answers; [sys] says what a call does to the files
    and how it may fail, an [Outcome] per call what the environment decides.  One
    run follows a stream of outcomes ([run]; [states] lists what it passes
    through, so a crash is a prefix), and a [Pool] interleaves any number of
    processes call by call.  [sends] lists the requests of a run with their
    replies.  The rules of [always], [phases] and [respects] prove invariants of
    a run, of its phases, and of a pool under a lock file; those of [tells] and
    [succeeds] what a run has sent when it succeeds, and those of [calmly] what
    an undisturbed run does.

    ** Third-party code

    Code that is not in the repository is a parameter: the classes [Base64],
    [Jwt], [OpenSsl], [AwsLc], [Asn1], [SerdeJson], [FromJson], [JsonText],
    [JwkReader], [UrlLib], [HttpLib], [DpopLib], [JsonReader], [Sha256],
    [FileReader], [BootFs], [HasClock], [HasHttp], [RsaGenerate], [FloatText],
    [FormEncode] and [Listener] hold the calls the sources make, one field each.
    Where a theorem needs documented behaviour of such a call the class has laws
    of its own ([AwsLcLaws], [Base64Laws], [OpenSslLaws], [HeaderLaws],
    [DerLaws], [KeyFileLaws], [KeyGenerationLaws], [FormLaws],
    [JwtLaws], [ClaimsLaws]), and its witness
    gives functions that satisfy them.  Nothing is assumed of SHA-256: theorems that depend on it conclude
    "or there is a collision".

    ** Interfaces between components

    - [Replay.ReplayStoreLaws] is what the handlers rely on of a replay store: a
      live key is refused, an accepted key is held, no call drops a live key.
      [in_memory_laws], [file_laws] and [any_store_laws] discharge it; single
      use is proved against it, for assertions and for DPoP proofs.
    - [JoseSigners.JoseSignerLaws] is what the HTTP layer relies on of a signer;
      one instance per signer, and [any_signer_laws] for the trait object.
      [JoseSigners.JoseSignerRoundtrip] is what it relies on when it takes back
      what it has signed: [rsa_roundtrip] and [mldsa_roundtrip] discharge it for
      the signers with a key in a file, and [start_up_takes_back] says that
      start-up builds such a signer.
    - [HttpExchange.Frame] says which part of the world a computation leaves
      alone, closed under the monad's operations; instance search proves the
      frame of a handler from its shape.  [Conc.Acts] does the same for every
      action of a thread, and [HttpGranted.Decides] finds from its shape what a
      verification accepts on a clock that stands.

    ** The theorems

    - Token exchange: what a minted token says and on which evidence
      ([token_mint_sound]); on a clock that stands, exactly which requests are
      granted ([token_granted_exactly]), and that a valid one is served
      ([valid_exchange_served]); refused requests leave no trace ([token_no_trace]);
      an actor token buys one exchange ([actor_token_single_use]), and whatever
      runs at the same time, an actor token, a client assertion or a DPoP proof is
      used once ([concurrent_single_use]), with the file-backed store also across
      restarts ([restart_single_use]); no silent downgrade of the signature
      ([signing_no_silent_downgrade]); the request, [may_act] and [act] checks as
      equivalences.
    - Revocation and introspection over sequences of requests
      ([revoked_stays_inactive], [introspection_sound], [revocations_bounded],
      [outcomes_counted], [world_well_typed]) and over schedules
      ([concurrent_revocation], [concurrent_outcomes_counted],
      [concurrent_world_typed]); a minted token is reported active, as signed,
      for its lifetime ([minted_token_active]).  On a clock that stands, exactly
      what the two endpoints answer and what a revocation leaves on the list
      ([introspection_answered_exactly], [revocation_listed_exactly]); the list
      ends with the process ([restart_forgets_revocations]).
    - Token verification ([jws_verify_sound], [verify_assertion_sound],
      [verify_subject_token_sound], [dpop_proof_sound], [kid_single_owner],
      [resolve_idp_jwks_pinned]).
    - Replay: single use for every store, the in-memory store as an
      implementation of an ideal one ([in_memory_refines]), I/O errors, bounds,
      and the race of processes on one file: on a fresh key every run ends and
      one process wins ([race_one_winner], [race_decided]); on an expired one two
      can ([race_two_winners]).
    - Key files: replacing a file implements an atomic write
      ([atomic_write_refines]); a secret is never written over a file
      ([new_secret_never_overwrites]); rotations of one key, interleaved and
      interrupted anywhere, never lose a key that still verifies tokens
      ([rotations_keep_keys], [rotation_outcome]); the overlap file is what the
      server accepts at start-up ([overlap_accepted_by_server]); after a rotation
      the server starts on the generated key and verifies every older token as
      before ([rotation_then_restart]).
    - The client: its form reads at the server as what was asked for
      ([client_form_understood]), a success was checked
      ([exchange_success_sound]), error text is redacted
      ([oauth_text_redacted]), the offline smoke check stays offline
      ([smoke_offline]).
    - Configuration, start-up and signers ([config_guarantees],
      [target_policy_spec], [bootstrap_sound], [public_jwks_exact],
      [constructed_signers_ok], [mldsa_sign_verify_roundtrip]).
    - Some theorems show a limit of the code: [race_two_winners],
      [assertion_lifetime_not_bounded_by_now], [assertion_lifetime_wraps],
      [file_store_broken_entry_blocks], [pqc_rotations_lose_key],
      [long_jwt_not_redacted], [smoke_blank_goes_online],
      [revoked_token_reported_active], [restart_forgets_revocations].

    ** Bounds and fuel

    Recursion is structural nearly everywhere.  The prior [act] claim is read
    with the code's own limit of ten actors, and [act_claim_reads] shows that
    this accepts exactly the chains of at most ten.  Fuel appears where text is
    consumed by a parser or a printer and is the length of that text (or the
    three octal digits of a file mode), which every round consumes at least in
    part.  A command makes finitely many system calls, so [Io] is inductive and
    [run] needs no fuel; the race of processes on the file store is a relation
    without a bound on its steps, and [race_decided] shows that it is well
    founded.

    ** Not modelled

    - clap's parsing of the command line: a command is given as its value.
    - Directories and links: the files are a map from names to contents and
      modes, two names are two files.
    - axum's transport, logging, and the text of the OpenAPI document (an
      argument of its handler).
    - Memory orders weaker than sequential consistency: the counters are relaxed
      atomics that nothing else depends on.
    - [serde]'s parsing of JSON text into structures ([FromJson] is a
      parameter); the printing of claims is modelled up to the JSON value.
    - Machine memory and panics other than those that poison a mutex. *)

From stdpp Require Export base option gmap strings list sorting pretty fin_maps sets relations.
From Stdlib Require Export ZArith Lia.

(** * Results *)

(** Rust's [Result<A, E>]. *)
Inductive result (E A : Type) : Type :=
| Ok (a : A)
| Err (e : E).
Arguments Ok {E A} a.
Arguments Err {E A} e.

Declare Scope rust_scope.
Delimit Scope rust_scope with rust.

(** The [?] operator on a [Result]. *)
Definition res_bind {E A B} (m : result E A) (f : A -> result E B) : result E B :=
  match m with
  | Ok a => f a
  | Err e => Err e
  end.

Notation "'let?' x ':=' c 'in' k" := (res_bind c (fun x => k))
  (at level 10, x pattern, c at level 200, k at level 200) : rust_scope.
Open Scope rust_scope.

Definition is_ok {E A} (r : result E A) : bool :=
  match r with Ok _ => true | Err _ => false end.

(** [Result::map_err]. *)
Definition map_err {E F A} (f : E -> F) (r : result E A) : result F A :=
  match r with
  | Ok a => Ok a
  | Err e => Err (f e)
  end.

(** [Result::map]. *)
Definition res_map {E A B} (f : A -> B) (r : result E A) : result E B :=
  match r with
  | Ok a => Ok (f a)
  | Err e => Err e
  end.

(** [Result::ok]. *)
Definition res_ok {E A} (r : result E A) : option A :=
  match r with
  | Ok a => Some a
  | Err _ => None
  end.

(** [Option::ok_or_else]. *)
Definition ok_or {E A} (o : option A) (e : E) : result E A :=
  match o with
  | Some a => Ok a
  | None => Err e
  end.

(** [Option::filter]. *)
Definition opt_filter {A} (p : A -> bool) (o : option A) : option A :=
  match o with
  | Some a => if p a then Some a else None
  | None => None
  end.

(** [Option::or_else]. *)
Definition opt_or {A} (o1 o2 : option A) : option A :=
  match o1 with
  | Some a => Some a
  | None => o2
  end.

(** [Option::is_some_and]. *)
Definition is_some_and {A} (p : A -> bool) (o : option A) : bool :=
  match o with
  | Some a => p a
  | None => false
  end.

Definition opt_is_some {A} (o : option A) : bool :=
  match o with Some _ => true | None => false end.

Definition opt_is_none {A} (o : option A) : bool := negb (opt_is_some o).

(** [Option<Result<A,E>>::transpose] after a [map]. *)
Definition opt_traverse {E A B} (f : A -> result E B) (o : option A) : result E (option B) :=
  match o with
  | Some a => res_map Some (f a)
  | None => Ok None
  end.

(** A [for] loop whose body may return early with an error. *)
Fixpoint try_fold {E A B} (f : A -> B -> result E A) (a : A) (l : list B) : result E A :=
  match l with
  | [] => Ok a
  | b :: l' => res_bind (f a b) (fun a' => try_fold f a' l')
  end.

(** [iter().map(f).collect::<Result<Vec<_>,_>>()] and loops that push. *)
Fixpoint try_map {E A B} (f : A -> result E B) (l : list A) : result E (list B) :=
  match l with
  | [] => Ok []
  | a :: l' =>
      let? b := f a in
      let? bs := try_map f l' in
      Ok (b :: bs)
  end.

(** * Effects *)

(** Code that reads or writes shared state: the world is threaded through, and
    what was written before an error stays written. *)
Definition Eff (W E A : Type) : Type := W -> result E A * W.

Definition eff_ret {W E A} (a : A) : Eff W E A := fun w => (Ok a, w).
Definition eff_bind {W E A B} (m : Eff W E A) (f : A -> Eff W E B) : Eff W E B :=
  fun w => match m w with
           | (Ok a, w') => f a w'
           | (Err e, w') => (Err e, w')
           end.
Definition eff_err {W E A} (e : E) : Eff W E A := fun w => (Err e, w).
(** A pure computation run as an effect. *)
Definition eff_lift {W E A} (r : result E A) : Eff W E A := fun w => (r, w).
(** [map_err] on an effect. *)
Definition eff_map_err {W E F A} (f : E -> F) (m : Eff W E A) : Eff W F A :=
  fun w => let '(r, w') := m w in (map_err f r, w').

Notation "'do!' x '<-' c 'in' k" := (eff_bind c (fun x => k))
  (at level 10, x pattern, c at level 200, k at level 200) : rust_scope.
Notation "'do?' x '<-' c 'in' k" := (eff_bind (eff_lift c) (fun x => k))
  (at level 10, x pattern, c at level 200, k at level 200) : rust_scope.

(** * Machine integers *)

Definition i64_min : Z := (-(2 ^ 63))%Z.
Definition i64_max : Z := (2 ^ 63 - 1)%Z.
Definition u64_max : Z := (2 ^ 64 - 1)%Z.

Definition in_i64 (z : Z) : Prop := (i64_min <= z <= i64_max)%Z.

#[export] Instance in_i64_dec z : Decision (in_i64 z).
Proof. unfold in_i64. apply _. Defined.

(** Two's-complement wrap-around, the value of [i64] arithmetic in a build
    without overflow checks (Cargo's release profile). *)
Definition wrap64 (z : Z) : Z := ((z + 2 ^ 63) mod 2 ^ 64 - 2 ^ 63)%Z.

Definition i64_add (a b : Z) : Z := wrap64 (a + b).
Definition i64_sub (a b : Z) : Z := wrap64 (a - b).

(** [i64::saturating_add]. *)
Definition saturating_add (a b : Z) : Z := Z.max i64_min (Z.min i64_max (a + b)).

(** [i64::abs_diff], a [u64]. *)
Definition abs_diff (a b : Z) : Z := Z.abs (a - b).

Lemma wrap64_small z : in_i64 z -> wrap64 z = z.
Proof.
  unfold in_i64, i64_min, i64_max, wrap64. intros [H1 H2].
  rewrite Z.mod_small by lia. lia.
Qed.

Lemma wrap64_range z : in_i64 (wrap64 z).
Proof.
  unfold in_i64, i64_min, i64_max, wrap64.
  pose proof (Z.mod_pos_bound (z + 2 ^ 63) (2 ^ 64) ltac:(lia)). lia.
Qed.

(** Above the minimum a value can only wrap downwards, below the maximum only
    upwards. *)
Lemma wrap64_le z : (i64_min <= z)%Z -> (wrap64 z <= z)%Z.
Proof.
  unfold i64_min, wrap64. intros H.
  pose proof (Z.mod_le (z + 2 ^ 63) (2 ^ 64) ltac:(lia) ltac:(lia)). lia.
Qed.

Lemma wrap64_ge z : (z <= i64_max)%Z -> (z <= wrap64 z)%Z.
Proof.
  unfold i64_max, wrap64. intros H.
  destruct (decide (0 <= z + 2 ^ 63)%Z); [rewrite Z.mod_small by lia; lia|].
  pose proof (Z.mod_pos_bound (z + 2 ^ 63) (2 ^ 64) ltac:(lia)). lia.
Qed.

Lemma i64_add_small a b : in_i64 (a + b) -> i64_add a b = (a + b)%Z.
Proof. apply wrap64_small. Qed.

Lemma i64_sub_small a b : in_i64 (a - b) -> i64_sub a b = (a - b)%Z.
Proof. apply wrap64_small. Qed.

Lemma saturating_add_range a b : in_i64 (saturating_add a b).
Proof. unfold saturating_add, in_i64, i64_min, i64_max. lia. Qed.

(** * Automation *)

Create HintDb sts.
#[export] Hint Resolve wrap64_range saturating_add_range : sts.

Lemma res_bind_ok {E A B} (m : result E A) (f : A -> result E B) b :
  res_bind m f = Ok b -> exists a, m = Ok a /\ f a = Ok b.
Proof. destruct m; simpl; naive_solver. Qed.

Lemma res_bind_err {E A B} (m : result E A) (f : A -> result E B) e :
  res_bind m f = Err e -> m = Err e \/ exists a, m = Ok a /\ f a = Err e.
Proof. destruct m; simpl; naive_solver. Qed.

Lemma map_err_ok {E F A} (f : E -> F) (r : result E A) a :
  map_err f r = Ok a -> r = Ok a.
Proof. destruct r; naive_solver. Qed.

Lemma map_err_err {E F A} (f : E -> F) (r : result E A) x :
  map_err f r = Err x -> exists e, r = Err e /\ x = f e.
Proof. destruct r; naive_solver. Qed.

Lemma res_map_ok {E A B} (f : A -> B) (r : result E A) b :
  res_map f r = Ok b -> exists a, r = Ok a /\ b = f a.
Proof. destruct r; naive_solver. Qed.

Lemma ok_or_ok {E A} (o : option A) (e : E) a : ok_or o e = Ok a -> o = Some a.
Proof. destruct o; naive_solver. Qed.

Lemma opt_filter_Some {A} (p : A -> bool) o a :
  opt_filter p o = Some a -> o = Some a /\ p a = true.
Proof. destruct o as [x|]; simpl; [destruct (p x) eqn:?|]; naive_solver. Qed.

Lemma eff_bind_ok {W E A B} (m : Eff W E A) (f : A -> Eff W E B) w b w' :
  eff_bind m f w = (Ok b, w') ->
  exists a w1, m w = (Ok a, w1) /\ f a w1 = (Ok b, w').
Proof. unfold eff_bind. destruct (m w) as [[a|e] w1]; naive_solver. Qed.

Lemma eff_bind_err {W E A B} (m : Eff W E A) (f : A -> Eff W E B) w e w' :
  eff_bind m f w = (Err e, w') ->
  m w = (Err e, w') \/ exists a w1, m w = (Ok a, w1) /\ f a w1 = (Err e, w').
Proof. unfold eff_bind. destruct (m w) as [[a|x] w1]; naive_solver. Qed.

(** A sequence either stops at its first part or goes on with its result. *)
Lemma eff_bind_cases {W E A B} (m : Eff W E A) (f : A -> Eff W E B) w r w' :
  eff_bind m f w = (r, w') ->
  (exists e, m w = (Err e, w') /\ r = Err e) \/ (exists a w1, m w = (Ok a, w1) /\ f a w1 = (r, w')).
Proof. unfold eff_bind. destruct (m w) as [[a|e] w1]; naive_solver. Qed.

Lemma eff_lift_ok {W E A} (r : result E A) (w : W) a w' :
  eff_lift r w = (Ok a, w') -> r = Ok a /\ w' = w.
Proof. unfold eff_lift. naive_solver. Qed.

Lemma eff_lift_err {W E A} (r : result E A) (w : W) e w' :
  eff_lift r w = (Err e, w') -> r = Err e /\ w' = w.
Proof. unfold eff_lift. naive_solver. Qed.

Lemma eff_map_err_ok {W E F A} (f : E -> F) (m : Eff W E A) w a w' :
  eff_map_err f m w = (Ok a, w') -> m w = (Ok a, w').
Proof. unfold eff_map_err. destruct (m w) as [[]]; naive_solver. Qed.

Lemma eff_map_err_err {W E F A} (f : E -> F) (m : Eff W E A) w x w' :
  eff_map_err f m w = (Err x, w') -> exists e, m w = (Err e, w') /\ x = f e.
Proof. unfold eff_map_err. destruct (m w) as [[]]; naive_solver. Qed.

(** Inverts a successful run one [?] at a time. *)
Ltac ok_step :=
  match goal with
  | H : res_bind _ _ = Ok _ |- _ =>
      let a := fresh "a" in let E := fresh "E" in
      apply res_bind_ok in H as (a & E & H)
  | H : map_err _ _ = Ok _ |- _ => apply map_err_ok in H
  | H : ok_or _ _ = Ok _ |- _ => apply ok_or_ok in H
  | H : res_map _ _ = Ok _ |- _ =>
      let a := fresh "a" in let E := fresh "E" in
      apply res_map_ok in H as (a & H & E)
  | H : opt_filter _ _ = Some _ |- _ => apply opt_filter_Some in H as [? ?]
  | H : eff_bind _ _ _ = (Ok _, _) |- _ =>
      let a := fresh "a" in let w := fresh "w" in let E := fresh "E" in
      apply eff_bind_ok in H as (a & w & E & H)
  | H : eff_lift _ _ = (Ok _, _) |- _ => apply eff_lift_ok in H as [? ?]
  | H : eff_map_err _ _ _ = (Ok _, _) |- _ => apply eff_map_err_ok in H
  | H : eff_ret _ _ = (Ok _, _) |- _ => unfold eff_ret in H
  | H : eff_err _ _ = (Ok _, _) |- _ => unfold eff_err in H; discriminate H
  | H : Err _ = Ok _ |- _ => discriminate H
  | H : Ok _ = Err _ |- _ => discriminate H
  | H : (Err _, _) = (Ok _, _) |- _ => discriminate H
  | H : (Ok _, _) = (Err _, _) |- _ => discriminate H
  | H : Ok _ = Ok _ |- _ => injection H as H
  | H : Err _ = Err _ |- _ => injection H as H
  | H : (if ?b then Err _ else _) = Ok _ |- _ => destruct b eqn:?; [discriminate H|]
  | H : (if ?b then _ else Err _) = Ok _ |- _ => destruct b eqn:?; [|discriminate H]
  | H : (if ?b then eff_err _ else _) _ = (Ok _, _) |- _ =>
      destruct b eqn:?; [discriminate H|]
  end.
Ltac ok_inv := repeat (ok_step; simplify_eq).

(** Turns boolean connectives in the hypotheses into propositions. *)
Ltac bool_hyps :=
  repeat match goal with
  | H : (_ && _)%bool = true |- _ => apply andb_true_iff in H as [? ?]
  | H : (_ || _)%bool = false |- _ => apply orb_false_iff in H as [? ?]
  | H : negb _ = true |- _ => apply negb_true_iff in H
  | H : negb _ = false |- _ => apply negb_false_iff in H
  | H : bool_decide _ = true |- _ => apply bool_decide_eq_true in H
  | H : bool_decide _ = false |- _ => apply bool_decide_eq_false in H
  | H : Z.leb _ _ = true |- _ => apply Z.leb_le in H
  | H : Z.leb _ _ = false |- _ => apply Z.leb_gt in H
  | H : Z.ltb _ _ = true |- _ => apply Z.ltb_lt in H
  | H : Z.ltb _ _ = false |- _ => apply Z.ltb_ge in H
  end.

(** Range side conditions on concrete or bounded [i64] values. *)
Ltac i64_tac := unfold in_i64, i64_min, i64_max in *; simpl; lia.

(** * Lists *)

Lemma try_fold_app {E A B} (f : A -> B -> result E A) a l1 l2 :
  try_fold f a (l1 ++ l2) = res_bind (try_fold f a l1) (fun a' => try_fold f a' l2).
Proof. revert a; induction l1 as [|b l1 IH]; intros a; simpl; [done|]. destruct (f a b); simpl; auto. Qed.

Lemma try_map_ok {E A B} (f : A -> result E B) l bs :
  try_map f l = Ok bs <-> Forall2 (fun a b => f a = Ok b) l bs.
Proof.
  revert bs; induction l as [|a l IH]; intros bs; simpl.
  - split; [intros [= <-]; constructor | inversion 1; done].
  - split.
    + intros H. ok_inv. constructor; [done|]. by apply IH.
    + inversion 1 as [|? b ? bs' Hb Hbs]; subst. rewrite Hb. simpl.
      by rewrite (proj2 (IH bs') Hbs).
Qed.

Lemma existsb_exists_elem {A} (p : A -> bool) (l : list A) :
  existsb p l = true <-> exists x, x ∈ l /\ p x = true.
Proof. rewrite existsb_exists. setoid_rewrite list_elem_of_In. done. Qed.

Lemma existsb_false_elem {A} (p : A -> bool) (l : list A) :
  existsb p l = false <-> forall x, x ∈ l -> p x = false.
Proof.
  split.
  - intros H x Hx. destruct (p x) eqn:Hp; [|done].
    assert (existsb p l = true) by (apply existsb_exists_elem; eauto). congruence.
  - intros H. destruct (existsb p l) eqn:He; [|done].
    apply existsb_exists_elem in He as (x & Hx & Hp). rewrite H in Hp; done.
Qed.
