(* ===== verification/RustStr.v ===== *)
(** Rust's [str] and [String] operations used by the crates.

    A [String] is a [string] of bytes holding UTF-8, as in Rust, so [len] is
    [String.length] and byte offsets are exact.  [trim] and
    [split_whitespace] act on Unicode White_Space characters: [ws_len]
    recognises the UTF-8 encoding of each of them at the front of a string.
    Every other operation used by the sources acts on ASCII characters, which
    UTF-8 never uses inside a multi-byte character. *)

From S2P Require Import Prelude.
From Stdlib Require Import Ascii.

(** The byte value of a character. *)
Definition byte_val (a : ascii) : Z := Z.of_N (N_of_ascii a).

Definition is_empty (s : string) : bool :=
  match s with EmptyString => true | String _ _ => false end.

(** A one-byte string. *)
Definition str1 (a : ascii) : string := String a EmptyString.

(** The characters that cannot be written in a literal here. *)
Definition dquote : string := str1 (ascii_of_N 34).
Definition newline : string := str1 (ascii_of_N 10).
Definition nul : string := str1 (ascii_of_N 0).

(** * White space *)

Definition ws1 (n : Z) : bool := ((9 <=? n) && (n <=? 13) || (n =? 32))%Z%bool.
(** U+0085 and U+00A0. *)
Definition ws2 (n m : Z) : bool := ((n =? 194) && ((m =? 133) || (m =? 160)))%Z%bool.
(** U+1680, U+2000 to U+200A, U+2028, U+2029, U+202F, U+205F and U+3000. *)
Definition ws3 (n m k : Z) : bool :=
  ((n =? 225) && (m =? 154) && (k =? 128)
   || (n =? 226) && (m =? 128)
      && ((128 <=? k) && (k <=? 138) || (k =? 168) || (k =? 169) || (k =? 175))
   || (n =? 226) && (m =? 129) && (k =? 159)
   || (n =? 227) && (m =? 128) && (k =? 128))%Z%bool.

(** The number of bytes of the white-space character at the front, 0 if there
    is none. *)
Definition ws_len (s : string) : nat :=
  match s with
  | EmptyString => 0
  | String a r =>
      if ws1 (byte_val a) then 1 else
      match r with
      | EmptyString => 0
      | String b r2 =>
          if ws2 (byte_val a) (byte_val b) then 2 else
          match r2 with
          | EmptyString => 0
          | String c _ => if ws3 (byte_val a) (byte_val b) (byte_val c) then 3 else 0
          end
      end
  end.

(** [skip] counts the bytes left of a white-space character already seen. *)
Fixpoint trim_start_skip (skip : nat) (s : string) : string :=
  match s with
  | EmptyString => EmptyString
  | String a r =>
      match skip with
      | S k => trim_start_skip k r
      | O => match ws_len s with
             | O => s
             | S k => trim_start_skip k r
             end
      end
  end.

(** [str::trim_start]. *)
Definition trim_start (s : string) : string := trim_start_skip 0 s.

(** [str::trim_end]: cut at the first point after which only white space is
    left. *)
Fixpoint trim_end (s : string) : string :=
  match s with
  | EmptyString => EmptyString
  | String a r => if is_empty (trim_start s) then EmptyString else String a (trim_end r)
  end.

(** [str::trim]. *)
Definition trim (s : string) : string := trim_end (trim_start s).

Definition push_token (cur : string) (l : list string) : list string :=
  if is_empty cur then l else cur :: l.

Fixpoint split_ws_from (skip : nat) (cur : string) (s : string) : list string :=
  match s with
  | EmptyString => push_token cur []
  | String a r =>
      match skip with
      | S k => split_ws_from k cur r
      | O => match ws_len s with
             | O => split_ws_from 0 (cur +:+ str1 a) r
             | S k => push_token cur (split_ws_from k EmptyString r)
             end
      end
  end.

(** [str::split_whitespace]. *)
Definition split_whitespace (s : string) : list string := split_ws_from 0 EmptyString s.

(** [str.chars().any(char::is_whitespace)]. *)
Fixpoint any_whitespace (s : string) : bool :=
  match s with
  | EmptyString => false
  | String _ r => if (0 <? ws_len s)%nat then true else any_whitespace r
  end.

(** * Splitting, searching and joining *)

Fixpoint split_char_from (c : ascii) (cur : string) (s : string) : list string :=
  match s with
  | EmptyString => [cur]
  | String a r =>
      if bool_decide (a = c) then cur :: split_char_from c EmptyString r
      else split_char_from c (cur +:+ str1 a) r
  end.

(** [str::split(char)] for an ASCII character: one part more than there are
    separators. *)
Definition split_char (c : ascii) (s : string) : list string := split_char_from c EmptyString s.

(** [str::strip_prefix]. *)
Fixpoint strip_prefix (p s : string) : option string :=
  match p, s with
  | EmptyString, _ => Some s
  | String a p', String b s' => if bool_decide (a = b) then strip_prefix p' s' else None
  | String _ _, EmptyString => None
  end.

Definition starts_with (p s : string) : bool := opt_is_some (strip_prefix p s).

(** [str::contains] with a string pattern. *)
Fixpoint contains_str (p s : string) : bool :=
  if starts_with p s then true else
  match s with
  | EmptyString => false
  | String _ r => contains_str p r
  end.

(** [str::contains(char)]. *)
Fixpoint contains_char (c : ascii) (s : string) : bool :=
  match s with
  | EmptyString => false
  | String a r => if bool_decide (a = c) then true else contains_char c r
  end.

(** [str::trim_start_matches(char)]. *)
Fixpoint trim_start_char (c : ascii) (s : string) : string :=
  match s with
  | EmptyString => EmptyString
  | String a r => if bool_decide (a = c) then trim_start_char c r else s
  end.

(** [str::trim_end_matches(char)]. *)
Fixpoint trim_end_char (c : ascii) (s : string) : string :=
  match s with
  | EmptyString => EmptyString
  | String a r =>
      if is_empty (trim_start_char c s) then EmptyString else String a (trim_end_char c r)
  end.

(** [str::trim_matches(char)]. *)
Definition trim_char (c : ascii) (s : string) : string := trim_end_char c (trim_start_char c s).

(** [[String]::join]. *)
Fixpoint join (sep : string) (l : list string) : string :=
  match l with
  | [] => EmptyString
  | [s] => s
  | s :: l' => s +:+ (sep +:+ join sep l')
  end.

(** [str::replace(char, &str)]. *)
Fixpoint replace_char (c : ascii) (by_ : string) (s : string) : string :=
  match s with
  | EmptyString => EmptyString
  | String a r => (if bool_decide (a = c) then by_ else str1 a) +:+ replace_char c by_ r
  end.

(** * ASCII case *)

Definition to_lower (a : ascii) : ascii :=
  let n := N_of_ascii a in
  if ((65 <=? n) && (n <=? 90))%N%bool then ascii_of_N (n + 32) else a.

(** [str::to_ascii_lowercase]. *)
Fixpoint to_ascii_lowercase (s : string) : string :=
  match s with
  | EmptyString => EmptyString
  | String a r => String (to_lower a) (to_ascii_lowercase r)
  end.

(** [str::eq_ignore_ascii_case]. *)
Definition eq_ignore_ascii_case (s t : string) : bool :=
  bool_decide (to_ascii_lowercase s = to_ascii_lowercase t).

(** * Numbers *)

Definition digit_val (a : ascii) : option Z :=
  let n := byte_val a in
  if ((48 <=? n) && (n <=? 57))%Z%bool then Some (n - 48)%Z else None.

(** Decimal digits, most significant first; [None] on any other byte. *)
Fixpoint digits_val (acc : Z) (s : string) : option Z :=
  match s with
  | EmptyString => Some acc
  | String a r =>
      match digit_val a with
      | Some d => digits_val (10 * acc + d) r
      | None => None
      end
  end.

Definition in_range (lo hi : Z) (z : Z) : option Z :=
  if ((lo <=? z) && (z <=? hi))%Z%bool then Some z else None.

(** [str::parse::<i64>]: an optional sign, at least one digit, no overflow. *)
Definition parse_i64 (s : string) : option Z :=
  match s with
  | EmptyString => None
  | String a r =>
      if bool_decide (a = ascii_of_N 45) then
        if is_empty r then None
        else match digits_val 0 r with Some z => in_range i64_min i64_max (- z) | None => None end
      else if bool_decide (a = ascii_of_N 43) then
        if is_empty r then None
        else match digits_val 0 r with Some z => in_range i64_min i64_max z | None => None end
      else match digits_val 0 s with Some z => in_range i64_min i64_max z | None => None end
  end.

(** [str::parse::<usize>] on a 64-bit target. *)
Definition parse_usize (s : string) : option Z :=
  match s with
  | EmptyString => None
  | String a r =>
      if bool_decide (a = ascii_of_N 43) then
        if is_empty r then None
        else match digits_val 0 r with Some z => in_range 0 u64_max z | None => None end
      else match digits_val 0 s with Some z => in_range 0 u64_max z | None => None end
  end.

(** [to_string] of an integer. *)
Definition to_string (z : Z) : string := pretty z.

(** * Hexadecimal *)

Definition hex_digit (n : Z) : ascii :=
  ascii_of_N (Z.to_N (if (n <? 10)%Z then 48 + n else 87 + n)%Z).

(** * Debug formatting *)

Definition hex_str (n : Z) : string :=
  if (n <? 16)%Z then str1 (hex_digit n)
  else str1 (hex_digit (Z.shiftr n 4)) +:+ str1 (hex_digit (Z.land n 15)).

Definition debug_char (a : ascii) : string :=
  let n := byte_val a in
  let bs := str1 (ascii_of_N 92) in
  if (n =? 0)%Z then bs +:+ "0"
  else if (n =? 9)%Z then bs +:+ "t"
  else if (n =? 10)%Z then bs +:+ "n"
  else if (n =? 13)%Z then bs +:+ "r"
  else if (n =? 34)%Z then bs +:+ dquote
  else if (n =? 92)%Z then bs +:+ bs
  else if ((n <? 32) || (n =? 127))%Z%bool then bs +:+ "u{" +:+ hex_str n +:+ "}"
  else str1 a.

Fixpoint debug_chars (s : string) : string :=
  match s with
  | EmptyString => EmptyString
  | String a r => debug_char a +:+ debug_chars r
  end.

(** [format!("{:?}")] of a [str].  ASCII characters are escaped as the
    standard library does; non-ASCII characters are kept as they are (the
    standard library also escapes the unprintable ones among them). *)
Definition debug_str (s : string) : string := dquote +:+ debug_chars s +:+ dquote.

(** [BTreeSet<String>] iteration: ascending byte order. *)
Definition btree_iter (s : gset string) : list string := merge_sort String.le (elements s).

(** * Lemmas: append *)

Lemma app_cons a s t : String a s +:+ t = String a (s +:+ t).
Proof. done. Qed.

Lemma app_empty_l s : EmptyString +:+ s = s.
Proof. done. Qed.

Lemma app_empty_r s : s +:+ EmptyString = s.
Proof. induction s as [|a s IH]; [done|]. by rewrite app_cons, IH. Qed.

Lemma str_app_assoc s t u : (s +:+ t) +:+ u = s +:+ (t +:+ u).
Proof. induction s as [|a s IH]; [done|]. by rewrite !app_cons, IH. Qed.

Lemma str_app_inj_l s t u : s +:+ t = s +:+ u -> t = u.
Proof. induction s as [|a s IH]; [done|]. rewrite !app_cons. intros [= ?]. auto. Qed.

Lemma str_length_app s t : String.length (s +:+ t) = (String.length s + String.length t)%nat.
Proof. induction s as [|a s IH]; [done|]. rewrite app_cons. simpl. by rewrite IH. Qed.

Lemma str_app_empty s t : s +:+ t = EmptyString -> s = EmptyString /\ t = EmptyString.
Proof. destruct s; [done|]. by rewrite app_cons. Qed.

(** Equal-length prefixes of equal strings are equal. *)
Lemma str_app_inj_length s1 s2 t1 t2 :
  String.length s1 = String.length s2 -> s1 +:+ t1 = s2 +:+ t2 -> s1 = s2 /\ t1 = t2.
Proof.
  revert s2; induction s1 as [|a s1 IH]; intros [|b s2]; try done.
  rewrite !app_cons. simpl. intros [= Hl] [= -> Ht].
  destruct (IH s2 Hl Ht) as [-> ->]. done.
Qed.

Lemma is_empty_true s : is_empty s = true <-> s = EmptyString.
Proof. by destruct s. Qed.

Lemma is_empty_false s : is_empty s = false <-> s <> EmptyString.
Proof. by destruct s. Qed.

(** * Lemmas: white space *)

Lemma ws2_32 n : ws2 n 32 = false.
Proof. unfold ws2. cbn. by rewrite andb_false_r. Qed.
Lemma ws3_32_2 n k : ws3 n 32 k = false.
Proof. unfold ws3. cbn. by rewrite !andb_false_r. Qed.
Lemma ws3_32_3 n m : ws3 n m 32 = false.
Proof. unfold ws3. cbn. by rewrite !andb_false_r. Qed.

Lemma ws_len_app t u : ws_len t <> 0 -> ws_len (t +:+ u) = ws_len t.
Proof.
  destruct t as [|a [|b [|c t]]]; rewrite ?app_cons, ?app_empty_l; simpl; [done|..].
  - destruct (ws1 _); [done|]. done.
  - destruct (ws1 _); [done|]. destruct (ws2 _ _); [done|]. done.
  - destruct (ws1 _); [done|]. destruct (ws2 _ _); [done|]. by destruct (ws3 _ _ _).
Qed.

(** No white-space character straddles a token and the space after it. *)
Lemma ws_len_token t u : t <> EmptyString -> ws_len t = 0 -> ws_len (t +:+ (" " +:+ u)) = 0.
Proof.
  destruct t as [|a [|b [|c t]]]; rewrite ?app_cons, ?app_empty_l; simpl; [done|..]; intros _.
  - destruct (ws1 _); [done|]. fold (str1 " "). simpl.
    change (byte_val " ") with 32%Z. rewrite ws2_32.
    destruct u as [|d u]; [done|]. simpl. by rewrite ws3_32_2.
  - destruct (ws1 _); [done|]. destruct (ws2 _ _); [done|]. simpl.
    change (byte_val " ") with 32%Z. by rewrite ws3_32_3.
  - destruct (ws1 _); [done|]. destruct (ws2 _ _); [done|]. by destruct (ws3 _ _ _).
Qed.

Lemma ws_len_le s : ws_len s <= String.length s.
Proof. destruct s as [|a [|b [|c s]]]; simpl; repeat case_match; lia. Qed.

Lemma any_ws_cons a r :
  any_whitespace (String a r) = false <-> ws_len (String a r) = 0 /\ any_whitespace r = false.
Proof.
  unfold any_whitespace; fold any_whitespace.
  destruct (Nat.ltb_spec 0 (ws_len (String a r))); intuition lia.
Qed.

Lemma trim_start_no_ws s : ws_len s = 0 -> trim_start s = s.
Proof. destruct s; [done|]. unfold trim_start. cbn [trim_start_skip]. by intros ->. Qed.

(** [trim] leaves a string without white space alone. *)
Lemma trim_end_no_ws s : any_whitespace s = false -> trim_end s = s.
Proof.
  induction s as [|a s IH]; [done|].
  intros [H1 H2]%any_ws_cons. cbn [trim_end].
  rewrite trim_start_no_ws by done. simpl. by rewrite IH.
Qed.

Lemma trim_no_ws s : any_whitespace s = false -> trim s = s.
Proof.
  intros H. unfold trim. rewrite trim_start_no_ws; [by apply trim_end_no_ws|].
  destruct s; [done|]. by apply any_ws_cons in H as [? _].
Qed.

Lemma trim_start_skip_app k x y :
  k <= String.length x -> trim_start_skip k x = EmptyString ->
  trim_start_skip k (x +:+ y) = trim_start y.
Proof.
  revert k; induction x as [|a x IH]; intros k Hk Hx.
  - assert (k = 0) as -> by (simpl in Hk; lia). done.
  - rewrite app_cons. cbn [trim_start_skip] in *. destruct k as [|k].
    + destruct (ws_len (String a x)) as [|k] eqn:Hw; [done|].
      rewrite <- app_cons, ws_len_app, Hw by lia. apply IH; [|done].
      pose proof (ws_len_le (String a x)) as Hl. rewrite Hw in Hl. simpl in Hl. lia.
    + apply IH; [simpl in Hk; lia|done].
Qed.

(** White space followed by white space is white space. *)
Lemma trim_start_app x y : trim_start x = EmptyString -> trim_start (x +:+ y) = trim_start y.
Proof. intros H. apply trim_start_skip_app; [lia|done]. Qed.

Lemma trim_end_split s : exists w, s = trim_end s +:+ w /\ trim_start w = EmptyString.
Proof.
  induction s as [|a s IH]; [by exists EmptyString|].
  cbn [trim_end]. destruct (is_empty (trim_start (String a s))) eqn:He.
  - apply is_empty_true in He. eauto.
  - destruct IH as (w & Hw & Ht). exists w. split; [|done]. rewrite app_cons. by rewrite <- Hw.
Qed.

Lemma trim_end_idem s : trim_end (trim_end s) = trim_end s.
Proof.
  induction s as [|a s IH]; [done|]. cbn [trim_end].
  destruct (is_empty (trim_start (String a s))) eqn:He; [done|]. cbn [trim_end].
  rewrite IH. destruct (is_empty (trim_start (String a (trim_end s)))) eqn:He2; [|done].
  apply is_empty_true in He2. apply is_empty_false in He. destruct He.
  destruct (trim_end_split s) as (w & Hs & Hw).
  rewrite Hs. rewrite <- app_cons. by rewrite trim_start_app.
Qed.

Lemma trim_start_skip_ws k s : ws_len (trim_start_skip k s) = 0.
Proof.
  revert k; induction s as [|a s IH]; intros k; [done|].
  cbn [trim_start_skip]. destruct k as [|k]; [|apply IH].
  destruct (ws_len (String a s)) eqn:E; [done|apply IH].
Qed.

(** [trim] is idempotent. *)
Lemma trim_idem s : trim (trim s) = trim s.
Proof.
  unfold trim. set (t := trim_start s).
  assert (Ht : ws_len t = 0) by apply trim_start_skip_ws.
  rewrite (trim_start_no_ws (trim_end t)); [apply trim_end_idem|].
  destruct (trim_end_split t) as (w & Hw & _).
  destruct (decide (ws_len (trim_end t) = 0)) as [|Hn]; [done|].
  rewrite Hw, ws_len_app in Ht; done.
Qed.

Lemma trim_empty_iff s : trim s = EmptyString <-> trim_start s = EmptyString.
Proof.
  unfold trim. split; [|by intros ->].
  destruct (trim_start s) as [|a t] eqn:E; [done|]. cbn [trim_end].
  assert (Hw : ws_len (String a t) = 0) by (rewrite <- E; apply trim_start_skip_ws).
  rewrite trim_start_no_ws by done. done.
Qed.

(** * Lemmas: tokens *)

(** A scope token: not empty and without white space. *)
Definition token_ok (t : string) : Prop := t <> EmptyString /\ any_whitespace t = false.

Lemma any_ws_app_inv t u :
  any_whitespace t = true -> any_whitespace (t +:+ u) = true.
Proof.
  induction t as [|a t IH]; [done|]. rewrite app_cons.
  unfold any_whitespace; fold any_whitespace. intros H.
  destruct (Nat.ltb_spec 0 (ws_len (String a t))) as [Hl|Hl].
  - rewrite <- app_cons, ws_len_app by lia.
    destruct (Nat.ltb_spec 0 (ws_len (String a t))); [done|lia].
  - rewrite IH by done. by case_match.
Qed.

(** The part of the text scanned so far: every position in it starts no
    white-space character of the whole text. *)
Fixpoint scanned (t rest : string) : Prop :=
  match t with
  | EmptyString => True
  | String a t' => ws_len (t +:+ rest) = 0 /\ scanned t' rest
  end.

Lemma scanned_snoc t a r :
  scanned t (String a r) -> ws_len (String a r) = 0 -> scanned (t +:+ str1 a) r.
Proof.
  induction t as [|b t IH]; intros H Hw.
  - simpl. by split.
  - destruct H as [H1 H2]. rewrite app_cons. simpl. split; [|by apply IH].
    rewrite app_cons in *. by rewrite str_app_assoc.
Qed.

Lemma scanned_no_ws t r : scanned t r -> any_whitespace t = false.
Proof.
  induction t as [|a t IH]; [done|]. intros [H1 H2]. apply any_ws_cons. split; [|by apply IH].
  destruct (decide (ws_len (String a t) = 0)) as [|Hn]; [done|]. by rewrite ws_len_app in H1.
Qed.


Lemma push_token_ok cur l :
  any_whitespace cur = false -> Forall token_ok l -> Forall token_ok (push_token cur l).
Proof.
  intros Hc Hl. unfold push_token. destruct (is_empty cur) eqn:E; [done|].
  constructor; [|done]. split; [by apply is_empty_false|done].
Qed.

Lemma split_ws_from_ok s : forall skip cur,
  (skip = 0 -> scanned cur s) -> (skip <> 0 -> cur = EmptyString) ->
  Forall token_ok (split_ws_from skip cur s).
Proof.
  induction s as [|a s IH]; intros skip cur H0 H1; cbn [split_ws_from].
  - apply push_token_ok; [|done]. destruct skip; [by eapply scanned_no_ws, H0|by rewrite H1].
  - destruct skip as [|k].
    + destruct (ws_len (String a s)) as [|k] eqn:Hw.
      * apply IH; [|done]. intros _. by apply scanned_snoc; [apply H0|].
      * apply push_token_ok; [by eapply scanned_no_ws, H0|]. by apply IH.
    + rewrite (H1 ltac:(done)). by apply IH.
Qed.

(** A blank string has no tokens. *)
Lemma split_ws_blank s : forall skip, trim_start_skip skip s = EmptyString -> split_ws_from skip EmptyString s = [].
Proof.
  induction s as [|a s IH]; intros [|skip] Hs; [done|done| |by apply IH].
  cbn [trim_start_skip] in Hs. cbn [split_ws_from]. destruct (ws_len (String a s)) as [|k]; [done|]. by rewrite IH.
Qed.

Lemma blank_no_tokens s : trim s = EmptyString -> split_whitespace s = [].
Proof. intros Hs%trim_empty_iff. by apply split_ws_blank. Qed.

Lemma split_whitespace_ok s : Forall token_ok (split_whitespace s).
Proof. by apply split_ws_from_ok. Qed.

(** Scanning a token keeps it whole, whatever follows after a space. *)
Lemma split_ws_from_token t cur u :
  any_whitespace t = false ->
  split_ws_from 0 cur (t +:+ (" " +:+ u)) = push_token (cur +:+ t) (split_ws_from 0 EmptyString u).
Proof.
  revert cur; induction t as [|a t IH]; intros cur.
  - intros _. rewrite app_empty_r. done.
  - intros [H1 H2]%any_ws_cons. rewrite app_cons. cbn [split_ws_from].
    rewrite <- app_cons, ws_len_token by done. rewrite IH by done.
    rewrite str_app_assoc. done.
Qed.

Lemma split_ws_from_last t cur :
  any_whitespace t = false -> split_ws_from 0 cur t = push_token (cur +:+ t) [].
Proof.
  revert cur; induction t as [|a t IH]; intros cur.
  - intros _. by rewrite app_empty_r.
  - intros [H1 H2]%any_ws_cons. cbn [split_ws_from]. rewrite H1, IH by done.
    by rewrite str_app_assoc.
Qed.

Lemma push_token_cons t l : t <> EmptyString -> push_token t l = t :: l.
Proof. intros H%is_empty_false. unfold push_token. by rewrite H. Qed.

(** Splitting undoes joining with a space. *)
Lemma split_join_ws l : Forall token_ok l -> split_whitespace (join " " l) = l.
Proof.
  unfold split_whitespace. induction 1 as [|t l [Hn Ht] Hl IH]; [done|].
  cbn [join]. destruct l as [|t2 l].
  - rewrite split_ws_from_last by done. rewrite app_empty_l. by apply push_token_cons.
  - rewrite split_ws_from_token by done. rewrite app_empty_l, push_token_cons by done. by rewrite IH.
Qed.

Lemma join_not_empty sep l : Forall token_ok l -> l <> [] -> join sep l <> EmptyString.
Proof.
  intros Hl Hn. destruct Hl as [|t l [Ht _] Hl]; [done|]. destruct l; [done|].
  cbn [join]. by intros [? ?]%str_app_empty.
Qed.

(** * Lemmas: prefixes, separators *)

Lemma strip_prefix_Some p s r : strip_prefix p s = Some r <-> s = p +:+ r.
Proof.
  revert s; induction p as [|a p IH]; intros s; simpl.
  - rewrite app_empty_l. naive_solver.
  - destruct s as [|b s]; [done|]. case_bool_decide.
    + subst. rewrite IH, app_cons. intuition congruence.
    + rewrite app_cons. intuition congruence.
Qed.

Lemma starts_with_spec p s : starts_with p s = true <-> exists r, s = p +:+ r.
Proof.
  unfold starts_with. destruct (strip_prefix p s) as [r|] eqn:E; simpl; split; try done.
  - intros _. exists r. by apply strip_prefix_Some.
  - intros (r & Hr). apply strip_prefix_Some in Hr. congruence.
Qed.

Lemma contains_char_app c s t :
  contains_char c (s +:+ t) = (contains_char c s || contains_char c t)%bool.
Proof. induction s as [|a s IH]; [done|]. rewrite app_cons. simpl. by case_bool_decide. Qed.

Lemma split_char_from_sep c cur s t :
  contains_char c s = false ->
  split_char_from c cur (s +:+ String c t) = (cur +:+ s) :: split_char_from c EmptyString t.
Proof.
  revert cur; induction s as [|a s IH]; intros cur.
  - intros _. rewrite app_empty_l, app_empty_r. simpl. by rewrite bool_decide_eq_true_2.
  - rewrite app_cons. simpl. case_bool_decide; [done|]. intros H2.
    rewrite IH by done. by rewrite str_app_assoc.
Qed.

Lemma split_char_from_last c cur s :
  contains_char c s = false -> split_char_from c cur s = [cur +:+ s].
Proof.
  revert cur; induction s as [|a s IH]; intros cur; simpl.
  - intros _. by rewrite app_empty_r.
  - case_bool_decide; [done|]. intros H2. rewrite IH by done. by rewrite str_app_assoc.
Qed.

Lemma join_cons2 sep a b l : join sep (a :: b :: l) = a +:+ (sep +:+ join sep (b :: l)).
Proof. done. Qed.

Lemma split_char_from_parts c s : forall cur,
  contains_char c cur = false ->
  Forall (fun p => contains_char c p = false) (split_char_from c cur s) /\
  join (str1 c) (split_char_from c cur s) = cur +:+ s.
Proof.
  induction s as [|a s IH]; intros cur Hc; cbn [split_char_from].
  - rewrite app_empty_r. auto.
  - case_bool_decide as Ha.
    + subst a. destruct (IH EmptyString eq_refl) as [H1 H2]. split; [by constructor|].
      rewrite app_empty_l in H2.
      destruct (split_char_from c EmptyString s) as [|p l] eqn:E.
      { destruct s; simpl in E; [done|]. by case_bool_decide. }
      rewrite join_cons2, H2. done.
    + destruct (IH (cur +:+ str1 a)) as [H1 H2].
      { rewrite contains_char_app, Hc. simpl. by rewrite bool_decide_eq_false_2. }
      split; [done|]. by rewrite H2, str_app_assoc.
Qed.

(** The parts of a split hold no separator, and joining them gives the text
    back. *)
Lemma split_char_parts c s :
  Forall (fun p => contains_char c p = false) (split_char c s) /\
  join (str1 c) (split_char c s) = s.
Proof. by apply split_char_from_parts. Qed.

Lemma split_char_sep c s t :
  contains_char c s = false -> split_char c (s +:+ String c t) = s :: split_char c t.
Proof. intros H. unfold split_char. by rewrite split_char_from_sep. Qed.

Lemma split_char_last c s : contains_char c s = false -> split_char c s = [s].
Proof. intros H. unfold split_char. by rewrite split_char_from_last. Qed.

(** * Lemmas: case and sets *)

Lemma to_lower_idem a : to_lower (to_lower a) = to_lower a.
Proof. destruct a as [[] [] [] [] [] [] [] []]; reflexivity. Qed.

Lemma to_ascii_lowercase_idem s : to_ascii_lowercase (to_ascii_lowercase s) = to_ascii_lowercase s.
Proof. induction s as [|a s IH]; [done|]. simpl. by rewrite to_lower_idem, IH. Qed.

Lemma elem_of_btree_iter x s : x ∈ btree_iter s <-> x ∈ s.
Proof. unfold btree_iter. rewrite merge_sort_Permutation. by rewrite elem_of_elements. Qed.

Lemma btree_iter_empty s : btree_iter s = [] <-> s = ∅.
Proof.
  split.
  - intros H. apply elem_of_equiv_empty_L. intros x Hx.
    apply elem_of_btree_iter in Hx. rewrite H in Hx. by apply not_elem_of_nil in Hx.
  - intros ->. reflexivity.
Qed.

Lemma btree_iter_NoDup s : NoDup (btree_iter s).
Proof. unfold btree_iter. rewrite merge_sort_Permutation. apply NoDup_elements. Qed.

(** * Lemmas: numbers *)

Lemma digit_val_pretty x :
  (x < 10)%N -> digit_val (pretty_N_char x) = Some (Z.of_N x).
Proof.
  intros H. assert (x = 0 ∨ x = 1 ∨ x = 2 ∨ x = 3 ∨ x = 4 ∨ x = 5 ∨ x = 6 ∨ x = 7 ∨ x = 8 ∨ x = 9)%N
    as Hx by lia.
  repeat destruct Hx as [->|Hx]; subst; reflexivity.
Qed.

Lemma digits_val_pretty_go x s :
  digits_val 0 (pretty_N_go x s) = digits_val (Z.of_N x) s.
Proof.
  revert s. induction (N.lt_wf_0 x) as [x _ IH]; intros s.
  destruct (decide (x = 0)%N) as [->|Hx]; [done|].
  rewrite pretty_N_go_step by lia. rewrite IH by (apply N.div_lt; lia).
  simpl. rewrite digit_val_pretty by (apply N.mod_lt; lia).
  f_equal. pose proof (N.div_mod x 10 ltac:(lia)). lia.
Qed.

Lemma digits_val_pretty x : digits_val 0 (pretty x) = Some (Z.of_N x).
Proof.
  unfold pretty, pretty_N. destruct (decide (x = 0)%N) as [->|Hx]; [done|].
  by rewrite digits_val_pretty_go.
Qed.

Lemma pretty_N_not_empty (x : N) : pretty x <> EmptyString.
Proof.
  unfold pretty, pretty_N. destruct (decide _) as [|Hn]; [done|]. intros E.
  pose proof (digits_val_pretty_go x EmptyString) as G. rewrite E in G.
  simpl in G. injection G. lia.
Qed.

Lemma digits_head a s z : digits_val 0 (String a s) = Some z -> is_Some (digit_val a).
Proof. simpl. destruct (digit_val a); [eauto|done]. Qed.

Lemma in_range_ok lo hi z : (lo <= z <= hi)%Z -> in_range lo hi z = Some z.
Proof. intros. unfold in_range. rewrite !(proj2 (Z.leb_le _ _)) by lia. done. Qed.

Lemma in_range_Some lo hi z z' : in_range lo hi z = Some z' -> z' = z /\ (lo <= z <= hi)%Z.
Proof. unfold in_range. case_match; [|done]. bool_hyps. intros [= <-]. done. Qed.

(** Printing then parsing an [i64] gives it back. *)
Lemma parse_to_string z : in_i64 z -> parse_i64 (to_string z) = Some z.
Proof.
  intros Hz. unfold to_string, pretty, pretty_Z.
  assert (Hpos : forall x, in_i64 (Z.of_N x) -> parse_i64 (pretty x) = Some (Z.of_N x)).
  { intros x Hx. pose proof (digits_val_pretty x) as Hd.
    destruct (pretty x) as [|a s] eqn:E.
    { by apply pretty_N_not_empty in E. }
    pose proof (digits_head _ _ _ Hd) as [d Hh]. unfold parse_i64.
    rewrite !bool_decide_eq_false_2 by (intros ->; done).
    rewrite Hd. by apply in_range_ok. }
  destruct z as [|p|p]; [reflexivity|by apply (Hpos (Npos p))|].
  rewrite app_cons, app_empty_l. unfold parse_i64. rewrite bool_decide_eq_true_2 by done.
  pose proof (digits_val_pretty (Npos p)) as Hd.
  change (pretty p) with (pretty (Npos p)).
  destruct (pretty (Npos p)) as [|a s] eqn:E; [by simpl in Hd|]. simpl is_empty. cbv iota.
  rewrite Hd. by apply in_range_ok.
Qed.

Lemma digits_val_nonneg s : forall acc z, (0 <= acc)%Z -> digits_val acc s = Some z -> (0 <= z)%Z.
Proof.
  induction s as [|a s IH]; simpl; intros acc z Ha.
  - by intros [= <-].
  - destruct (digit_val a) as [d|] eqn:Hd; [|done]. apply IH.
    unfold digit_val in Hd. case_match; [|done]. bool_hyps. injection Hd as <-. lia.
Qed.

(** What [parse] returns fits the type. *)
Lemma parse_i64_range s z : parse_i64 s = Some z -> in_i64 z.
Proof.
  unfold parse_i64. destruct s as [|a s]; [done|]. intros H.
  repeat case_match; try done; apply in_range_Some in H as [-> ?]; done.
Qed.

Lemma parse_usize_range s z : parse_usize s = Some z -> (0 <= z <= u64_max)%Z.
Proof.
  unfold parse_usize. destruct s as [|a s]; [done|]. intros H.
  repeat case_match; try done; apply in_range_Some in H as [-> ?]; done.
Qed.

(** A byte below 128 that is not ASCII white space starts no white space. *)
Lemma ws_len_ascii a r :
  ws1 (byte_val a) = false -> (byte_val a < 128)%Z -> ws_len (String a r) = 0.
Proof.
  intros H1 H2. cbn [ws_len]. rewrite H1.
  destruct r as [|b [|c r]]; [done|..].
  - unfold ws2. by rewrite (proj2 (Z.eqb_neq (byte_val a) 194)) by lia.
  - unfold ws2, ws3. rewrite !(proj2 (Z.eqb_neq (byte_val a) _)) by lia. done.
Qed.

Lemma ws_len_digit a d r : digit_val a = Some d -> ws_len (String a r) = 0.
Proof.
  unfold digit_val. case_match; [|done]. intros _. bool_hyps. apply ws_len_ascii; [|lia].
  unfold ws1. rewrite (proj2 (Z.leb_gt (byte_val a) 13)) by lia.
  rewrite (proj2 (Z.eqb_neq (byte_val a) 32)) by lia. by rewrite andb_false_r.
Qed.

Lemma trim_end_cons_no_ws a r : ws_len (String a r) = 0 -> trim_end (String a r) = String a (trim_end r).
Proof. intros H. cbn [trim_end]. by rewrite trim_start_no_ws. Qed.

Lemma trim_end_digits_line s acc z :
  digits_val acc s = Some z -> trim_end (s +:+ newline) = s.
Proof.
  revert acc; induction s as [|a s IH]; intros acc; [done|]. cbn [digits_val].
  destruct (digit_val a) as [d|] eqn:Hd; [|done]. intros Hs.
  rewrite app_cons, trim_end_cons_no_ws by (by eapply ws_len_digit). by erewrite IH.
Qed.

(** A number written on a line of its own is read back. *)
Lemma parse_trim_line z : in_i64 z -> parse_i64 (trim (to_string z +:+ newline)) = Some z.
Proof.
  intros Hz. rewrite <- (parse_to_string z Hz). f_equal. unfold trim.
  assert (Hpos : forall x : N, trim_end (trim_start (pretty x +:+ newline)) = pretty x).
  { intros x. pose proof (digits_val_pretty x) as Hd.
    destruct (pretty x) as [|a s] eqn:E.
    { by apply pretty_N_not_empty in E. }
    pose proof (digits_head _ _ _ Hd) as [d Hh].
    rewrite trim_start_no_ws by (rewrite app_cons; by eapply ws_len_digit).
    by eapply trim_end_digits_line. }
  unfold to_string. destruct z as [|p|p].
  - reflexivity.
  - apply (Hpos (Npos p)).
  - change (pretty (Z.neg p)) with (String "-"%char (pretty (Npos p))).
    rewrite app_cons. assert (Hm : forall r, ws_len (String "-"%char r) = 0)
      by (intros r; by apply ws_len_ascii).
    rewrite trim_start_no_ws, trim_end_cons_no_ws by apply Hm. f_equal.
    eapply trim_end_digits_line, digits_val_pretty.
Qed.
