(* ===== verification/Json.v ===== *)
(** [serde_json::Value] and the accessors the crates call on it.

    Parsing and printing JSON text is serde_json's own code and a parameter
    wherever a component needs it; the value type and its accessors are
    documented API and written out here.  An object is an association list in
    key order without duplicates (serde_json's default map is a
    [BTreeMap<String, Value>]). *)

From S2P Require Import Prelude.
From Stdlib Require Import SpecFloat.

(** [serde_json::Number]: a [u64], a negative [i64], or a finite [f64]. *)
Inductive Number : Type :=
| PosInt (n : Z)
| NegInt (n : Z)
| Float (f : spec_float).

Inductive Value : Type :=
| VNull
| VBool (b : bool)
| VNumber (n : Number)
| VString (s : string)
| VArray (l : list Value)
| VObject (o : list (string * Value)).

(** [serde_json::Map]. *)
Definition Map : Type := list (string * Value).

(** [Map::get]. *)
Fixpoint map_get (k : string) (o : Map) : option Value :=
  match o with
  | [] => None
  | (k', v) :: o' => if bool_decide (k = k') then Some v else map_get k o'
  end.

(** [Map::contains_key]. *)
Definition map_contains_key (k : string) (o : Map) : bool := opt_is_some (map_get k o).

(** [Map::insert]: replaces the value of a key that is present, otherwise adds
    the entry at its place in the key order. *)
Fixpoint map_insert (k : string) (v : Value) (o : Map) : Map :=
  match o with
  | [] => [(k, v)]
  | (k', v') :: o' =>
      if bool_decide (k = k') then (k, v) :: o'
      else if bool_decide (String.le k k') then (k, v) :: (k', v') :: o'
      else (k', v') :: map_insert k v o'
  end.

(** [Map::remove], which gives the removed value and the rest. *)
Fixpoint map_remove (k : string) (o : Map) : option Value * Map :=
  match o with
  | [] => (None, [])
  | (k', v) :: o' =>
      if bool_decide (k = k') then (Some v, o')
      else let '(r, o'') := map_remove k o' in (r, (k', v) :: o'')
  end.

(** [json!({..})]: the members inserted one after the other. *)
Definition json_object (members : list (string * Value)) : Value :=
  VObject (fold_left (fun o kv => map_insert kv.1 kv.2 o) members []).

Definition as_str (v : Value) : option string :=
  match v with VString s => Some s | _ => None end.

Definition as_bool (v : Value) : option bool :=
  match v with VBool b => Some b | _ => None end.

Definition as_array (v : Value) : option (list Value) :=
  match v with VArray l => Some l | _ => None end.

Definition as_object (v : Value) : option Map :=
  match v with VObject o => Some o | _ => None end.

Definition as_i64 (v : Value) : option Z :=
  match v with
  | VNumber (PosInt n) => if (n <=? i64_max)%Z then Some n else None
  | VNumber (NegInt n) => Some n
  | _ => None
  end.

Definition as_u64 (v : Value) : option Z :=
  match v with
  | VNumber (PosInt n) => Some n
  | _ => None
  end.

(** The [f64] of a number that is not an integer; [as_f64] of the integer
    forms converts, which no caller reaches. *)
Definition as_f64 (v : Value) : option spec_float :=
  match v with
  | VNumber (Float f) => Some f
  | _ => None
  end.

(** * [f64] *)

(** A finite [f64] is [m * 2^e]; as a pair of a numerator and a positive
    denominator. *)
Definition sf_num_den (f : spec_float) : option (Z * Z) :=
  match f with
  | S754_zero _ => Some (0, 1)%Z
  | S754_finite s m e =>
      let m' := if s then Z.neg m else Z.pos m in
      if (0 <=? e)%Z then Some (m' * 2 ^ e, 1)%Z else Some (m', 2 ^ (- e))%Z
  | _ => None
  end.

(** [f64::is_finite]. *)
Definition sf_is_finite (f : spec_float) : bool := opt_is_some (sf_num_den f).

(** [f64] compared with an integer that [f64] represents exactly. *)
Definition sf_ge_int (f : spec_float) (z : Z) : bool :=
  match sf_num_den f with
  | Some (n, d) => (z * d <=? n)%Z
  | None => false
  end.
Definition sf_le_int (f : spec_float) (z : Z) : bool :=
  match sf_num_den f with
  | Some (n, d) => (n <=? z * d)%Z
  | None => false
  end.

(** [f as i64]: truncation toward zero, saturating. *)
Definition sf_to_i64 (f : spec_float) : Z :=
  match sf_num_den f with
  | Some (n, d) => Z.max i64_min (Z.min i64_max (Z.quot n d))
  | None => 0
  end.

(** * Lemmas *)

Lemma sf_to_i64_range f : in_i64 (sf_to_i64 f).
Proof.
  unfold sf_to_i64, in_i64, i64_min, i64_max.
  destruct (sf_num_den f) as [[n d]|]; lia.
Qed.
#[export] Hint Resolve sf_to_i64_range : sts.

Lemma map_get_insert k k' v o :
  map_get k' (map_insert k v o) = if bool_decide (k' = k) then Some v else map_get k' o.
Proof.
  induction o as [|[k1 v1] o IH]; simpl.
  - done.
  - repeat case_bool_decide; subst; simpl; repeat case_bool_decide; subst; try done.
Qed.

Lemma map_get_elem k v o : map_get k o = Some v -> (k, v) ∈ o.
Proof.
  induction o as [|[k1 v1] o IH]; simpl; [done|].
  case_bool_decide; [intros [= ->]; subst; left|right; auto].
Qed.
