(* ===== verification/Core.v ===== *)
(** crates/sts-core: request and claim shapes, target resolution, scope
    downscoping, and the actor claim. *)

From S2P Require Import Prelude RustStr Json.
From Stdlib Require Import Ascii.

Definition TOKEN_EXCHANGE_GRANT_TYPE : string := "urn:ietf:params:oauth:grant-type:token-exchange".
Definition ACCESS_TOKEN_TYPE : string := "urn:ietf:params:oauth:token-type:access_token".
Definition JWT_TOKEN_TYPE : string := "urn:ietf:params:oauth:token-type:jwt".

Record ExchangeRequest : Type := mkExchangeRequest {
  grant_type : string;
  subject_token : string;
  subject_token_type : string;
  actor_token : option string;
  actor_token_type : option string;
  audience : option string;
  resource : option string;
  scope : option string;
  requested_token_type : option string;
  client_id : option string;
  client_assertion : option string;
  client_assertion_type : option string
}.

(** [ExchangeRequest::default()]. *)
Definition default_exchange_request : ExchangeRequest :=
  mkExchangeRequest "" "" "" None None None None None None None None None.

Inductive ActClaim : Type :=
| mkActClaim (act_sub : string) (act_iss : option string) (act_act : option ActClaim).

Definition act_sub (a : ActClaim) : string := let 'mkActClaim s _ _ := a in s.
Definition act_iss (a : ActClaim) : option string := let 'mkActClaim _ i _ := a in i.
Definition act_act (a : ActClaim) : option ActClaim := let 'mkActClaim _ _ n := a in n.

Record MintedClaims : Type := mkMintedClaims {
  mc_iss : string;
  mc_sub : string;
  mc_aud : string;
  mc_scope : string;
  mc_iat : Z;
  mc_exp : Z;
  mc_jti : string;
  mc_client_id : string;
  mc_act : option ActClaim;
  mc_cnf_jkt : option string;
  mc_auth_time : option Z;
  mc_acr : option string;
  mc_amr : list string
}.

(** [MintedClaims::new]. *)
Definition minted_claims_new (iss sub aud scope : string) (iat exp : Z)
    (jti client_id : string) : MintedClaims :=
  mkMintedClaims iss sub aud scope iat exp jti client_id None None None None [].

Inductive CoreErrorKind : Type :=
| InvalidRequest | InvalidClient | InvalidTarget | InvalidScope.

Definition core_error_code (k : CoreErrorKind) : string :=
  match k with
  | InvalidRequest => "invalid_request"
  | InvalidClient => "invalid_client"
  | InvalidTarget => "invalid_target"
  | InvalidScope => "invalid_scope"
  end.

Record CoreError : Type := mkCoreError { core_kind : CoreErrorKind; core_message : string }.

(** [impl Display for CoreError]. *)
Definition core_error_display (e : CoreError) : string :=
  core_error_code (core_kind e) +:+ ": " +:+ core_message e.

Definition validate_target_value (value : string) : result CoreError string :=
  let trimmed := trim value in
  if is_empty trimmed then Err (mkCoreError InvalidTarget "target must not be empty")
  else Ok trimmed.

Definition validate_resource_value (value : string) : result CoreError string :=
  let trimmed := trim value in
  if is_empty trimmed then Err (mkCoreError InvalidTarget "resource must not be empty")
  else if (negb (contains_str "://" trimmed) || starts_with "/" trimmed)%bool then
    Err (mkCoreError InvalidTarget "resource must be an absolute URI")
  else if contains_char "#"%char trimmed then
    Err (mkCoreError InvalidTarget "resource must not contain a fragment")
  else Ok trimmed.

Definition resolve_target (audience resource : option string) : result CoreError string :=
  match audience, resource with
  | Some aud, None => validate_target_value aud
  | None, Some res => validate_resource_value res
  | Some aud, Some res =>
      let? aud := validate_target_value aud in
      let? res := validate_resource_value res in
      if bool_decide (aud = res) then Ok aud
      else Err (mkCoreError InvalidTarget "audience and resource must agree when both are present")
  | None, None => Err (mkCoreError InvalidTarget "no target audience supplied")
  end.

Definition split_scopes (input : option string) : list string :=
  map trim (List.filter (fun s => negb (is_empty (trim s)))
              (split_whitespace (default "" input))).

Definition intersect_scopes (left right : list string) : list string :=
  List.filter (fun scope => existsb (fun candidate => bool_decide (candidate = scope)) right) left.

Definition join_scopes (scopes : list string) : string := join " " scopes.

Definition downscope (requested : option string) (target_allowed : string)
    (subject_scopes : option string) (subject_scope_bound_required : bool)
    : result CoreError string :=
  let requested := split_scopes requested in
  let target_allowed := split_scopes (Some target_allowed) in
  let result := intersect_scopes requested target_allowed in
  let result :=
    match subject_scopes with
    | Some subject =>
        let subject_scopes := split_scopes (Some subject) in
        let subject_target_intersection := intersect_scopes target_allowed subject_scopes in
        if (subject_scope_bound_required
            || negb (bool_decide (subject_target_intersection = [])))%bool
        then intersect_scopes result subject_target_intersection
        else result
    | None => result
    end in
  if bool_decide (result = []) then
    Err (mkCoreError InvalidScope "no scopes remain after downscoping")
  else Ok (join_scopes result).

Definition build_act (actor_sub : string) (prior_act : option ActClaim) : ActClaim :=
  mkActClaim actor_sub None prior_act.

Definition build_scoped_payload (iss sub aud scope : string) (iat exp : Z)
    (jti client_id : string) (act : option ActClaim) (cnf_jkt : option string) : MintedClaims :=
  mkMintedClaims iss sub aud scope iat exp jti client_id act cnf_jkt None None [].

(** [serialize_cnf_jkt]: the thumbprint is wrapped as [{"jkt": ...}]. *)
Definition serialize_cnf_jkt (value : option string) : Value :=
  match value with
  | Some jkt => VObject [("jkt", VString jkt)]
  | None => VNull
  end.

(** [deserialize_cnf_jkt]: [null] is no confirmation; a [ConfirmationClaim] is
    an object with a string [jkt] (other members are ignored) or, as serde
    accepts for every derived struct, the one-element array of its field. *)
Definition deserialize_cnf_jkt (v : Value) : option (option string) :=
  match v with
  | VNull => Some None
  | VObject o =>
      match map_get "jkt" o with
      | Some (VString jkt) => Some (Some jkt)
      | _ => None
      end
  | VArray [VString jkt] => Some (Some jkt)
  | _ => None
  end.

Definition json_i64 (z : Z) : Value :=
  VNumber (if (z <? 0)%Z then NegInt z else PosInt z).

(** [Serialize] of [ActClaim]: absent optional members are left out. *)
Fixpoint act_claim_fields (a : ActClaim) : Map :=
  match a with
  | mkActClaim sub iss act =>
      [("sub", VString sub)]
      ++ match iss with Some i => [("iss", VString i)] | None => [] end
      ++ match act with Some n => [("act", VObject (act_claim_fields n))] | None => [] end
  end.

(** [Serialize] of [MintedClaims], members in declaration order. *)
Definition minted_claims_fields (c : MintedClaims) : Map :=
  [("iss", VString (mc_iss c)); ("sub", VString (mc_sub c)); ("aud", VString (mc_aud c));
   ("scope", VString (mc_scope c)); ("iat", json_i64 (mc_iat c)); ("exp", json_i64 (mc_exp c));
   ("jti", VString (mc_jti c)); ("client_id", VString (mc_client_id c))]
  ++ match mc_act c with Some a => [("act", VObject (act_claim_fields a))] | None => [] end
  ++ match mc_cnf_jkt c with Some j => [("cnf", serialize_cnf_jkt (Some j))] | None => [] end
  ++ match mc_auth_time c with Some t => [("auth_time", json_i64 t)] | None => [] end
  ++ match mc_acr c with Some a => [("acr", VString a)] | None => [] end
  ++ match mc_amr c with [] => [] | l => [("amr", VArray (map VString l))] end.

(** * Specifications *)

(** The actors named by an [act] claim, most recent first. *)
Fixpoint act_chain (a : ActClaim) : list string :=
  match a with
  | mkActClaim sub _ act =>
      sub :: match act with Some n => act_chain n | None => [] end
  end.

(** The scopes a token carries, as a resource server reads the claim. *)
Definition scope_tokens (s : string) : list string := split_whitespace s.

(** Whether the subject's own scopes limit the result. *)
Definition subject_binds (target : string) (subject : option string) (strict : bool) : Prop :=
  match subject with
  | Some s => strict = true \/ exists x, x ∈ scope_tokens target /\ x ∈ scope_tokens s
  | None => False
  end.

(** The scopes downscoping may grant. *)
Definition scope_grantable (requested : option string) (target : string)
    (subject : option string) (strict : bool) (x : string) : Prop :=
  x ∈ scope_tokens (default "" requested) /\ x ∈ scope_tokens target /\
  (subject_binds target subject strict -> x ∈ scope_tokens (default "" subject)).

(** * Lemmas *)

Lemma split_scopes_tokens o : split_scopes o = split_whitespace (default "" o).
Proof.
  unfold split_scopes. induction (split_whitespace_ok (default "" o)) as [|t l [Hn Ht] Hl IH]; [done|].
  simpl. rewrite trim_no_ws by done. destruct (is_empty t) eqn:E.
  { by apply is_empty_true in E. }
  simpl. rewrite IH. by rewrite trim_no_ws.
Qed.

Lemma elem_of_intersect x l r : x ∈ intersect_scopes l r <-> x ∈ l /\ x ∈ r.
Proof.
  unfold intersect_scopes. rewrite !list_elem_of_In, filter_In. rewrite existsb_exists.
  setoid_rewrite bool_decide_eq_true. naive_solver.
Qed.

Lemma intersect_scopes_Forall P l r : Forall P l -> Forall P (intersect_scopes l r).
Proof.
  intros H. apply Forall_forall. intros x [Hx _]%elem_of_intersect.
  by eapply Forall_forall in H.
Qed.

(** The granted scopes before joining. *)
Definition granted (requested : option string) (target_allowed : string)
    (subject_scopes : option string) (strict : bool) : list string :=
  let target_allowed := split_scopes (Some target_allowed) in
  let result := intersect_scopes (split_scopes requested) target_allowed in
  match subject_scopes with
  | Some subject =>
      let inter := intersect_scopes target_allowed (split_scopes (Some subject)) in
      if (strict || negb (bool_decide (inter = [])))%bool
      then intersect_scopes result inter else result
  | None => result
  end.

Lemma downscope_granted r t s b :
  downscope r t s b =
  if bool_decide (granted r t s b = []) then
    Err (mkCoreError InvalidScope "no scopes remain after downscoping")
  else Ok (join_scopes (granted r t s b)).
Proof. unfold downscope, granted. destruct s; done. Qed.

Lemma granted_tokens r t s b : Forall token_ok (granted r t s b).
Proof.
  unfold granted. rewrite !split_scopes_tokens.
  destruct s; [case_match|]; repeat apply intersect_scopes_Forall; apply split_whitespace_ok.
Qed.

Lemma intersect_nonempty l r :
  negb (bool_decide (intersect_scopes l r = [])) = true <-> exists x, x ∈ l /\ x ∈ r.
Proof.
  rewrite negb_true_iff, bool_decide_eq_false. split.
  - intros H. destruct (intersect_scopes l r) as [|x m] eqn:E; [done|].
    exists x. apply elem_of_intersect. rewrite E. left.
  - intros (x & Hx & Hr) E.
    assert (Hi : x ∈ intersect_scopes l r) by (apply elem_of_intersect; done).
    rewrite E in Hi. by apply not_elem_of_nil in Hi.
Qed.

Lemma elem_of_granted r t s b x : x ∈ granted r t s b <-> scope_grantable r t s b x.
Proof.
  unfold granted, scope_grantable, subject_binds, scope_tokens. rewrite !split_scopes_tokens. simpl.
  destruct s as [s|].
  - rewrite !split_scopes_tokens. simpl. case_match eqn:E.
    + rewrite !elem_of_intersect. apply orb_true_iff in E.
      rewrite intersect_nonempty in E. naive_solver.
    + apply orb_false_iff in E as [-> E]. rewrite elem_of_intersect.
      apply not_true_iff_false in E. rewrite intersect_nonempty in E. naive_solver.
  - rewrite elem_of_intersect. naive_solver.
Qed.

Lemma validate_target_ok v t : validate_target_value v = Ok t <-> t = trim v /\ t <> "".
Proof.
  unfold validate_target_value. destruct (is_empty (trim v)) eqn:E.
  - apply is_empty_true in E. naive_solver.
  - apply is_empty_false in E. naive_solver.
Qed.

Lemma validate_resource_ok v t :
  validate_resource_value v = Ok t <->
  t = trim v /\ t <> "" /\ contains_str "://" t = true /\
  starts_with "/" t = false /\ contains_char "#"%char t = false.
Proof.
  unfold validate_resource_value. destruct (is_empty (trim v)) eqn:E.
  - apply is_empty_true in E. naive_solver.
  - apply is_empty_false in E.
    destruct (contains_str "://" (trim v)) eqn:E1, (starts_with "/" (trim v)) eqn:E2,
      (contains_char "#"%char (trim v)) eqn:E3; simpl;
      (split; [intros [= <-]; by rewrite ?E1, ?E2, ?E3 | intros (-> & ?); intuition congruence]).
Qed.

Lemma intersect_sublist l r : sublist (intersect_scopes l r) l.
Proof.
  unfold intersect_scopes. induction l as [|x l IH]; [constructor|]. simpl.
  case_match; by constructor.
Qed.

Lemma granted_sublist r t s b : sublist (granted r t s b) (scope_tokens (default "" r)).
Proof.
  unfold granted, scope_tokens. rewrite !split_scopes_tokens.
  destruct s; [case_match|]; try apply intersect_sublist.
  etrans; apply intersect_sublist.
Qed.

Lemma downscope_ok r t s b out :
  downscope r t s b = Ok out ->
  scope_tokens out <> [] /\ scope_tokens out = granted r t s b.
Proof.
  rewrite downscope_granted. case_bool_decide as H; [done|]. intros [= <-].
  assert (Ht : scope_tokens (join_scopes (granted r t s b)) = granted r t s b)
    by apply split_join_ws, granted_tokens.
  by rewrite Ht.
Qed.

(** * Properties *)

(** C34: downscoping grants exactly the requested scopes that the target allows
    and, when the subject's scopes bind (strict mode, or an overlap with the
    target), the subject holds; it keeps the request's order, grants at least
    one scope when it succeeds, and fails with [invalid_scope] exactly when no
    scope is grantable. *)
Theorem downscope_spec (requested : option string) (target : string)
    (subject : option string) (strict : bool) :
  match downscope requested target subject strict with
  | Ok out =>
      scope_tokens out <> [] /\
      sublist (scope_tokens out) (scope_tokens (default "" requested)) /\
      (forall x, x ∈ scope_tokens out <-> scope_grantable requested target subject strict x)
  | Err e =>
      core_kind e = InvalidScope /\
      (forall x, ~ scope_grantable requested target subject strict x)
  end.
Proof.
  destruct (downscope requested target subject strict) as [out|e] eqn:Hd.
  - apply downscope_ok in Hd as [Hne Ht]. split; [done|]. rewrite Ht.
    split; [apply granted_sublist|apply elem_of_granted].
  - rewrite downscope_granted in Hd. case_bool_decide as H; simplify_eq.
    split; [done|]. intros x. rewrite <- elem_of_granted, H. apply not_elem_of_nil.
Qed.

(** a resolved target is the trimmed value of every target parameter that
    was sent (so two parameters agree), it is not empty, a [resource] is an
    absolute URI without a fragment, and at least one parameter was sent;
    under exactly these conditions resolution succeeds. *)
Theorem resolve_target_spec (aud res : option string) (t : string) :
  resolve_target aud res = Ok t <->
  (is_Some aud \/ is_Some res) /\
  (forall v, aud = Some v -> t = trim v /\ t <> "") /\
  (forall v, res = Some v ->
     t = trim v /\ t <> "" /\ contains_str "://" t = true /\
     starts_with "/" t = false /\ contains_char "#"%char t = false).
Proof.
  unfold resolve_target. destruct aud as [a|], res as [r|].
  - split.
    + intros H. ok_inv. rewrite validate_target_ok in E. rewrite validate_resource_ok in E0.
      bool_hyps. subst. naive_solver.
    + intros (_ & Ha & Hr). specialize (Ha _ eq_refl). specialize (Hr _ eq_refl).
      rewrite (proj2 (validate_target_ok a t)) by done. simpl.
      rewrite (proj2 (validate_resource_ok r t)) by done. simpl.
      by rewrite bool_decide_eq_true_2.
  - rewrite validate_target_ok. naive_solver.
  - rewrite validate_resource_ok. naive_solver.
  - split; [done|]. intros ([[? ?]|[? ?]] & _); done.
Qed.

(** the confirmation member of a minted token is read back as the
    thumbprint that was written. *)
Theorem cnf_jkt_roundtrip (jkt : option string) :
  deserialize_cnf_jkt (serialize_cnf_jkt jkt) = Some jkt.
Proof. by destruct jkt. Qed.
