(* ===== verification/Replay.v ===== *)
(** crates/sts-replay: the replay-store interface, the in-memory store and the
    replay keys.  The file-backed store is in [FileReplay], its behaviour under
    concurrent processes in [FileRace]. *)

From S2P Require Import Prelude RustStr.
From Stdlib Require Import Ascii.

Inductive ReplayErrorKind : Type :=
| RInvalidRequest | ReplayDetected | StoreFull.

Definition replay_error_code (k : ReplayErrorKind) : string :=
  match k with
  | RInvalidRequest => "invalid_request"
  | ReplayDetected => "invalid_request"
  | StoreFull => "service_unavailable"
  end.

Record ReplayError : Type := mkReplayError {
  replay_kind : ReplayErrorKind;
  replay_message : string
}.

#[export] Instance ReplayErrorKind_eq_dec : EqDecision ReplayErrorKind.
Proof. solve_decision. Defined.

(** [impl Display for ReplayError]. *)
Definition replay_error_display (e : ReplayError) : string :=
  replay_error_code (replay_kind e) +:+ ": " +:+ replay_message e.

Definition replay_store_unavailable : ReplayError :=
  mkReplayError StoreFull "replay store unavailable, retry shortly".

(** [std::sync::Mutex]: a thread that panics while holding the lock poisons
    it, and every later [lock] fails. *)
Record Mutex (A : Type) : Type := mkMutex { m_value : A; m_poisoned : bool }.
Arguments mkMutex {A}.
Arguments m_value {A}.
Arguments m_poisoned {A}.

Definition mutex_new {A} (a : A) : Mutex A := mkMutex a false.

(** [Mutex::lock]. *)
Definition lock {A} (m : Mutex A) : option A :=
  if m_poisoned m then None else Some (m_value m).

(** The trait [ReplayStore]. *)
Class ReplayStore (S : Type) : Type := {
  check_and_record : string -> Z -> Z -> Eff S ReplayError unit;
  cache_size : S -> Z
}.

(** What a replay store promises to its clients.  [held s k] is the expiry
    recorded for key [k].  A key is recorded only when it is not held live; a
    call never removes or changes a live entry, whatever it returns. *)
Class ReplayStoreLaws (S : Type) `{ReplayStore S} : Type := {
  store_ok : S -> Prop;
  held : S -> string -> option Z;
  store_ok_step s jti exp now r s' :
    store_ok s -> in_i64 exp -> check_and_record jti exp now s = (r, s') -> store_ok s';
  record_fresh s jti exp now s' :
    store_ok s -> in_i64 exp -> check_and_record jti exp now s = (Ok tt, s') ->
    held s' jti = Some exp /\ (forall e, held s jti = Some e -> (e < now)%Z);
  live_kept s jti exp now r s' k e :
    store_ok s -> in_i64 exp -> check_and_record jti exp now s = (r, s') ->
    held s k = Some e -> (now <= e)%Z -> held s' k = Some e
}.

(** * The in-memory store *)

Record InMemoryReplayStore : Type := mkInMemory {
  seen : Mutex (gmap string Z);
  calls_since_sweep : Mutex Z;
  max_seen : Z;
  sweep_every : Z
}.

(** [InMemoryReplayStore::new]. *)
Definition in_memory_new (max_seen sweep_every : Z) : InMemoryReplayStore :=
  mkInMemory (mutex_new ∅) (mutex_new 0%Z) max_seen (Z.max sweep_every 1).

(** [InMemoryReplayStore::default]. *)
Definition in_memory_default : InMemoryReplayStore := in_memory_new 1024 256.

(** [seen.len()]. *)
Definition map_len (m : gmap string Z) : Z := Z.of_nat (size m).

(** [InMemoryReplayStore::sweep_expired]. *)
Definition sweep_expired (seen : gmap string Z) (now : Z) : gmap string Z :=
  filter (fun kv => (now <= kv.2)%Z) seen.

Definition in_memory_check_and_record (jti : string) (exp now : Z)
    : Eff InMemoryReplayStore ReplayError unit := fun self =>
  if is_empty (trim jti) then
    (Err (mkReplayError RInvalidRequest "jti must not be empty"), self)
  else
  match lock (seen self) with
  | None => (Err replay_store_unavailable, self)
  | Some seen0 =>
      if opt_is_some (seen0 !! jti) then
        (Err (mkReplayError ReplayDetected "actor_token replay detected"), self)
      else
      match lock (calls_since_sweep self) with
      | None => (Err replay_store_unavailable, self)
      | Some calls0 =>
          let calls1 := (calls0 + 1)%Z in
          let '(seen1, calls2) :=
            if (sweep_every self <=? calls1)%Z then (sweep_expired seen0 now, 0%Z)
            else (seen0, calls1) in
          let seen2 :=
            if (max_seen self <=? map_len seen1)%Z then sweep_expired seen1 now else seen1 in
          let self' m := mkInMemory (mutex_new m) (mutex_new calls2)
                           (max_seen self) (sweep_every self) in
          if (max_seen self <=? map_len seen2)%Z then
            (Err (mkReplayError StoreFull "replay store full, retry shortly"), self' seen2)
          else (Ok tt, self' (<[jti := exp]> seen2))
      end
  end.

(** [InMemoryReplayStore::cache_size]. *)
Definition in_memory_cache_size (self : InMemoryReplayStore) : Z :=
  match lock (seen self) with
  | Some m => map_len m
  | None => 0%Z
  end.

#[export] Instance in_memory_store : ReplayStore InMemoryReplayStore := {
  check_and_record := in_memory_check_and_record;
  cache_size := in_memory_cache_size
}.

(** [ReplayPolicy]: a store behind a trait object; its operations forward. *)
Record ReplayPolicy (S : Type) : Type := mkReplayPolicy { store : S }.
Arguments mkReplayPolicy {S}.
Arguments store {S}.

(** [ReplayPolicy::in_memory]. *)
Definition replay_policy_in_memory : ReplayPolicy InMemoryReplayStore :=
  mkReplayPolicy in_memory_default.

Definition policy_check_and_record {S} `{ReplayStore S} (jti : string) (exp now : Z)
    : Eff (ReplayPolicy S) ReplayError unit := fun self =>
  let '(r, s') := check_and_record jti exp now (store self) in (r, mkReplayPolicy s').

Definition policy_cache_size {S} `{ReplayStore S} (self : ReplayPolicy S) : Z :=
  cache_size (store self).

(** * Replay keys *)

(** [hex_lower]: two digits per byte, high nibble first. *)
Fixpoint hex_lower (bytes : string) : string :=
  match bytes with
  | EmptyString => EmptyString
  | String b rest =>
      str1 (hex_digit (Z.shiftr (byte_val b) 4))
      +:+ str1 (hex_digit (Z.land (byte_val b) 15))
      +:+ hex_lower rest
  end.

(** [sha2::Sha256] over the concatenation of the [update]s: third-party code,
    a parameter of everything that hashes. *)
Class Sha256 : Type := sha256 : string -> string.

Section Keys.
Context `{Sha256}.

(** [dpop_replay_key]. *)
Definition dpop_replay_key (jkt jti : string) : string :=
  "dpop:" +:+ hex_lower (sha256 (jkt +:+ (nul +:+ jti))).

(** [replay_filename]. *)
Definition replay_filename (jti : string) : string :=
  hex_lower (sha256 ("sts-replay-file-v1" +:+ (nul +:+ jti))) +:+ ".jti".

End Keys.

(** * Lemmas: keys *)

Lemma hex_digit_inj n m :
  (0 <= n < 16)%Z -> (0 <= m < 16)%Z -> hex_digit n = hex_digit m -> n = m.
Proof.
  intros Hn Hm. unfold hex_digit. intros H.
  apply (f_equal N_of_ascii) in H. rewrite !N_ascii_embedding in H; revert H.
  all: destruct (Z.ltb_spec n 10), (Z.ltb_spec m 10); lia.
Qed.

Lemma byte_val_range b : (0 <= byte_val b < 256)%Z.
Proof. unfold byte_val. pose proof (N_ascii_bounded b). lia. Qed.

Lemma byte_val_inj b c : byte_val b = byte_val c -> b = c.
Proof.
  unfold byte_val. intros H%N2Z.inj.
  rewrite <- (ascii_N_embedding b), <- (ascii_N_embedding c). by rewrite H.
Qed.

Lemma nibbles b : (0 <= b < 256)%Z ->
  (0 <= Z.shiftr b 4 < 16)%Z /\ (0 <= Z.land b 15 < 16)%Z /\
  b = (16 * Z.shiftr b 4 + Z.land b 15)%Z.
Proof.
  intros Hb. change 15%Z with (Z.ones 4). rewrite Z.land_ones, Z.shiftr_div_pow2 by lia.
  change (2 ^ 4)%Z with 16%Z.
  pose proof (Z.div_mod b 16 ltac:(lia)). pose proof (Z.mod_pos_bound b 16 ltac:(lia)).
  repeat split; try lia; apply Z.div_lt_upper_bound || apply Z.div_pos; lia.
Qed.

Lemma hex_byte_inj b c :
  hex_digit (Z.shiftr (byte_val b) 4) = hex_digit (Z.shiftr (byte_val c) 4) ->
  hex_digit (Z.land (byte_val b) 15) = hex_digit (Z.land (byte_val c) 15) -> b = c.
Proof.
  pose proof (nibbles _ (byte_val_range b)) as (Hb1 & Hb2 & Hb).
  pose proof (nibbles _ (byte_val_range c)) as (Hc1 & Hc2 & Hc).
  intros Hh%hex_digit_inj Hl%hex_digit_inj; try done. apply byte_val_inj. lia.
Qed.

Lemma hex_lower_inj s t : hex_lower s = hex_lower t -> s = t.
Proof.
  revert t; induction s as [|b s IH]; intros [|c t]; try done.
  simpl. unfold str1. rewrite !app_cons, !app_empty_l. intros [= H1 H2 H3].
  f_equal; [by apply hex_byte_inj|by apply IH].
Qed.

Lemma hex_lower_length s : String.length (hex_lower s) = (2 * String.length s)%nat.
Proof.
  induction s as [|b s IH]; [done|]. cbn [hex_lower]. rewrite !str_length_app, IH. simpl. lia.
Qed.

(** The separator splits the hashed text in one way only when the first part
    does not hold it. *)
Lemma nul_sep_inj a b c d :
  contains_char (ascii_of_N 0) a = false -> contains_char (ascii_of_N 0) c = false ->
  a +:+ (nul +:+ b) = c +:+ (nul +:+ d) -> a = c /\ b = d.
Proof.
  revert c; induction a as [|x a IH]; intros c Ha Hc.
  - destruct c as [|y c]; rewrite ?app_empty_l.
    + intros H. split; [done|]. unfold nul, str1 in H. rewrite !app_cons in H. by injection H.
    + unfold nul, str1. rewrite !app_cons, !app_empty_l. intros [= <- _].
      cbn [contains_char] in Hc. by rewrite bool_decide_eq_true_2 in Hc.
  - destruct c as [|y c]; rewrite ?app_empty_l.
    + unfold nul at 2, str1. rewrite !app_cons, !app_empty_l. intros [= -> _].
      cbn [contains_char] in Ha. by rewrite bool_decide_eq_true_2 in Ha.
    + rewrite !app_cons. intros [= -> H]. cbn [contains_char] in Ha, Hc.
      destruct (bool_decide (y = ascii_of_N 0)); [done|].
      destruct (IH c Ha Hc H) as [-> ->]. done.
Qed.

(** * Lemmas: the in-memory store *)

Lemma lookup_sweep m now k :
  sweep_expired m now !! k =
  match m !! k with Some e => if (now <=? e)%Z then Some e else None | None => None end.
Proof.
  unfold sweep_expired. rewrite map_lookup_filter. destruct (m !! k) as [e|]; [|done]. simpl.
  destruct (Z.leb_spec now e); case_guard; simpl in *; done || lia.
Qed.

Lemma sweep_size m now : size (sweep_expired m now) <= size m.
Proof. apply map_subseteq_size, map_filter_subseteq. Qed.

Lemma sweep_keeps m now k e :
  m !! k = Some e -> (now <= e)%Z -> sweep_expired m now !! k = Some e.
Proof. intros Hk He. rewrite lookup_sweep, Hk. by rewrite (proj2 (Z.leb_le _ _)). Qed.

Lemma sweep_sub m now k e : sweep_expired m now !! k = Some e -> m !! k = Some e.
Proof. rewrite lookup_sweep. repeat case_match; naive_solver. Qed.

(** The map a call works on after its sweeps. *)
Lemma in_memory_cases jti exp now s r s' :
  in_memory_check_and_record jti exp now s = (r, s') ->
  (s' = s /\ exists e, r = Err e) \/
  (exists m calls, m_value (seen s) !! jti = None /\
     (forall k e, m_value (seen s) !! k = Some e -> (now <= e)%Z -> m !! k = Some e) /\
     size m <= size (m_value (seen s)) /\
     ((exists e, r = Err e /\
         s' = mkInMemory (mutex_new m) (mutex_new calls) (max_seen s) (sweep_every s)) \/
      (r = Ok tt /\ (map_len m < max_seen s)%Z /\
         s' = mkInMemory (mutex_new (<[jti := exp]> m)) (mutex_new calls)
                (max_seen s) (sweep_every s)))).
Proof.
  unfold in_memory_check_and_record, lock. intros H.
  destruct (is_empty (trim jti)); [left; naive_solver|].
  destruct (m_poisoned (seen s)); [left; naive_solver|].
  destruct (m_value (seen s) !! jti) eqn:Hj; simpl in H; [left; naive_solver|].
  destruct (m_poisoned (calls_since_sweep s)); [left; naive_solver|].
  right. set (m0 := m_value (seen s)) in *.
  assert (Hsw : forall b m, (forall k e, m0 !! k = Some e -> (now <= e)%Z -> m !! k = Some e) ->
    size m <= size m0 ->
    (forall k e, m0 !! k = Some e -> (now <= e)%Z ->
       (if b : bool then sweep_expired m now else m) !! k = Some e) /\
    size (if b : bool then sweep_expired m now else m) <= size m0).
  { intros [] m Hm Hs; split; try done.
    - intros k e Hk He. by apply sweep_keeps; [apply Hm|].
    - etrans; [apply sweep_size|done]. }
  destruct (sweep_every s <=? m_value (calls_since_sweep s) + 1)%Z.
  - destruct (Hsw true m0 ltac:(done) ltac:(done)) as [Hk1 Hs1].
    destruct (Hsw (max_seen s <=? map_len (sweep_expired m0 now))%Z _ Hk1 Hs1) as [Hk2 Hs2].
    cbv beta iota zeta in H.
    destruct (max_seen s <=? map_len (if _ : bool then _ else _))%Z eqn:Hf;
      injection H as <- <-; do 2 eexists; split_and!; eauto.
    right. apply Z.leb_gt in Hf. eauto.
  - destruct (Hsw (max_seen s <=? map_len m0)%Z m0 ltac:(done) ltac:(done)) as [Hk2 Hs2].
    cbv beta iota zeta in H.
    destruct (max_seen s <=? map_len (if _ : bool then _ else _))%Z eqn:Hf;
      injection H as <- <-; do 2 eexists; split_and!; eauto.
    right. apply Z.leb_gt in Hf. eauto.
Qed.

(** The store never holds more entries than its bound. *)
Definition in_memory_ok (s : InMemoryReplayStore) : Prop :=
  (map_len (m_value (seen s)) <= Z.max 0 (max_seen s))%Z.

Lemma in_memory_ok_step s jti exp now r s' :
  in_memory_ok s -> in_memory_check_and_record jti exp now s = (r, s') -> in_memory_ok s'.
Proof.
  unfold in_memory_ok, map_len. intros Hs [[-> _]|(m & c & Hn & Hk & Hsz & Hr)]%in_memory_cases; [done|].
  destruct Hr as [(e & _ & ->)|(_ & Hlt & ->)]; simpl; [lia|].
  unfold map_len in Hlt. rewrite map_size_insert. case_match; simpl; lia.
Qed.

#[export] Instance in_memory_laws : ReplayStoreLaws InMemoryReplayStore.
Proof.
  refine {| store_ok := in_memory_ok; held s k := m_value (seen s) !! k |}.
  - intros s jti exp now r s' Hs _ H. by eapply in_memory_ok_step.
  - intros s jti exp now s' _ _ [[_ [e He]]|(m & c & Hn & Hk & Hsz & Hr)]%in_memory_cases; [done|].
    destruct Hr as [(e & He & _)|(_ & Hlt & ->)]; [done|]. simpl.
    rewrite lookup_insert_eq. split; [done|]. naive_solver.
  - intros s jti exp now r s' k e _ _ H Hh Hl.
    apply in_memory_cases in H as [[-> _]|(m & c & Hn & Hk & Hsz & Hr)]; [done|].
    destruct Hr as [(x & _ & ->)|(_ & _ & ->)]; simpl; [by apply Hk|].
    rewrite lookup_insert_ne by (intros ->; congruence). by apply Hk.
Defined.

(** Where there is room, a key that is not there is taken. *)
Lemma in_memory_takes (s : InMemoryReplayStore) (jti : string) (exp now : Z) :
  trim jti <> "" ->
  m_poisoned (seen s) = false -> m_poisoned (calls_since_sweep s) = false ->
  m_value (seen s) !! jti = None ->
  (map_len (sweep_expired (m_value (seen s)) now) < max_seen s)%Z ->
  exists m calls, in_memory_check_and_record jti exp now s =
      (Ok tt, mkInMemory (mutex_new (<[jti := exp]> m)) (mutex_new calls) (max_seen s) (sweep_every s)) /\
    m ⊆ m_value (seen s).
Proof.
  intros Hj Hp1 Hp2 Hn Hroom. unfold in_memory_check_and_record, lock.
  apply is_empty_false in Hj. rewrite Hj, Hp1, Hn, Hp2. simpl.
  set (m0 := m_value (seen s)) in *.
  assert (Hsub : forall m, m ⊆ m0 -> sweep_expired m now ⊆ m0) by (intros m Hm; by etrans; [apply map_filter_subseteq|]).
  assert (Hfin : forall c m, (map_len m < max_seen s)%Z -> m ⊆ m0 -> exists m' calls,
    (if (max_seen s <=? map_len m)%Z then
       (Err (mkReplayError StoreFull "replay store full, retry shortly"),
        mkInMemory (mutex_new m) (mutex_new c) (max_seen s) (sweep_every s))
     else (Ok tt, mkInMemory (mutex_new (<[jti:=exp]> m)) (mutex_new c) (max_seen s) (sweep_every s)))
     = (Ok tt, mkInMemory (mutex_new (<[jti:=exp]> m')) (mutex_new calls) (max_seen s) (sweep_every s)) /\ m' ⊆ m0).
  { intros c m Hm Hs. rewrite (proj2 (Z.leb_gt _ _)) by done. by exists m, c. }
  pose proof (sweep_size (sweep_expired m0 now) now) as Hsz.
  destruct (sweep_every s <=? m_value (calls_since_sweep s) + 1)%Z; simpl; apply Hfin.
  - case_match; unfold map_len in *; [lia|done].
  - case_match; by repeat apply Hsub.
  - case_match eqn:E; [done|]. by apply Z.leb_gt in E.
  - case_match; [by apply Hsub|done].
Qed.

(** * Sequences of calls *)

Record Call : Type := mkCall { c_jti : string; c_exp : Z; c_now : Z }.

Fixpoint run_calls {S} `{ReplayStore S} (cs : list Call) (s : S) : S :=
  match cs with
  | [] => s
  | c :: cs' => run_calls cs' (check_and_record (c_jti c) (c_exp c) (c_now c) s).2
  end.

Lemma run_calls_app {S} `{ReplayStore S} c1 c2 (s : S) :
  run_calls (c1 ++ c2) s = run_calls c2 (run_calls c1 s).
Proof. revert s. by induction c1; intros s; simpl. Qed.

Section Interface.
Context {S : Type} `{ReplayStoreLaws S}.

Lemma run_calls_ok cs s :
  store_ok s -> Forall (fun c => in_i64 (c_exp c)) cs -> store_ok (run_calls cs s).
Proof.
  intros Hs Hc. revert s Hs. induction Hc as [|c cs Hx Hc IH]; intros s Hs; [done|]. simpl. apply IH.
  destruct (check_and_record _ _ _ s) eqn:E. by eapply store_ok_step.
Qed.

(** A live entry survives any calls made while it is live. *)
Lemma run_calls_keeps cs s k e :
  store_ok s -> Forall (fun c => in_i64 (c_exp c) /\ (c_now c <= e)%Z) cs ->
  held s k = Some e -> held (run_calls cs s) k = Some e.
Proof.
  intros Hs Hc. revert s Hs. induction Hc as [|c cs [Hx Hn] Hc IH]; intros s Hs Hh; [done|]. simpl.
  destruct (check_and_record _ _ _ s) eqn:E. apply IH; simpl.
  - by eapply store_ok_step.
  - by eapply live_kept.
Qed.

(** A recorded key is not accepted again while its expiry has not passed. *)
Lemma no_second_record (s s1 s3 : S) jti exp now exp2 now2 between :
  store_ok s -> in_i64 exp -> in_i64 exp2 ->
  Forall (fun c => in_i64 (c_exp c) /\ (c_now c <= now2)%Z) between ->
  check_and_record jti exp now s = (Ok tt, s1) ->
  check_and_record jti exp2 now2 (run_calls between s1) = (Ok tt, s3) ->
  (exp < now2)%Z.
Proof.
  intros Hs Hx Hx2 Hb H1 H2.
  pose proof (store_ok_step _ _ _ _ _ _ Hs Hx H1) as Hs1.
  assert (Hi : Forall (fun c => in_i64 (c_exp c)) between)
    by (eapply Forall_impl; [exact Hb|]; naive_solver).
  destruct (Z.lt_ge_cases exp now2) as [|Hle]; [done|].
  pose proof (record_fresh _ _ _ _ _ Hs Hx H1) as [Hheld _].
  assert (Hk : held (run_calls between s1) jti = Some exp).
  { apply run_calls_keeps; [done| |done].
    eapply Forall_impl; [exact Hb|]. simpl. intros c [? ?]. split; [done|lia]. }
  pose proof (record_fresh _ _ _ _ _ (run_calls_ok _ _ Hs1 Hi) Hx2 H2) as [_ Hlt].
  by apply Hlt.
Qed.

End Interface.

Lemma in_memory_open s m c :
  seen s = mutex_new m -> calls_since_sweep s = mutex_new c ->
  lock (seen s) = Some m /\ lock (calls_since_sweep s) = Some c.
Proof. by intros -> ->. Qed.

(** * Properties *)

(** single use, for every store that satisfies the interface: once a key
    has been recorded, it is not accepted again before its recorded expiry has
    passed, whatever calls are made in between (none of them later than the
    second attempt). *)
Theorem replay_single_use {S : Type} `{ReplayStoreLaws S}
    (s s1 s3 : S) (jti : string) (exp now exp2 now2 : Z) (between : list Call) :
  store_ok s -> in_i64 exp -> in_i64 exp2 ->
  Forall (fun c => in_i64 (c_exp c) /\ (c_now c <= now2)%Z) between ->
  check_and_record jti exp now s = (Ok tt, s1) ->
  check_and_record jti exp2 now2 (run_calls between s1) = (Ok tt, s3) ->
  (exp < now2)%Z.
Proof.
  apply no_second_record.
Qed.

Lemma replay_single_use_witness :
  let s1 := (check_and_record "jti-1" 10 1 (in_memory_new 8 1)).2 in
  (check_and_record "jti-1" 12 11 (run_calls [mkCall "jti-2" 20 11] s1)).1 = Ok tt /\ (10 < 11)%Z.
Proof.
  split; [vm_compute; reflexivity|].
  eapply (replay_single_use (in_memory_new 8 1) _ _ "jti-1" 10 1 12 11 [mkCall "jti-2" 20 11]).
  - vm_compute. discriminate.
  - i64_tac.
  - i64_tac.
  - repeat constructor; i64_tac.
  - vm_compute. reflexivity.
  - vm_compute. reflexivity.
Defined.

(** the in-memory store accepts a key that it does not hold whenever the
    entries that are still live leave room, also when expired entries fill the
    map; the key is then recorded with its expiry. *)
Theorem in_memory_accepts_fresh (s : InMemoryReplayStore) (jti : string) (exp now : Z) :
  trim jti <> "" ->
  m_poisoned (seen s) = false -> m_poisoned (calls_since_sweep s) = false ->
  m_value (seen s) !! jti = None ->
  (map_len (sweep_expired (m_value (seen s)) now) < max_seen s)%Z ->
  exists s', in_memory_check_and_record jti exp now s = (Ok tt, s') /\
             m_value (seen s') !! jti = Some exp.
Proof.
  intros Hj Hp1 Hp2 Hn Hroom. destruct (in_memory_takes s jti exp now Hj Hp1 Hp2 Hn Hroom) as (m & calls & -> & _).
  eexists. split; [done|]. apply lookup_insert_eq.
Qed.

Lemma in_memory_accepts_fresh_witness :
  exists s', in_memory_check_and_record "jti-2" 30 11
    (mkInMemory (mutex_new {["jti-1" := 10%Z]}) (mutex_new 0%Z) 1 256) = (Ok tt, s') /\
    m_value (seen s') !! "jti-2" = Some 30%Z.
Proof.
  apply in_memory_accepts_fresh.
  - vm_compute. discriminate.
  - reflexivity.
  - reflexivity.
  - reflexivity.
  - vm_compute. reflexivity.
Defined.

(** the in-memory store stays within its bound over any sequence of
    calls. *)
Theorem in_memory_bounded (max every : Z) (calls : list Call) :
  (map_len (m_value (seen (run_calls calls (in_memory_new max every)))) <= Z.max 0 max)%Z.
Proof.
  enough (forall s, in_memory_ok s -> max_seen s = max ->
    in_memory_ok (run_calls calls s) /\ max_seen (run_calls calls s) = max) as Hall.
  { destruct (Hall (in_memory_new max every)) as [Hok Hmx]; [|done|].
    - unfold in_memory_ok, map_len. simpl. rewrite map_size_empty. lia.
    - unfold in_memory_ok in Hok. by rewrite Hmx in Hok. }
  induction calls as [|c calls IH]; intros s Hs Hm; [done|]. simpl. apply IH.
  - destruct (in_memory_check_and_record _ _ _ s) eqn:E. by eapply in_memory_ok_step.
  - destruct (in_memory_check_and_record _ _ _ s) as [r s'] eqn:E. simpl.
    apply in_memory_cases in E as [[-> _]|(m & ca & _ & _ & _ & Hr)]; [done|].
    by destruct Hr as [(e & _ & ->)|(_ & _ & ->)].
Qed.

(** a poisoned lock makes the in-memory store refuse every key with the
    retryable [StoreFull] error (blank keys with [InvalidRequest], keys it
    already holds with [ReplayDetected]) and leaves the store as it was. *)
Theorem in_memory_fails_closed (s : InMemoryReplayStore) (jti : string) (exp now : Z) :
  m_poisoned (seen s) = true \/ m_poisoned (calls_since_sweep s) = true ->
  exists e, in_memory_check_and_record jti exp now s = (Err e, s) /\
    (trim jti <> "" -> m_value (seen s) !! jti = None -> e = replay_store_unavailable).
Proof.
  intros Hp. unfold in_memory_check_and_record, lock.
  destruct (is_empty (trim jti)) eqn:Hj.
  { apply is_empty_true in Hj. eexists. split; [done|]. congruence. }
  destruct (m_poisoned (seen s)) eqn:Hs; [eauto|].
  destruct Hp as [|Hc]; [done|].
  destruct (m_value (seen s) !! jti) eqn:Hl; simpl; [eexists; split; [done|congruence]|].
  rewrite Hc. eauto.
Qed.

Lemma in_memory_fails_closed_witness :
  exists e, in_memory_check_and_record "jti-2" 10 1
    (mkInMemory (mkMutex ∅ true) (mutex_new 0%Z) 8 4)
    = (Err e, mkInMemory (mkMutex ∅ true) (mutex_new 0%Z) 8 4) /\
    (trim "jti-2" <> "" -> (∅ : gmap string Z) !! "jti-2" = None -> e = replay_store_unavailable).
Proof.
  apply (in_memory_fails_closed (mkInMemory (mkMutex ∅ true) (mutex_new 0%Z) 8 4)).
  left. reflexivity.
Defined.

(** two DPoP proofs share a replay key only when holder key and proof id
    are both the same, or else the two hashed texts are a SHA-256 collision;
    and the key has 5 bytes more than twice the digest, however long the proof
    id is. *)
Theorem dpop_replay_key_injective (sha : Sha256) (jkt1 jti1 jkt2 jti2 : string) :
  contains_char (ascii_of_N 0) jkt1 = false -> contains_char (ascii_of_N 0) jkt2 = false ->
  dpop_replay_key jkt1 jti1 = dpop_replay_key jkt2 jti2 ->
  ((jkt1 = jkt2 /\ jti1 = jti2) \/ exists x y, x <> y /\ sha256 x = sha256 y) /\
  String.length (dpop_replay_key jkt1 jti1)
  = (5 + 2 * String.length (sha256 (jkt1 +:+ (nul +:+ jti1))))%nat.
Proof.
  intros H1 H2 Hk. split; [|unfold dpop_replay_key; by rewrite str_length_app, hex_lower_length].
  unfold dpop_replay_key in Hk. apply str_app_inj_l, hex_lower_inj in Hk.
  destruct (decide (jkt1 +:+ (nul +:+ jti1) = jkt2 +:+ (nul +:+ jti2))) as [He|Hn].
  - left. by apply nul_sep_inj.
  - right. eauto.
Qed.

Lemma dpop_replay_key_injective_witness :
  @dpop_replay_key (fun s => s) "k" "a" = "dpop:6b0061" /\
  (("k" = "k" /\ "a" = "a") \/ exists x y : string, x <> y /\ x = y).
Proof.
  split; [reflexivity|].
  apply (dpop_replay_key_injective (fun s => s) "k" "a" "k" "a"); reflexivity.
Defined.
