(* ===== verification/ReplaySpec.v ===== *)
(** crates/sts-replay: the in-memory store against an ideal one.

    The ideal store remembers every key that it has accepted, with its expiry,
    and has room for [max] live ones.  The store of the code forgets expired
    keys in sweeps, now and then; no caller can tell. *)

From S2P Require Import Prelude RustStr Replay.

(** * Specification *)

(** A call: the key, its expiry, and the clock. *)
Definition Call : Type := string * Z * Z.
Definition call_now (c : Call) : Z := c.2.

(** The entries that have not expired. *)
Definition live (now : Z) (m : gmap string Z) : gmap string Z := filter (fun kv => (now <= kv.2)%Z) m.

(** One call on the ideal store.  A key whose expiry has passed may be refused or
    accepted. *)
Inductive ideal_step (max : Z) (h : gmap string Z) : Call -> result ReplayError unit -> gmap string Z -> Prop :=
| ideal_blank jti exp now :
    is_empty (trim jti) = true ->
    ideal_step max h (jti, exp, now) (Err (mkReplayError RInvalidRequest "jti must not be empty")) h
| ideal_replay jti exp now :
    is_empty (trim jti) = false -> is_Some (h !! jti) ->
    ideal_step max h (jti, exp, now) (Err (mkReplayError ReplayDetected "actor_token replay detected")) h
| ideal_full jti exp now :
    is_empty (trim jti) = false -> live now h !! jti = None -> (max <= map_len (live now h))%Z ->
    ideal_step max h (jti, exp, now) (Err (mkReplayError StoreFull "replay store full, retry shortly")) h
| ideal_accept jti exp now :
    is_empty (trim jti) = false -> live now h !! jti = None -> (map_len (live now h) < max)%Z ->
    ideal_step max h (jti, exp, now) (Ok tt) (<[jti := exp]> h).

Inductive ideal_run (max : Z) : gmap string Z -> list Call -> list (result ReplayError unit) -> gmap string Z -> Prop :=
| ideal_nil h : ideal_run max h [] [] h
| ideal_cons h c calls r rs h1 h2 :
    ideal_step max h c r h1 -> ideal_run max h1 calls rs h2 -> ideal_run max h (c :: calls) (r :: rs) h2.

(** The calls on the store of the code, with their answers. *)
Fixpoint store_run (s : InMemoryReplayStore) (calls : list Call) : list (result ReplayError unit) * InMemoryReplayStore :=
  match calls with
  | [] => ([], s)
  | (jti, exp, now) :: calls =>
      let '(r, s1) := in_memory_check_and_record jti exp now s in
      let '(rs, s2) := store_run s1 calls in (r :: rs, s2)
  end.

(** The store holds a part of the history with all that is live from [now] on. *)
Record represents (max now : Z) (s : InMemoryReplayStore) (h : gmap string Z) : Prop := {
  rep_sub : m_value (seen s) ⊆ h;
  rep_live : forall k e, h !! k = Some e -> (now <= e)%Z -> m_value (seen s) !! k = Some e;
  rep_max : max_seen s = max;
  rep_locks : m_poisoned (seen s) = false /\ m_poisoned (calls_since_sweep s) = false
}.

(** * Lemmas *)

Lemma lookup_live now m k e : live now m !! k = Some e <-> m !! k = Some e /\ (now <= e)%Z.
Proof. unfold live. by rewrite map_lookup_filter_Some. Qed.

Lemma live_mono now m m' : m ⊆ m' -> live now m ⊆ live now m'.
Proof.
  intros Hm. apply map_subseteq_spec. intros k e. rewrite !lookup_live. intros [Hk He].
  split; [by eapply lookup_weaken|done].
Qed.

Lemma map_len_sub m m' : m ⊆ m' -> (map_len m <= map_len m')%Z.
Proof. intros Hm. unfold map_len. apply Nat2Z.inj_le. by apply map_subseteq_size. Qed.

(** The map after the sweeps of one call lies between the live entries and the
    map before; when it is full it holds live entries only. *)
Lemma sweeps_between max every now calls m :
  let m1 := if (every <=? calls)%Z then sweep_expired m now else m in
  let m2 := if (max <=? map_len m1)%Z then sweep_expired m1 now else m1 in
  live now m ⊆ m2 /\ m2 ⊆ m /\ ((max <= map_len m2)%Z -> m2 ⊆ live now m).
Proof.
  assert (Hsweep : forall m, sweep_expired m now ⊆ m) by (intros; apply map_filter_subseteq).
  assert (Hlive : forall m m1, live now m ⊆ m1 -> live now m ⊆ sweep_expired m1 now).
  { intros ma mb Hs. apply map_subseteq_spec. intros k e Hk. apply sweep_keeps; [by eapply lookup_weaken|].
    by apply lookup_live in Hk as [_ ?]. }
  cbn zeta. set (m1 := if (every <=? calls)%Z then _ else _).
  assert (H1 : live now m ⊆ m1 /\ m1 ⊆ m).
  { unfold m1. destruct (every <=? calls)%Z; [|split; [apply map_filter_subseteq|done]].
    split; [apply Hlive, map_filter_subseteq|apply Hsweep]. }
  destruct H1 as [H1 H2]. destruct (Z.leb_spec max (map_len m1)).
  - split; [by apply Hlive|]. split; [by etrans; [apply Hsweep|]|]. intros _. by apply (live_mono now m1 m).
  - split; [done|]. split; [done|]. lia.
Qed.

Lemma represents_later max now now' s h : (now <= now')%Z -> represents max now s h -> represents max now' s h.
Proof. intros Hn [Hs Hl Hm Hp]. split; try done. intros k e Hk He. apply Hl; [done|lia]. Qed.

(** One call. *)
Lemma in_memory_ideal max s h jti exp now r s' :
  represents max now s h -> in_memory_check_and_record jti exp now s = (r, s') ->
  exists h', ideal_step max h (jti, exp, now) r h' /\ represents max now s' h'.
Proof.
  intros [Hsub Hlive Hmax [Hp1 Hp2]]. unfold in_memory_check_and_record, lock. rewrite Hp1, Hp2.
  destruct (is_empty (trim jti)) eqn:Hblank.
  { intros [= <- <-]. exists h. split; [by constructor|done]. }
  destruct (m_value (seen s) !! jti) as [e|] eqn:Hj; cbn [opt_is_some].
  { intros [= <- <-]. exists h. split; [|done]. apply ideal_replay; [done|].
    exists e. by eapply lookup_weaken. }
  rewrite Hmax. set (m0 := m_value (seen s)) in *. set (calls := (m_value (calls_since_sweep s) + 1)%Z).
  pose proof (sweeps_between max (sweep_every s) now calls m0) as Hb. cbn zeta in Hb.
  assert (Heq : live now h = live now m0).
  { apply map_eq. intros k. apply option_eq. intros e. rewrite !lookup_live. split; intros [Hk He].
    - split; [by apply Hlive|done].
    - split; [by eapply lookup_weaken|done]. }
  assert (Hfree : live now h !! jti = None).
  { rewrite Heq. destruct (live now m0 !! jti) as [e|] eqn:E; [|done]. apply lookup_live in E as [E _]. congruence. }
  destruct (if (sweep_every s <=? calls)%Z then (sweep_expired m0 now, 0%Z) else (m0, calls))
    as [m1 calls2] eqn:Em.
  assert (Hm1 : m1 = if (sweep_every s <=? calls)%Z then sweep_expired m0 now else m0).
  { by destruct (sweep_every s <=? calls)%Z; injection Em as <- <-. }
  rewrite <- Hm1 in Hb. set (m2 := if (max <=? map_len m1)%Z then _ else _) in *.
  destruct Hb as (Hb1 & Hb2 & Hb3).
  assert (Hkeep : forall k e, h !! k = Some e -> (now <= e)%Z -> m2 !! k = Some e).
  { intros k e Hk He. eapply lookup_weaken; [|exact Hb1]. apply lookup_live. auto. }
  destruct (Z.leb_spec max (map_len m2)) as [Hfull|Hroom]; intros [= <- <-].
  - exists h. split.
    + apply ideal_full; [done|done|]. rewrite Heq. specialize (Hb3 Hfull). apply map_len_sub in Hb3. lia.
    + split; cbn; [by etrans|done|done|done].
  - exists (<[jti := exp]> h). split.
    + apply ideal_accept; [done|done|]. rewrite Heq. apply map_len_sub in Hb1. lia.
    + split; cbn; [by apply insert_mono; etrans| |done|done].
      intros k e Hk He. destruct (decide (k = jti)) as [->|Hne].
      * rewrite lookup_insert_eq in Hk |- *. done.
      * rewrite lookup_insert_ne in Hk |- * by done. auto.
Qed.

(** * Properties *)

(** C18: Over any sequence of calls under a clock that does not go back, the
    in-memory store gives the answers of an ideal store that forgets nothing: a
    live key is refused, a new one is accepted only while there is room among
    the live ones, and the store is reported full only when there is none. *)
Theorem in_memory_refines (max every : Z) (calls : list Call) :
  StronglySorted (fun c c' => (call_now c <= call_now c')%Z) calls ->
  exists h, ideal_run max ∅ calls (store_run (in_memory_new max every) calls).1 h.
Proof.
  intros Hsorted.
  assert (Hgen : forall calls t s h, represents max t s h -> Forall (fun c => (t <= call_now c)%Z) calls ->
    StronglySorted (fun c c' => (call_now c <= call_now c')%Z) calls ->
    exists h', ideal_run max h calls (store_run s calls).1 h').
  { clear. intros calls. induction calls as [|[[jti exp] now] calls IH]; intros t s h Hr Ht Hs; [by exists h; constructor|].
    apply Forall_cons in Ht as [Ht _]. apply StronglySorted_inv in Hs as [Hs Hall]. cbn [call_now snd] in Ht.
    cbn [store_run]. destruct (in_memory_check_and_record jti exp now s) as [r s1] eqn:Hc.
    apply (represents_later _ _ _ _ _ Ht) in Hr. destruct (in_memory_ideal _ _ _ _ _ _ _ _ Hr Hc) as (h1 & Hstep & Hr1).
    destruct (IH now s1 h1 Hr1 Hall Hs) as [h2 Hrun]. exists h2.
    destruct (store_run s1 calls) as [rs s2]. cbn [fst] in *. by econstructor. }
  destruct calls as [|c calls]; [by exists ∅; constructor|].
  apply (Hgen _ (call_now c)); [|constructor; [lia|by apply StronglySorted_inv in Hsorted as [_ ?]]|done].
  split; try done.
Qed.

Lemma in_memory_refines_witness :
  exists h, ideal_run 1 ∅ [("a", 20, 10); ("a", 20, 15); ("b", 40, 18); ("b", 40, 30)]%Z
    [Ok tt; Err (mkReplayError ReplayDetected "actor_token replay detected");
     Err (mkReplayError StoreFull "replay store full, retry shortly"); Ok tt] h.
Proof.
  apply (in_memory_refines 1 8 [("a", 20, 10); ("a", 20, 15); ("b", 40, 18); ("b", 40, 30)]%Z);
    repeat constructor; vm_compute; discriminate.
Defined.
