(* ===== verification/FileReplay.v ===== *)
(** crates/sts-replay, [FileReplayStore]: the store kept in a directory that
    several processes may share.  This file models one process working on the
    directory; [FileRace] interleaves several.

    The directory is explicit state.  Every system call may fail: [io_fails]
    says which ones do, so a statement for all directories covers every
    pattern of I/O errors. *)

From S2P Require Import Prelude RustStr Replay.

Inductive Entry : Type :=
| RegularFile (content : string)
| OtherEntry.

Record Dir : Type := mkDir {
  dir_present : bool;
  entries : gmap string Entry;
  io_fails : nat -> bool;
  io_written : nat -> nat;
  io_tick : nat
}.

Definition set_entries (e : gmap string Entry) (d : Dir) : Dir :=
  mkDir (dir_present d) e (io_fails d) (io_written d) (io_tick d).

Definition tick (d : Dir) : Dir :=
  mkDir (dir_present d) (entries d) (io_fails d) (io_written d) (S (io_tick d)).

(** Whether the next system call is one that fails. *)
Definition faulty (d : Dir) : bool := io_fails d (io_tick d).

(** [fs::read_dir]: the names, in no particular order. *)
Definition read_dir : Eff Dir ReplayError (list string) := fun d =>
  if (negb (dir_present d) || faulty d)%bool then (Err replay_store_unavailable, tick d)
  else (Ok (map_to_list (entries d)).*1, tick d).

(** The [entry.map_err(..)?] of a directory walk. *)
Definition next_entry : Eff Dir ReplayError unit := fun d =>
  if faulty d then (Err replay_store_unavailable, tick d) else (Ok tt, tick d).

(** [Path::is_file]. *)
Definition is_file (name : string) : Eff Dir ReplayError bool := fun d =>
  if (negb (dir_present d) || faulty d)%bool then (Ok false, tick d)
  else (Ok match entries d !! name with Some (RegularFile _) => true | _ => false end, tick d).

(** [read_exp]: open, read to a string, parse the trimmed text. *)
Definition read_exp (name : string) : Eff Dir ReplayError (option Z) := fun d =>
  if (negb (dir_present d) || faulty d)%bool then (Ok None, tick d)
  else if faulty (tick d) then (Ok None, tick (tick d))
  else
    (Ok match entries d !! name with
        | Some (RegularFile content) => parse_i64 (trim content)
        | _ => None
        end, tick (tick d)).

(** [remove_replay_file]: a file that is already gone counts as removed. *)
Definition remove_replay_file (name : string) : Eff Dir ReplayError unit := fun d =>
  if faulty d then (Err replay_store_unavailable, tick d)
  else if negb (dir_present d) then (Ok tt, tick d)
  else match entries d !! name with
       | Some (RegularFile _) => (Ok tt, tick (set_entries (delete name (entries d)) d))
       | Some OtherEntry => (Err replay_store_unavailable, tick d)
       | None => (Ok tt, tick d)
       end.

(** [OpenOptions::new().write(true).create_new(true).open(path)], then
    [writeln!(file, "{exp}")].  A write that fails may have written the first
    [io_written] bytes. *)
Definition create_new_and_write (name : string) (exp : Z) : Eff Dir ReplayError unit := fun d =>
  if (negb (dir_present d) || faulty d)%bool then (Err replay_store_unavailable, tick d)
  else match entries d !! name with
       | Some _ => (Err (mkReplayError ReplayDetected "actor_token replay detected"), tick d)
       | None =>
           let d1 := tick d in
           let line := to_string exp +:+ newline in
           if faulty d1 then
             let part := String.substring 0 (io_written d1 (io_tick d1)) line in
             (Err replay_store_unavailable,
              tick (set_entries (<[name := RegularFile part]> (entries d1)) d1))
           else (Ok tt, tick (set_entries (<[name := RegularFile line]> (entries d1)) d1))
       end.

(** The body of the [sweep_expired] loop for one directory entry. *)
Definition sweep_entry (now : Z) (name : string) : Eff Dir ReplayError unit :=
  do! _ <- next_entry in
  do! file <- is_file name in
  if negb file then eff_ret tt else
  do! exp <- read_exp name in
  if is_some_and (fun exp => exp <? now)%Z exp then remove_replay_file name else eff_ret tt.

Fixpoint sweep_names (now : Z) (names : list string) : Eff Dir ReplayError unit :=
  match names with
  | [] => eff_ret tt
  | name :: rest => do! _ <- sweep_entry now name in sweep_names now rest
  end.

(** [FileReplayStore::sweep_expired]. *)
Definition file_sweep_expired (now : Z) : Eff Dir ReplayError unit :=
  do! names <- read_dir in sweep_names now names.

Fixpoint count_names (count : Z) (names : list string) : Eff Dir ReplayError Z :=
  match names with
  | [] => eff_ret count
  | name :: rest =>
      do! _ <- next_entry in
      do! file <- is_file name in
      count_names (if file then count + 1 else count)%Z rest
  end.

(** [FileReplayStore::active_entry_count]. *)
Definition active_entry_count : Eff Dir ReplayError Z :=
  do! names <- read_dir in count_names 0 names.

Record FileReplayStore : Type := mkFileStore {
  f_dir : Dir;
  f_max_seen : Z;
  f_sweep_every : Z;
  f_calls_since_sweep : Mutex Z
}.

Definition set_dir (d : Dir) (s : FileReplayStore) : FileReplayStore :=
  mkFileStore d (f_max_seen s) (f_sweep_every s) (f_calls_since_sweep s).
Definition set_calls (c : Z) (s : FileReplayStore) : FileReplayStore :=
  mkFileStore (f_dir s) (f_max_seen s) (f_sweep_every s) (mutex_new c).

(** A directory operation run by a store. *)
Definition on_dir {A} (m : Eff Dir ReplayError A) : Eff FileReplayStore ReplayError A :=
  fun s => let '(r, d) := m (f_dir s) in (r, set_dir d s).

(** [FileReplayStore::new]: [create_dir_all], then [is_dir]. *)
Definition file_store_new (d : Dir) (max_seen sweep_every : Z) : result ReplayError FileReplayStore :=
  if faulty d then Err replay_store_unavailable
  else
    let d1 := mkDir true (entries d) (io_fails d) (io_written d) (S (io_tick d)) in
    if faulty d1 then Err replay_store_unavailable
    else Ok (mkFileStore (tick d1) max_seen (Z.max sweep_every 1) (mutex_new 0%Z)).

(** [FileReplayStore::maybe_sweep]: the counter is advanced before the sweep
    and reset only after it has succeeded. *)
Definition maybe_sweep (now : Z) : Eff FileReplayStore ReplayError unit := fun s =>
  match lock (f_calls_since_sweep s) with
  | None => (Err replay_store_unavailable, s)
  | Some calls =>
      let calls1 := (calls + 1)%Z in
      let s1 := set_calls calls1 s in
      if (f_sweep_every s <=? calls1)%Z then
        eff_bind (on_dir (file_sweep_expired now)) (fun _ s2 => (Ok tt, set_calls 0 s2)) s1
      else (Ok tt, s1)
  end.

Section Store.
Context `{Sha256}.

Definition file_check_and_record (jti : string) (exp now : Z)
    : Eff FileReplayStore ReplayError unit :=
  if is_empty (trim jti) then eff_err (mkReplayError RInvalidRequest "jti must not be empty")
  else
  do! _ <- maybe_sweep now in
  do! count <- on_dir active_entry_count in
  do! max <- (fun s => (Ok (f_max_seen s), s)) in
  do! _ <- (if (max <=? count)%Z then on_dir (file_sweep_expired now) else eff_ret tt) in
  do! count2 <- on_dir active_entry_count in
  if (max <=? count2)%Z then eff_err (mkReplayError StoreFull "replay store full, retry shortly")
  else
  let path := replay_filename jti in
  do! stored <- on_dir (read_exp path) in
  do! _ <- (if is_some_and (fun stored_exp => stored_exp <? now)%Z stored
            then on_dir (remove_replay_file path) else eff_ret tt) in
  on_dir (create_new_and_write path exp).

(** [FileReplayStore::cache_size]. *)
Definition file_cache_size (s : FileReplayStore) : Z :=
  match (active_entry_count (f_dir s)).1 with
  | Ok n => n
  | Err _ => 0%Z
  end.

#[export] Instance file_store : ReplayStore FileReplayStore := {
  check_and_record := file_check_and_record;
  cache_size := file_cache_size
}.

(** * What the directory holds *)

(** The expiry written in the file of a name. *)
Definition dir_exp (d : Dir) (name : string) : option Z :=
  match entries d !! name with
  | Some (RegularFile content) => parse_i64 (trim content)
  | _ => None
  end.

Definition file_held (s : FileReplayStore) (k : string) : option Z :=
  dir_exp (f_dir s) (replay_filename k).

End Store.

(** * Lemmas: what one call may do to the directory *)

(** [d'] is [d] less some files that had expired at [now]. *)
Definition swept (now : Z) (d d' : Dir) : Prop :=
  forall name, entries d' !! name = entries d !! name \/
    (entries d' !! name = None /\ exists e, dir_exp d name = Some e /\ (e < now)%Z).

Lemma swept_same now d d' : entries d' = entries d -> swept now d d'.
Proof. intros H name. left. by rewrite H. Qed.

Lemma swept_trans now d1 d2 d3 : swept now d1 d2 -> swept now d2 d3 -> swept now d1 d3.
Proof.
  intros H12 H23 name. destruct (H12 name) as [E|(E & e & He & Hl)].
  - destruct (H23 name) as [E2|(E2 & e & He & Hl)]; [left; congruence|].
    right. split; [done|]. exists e. split; [|done]. unfold dir_exp in *. by rewrite <- E.
  - destruct (H23 name) as [E2|(E2 & _)]; right; (split; [congruence|]); eauto.
Qed.

(** An operation that may only sweep. *)
Definition sweeps {A} (now : Z) (m : Eff Dir ReplayError A) : Prop :=
  forall d r d', m d = (r, d') -> swept now d d'.

Lemma sweeps_ret {A} now (a : A) : sweeps now (eff_ret a).
Proof. intros d r d' [= _ <-]. by apply swept_same. Qed.

Lemma sweeps_bind {A B} now (m : Eff Dir ReplayError A) (f : A -> Eff Dir ReplayError B) :
  sweeps now m -> (forall a, sweeps now (f a)) -> sweeps now (eff_bind m f).
Proof.
  intros Hm Hf d r d'. unfold eff_bind. destruct (m d) as [[a|e] d1] eqn:E.
  - intros H. eapply swept_trans; [by eapply Hm|by eapply Hf].
  - intros [= _ <-]. by eapply Hm.
Qed.

Lemma sweeps_read_dir now : sweeps now read_dir.
Proof. intros d r d'. unfold read_dir. case_match; intros [= _ <-]; by apply swept_same. Qed.

Lemma sweeps_next_entry now : sweeps now next_entry.
Proof. intros d r d'. unfold next_entry. case_match; intros [= _ <-]; by apply swept_same. Qed.

Lemma sweeps_is_file now name : sweeps now (is_file name).
Proof. intros d r d'. unfold is_file. case_match; intros [= _ <-]; by apply swept_same. Qed.

Lemma read_exp_spec name d r d' :
  read_exp name d = (r, d') ->
  entries d' = entries d /\ exists o, r = Ok o /\ (forall e, o = Some e -> dir_exp d name = Some e).
Proof.
  unfold read_exp, dir_exp. intros H. repeat case_match; simplify_eq; split; eauto; naive_solver.
Qed.

Lemma remove_spec name d r d' :
  remove_replay_file name d = (r, d') ->
  entries d' = entries d \/ entries d' = delete name (entries d).
Proof. unfold remove_replay_file. intros H. repeat case_match; simplify_eq; simpl; auto. Qed.

(** Reading an expiry and removing the file when it has passed. *)
Lemma sweeps_expire now name (P : option Z -> bool) :
  (forall e, P (Some e) = true -> (e < now)%Z) -> P None = false ->
  sweeps now (do! exp <- read_exp name in
              if P exp then remove_replay_file name else eff_ret tt).
Proof.
  intros HP Hn d r d'. unfold eff_bind. destruct (read_exp name d) as [ro d1] eqn:E.
  apply read_exp_spec in E as (Ee & o & -> & Ho). destruct (P o) eqn:Hp.
  - destruct o as [e|]; [|congruence]. intros Hr. apply remove_spec in Hr. rewrite Ee in Hr.
    intros n. destruct Hr as [Hr|Hr]; rewrite Hr; [by left|].
    destruct (decide (n = name)) as [->|]; [right|left; by rewrite lookup_delete_ne].
    rewrite lookup_delete_eq. split; [done|]. eauto.
  - intros [= _ <-]. by apply swept_same.
Qed.

Lemma sweeps_entry now name : sweeps now (sweep_entry now name).
Proof.
  unfold sweep_entry. apply sweeps_bind; [apply sweeps_next_entry|intros _].
  apply sweeps_bind; [apply sweeps_is_file|intros []; simpl; [|apply sweeps_ret]].
  apply sweeps_expire; [|done]. simpl. intros e He. by apply Z.ltb_lt.
Qed.

Lemma sweeps_names now names : sweeps now (sweep_names now names).
Proof.
  induction names; simpl; [apply sweeps_ret|]. apply sweeps_bind; [apply sweeps_entry|done].
Qed.

Lemma sweeps_file_sweep now : sweeps now (file_sweep_expired now).
Proof. apply sweeps_bind; [apply sweeps_read_dir|intros; apply sweeps_names]. Qed.

Lemma sweeps_count_names now names : forall c, sweeps now (count_names c names).
Proof.
  induction names as [|n names IH]; intros c; simpl; [apply sweeps_ret|].
  apply sweeps_bind; [apply sweeps_next_entry|intros _].
  apply sweeps_bind; [apply sweeps_is_file|intros; apply IH].
Qed.

Lemma sweeps_count now : sweeps now active_entry_count.
Proof. apply sweeps_bind; [apply sweeps_read_dir|intros; apply sweeps_count_names]. Qed.

(** The same for operations of the store, which also keep its bound. *)
Definition store_sweeps {A} (now : Z) (m : Eff FileReplayStore ReplayError A) : Prop :=
  forall s r s', m s = (r, s') -> swept now (f_dir s) (f_dir s').

Lemma on_dir_sweeps {A} now (m : Eff Dir ReplayError A) : sweeps now m -> store_sweeps now (on_dir m).
Proof.
  intros Hm s r s'. unfold on_dir. destruct (m (f_dir s)) as [r1 d1] eqn:E.
  intros [= _ <-]. by eapply Hm.
Qed.

Lemma maybe_sweep_sweeps now : store_sweeps now (maybe_sweep now).
Proof.
  intros s r s'. unfold maybe_sweep. destruct (lock (f_calls_since_sweep s)) as [c|].
  - case_match; [|intros [= _ <-]; by apply swept_same].
    unfold eff_bind. destruct (on_dir (file_sweep_expired now) (set_calls (c + 1) s)) as [r1 s1] eqn:E.
    apply (on_dir_sweeps now _ (sweeps_file_sweep now)) in E. simpl in E.
    destruct r1; intros [= _ <-]; done.
  - intros [= _ <-]. by apply swept_same.
Qed.

(** An operation that sweeps and then, at most, creates the file [path], which
    is not there at that point; it returns [Ok] only with the whole line
    written. *)
Definition records (now : Z) (path line : string) (m : Eff FileReplayStore ReplayError unit) : Prop :=
  forall s r s', m s = (r, s') -> exists d1, swept now (f_dir s) d1 /\
    ((entries (f_dir s') = entries d1 /\ r <> Ok tt) \/
     (entries d1 !! path = None /\ exists c,
        entries (f_dir s') = <[path := RegularFile c]> (entries d1) /\ (r = Ok tt -> c = line))).

Lemma records_bind {A} now path line (m : Eff FileReplayStore ReplayError A) f :
  store_sweeps now m -> (forall a, records now path line (f a)) ->
  records now path line (eff_bind m f).
Proof.
  intros Hm Hf s r s'. unfold eff_bind. destruct (m s) as [[a|e] s1] eqn:E.
  - intros H. apply Hf in H as (d1 & Hs & Hr). exists d1. split; [|done].
    eapply swept_trans; [by eapply Hm|done].
  - intros [= <- <-]. exists (f_dir s1). split; [by eapply Hm|]. by left.
Qed.

Lemma records_err now path line e : records now path line (eff_err e).
Proof. intros s r s' [= <- <-]. exists (f_dir s). split; [by apply swept_same|]. by left. Qed.

Lemma records_create now path exp :
  records now path (to_string exp +:+ newline) (on_dir (create_new_and_write path exp)).
Proof.
  intros s r s'. unfold on_dir, create_new_and_write. intros H. exists (f_dir s).
  split; [by apply swept_same|].
  destruct (negb (dir_present (f_dir s)) || faulty (f_dir s))%bool; [injection H as <- <-; by left|].
  destruct (entries (f_dir s) !! path) eqn:Hp; [injection H as <- <-; by left|].
  right. split; [done|].
  destruct (faulty (tick (f_dir s))); injection H as <- <-; eexists; (split; [done|]); done.
Qed.

Lemma store_sweeps_ret {A} now (a : A) : store_sweeps now (eff_ret a).
Proof. intros s r s' [= _ <-]. by apply swept_same. Qed.

Section Laws.
Context `{Sha256}.

Lemma file_records jti exp now :
  records now (replay_filename jti) (to_string exp +:+ newline) (file_check_and_record jti exp now).
Proof.
  unfold file_check_and_record. case_match; [apply records_err|].
  apply records_bind; [apply maybe_sweep_sweeps|intros _].
  apply records_bind; [apply on_dir_sweeps, sweeps_count|intros count].
  apply records_bind; [intros s r s' [= _ <-]; by apply swept_same|intros max].
  apply records_bind; [case_match; [apply on_dir_sweeps, sweeps_file_sweep|apply store_sweeps_ret]|intros _].
  apply records_bind; [apply on_dir_sweeps, sweeps_count|intros count2].
  case_match; [apply records_err|].
  intros s r s' Hrun.
  (* the read and the removal together only sweep *)
  assert (Hex : store_sweeps now (on_dir
    (do! exp0 <- read_exp (replay_filename jti) in
     if is_some_and (fun e => e <? now)%Z exp0 then remove_replay_file (replay_filename jti)
     else eff_ret tt))).
  { apply on_dir_sweeps, sweeps_expire; [|done]. intros e He. by apply Z.ltb_lt. }
  eapply (records_bind now _ _ _ (fun _ => on_dir (create_new_and_write (replay_filename jti) exp)) Hex
            (fun _ => records_create now _ exp)).
  revert Hrun. unfold eff_bind, on_dir.
  destruct (read_exp (replay_filename jti) (f_dir s)) as [[o|e] d1]; [|done].
  destruct (is_some_and _ o); simpl; [|done].
  by destruct (remove_replay_file (replay_filename jti) d1) as [[]].
Qed.

Lemma dir_exp_live now d d1 name e :
  swept now d d1 -> dir_exp d name = Some e -> (now <= e)%Z -> entries d1 !! name = entries d !! name.
Proof. intros Hs He Hl. destruct (Hs name) as [|(_ & e' & He' & Hlt)]; [done|]. naive_solver lia. Qed.

#[export] Instance file_laws : ReplayStoreLaws FileReplayStore.
Proof.
  refine {| store_ok _ := True; held := file_held |}.
  - done.
  - intros s jti exp now s' _ Hx Hrun. apply file_records in Hrun as (d1 & Hs & [[_ ?]|Hr]); [done|].
    destruct Hr as (Hn & c & He & Hc). rewrite (Hc eq_refl) in He.
    unfold file_held, dir_exp at 1. rewrite He, lookup_insert_eq, parse_trim_line by done.
    split; [done|]. intros e Hh. destruct (Hs (replay_filename jti)) as [E|(_ & e' & He' & Hlt)].
    + unfold dir_exp in Hh. rewrite <- E, Hn in Hh. done.
    + naive_solver.
  - intros s jti exp now r s' k e _ Hx Hrun Hh Hl.
    apply file_records in Hrun as (d1 & Hs & Hr). unfold file_held in *.
    pose proof (dir_exp_live _ _ _ _ _ Hs Hh Hl) as Hk. unfold dir_exp.
    destruct Hr as [[-> _]|(Hn & c & -> & _)].
    + rewrite Hk. done.
    + destruct (decide (replay_filename k = replay_filename jti)) as [E|Hne].
      * rewrite E, Hn in Hk. unfold dir_exp in Hh. rewrite E, <- Hk in Hh. done.
      * rewrite lookup_insert_ne by done. rewrite Hk. done.
Defined.

End Laws.

(** A directory without I/O errors. *)
Definition healthy_dir (e : gmap string Entry) : Dir := mkDir true e (fun _ => false) (fun _ => 0) 0.

(** * Properties *)

(** C33: for every pattern of I/O errors, a call on the file store changes the
    directory only by removing files whose recorded expiry has passed and by
    creating the key's own file; it returns [Ok] only when that file was not
    there with a live expiry and now holds exactly the expiry given. *)
Theorem file_store_step_safe {HS : Sha256} (s s' : FileReplayStore) (jti : string) (exp now : Z)
    (r : result ReplayError unit) :
  in_i64 exp -> file_check_and_record jti exp now s = (r, s') ->
  (forall name, name <> replay_filename jti ->
     entries (f_dir s') !! name = entries (f_dir s) !! name \/
     (entries (f_dir s') !! name = None /\
      exists e, dir_exp (f_dir s) name = Some e /\ (e < now)%Z)) /\
  (forall e, file_held s jti = Some e -> (now <= e)%Z ->
     r <> Ok tt /\ file_held s' jti = Some e) /\
  (r = Ok tt -> file_held s' jti = Some exp).
Proof.
  intros Hx Hrun. assert (Hok : @store_ok FileReplayStore _ file_laws s) by exact I.
  split_and!.
  - intros name Hn. apply file_records in Hrun as (d1 & Hs & Hr).
    specialize (Hs name).
    destruct Hr as [[-> _]|(_ & c & -> & _)]; [done|]. by rewrite lookup_insert_ne.
  - intros e He Hl. split; [|by eapply (live_kept s jti exp now r s' jti e Hok Hx Hrun)].
    intros ->. pose proof (record_fresh s jti exp now s' Hok Hx Hrun) as [_ Hf].
    specialize (Hf e He). lia.
  - intros ->. apply (record_fresh s jti exp now s' Hok Hx Hrun).
Qed.

Lemma file_store_step_safe_witness :
  let s := mkFileStore (healthy_dir ∅) 8 4 (mutex_new 0%Z) in
  let s' := (@file_check_and_record (fun x => x) "jti-1" 10 1 s).2 in
  @file_held (fun x => x) s' "jti-1" = Some 10%Z.
Proof.
  intros s s'.
  apply (@file_store_step_safe (fun x => x) s s' "jti-1" 10 1 (Ok tt)).
  - i64_tac.
  - vm_compute. reflexivity.
  - reflexivity.
Defined.

(** a replay file whose text is not a number (a write that failed half
    way) is never swept: whatever calls are made, it stays, and its key is
    refused for good. *)
Theorem file_store_broken_entry_blocks {HS : Sha256} (s : FileReplayStore) (calls : list Call)
    (jti content : string) (exp now : Z) :
  Forall (fun c => in_i64 (c_exp c)) calls -> in_i64 exp ->
  entries (f_dir s) !! replay_filename jti = Some (RegularFile content) ->
  parse_i64 (trim content) = None ->
  let s1 := run_calls calls s in
  entries (f_dir s1) !! replay_filename jti = Some (RegularFile content) /\
  (check_and_record jti exp now s1).1 <> Ok tt.
Proof.
  intros Hc Hx He Hp.
  assert (Hstep : forall s jti' exp' now' r s', in_i64 exp' ->
    entries (f_dir s) !! replay_filename jti = Some (RegularFile content) ->
    file_check_and_record jti' exp' now' s = (r, s') ->
    entries (f_dir s') !! replay_filename jti = Some (RegularFile content) /\
    (jti' = jti -> r <> Ok tt)).
  { intros s0 jti' exp' now' r s' Hx' He0 Hrun.
    apply file_records in Hrun as (d1 & Hs & Hr).
    assert (Hd1 : entries d1 !! replay_filename jti = Some (RegularFile content)).
    { destruct (Hs (replay_filename jti)) as [E|(_ & e & Hd & _)]; [by rewrite E|].
      unfold dir_exp in Hd. rewrite He0 in Hd. congruence. }
    destruct Hr as [[-> Hn]|(Hn & c & -> & _)]; [done|].
    destruct (decide (replay_filename jti' = replay_filename jti)) as [E|Hne].
    - rewrite E in Hn. congruence.
    - rewrite lookup_insert_ne by done. split; [done|]. intros ->. done. }
  assert (Hrun : entries (f_dir (run_calls calls s)) !! replay_filename jti = Some (RegularFile content)).
  { clear Hx. revert s He. induction Hc as [|c calls Hxc Hc IH]; intros s He; [done|]. simpl.
    apply IH. destruct (file_check_and_record _ _ _ s) as [r s'] eqn:E. by eapply Hstep. }
  split; [done|]. destruct (check_and_record jti exp now (run_calls calls s)) as [r s'] eqn:E.
  simpl. by eapply (Hstep _ jti exp now r s').
Qed.

Lemma file_store_broken_entry_blocks_witness :
  let sha : Sha256 := fun x => x in
  let s := mkFileStore (healthy_dir {[@replay_filename sha "j" := RegularFile ""]}) 8 4 (mutex_new 0%Z) in
  (@file_check_and_record sha "j" 10 1 s).1 <> Ok tt.
Proof.
  intros sha s.
  apply (@file_store_broken_entry_blocks sha s [] "j" "" 10 1).
  - constructor.
  - i64_tac.
  - apply lookup_singleton_eq.
  - reflexivity.
Defined.
