(* ===== verification/FileRace.v ===== *)
(** crates/sts-replay, [FileReplayStore::check_and_record] run by several
    processes at once on one shared directory.

    A process is a program counter over the system calls of [FileReplay]; one
    step of the system is one system call of one process, so every
    interleaving is a run.  What a walk reports while others make and remove
    files is left open: the names, and by a relation [counts] the number of
    files; the calls that the race is about are exact.  A short [write] is taken
    to be atomic; a write that fails leaves the file empty. *)

From S2P Require Import Prelude RustStr Replay.

Inductive Pc : Type :=
| Start
| Sweep (names : list string) (again : bool)
| SweepRemove (name : string) (names : list string) (again : bool)
| Count (again : bool)
| Look
| Remove
| Create
| Write
| Done (r : result ReplayError unit).

(** [p_due]: the process's own counter of calls says that it sweeps now. *)
Record Proc : Type := mkProc { p_jti : string; p_exp : Z; p_now : Z; p_due : bool; p_pc : Pc }.

Definition at_pc (c : Pc) (p : Proc) : Proc := mkProc (p_jti p) (p_exp p) (p_now p) (p_due p) c.

Record Sys : Type := mkSys { files : gmap string string; procs : list Proc }.

(** Whether a file's text is an expiry before [now]. *)
Definition expired (now : Z) (content : option string) : bool :=
  match content with
  | Some text => is_some_and (fun e => e <? now)%Z (parse_i64 (trim text))
  | None => false
  end.

Definition replay_detected : ReplayError := mkReplayError ReplayDetected "actor_token replay detected".

Section Race.
Context `{Sha256} (max_seen : nat) (counts : gmap string string -> nat -> Prop).

Definition p_path (p : Proc) : string := replay_filename (p_jti p).

(** One system call of a process: the files and its counter before and after. *)
Inductive pstep (p : Proc) (fs : gmap string string) : Pc -> Pc -> gmap string string -> Prop :=
| step_blank : is_empty (trim (p_jti p)) = true ->
    pstep p fs Start (Done (Err (mkReplayError RInvalidRequest "jti must not be empty"))) fs
| step_start : is_empty (trim (p_jti p)) = false -> p_due p = false -> pstep p fs Start (Count true) fs
(* a walk may or may not report what other processes make or remove meanwhile *)
| step_start_sweep names : is_empty (trim (p_jti p)) = false -> p_due p = true ->
    pstep p fs Start (Sweep names true) fs
| step_sweep_end again : pstep p fs (Sweep [] again) (Count again) fs
| step_sweep_skip name names again : expired (p_now p) (fs !! name) = false ->
    pstep p fs (Sweep (name :: names) again) (Sweep names again) fs
| step_sweep_hit name names again : expired (p_now p) (fs !! name) = true ->
    pstep p fs (Sweep (name :: names) again) (SweepRemove name names again) fs
(* [read_exp] is [None] when the file cannot be read *)
| step_sweep_unread name names again :
    pstep p fs (Sweep (name :: names) again) (Sweep names again) fs
| step_sweep_remove name names again :
    pstep p fs (SweepRemove name names again) (Sweep names again) (delete name fs)
| step_count_full n names : counts fs n -> max_seen <= n -> pstep p fs (Count true) (Sweep names false) fs
| step_count_room n : counts fs n -> n < max_seen -> pstep p fs (Count true) (Count false) fs
| step_full n : counts fs n -> max_seen <= n ->
    pstep p fs (Count false) (Done (Err (mkReplayError StoreFull "replay store full, retry shortly"))) fs
| step_room n : counts fs n -> n < max_seen -> pstep p fs (Count false) Look fs
| step_look_expired : expired (p_now p) (fs !! p_path p) = true -> pstep p fs Look Remove fs
| step_look_other : expired (p_now p) (fs !! p_path p) = false -> pstep p fs Look Create fs
| step_look_unread : pstep p fs Look Create fs
| step_remove : pstep p fs Remove Create (delete (p_path p) fs)
| step_create : fs !! p_path p = None -> pstep p fs Create Write (<[p_path p := EmptyString]> fs)
| step_exists text : fs !! p_path p = Some text -> pstep p fs Create (Done (Err replay_detected)) fs
(* the descriptor stays valid when the name has been unlinked meanwhile *)
| step_write text : fs !! p_path p = Some text ->
    pstep p fs Write (Done (Ok tt)) (<[p_path p := to_string (p_exp p) +:+ newline]> fs)
| step_write_unlinked : pstep p fs Write (Done (Ok tt)) fs
| step_io_error c : (forall r, c <> Done r) -> c <> Look -> (c = Start -> is_empty (trim (p_jti p)) = false) ->
    pstep p fs c (Done (Err replay_store_unavailable)) fs.

(** One step of the system: any process that has not finished moves. *)
Inductive step (s : Sys) : Sys -> Prop :=
| step_at i p c fs : procs s !! i = Some p -> pstep p (files s) (p_pc p) c fs ->
    step s (mkSys fs (<[i := at_pc c p]> (procs s))).

Definition idle (s : Sys) : Prop := Forall (fun p => p_pc p = Start) (procs s).

(** Process [i] was told that the key is new. *)
Definition wins (k : string) (s : Sys) (i : nat) : Prop :=
  exists p, procs s !! i = Some p /\ p_path p = replay_filename k /\ p_pc p = Done (Ok tt).

(** * Lemmas *)

(** Process [i] has created the key's file and not failed since. *)
Definition owns (path : string) (s : Sys) (i : nat) : Prop :=
  exists p, procs s !! i = Some p /\ p_path p = path /\ (p_pc p = Write \/ p_pc p = Done (Ok tt)).

(** Every expiry that a process may write to the file is live for all. *)
Definition all_live (path : string) (s : Sys) : Prop :=
  forall p q, p ∈ procs s -> q ∈ procs s -> p_path p = path ->
    in_i64 (p_exp p) /\ (p_now q <= p_exp p)%Z.

Definition race_inv (path : string) (s : Sys) : Prop :=
  all_live path s /\
  (forall p, p ∈ procs s -> expired (p_now p) (files s !! path) = false) /\
  (forall p, p ∈ procs s -> (p_pc p = Remove -> p_path p <> path) /\
     (forall names again, p_pc p <> SweepRemove path names again)) /\
  (files s !! path = None -> forall i, ~ owns path s i) /\
  (forall i j, owns path s i -> owns path s j -> i = j).

Lemma expired_line now e : in_i64 e -> (now <= e)%Z ->
  expired now (Some (to_string e +:+ newline)) = false.
Proof. intros He Hn. unfold expired. rewrite parse_trim_line by done. simpl. lia. Qed.

Lemma elem_of_step i p p0 c (l : list Proc) :
  l !! i = Some p -> p0 ∈ <[i := at_pc c p]> l ->
  p0 = at_pc c p \/ p0 ∈ l.
Proof. intros Hi [j [[]|[]]%list_lookup_insert_Some]%list_elem_of_lookup; naive_solver eauto using list_elem_of_lookup_2. Qed.

(** Every process of the next state keeps the parameters of one of this one. *)
Lemma procs_step i p p0 c (l : list Proc) :
  l !! i = Some p -> p0 ∈ <[i := at_pc c p]> l ->
  exists p1, p1 ∈ l /\ p_jti p0 = p_jti p1 /\ p_exp p0 = p_exp p1 /\ p_now p0 = p_now p1 /\
    (p_pc p0 = p_pc p1 \/ (p1 = p /\ p_pc p0 = c)).
Proof.
  intros Hi [->|H0]%(elem_of_step i p); [| |done].
  - exists p. split_and!; eauto using list_elem_of_lookup_2.
  - exists p0. split_and!; eauto.
Qed.

Lemma all_live_step path s s' : all_live path s -> step s s' -> all_live path s'.
Proof.
  intros Hl [i p c fs Hi _] p0 q0 Hp Hq Hpath. simpl in *.
  apply (procs_step i p) in Hp as (p1 & Hp1 & Hj & He & _); [|done].
  apply (procs_step i p) in Hq as (q1 & Hq1 & _ & _ & Hn & _); [|done].
  rewrite He, Hn. apply Hl; [done..|]. unfold p_path in *. congruence.
Qed.

(** What one call may do to the key's file. *)
Lemma pstep_file path p fs c c' fs' :
  pstep p fs c c' fs' -> (c = Remove -> p_path p <> path) ->
  (forall names again, c <> SweepRemove path names again) ->
  fs' !! path = fs !! path \/
  (p_path p = path /\ c = Create /\ c' = Write /\ fs !! path = None /\ fs' !! path = Some EmptyString) \/
  (p_path p = path /\ c = Write /\ c' = Done (Ok tt) /\ is_Some (fs !! path) /\
   fs' !! path = Some (to_string (p_exp p) +:+ newline)).
Proof.
  intros Hs Hr Hw. destruct Hs; auto.
  - left. apply lookup_delete_ne. intros ->. by eapply Hw.
  - left. apply lookup_delete_ne. auto.
  - destruct (decide (p_path p = path)) as [<-|]; [|left; by apply lookup_insert_ne].
    right; left. rewrite lookup_insert_eq. auto.
  - destruct (decide (p_path p = path)) as [<-|]; [|left; by apply lookup_insert_ne].
    right; right. rewrite lookup_insert_eq. eauto 10.
Qed.

Lemma owns_step path (s : Sys) i p c fs j :
  procs s !! i = Some p -> owns path (mkSys fs (<[i := at_pc c p]> (procs s))) j ->
  (j <> i /\ owns path s j) \/ (j = i /\ p_path p = path /\ (c = Write \/ c = Done (Ok tt))).
Proof.
  intros Hi (q & Hq & Hpath & Hpc). simpl in Hq.
  destruct (decide (j = i)) as [->|Hne].
  - right. rewrite list_lookup_insert_eq in Hq by (by eapply lookup_lt_Some).
    simplify_eq. eauto.
  - left. rewrite list_lookup_insert_ne in Hq by done. split; [done|]. by exists q.
Qed.

(** Reaching an owning counter: by creating the file, or by writing after it. *)
Lemma pstep_own p fs c c' fs' :
  pstep p fs c c' fs' -> c' = Write \/ c' = Done (Ok tt) ->
  (c = Create /\ fs !! p_path p = None /\ fs' !! p_path p = Some EmptyString) \/ c = Write.
Proof.
  intros Hs Hc. destruct Hs; destruct Hc; try done; auto.
  left. by rewrite lookup_insert_eq.
Qed.

Lemma race_inv_step path s s' : race_inv path s -> step s s' -> race_inv path s'.
Proof.
  intros (Hl & Hexp & Hrm & Hnone & Huniq) Hst.
  pose proof (all_live_step _ _ _ Hl Hst) as Hl'. destruct Hst as [i p c fs Hi Hp].
  assert (Hin : p ∈ procs s) by (by eapply list_elem_of_lookup_2).
  destruct (Hrm p Hin) as [Hr1 Hr2].
  pose proof (pstep_file path p _ _ _ _ Hp Hr1 Hr2) as Hf.
  assert (Hown : forall j, owns path (mkSys fs (<[i := at_pc c p]> (procs s))) j ->
    owns path s j \/ (j = i /\ p_path p = path /\ files s !! path = None /\ fs !! path = Some EmptyString)).
  { intros j Hj. apply (owns_step path s i p) in Hj as [[_ ?]|(-> & <- & Hc)]; [auto| |done].
    destruct (pstep_own _ _ _ _ _ Hp Hc) as [(_ & ? & ?)|Hw]; [auto|]. left. exists p. auto. }
  split_and!; simpl.
  - done.
  - intros q Hq. apply (procs_step i p) in Hq as (q1 & Hq1 & _ & _ & Hn & _); [|done]. rewrite Hn.
    destruct Hf as [->|[(_ & _ & _ & _ & ->)|(Hpath & _ & _ & _ & ->)]]; [by apply Hexp|done|].
    destruct (Hl p q1 Hin Hq1 Hpath). by apply expired_line.
  - intros q Hq. apply (procs_step i p) in Hq as (q1 & Hq1 & Hj & _ & _ & [Hc|[-> Hc]]); [| |done].
    + destruct (Hrm q1 Hq1). unfold p_path in *. rewrite Hj, Hc. auto.
    + rewrite Hc. unfold p_path at 1. rewrite Hj. change (replay_filename (p_jti p)) with (p_path p).
      pose proof (Hexp p Hin) as He.
      split; [intros -> | intros names again ->]; inversion Hp; subst; intros; [|congruence].
      intros Hpath. rewrite Hpath in *. congruence.
  - intros Hno j Hj. destruct (Hown j Hj) as [Ho|(_ & _ & _ & Hs)]; [|congruence].
    destruct Hf as [E|[(_ & _ & _ & _ & E)|(_ & _ & _ & _ & E)]]; rewrite E in Hno; try done.
    by eapply Hnone.
  - intros j1 j2 H1 H2. destruct (Hown j1 H1) as [O1|(-> & _ & N1 & _)], (Hown j2 H2) as [O2|(-> & _ & N2 & _)];
      [by apply Huniq|exfalso; by eapply Hnone..|done].
Qed.

Lemma race_inv_init path s : idle s -> all_live path s -> files s !! path = None -> race_inv path s.
Proof.
  unfold idle. rewrite Forall_forall. intros Hi Hl Hn.
  assert (Hno : forall i, ~ owns path s i).
  { intros i (p & Hp & _ & Hpc). apply list_elem_of_lookup_2, Hi in Hp. destruct Hpc; congruence. }
  split_and!; [done| | |auto|].
  - intros p _. by rewrite Hn.
  - intros p Hp. rewrite (Hi p Hp). done.
  - intros i j Ho. by destruct (Hno i).
Qed.

(** ** Every race ends *)

(** What is left to do: the stage, and the calls left in it. *)
Definition stage (c : Pc) : nat :=
  match c with
  | Start => 4
  | Sweep _ true | SweepRemove _ _ true => 3
  | Count true => 2
  | Sweep _ false | SweepRemove _ _ false => 1
  | _ => 0
  end.
Definition left (c : Pc) : nat :=
  match c with
  | Sweep names _ => 2 * length names + 7
  | SweepRemove _ names _ => 2 * length names + 8
  | Count _ => 6
  | Look => 5
  | Remove => 4
  | Create => 3
  | Write => 2
  | Start => 1
  | Done _ => 0
  end.
Definition nearer (c' c : Pc) : Prop := stage c' < stage c \/ stage c' = stage c /\ left c' < left c.

Lemma nearer_wf : well_founded nearer.
Proof.
  intros c. remember (stage c) as n eqn:Hn. revert c Hn. induction (lt_wf n) as [n _ IHn].
  intros c Hn. remember (left c) as m eqn:Hm. revert c Hn Hm. induction (lt_wf m) as [m _ IHm].
  intros c -> ->. constructor. intros c' [Hs|[Hs Hl]]; [by eapply IHn|by eapply IHm].
Qed.

Lemma pstep_nearer p fs c c' fs' : pstep p fs c c' fs' -> nearer c' c.
Proof.
  unfold nearer. destruct 1 as [| | |[]| | | | | | | | | | | | | | | | |[] Hc]; cbn; try lia;
    repeat match goal with b : bool |- _ => destruct b end; try lia. by destruct (Hc r).
Qed.

(** One element of a list moves on. *)
Definition one_nearer (l' l : list Pc) : Prop := exists i c c', l !! i = Some c /\ nearer c' c /\ l' = <[i := c']> l.

Lemma one_nearer_acc l : Acc one_nearer l.
Proof.
  induction l as [|c l IHl]; [constructor; intros l' (i & c & c' & Hi & _); by rewrite lookup_nil in Hi|].
  revert l IHl. induction (nearer_wf c) as [c _ IHc]. intros l IHl. induction IHl as [l Hl IHl'].
  constructor. intros l' ([|i] & d & d' & Hi & Hd & ->); cbn in Hi |- *.
  - injection Hi as <-. apply IHc; [done|]. by constructor.
  - apply IHl'. by exists i, d, d'.
Qed.

Lemma step_ends s : sn step s.
Proof.
  remember (p_pc <$> procs s) as l eqn:Hl. revert s Hl. induction (one_nearer_acc l) as [l _ IH].
  intros s ->. constructor. intros s' [i p c fs Hi Hp]. eapply IH; [|reflexivity].
  exists i, (p_pc p), c. cbn [procs]. rewrite list_lookup_fmap, Hi, list_fmap_insert.
  split_and!; [done|by eapply pstep_nearer|done].
Qed.

(** A process that has not finished can make a call, if only one that fails. *)
Lemma pstep_progress p fs c : (forall r, c <> Done r) -> exists c' fs', pstep p fs c c' fs'.
Proof.
  intros Hc. assert (Hio : c <> Look -> (c = Start -> is_empty (trim (p_jti p)) = false) -> exists c' fs', pstep p fs c c' fs').
  { intros Hl Hs. do 2 eexists. by apply step_io_error. }
  destruct c as [| | | | | | | |r]; try (by apply Hio); [|by do 2 eexists; apply step_look_unread].
  destruct (is_empty (trim (p_jti p))) eqn:Hb; [do 2 eexists; by constructor|by apply Hio].
Qed.

Lemma all_answered s : nf step s -> Forall (fun p => exists r, p_pc p = Done r) (procs s).
Proof.
  intros Hnf. apply Forall_lookup. intros i p Hi.
  destruct (p_pc p) as [| | | | | | | |r] eqn:Hpc; [..|by exists r]; exfalso; apply Hnf;
    destruct (pstep_progress p (files s) (p_pc p)) as (c & fs & Hp); try (rewrite Hpc; discriminate);
    eexists; econstructor; eassumption.
Qed.

(** ** Somebody wins *)

(** Some process has created the key's file, or was stopped by an I/O error. *)
Definition tried (path : string) (s : Sys) : Prop :=
  exists i p, procs s !! i = Some p /\ p_path p = path /\
    p_pc p ∈ [Write; Done (Ok tt); Done (Err replay_store_unavailable)].

Definition tried_inv (path : string) (s : Sys) : Prop :=
  (files s !! path = None \/ tried path s) /\
  forall p, p ∈ procs s -> p_path p = path -> p_pc p = Done (Err replay_detected) -> tried path s.

Lemma tried_step path s s' : tried path s -> step s s' -> tried path s'.
Proof.
  intros (j & q & Hj & Hpath & Hpc) [i p c fs Hi Hp]. destruct (decide (j = i)) as [->|Hne].
  - replace p with q in * by congruence. exists i, (at_pc c q). cbn [procs].
    rewrite list_lookup_insert_eq by (by eapply lookup_lt_Some). split_and!; [done|done|]. cbn [at_pc p_pc].
    repeat (apply elem_of_cons in Hpc as [Hpc|Hpc]; [rewrite Hpc in Hp; inversion Hp; subst; set_solver|]).
    by apply not_elem_of_nil in Hpc.
  - exists j, q. cbn [procs]. by rewrite list_lookup_insert_ne by done.
Qed.

(** Where the file comes from, and who is refused. *)
Lemma pstep_source path p fs c c' fs' :
  pstep p fs c c' fs' ->
  (fs !! path = None -> fs' !! path = None \/ (p_path p = path /\ c' = Write)) /\
  (c' = Done (Err replay_detected) -> is_Some (fs !! p_path p)).
Proof.
  intros Hs. split.
  - intros Hn. destruct Hs; auto.
    + left. by rewrite lookup_delete_None; right.
    + left. by rewrite lookup_delete_None; right.
    + destruct (decide (p_path p = path)) as [->|]; [auto|]. left. by rewrite lookup_insert_ne.
    + left. rewrite lookup_insert_ne; [done|]. intros Heq. congruence.
  - intros ->. inversion Hs; eauto.
Qed.

Lemma tried_inv_step path s s' : tried_inv path s -> step s s' -> tried_inv path s'.
Proof.
  intros [Hf Hd] Hst. pose proof (fun Ht => tried_step path s s' Ht Hst) as Hkeep.
  destruct Hst as [i p c fs Hi Hp]. destruct (pstep_source path _ _ _ _ _ Hp) as [Hsrc Hex]. split; cbn [files procs].
  - destruct Hf as [Hf|Hf]; [|by right; apply Hkeep]. destruct (Hsrc Hf) as [?|[Hpath ->]]; [by left|right].
    exists i, (at_pc Write p). cbn [procs]. rewrite list_lookup_insert_eq by (by eapply lookup_lt_Some).
    split_and!; [done|done|]. by left.
  - intros q Hq Hpath Hpc. apply Hkeep. apply (elem_of_step i p) in Hq as [->|Hq]; [|by eapply Hd|done].
    cbn in Hpc. destruct (Hex Hpc) as [text Ht]. change (p_path (at_pc c p)) with (p_path p) in Hpath.
    rewrite Hpath in Ht. destruct Hf; [congruence|done].
Qed.

Lemma tried_inv_init path s : idle s -> files s !! path = None -> tried_inv path s.
Proof.
  unfold idle. rewrite Forall_forall. intros Hi Hn. split; [by left|].
  intros p Hp _ Hpc. by rewrite (Hi p Hp) in Hpc.
Qed.

(** * Properties *)

(** C20: A race on a key that is not recorded is decided: no run is infinite,
    however the calls interleave and whatever the walks meet; where a run ends
    every process has its answer; and if none that asked for the key was stopped
    by an I/O error or a full directory, each having been told that the key is
    new or that it is a replay, then exactly one of them was told that it is
    new. *)
Theorem race_decided (k : string) (s0 : Sys) :
  idle s0 -> files s0 !! replay_filename k = None -> all_live (replay_filename k) s0 ->
  sn step s0 /\
  forall s, rtc step s0 s -> nf step s ->
    Forall (fun p => exists r, p_pc p = Done r) (procs s) /\
    ((exists p, p ∈ procs s /\ p_path p = replay_filename k) ->
     (forall p, p ∈ procs s -> p_path p = replay_filename k -> p_pc p ∈ [Done (Ok tt); Done (Err replay_detected)]) ->
     exists i, wins k s i /\ forall j, wins k s j -> i = j).
Proof.
  intros Hi Hn Hl. split; [apply step_ends|]. intros s Hr Hnf. split; [by apply all_answered|].
  assert (Hinv : race_inv (replay_filename k) s /\ tried_inv (replay_filename k) s).
  { pose proof (race_inv_init _ _ Hi Hl Hn) as I1. pose proof (tried_inv_init _ _ Hi Hn) as I2. clear Hnf Hi Hl Hn.
    induction Hr as [s|s1 s2 s3 Hs _ IH]; [done|]. eauto using race_inv_step, tried_inv_step. }
  destruct Hinv as [(_ & _ & _ & _ & Huniq) [_ Hd]]. intros (p & Hp & Hpath) Hall.
  assert (Ht : tried (replay_filename k) s).
  { pose proof (Hall p Hp Hpath) as Hpc. apply elem_of_cons in Hpc as [Hpc|Hpc%list_elem_of_singleton]; [|by eapply Hd].
    apply list_elem_of_lookup in Hp as [i Hp]. exists i, p. rewrite Hpc. split_and!; [done|done|]. right; by left. }
  destruct Ht as (i & q & Hq & Hqp & Hpc). exists i.
  assert (Hw : p_pc q = Done (Ok tt)).
  { pose proof (Hall q (list_elem_of_lookup_2 _ _ _ Hq) Hqp) as Hqc.
    apply elem_of_cons in Hqc as [Hqc|Hqc%list_elem_of_singleton]; [done|].
    rewrite Hqc in Hpc. by repeat (apply elem_of_cons in Hpc as [[=]|Hpc]); apply not_elem_of_nil in Hpc. }
  split; [by exists q|]. intros j (q' & ? & ? & ?). apply Huniq; [exists q|exists q']; auto.
Qed.

(** C21: when the key is not recorded and no process brings an expiry that some
    process takes for passed, at most one of any number of racing processes is
    told that the key is new, in every interleaving of their system calls. *)
Theorem race_one_winner (k : string) (s0 s : Sys) (i j : nat) :
  idle s0 -> files s0 !! replay_filename k = None -> all_live (replay_filename k) s0 ->
  rtc step s0 s -> wins k s i -> wins k s j -> i = j.
Proof.
  intros Hi Hn Hl Hr. pose proof (race_inv_init _ _ Hi Hl Hn) as Hinv. clear Hi Hn Hl.
  induction Hr as [s|s1 s2 s3 Hs _ IH]; [|by eauto using race_inv_step].
  destruct Hinv as (_ & _ & _ & _ & Huniq).
  intros (p & ? & ? & ?) (q & ? & ? & ?). apply Huniq; [exists p|exists q]; auto.
Qed.

(** One call of the first or the second of two processes. *)
Lemma first_moves fs p q c fs' s : pstep p fs (p_pc p) c fs' ->
  rtc step (mkSys fs' [at_pc c p; q]) s -> rtc step (mkSys fs [p; q]) s.
Proof. intros Hp Hs. eapply rtc_l; [|exact Hs]. exact (step_at (mkSys fs [p; q]) 0 p c fs' eq_refl Hp). Qed.
Lemma second_moves fs p q c fs' s : pstep q fs (p_pc q) c fs' ->
  rtc step (mkSys fs' [p; at_pc c q]) s -> rtc step (mkSys fs [p; q]) s.
Proof. intros Hp Hs. eapply rtc_l; [|exact Hs]. exact (step_at (mkSys fs [p; q]) 1 q c fs' eq_refl Hp). Qed.

(** C37: "exactly one winner" does not hold for a key whose recorded expiry has
    passed for both processes, whatever the key, the record, the other files and
    the hash are, as long as there is room and neither sweeps now: both see the
    old file and remove it one after the other, the second removing what the
    first has just recorded, and both are told that the key is new. *)
Theorem race_two_winners (k text : string) (fs : gmap string string) (n : nat) (e1 now1 e2 now2 : Z) :
  trim k <> "" -> fs !! replay_filename k = Some text ->
  expired now1 (Some text) = true -> expired now2 (Some text) = true -> counts fs n -> n < max_seen ->
  exists s, rtc step (mkSys fs [mkProc k e1 now1 false Start; mkProc k e2 now2 false Start]) s /\
    wins k s 0 /\ wins k s 1.
Proof.
  intros Hk%is_empty_false Hf Hx1 Hx2 Hn Hroom.
  eexists (mkSys _ [mkProc k e1 now1 false (Done (Ok tt)); mkProc k e2 now2 false (Done (Ok tt))]).
  split; [|by split; eexists].
  eapply first_moves; [by apply step_start|]. eapply first_moves; [by eapply step_count_room|].
  eapply first_moves; [by eapply step_room|]. eapply first_moves; [apply step_look_expired; unfold p_path; cbn [p_jti p_now at_pc]; by rewrite Hf|].
  eapply second_moves; [by apply step_start|]. eapply second_moves; [by eapply step_count_room|].
  eapply second_moves; [by eapply step_room|]. eapply second_moves; [apply step_look_expired; unfold p_path; cbn [p_jti p_now at_pc]; by rewrite Hf|].
  eapply first_moves; [apply step_remove|]. eapply first_moves; [apply step_create, lookup_delete_eq|].
  eapply first_moves; [eapply step_write, lookup_insert_eq|].
  eapply second_moves; [apply step_remove|]. eapply second_moves; [apply step_create, lookup_delete_eq|].
  eapply second_moves; [eapply step_write, lookup_insert_eq|]. apply rtc_refl.
Qed.
End Race.

(** Two processes race on one key where a walk counts what is there. *)
Module RaceToy.
#[local] Instance race_sha : Sha256 := fun x => x.
Definition count_all (fs : gmap string string) (n : nat) : Prop := n = size fs.
#[local] Notation move := (step 4 count_all).
Definition racer (c : Pc) : Proc := mkProc "k" 20 10 false c.
Definition path : string := replay_filename "k".
Definition race_start : Sys := mkSys ∅ [racer Start; racer Start].

(** Both have looked before either creates the file: the second is refused. *)
Definition race_won : Sys :=
  mkSys {[ path := "20" +:+ newline ]} [racer (Done (Ok tt)); racer (Done (Err replay_detected))].

Lemma won_run : rtc move race_start race_won.
Proof.
  eapply first_moves; [by apply step_start|]. eapply first_moves; [by eapply step_count_room; [reflexivity|vm_compute; lia]|].
  eapply first_moves; [by eapply step_room; [reflexivity|vm_compute; lia]|]. eapply first_moves; [by apply step_look_other|].
  eapply second_moves; [by apply step_start|]. eapply second_moves; [by eapply step_count_room; [reflexivity|vm_compute; lia]|].
  eapply second_moves; [by eapply step_room; [reflexivity|vm_compute; lia]|]. eapply second_moves; [by apply step_look_other|].
  eapply first_moves; [by apply step_create|]. eapply second_moves; [by eapply step_exists|].
  eapply first_moves; [by eapply step_write|].
  match goal with |- rtc _ ?a _ => replace a with race_won by (vm_compute; reflexivity) end. apply rtc_refl.
Qed.

Lemma start_live : idle race_start /\ all_live path race_start.
Proof.
  split; [repeat constructor|]. intros p q Hp Hq _. unfold race_start in *. cbn [procs] in *.
  assert (p = racer Start) as -> by set_solver. assert (q = racer Start) as -> by set_solver. split; [i64_tac|done].
Qed.

Lemma won_ended : nf move race_won.
Proof.
  intros [s' [i p c fs Hi Hp]]. cbn [race_won procs] in Hi.
  destruct i as [|[|i]]; [injection Hi as <-|injection Hi as <-|discriminate Hi]; inversion Hp; subst;
    match goal with Hd : forall r, _ <> Done r |- _ => by eapply Hd end.
Qed.

Lemma race_decided_witness : sn move race_start /\ wins "k" race_won 0 /\ ~ wins "k" race_won 1.
Proof.
  destruct start_live as [Hi Hl].
  destruct (race_decided 4 count_all "k" race_start Hi eq_refl Hl) as [Hsn Hend]. split; [exact Hsn|].
  destruct (Hend race_won won_run won_ended) as [_ Hone]. destruct Hone as (i & Hw & Hu).
  - exists (racer (Done (Ok tt))). split; [left|reflexivity].
  - cbn [race_won procs]. intros p Hp _. apply elem_of_cons in Hp as [->|Hp%list_elem_of_singleton]; [left|subst; right; left].
  - assert (H0 : wins "k" race_won 0) by (exists (racer (Done (Ok tt))); split_and!; reflexivity).
    split; [exact H0|]. intros H1. pose proof (Hu 0 H0). pose proof (Hu 1 H1). lia.
Defined.

Lemma race_one_winner_witness : rtc move race_start race_won /\ wins "k" race_won 0 /\ ~ wins "k" race_won 1.
Proof.
  assert (H0 : wins "k" race_won 0) by (exists (racer (Done (Ok tt))); split_and!; reflexivity).
  split; [exact won_run|split; [exact H0|]]. intros H1. destruct start_live as [Hi Hl].
  pose proof (race_one_winner 4 count_all "k" race_start race_won 1 0 Hi eq_refl Hl won_run H1 H0). lia.
Defined.

Lemma race_two_winners_witness :
  exists s, rtc move (mkSys {[ path := "5" +:+ newline ]} [racer Start; racer Start]) s /\ wins "k" s 0 /\ wins "k" s 1.
Proof.
  apply (race_two_winners 4 count_all "k" ("5" +:+ newline) {[ path := "5" +:+ newline ]} 1 20 10 20 10).
  - discriminate.
  - reflexivity.
  - vm_compute. reflexivity.
  - vm_compute. reflexivity.
  - reflexivity.
  - lia.
Defined.
End RaceToy.
