(* ===== verification/Jose.v ===== *)
(** crates/sts-jose, first part: algorithms, JWKs, compact JWS parsing and
    verification against a JWKS.  The signers are in [JoseSigners].

    The cryptographic libraries (jsonwebtoken, aws-lc-rs, OpenSSL), base64,
    serde_json and simple_asn1 are third-party code and parameters here: one
    class each, holding the calls the crate makes.  [pqc_openssl] is the Cargo
    feature "pqc-openssl-unstable". *)

From S2P Require Import Prelude RustStr Json.
From Stdlib Require Import Ascii.

(** * Third-party code *)

Class Features : Type := pqc_openssl : bool.

(** base64's URL_SAFE_NO_PAD engine; an error is its display text. *)
Class Base64 : Type := {
  b64_encode : string -> string;
  b64_decode : string -> result string string
}.

(** serde_json's writers, and its reader for a type with a [Deserialize]. *)
Class SerdeJson : Type := {
  json_to_vec : Value -> result string string;
  json_to_string_pretty : Value -> result string string
}.
Class FromJson (T : Type) : Type := from_json : string -> result string T.

(** The members a [Serialize] type is written with. *)
Class Serialize (T : Type) : Type := serialize : T -> Value.

(** jsonwebtoken: the error kinds the crate tells apart. *)
Inductive JwtErrorKind : Type :=
| JwtInvalidToken | JwtBase64 | JwtUtf8 | JwtJson
| JwtMissingRequiredClaim | JwtInvalidClaimFormat | JwtExpiredSignature | JwtInvalidIssuer
| JwtInvalidAudience | JwtInvalidSubject | JwtImmatureSignature
| JwtInvalidSignature | JwtInvalidAlgorithm | JwtMissingAlgorithm | JwtInvalidKeyFormat
| JwtInvalidRsaKey | JwtRsaFailedSigning | JwtSigning | JwtOther.

Record JwtError : Type := mkJwtError { jwt_kind : JwtErrorKind; jwt_text : string }.

(** The members of [Validation] that the crate sets. *)
Record Validation : Type := mkValidation {
  val_algorithm : string;
  required_spec_claims : list string;
  validate_exp : bool;
  validate_aud : bool
}.

Record JwtHeader : Type := mkJwtHeader { jh_alg : string; jh_kid : option string; jh_typ : option string }.

Class Jwt : Type := {
  DecodingKey : Type;
  EncodingKey : Type;
  decoding_key_from_rsa_components : string -> string -> result string DecodingKey;
  encoding_key_from_rsa_pem : string -> result JwtError EncodingKey;
  encoding_key_from_rsa_der : string -> EncodingKey;
  encoding_key_inner : EncodingKey -> string;
  validation_new : string -> Validation;
  jwt_decode : forall T, FromJson T -> string -> DecodingKey -> Validation -> result JwtError T;
  jwt_encode : JwtHeader -> Value -> EncodingKey -> result JwtError string
}.

(** aws-lc-rs. *)
Class AwsLc : Type := {
  RsaKeyPair : Type;
  rsa_from_der : string -> result string RsaKeyPair;
  rsa_as_pkcs8_der : RsaKeyPair -> result string string;
  public_modulus_len : RsaKeyPair -> Z;
  rsa_public_n : RsaKeyPair -> string;
  rsa_public_e : RsaKeyPair -> string;
  rsa_sign_pkcs1_sha256 : RsaKeyPair -> string -> result string string
}.

Inductive MlDsaAlgorithm : Type := MlDsa44 | MlDsa65 | MlDsa87.

#[export] Instance MlDsaAlgorithm_eq_dec : EqDecision MlDsaAlgorithm.
Proof. solve_decision. Defined.

(** OpenSSL's ML-DSA keys; the key type is the algorithm's. *)
Class OpenSsl : Type := {
  PKeyPrivate : Type;
  PKeyPublic : Type;
  private_key_from_seed : MlDsaAlgorithm -> string -> result string PKeyPrivate;
  public_key_from_raw_bytes_ex : MlDsaAlgorithm -> string -> result string PKeyPublic;
  raw_public_key : PKeyPrivate -> result string string;
  signer_new_without_digest : PKeyPrivate -> result string unit;
  sign_oneshot_to_vec : PKeyPrivate -> string -> result string string;
  verifier_new_without_digest : PKeyPublic -> result string unit;
  verify_oneshot : PKeyPublic -> string -> string -> result string bool
}.

(** simple_asn1: the blocks the crate looks at. *)
Inductive ASN1Block : Type :=
| Integer (n : Z)
| OctetString (bytes : string)
| Sequence (blocks : list ASN1Block)
| SetBlock (blocks : list ASN1Block)
| Explicit (inner : ASN1Block)
| OtherBlock.

Class Asn1 : Type := {
  to_der : ASN1Block -> result string string;
  from_der : string -> result string (list ASN1Block);
  biguint_from_bytes_be : string -> Z;
  bigint_to_bytes_be : Z -> string
}.

(** * Errors and data *)

Definition DEFAULT_STS_SIGNING_ALG : string := "ML-DSA-65".

Inductive BackendSelection : Type :=
| Classical
| RequestedPqc (requested : string).

#[export] Instance BackendSelection_eq_dec : EqDecision BackendSelection.
Proof. solve_decision. Defined.

(** [BackendSelection::parse]. *)
Definition backend_selection_parse (value : string) : BackendSelection :=
  let trimmed := trim value in
  let other := to_ascii_lowercase trimmed in
  if bool_decide (other = "") then RequestedPqc DEFAULT_STS_SIGNING_ALG
  else if (bool_decide (other = "classical") || bool_decide (other = "rs256"))%bool then Classical
  else if (starts_with "ml-dsa" other || starts_with "pqc" other)%bool then RequestedPqc trimmed
  else RequestedPqc other.

Inductive JoseErrorKind : Type :=
| InvalidKey | UnsupportedAlgorithm | InvalidClaims | VerificationFailed | InvalidCompactJws.

#[export] Instance JoseErrorKind_eq_dec : EqDecision JoseErrorKind.
Proof. solve_decision. Defined.

Definition jose_error_code (k : JoseErrorKind) : string :=
  match k with
  | InvalidKey => "invalid_key"
  | UnsupportedAlgorithm => "unsupported_algorithm"
  | InvalidClaims => "invalid_claims"
  | VerificationFailed => "verification_failed"
  | InvalidCompactJws => "invalid_compact_jws"
  end.

Record JoseError : Type := mkJoseError { jose_kind : JoseErrorKind; jose_message : string }.

(** [impl Display for JoseError]. *)
Definition jose_error_display (e : JoseError) : string :=
  jose_error_code (jose_kind e) +:+ ": " +:+ jose_message e.

(** [Err(JoseError::new(kind, message))]. *)
Definition jose_err {A} (k : JoseErrorKind) (message : string) : result JoseError A :=
  Err (mkJoseError k message).

Record PublicJwk : Type := mkPublicJwk {
  jwk_kty : string;
  jwk_kid : string;
  jwk_use : string;
  jwk_alg : string;
  jwk_n : option string;
  jwk_e : option string;
  jwk_pub : option string
}.

Record JwksDocument : Type := mkJwksDocument { jwks_keys : list PublicJwk }.

(** [Serialize] of [PublicJwk]: absent members are left out. *)
Definition public_jwk_fields (j : PublicJwk) : Map :=
  [("kty", VString (jwk_kty j)); ("kid", VString (jwk_kid j)); ("use", VString (jwk_use j));
   ("alg", VString (jwk_alg j))]
  ++ match jwk_n j with Some n => [("n", VString n)] | None => [] end
  ++ match jwk_e j with Some e => [("e", VString e)] | None => [] end
  ++ match jwk_pub j with Some p => [("pub", VString p)] | None => [] end.

Definition default_jwk_use : string := "sig".
Definition default_jwk_alg : string := "RS256".

Record PrivateRsaJwk : Type := mkPrivateRsaJwk {
  rsa_kty : string;
  rsa_kid : option string;
  rsa_n : string;
  rsa_e : string;
  rsa_d : string;
  rsa_p : string;
  rsa_q : string;
  rsa_dp : option string;
  rsa_dq : option string;
  rsa_qi : option string
}.

Record PrivateAkpJwk : Type := mkPrivateAkpJwk {
  akp_kty : string;
  akp_kid : option string;
  akp_alg : string;
  akp_pub : string;
  akp_priv : string
}.

Record CompactJwsHeader : Type := mkCompactJwsHeader {
  h_alg : string;
  h_kid : option string;
  h_typ : option string
}.

Record VerifiedJws (T : Type) : Type := mkVerifiedJws {
  v_claims : T;
  v_alg : string;
  v_kid : string;
  v_typ : option string
}.
Arguments mkVerifiedJws {T}.
Arguments v_claims {T}.
Arguments v_alg {T}.
Arguments v_kid {T}.
Arguments v_typ {T}.

Record DecodedRsaPublicKey : Type := mkDecodedRsa { dec_n : string; dec_e : string }.
Record DecodedAkpPublicKey : Type := mkDecodedAkp { dec_algorithm : MlDsaAlgorithm; dec_public_key : string }.

(** * ML-DSA algorithms *)

Definition jose_alg (a : MlDsaAlgorithm) : string :=
  match a with MlDsa44 => "ML-DSA-44" | MlDsa65 => "ML-DSA-65" | MlDsa87 => "ML-DSA-87" end.

Definition from_jose_alg (value : string) : option MlDsaAlgorithm :=
  if bool_decide (value = "ML-DSA-44") then Some MlDsa44
  else if bool_decide (value = "ML-DSA-65") then Some MlDsa65
  else if bool_decide (value = "ML-DSA-87") then Some MlDsa87
  else None.

Definition from_selector (value : string) : option MlDsaAlgorithm :=
  let v := to_ascii_lowercase (trim value) in
  if bool_decide (v ∈ ["ml-dsa-44"; "mldsa44"]) then Some MlDsa44
  else if bool_decide (v ∈ ["ml-dsa-65"; "mldsa65"]) then Some MlDsa65
  else if bool_decide (v ∈ ["ml-dsa-87"; "mldsa87"]) then Some MlDsa87
  else None.

Definition public_key_len (a : MlDsaAlgorithm) : Z :=
  match a with MlDsa44 => 1312 | MlDsa65 => 1952 | MlDsa87 => 2592 end.

Definition signature_len (a : MlDsaAlgorithm) : Z :=
  match a with MlDsa44 => 2420 | MlDsa65 => 3309 | MlDsa87 => 4627 end.

Definition is_pqc_jws_alg (alg : string) : bool := opt_is_some (from_jose_alg alg).

Definition supported_jws_signing_algs `{Features} : list string :=
  if pqc_openssl then "RS256" :: map jose_alg [MlDsa44; MlDsa65; MlDsa87] else ["RS256"].

(** [bytes.len()]. *)
Definition byte_len (bytes : string) : Z := Z.of_nat (String.length bytes).

(** * JWK components *)

Section Components.
Context `{Base64}.

Definition decode_jwk_octets (label value : string) : result JoseError string :=
  map_err (fun e => mkJoseError InvalidKey ("invalid " +:+ label +:+ " encoding: " +:+ e))
    (b64_decode value).

Definition decode_jwk_component (name value : string) : result JoseError string :=
  let? bytes := decode_jwk_octets ("RSA JWK " +:+ name) value in
  if is_empty bytes then
    jose_err InvalidKey ("invalid RSA JWK " +:+ name +:+ ": empty unsigned integer")
  else Ok bytes.

Definition decode_compact_segment (label value : string) : result JoseError string :=
  map_err (fun e => mkJoseError InvalidCompactJws
                      ("invalid compact " +:+ label +:+ " encoding: " +:+ e))
    (b64_decode value).

Definition decode_required_private_component (name : string) (value : option string)
    : result JoseError string :=
  let? value := ok_or value
    (mkJoseError InvalidKey ("RSA private JWK missing CRT member " +:+ name)) in
  decode_jwk_component name value.

(** [bytes[0] == 0] on a non-empty slice. *)
Definition first_byte_zero (bytes : string) : bool :=
  match bytes with String b _ => (byte_val b =? 0)%Z | EmptyString => false end.

Definition validate_public_components (n e : string) : result JoseError unit :=
  if (is_empty n || is_empty e)%bool then
    jose_err InvalidKey "RSA public key components must be non-empty"
  else if (first_byte_zero n || first_byte_zero e)%bool then
    jose_err InvalidKey "RSA public key components must use minimal unsigned encoding"
  else Ok tt.

(** [u8::leading_zeros]. *)
Definition leading_zeros8 (b : Z) : Z := if (b =? 0)%Z then 8 else 7 - Z.log2 b.

(** The slice from the first non-zero byte on. *)
Fixpoint skip_zero_bytes (n : string) : string :=
  match n with
  | String b rest => if (byte_val b =? 0)%Z then skip_zero_bytes rest else n
  | EmptyString => EmptyString
  end.

Definition rsa_modulus_bits (n : string) : Z :=
  match skip_zero_bytes n with
  | EmptyString => 0
  | String b rest => byte_len rest * 8 + (8 - leading_zeros8 (byte_val b))
  end.

Definition rsa_public_key_from_jwk (jwk : PublicJwk) : result JoseError DecodedRsaPublicKey :=
  if negb (bool_decide (jwk_kty jwk = "RSA")) then
    jose_err InvalidKey ("unsupported JWK key type " +:+ jwk_kty jwk)
  else if negb (bool_decide (jwk_alg jwk = "RS256")) then
    jose_err InvalidKey ("RSA JWK alg must be RS256, got " +:+ jwk_alg jwk)
  else
  let? n := ok_or (jwk_n jwk) (mkJoseError InvalidKey "RSA public JWK missing n") in
  let? n := decode_jwk_component "n" n in
  let? e := ok_or (jwk_e jwk) (mkJoseError InvalidKey "RSA public JWK missing e") in
  let? e := decode_jwk_component "e" e in
  let? _ := validate_public_components n e in
  Ok (mkDecodedRsa n e).

Definition rsa_public_key_bits_from_jwk (jwk : PublicJwk) : result JoseError Z :=
  let? public_key := rsa_public_key_from_jwk jwk in
  Ok (rsa_modulus_bits (dec_n public_key)).

Definition akp_public_key_from_jwk (jwk : PublicJwk) : result JoseError DecodedAkpPublicKey :=
  if negb (bool_decide (jwk_kty jwk = "AKP")) then
    jose_err InvalidKey ("unsupported JWK key type " +:+ jwk_kty jwk)
  else
  let? algorithm := ok_or (from_jose_alg (jwk_alg jwk))
    (mkJoseError InvalidKey ("unsupported AKP alg " +:+ jwk_alg jwk)) in
  if (opt_is_some (jwk_n jwk) || opt_is_some (jwk_e jwk))%bool then
    jose_err InvalidKey "AKP public JWK must not contain RSA n/e members"
  else
  let? pub := ok_or (jwk_pub jwk) (mkJoseError InvalidKey "AKP public JWK missing pub") in
  let? public_key := decode_jwk_octets "AKP public JWK pub" pub in
  if negb (byte_len public_key =? public_key_len algorithm)%Z then
    jose_err InvalidKey ("AKP public JWK pub length must be " +:+
      to_string (public_key_len algorithm) +:+ " bytes for " +:+ jose_alg algorithm)
  else Ok (mkDecodedAkp algorithm public_key).

Definition validate_public_jwk (jwk : PublicJwk) : result JoseError unit :=
  if negb (bool_decide (jwk_use jwk = "sig")) then
    jose_err InvalidKey "public JWK use must be sig for token signing verification"
  else if bool_decide (jwk_kty jwk = "RSA") then res_map (fun _ => tt) (rsa_public_key_from_jwk jwk)
  else if bool_decide (jwk_kty jwk = "AKP") then res_map (fun _ => tt) (akp_public_key_from_jwk jwk)
  else jose_err InvalidKey ("unsupported JWK key type " +:+ jwk_kty jwk).

(** * Compact JWS *)

(** [parse_compact_jws]: the three parts of a [split('.')]. *)
Definition parse_compact_jws (token : string) : result JoseError (string * string * string) :=
  match split_char "."%char token with
  | [header; payload; signature] => Ok (header, payload, signature)
  | _ :: _ :: _ :: _ :: _ => jose_err InvalidCompactJws "compact JWS must have exactly three parts"
  | _ => jose_err InvalidCompactJws "compact JWS must have three parts"
  end.

Definition decode_compact_jws_header `{FromJson CompactJwsHeader} (token : string)
    : result JoseError CompactJwsHeader :=
  let? (header, _, _) := parse_compact_jws token in
  let? bytes := decode_compact_segment "JWS header" header in
  map_err (fun e => mkJoseError InvalidCompactJws ("invalid compact JWS header: " +:+ e))
    (from_json bytes).

Definition decode_payload_claims {T} `{FromJson T} (payload_segment : string) : result JoseError T :=
  let? bytes := decode_compact_segment "JWS payload" payload_segment in
  map_err (fun e => mkJoseError InvalidClaims ("invalid token claims: " +:+ e)) (from_json bytes).

End Components.

(** * Library errors *)

Definition map_jwt_key_error (err : JwtError) : JoseError :=
  mkJoseError InvalidKey ("invalid RSA private key: " +:+ jwt_text err).

Definition map_jwt_encode_error (err : JwtError) : JoseError :=
  match jwt_kind err with
  | JwtJson => mkJoseError InvalidClaims ("encode claims failed: " +:+ jwt_text err)
  | JwtInvalidKeyFormat | JwtInvalidRsaKey | JwtRsaFailedSigning | JwtSigning =>
      mkJoseError InvalidKey ("RSA signing failed: " +:+ jwt_text err)
  | _ => mkJoseError VerificationFailed ("JWT signing failed: " +:+ jwt_text err)
  end.

Definition map_jwt_decode_error (err : JwtError) : JoseError :=
  match jwt_kind err with
  | JwtInvalidToken | JwtBase64 | JwtUtf8 =>
      mkJoseError InvalidCompactJws ("invalid compact JWS: " +:+ jwt_text err)
  | JwtJson | JwtMissingRequiredClaim | JwtInvalidClaimFormat | JwtExpiredSignature
  | JwtInvalidIssuer | JwtInvalidAudience | JwtInvalidSubject | JwtImmatureSignature =>
      mkJoseError InvalidClaims ("invalid token claims: " +:+ jwt_text err)
  | _ => mkJoseError VerificationFailed ("JWT verification failed: " +:+ jwt_text err)
  end.

(** * Verification *)

Section Verification.
Context `{Features} `{Base64} `{Jwt} `{OpenSsl} `{FromJson CompactJwsHeader}.

(** Signature only: expiry and audience are checked by the callers. *)
Definition signature_only_rs256_validation : Validation :=
  let validation := validation_new "RS256" in
  mkValidation (val_algorithm validation) [] false false.

Definition openssl_public_key_from_raw_bytes (algorithm : MlDsaAlgorithm) (public_key : string)
    : result JoseError PKeyPublic :=
  map_err (fun e => mkJoseError InvalidKey ("AKP public JWK pub was rejected by OpenSSL: " +:+ e))
    (public_key_from_raw_bytes_ex algorithm public_key).

Definition verify_rs256_claims_against_jwk {T} `{FromJson T} (token : string) (jwk : PublicJwk)
    : result JoseError T :=
  let? _ := rsa_public_key_from_jwk jwk in
  let? n := ok_or (jwk_n jwk) (mkJoseError InvalidKey "RSA public JWK missing n") in
  let? e := ok_or (jwk_e jwk) (mkJoseError InvalidKey "RSA public JWK missing e") in
  let? decoding_key := map_err (fun e => mkJoseError InvalidKey ("invalid RSA public JWK: " +:+ e))
    (decoding_key_from_rsa_components n e) in
  map_err map_jwt_decode_error (jwt_decode T _ token decoding_key signature_only_rs256_validation).

(** The body of [verify_mldsa_claims_against_jwk] when the feature is on. *)
Definition verify_mldsa_openssl {T} `{FromJson T} (token : string) (jwk : PublicJwk)
    (header_alg : string) : result JoseError T :=
  let? header_algorithm := ok_or (from_jose_alg header_alg)
    (mkJoseError UnsupportedAlgorithm "unsupported ML-DSA algorithm") in
  let? decoded_public := akp_public_key_from_jwk jwk in
  if negb (bool_decide (dec_algorithm decoded_public = header_algorithm)) then
    jose_err VerificationFailed "JWS alg does not match AKP public key alg"
  else
  let? (header_segment, payload_segment, signature_segment) := parse_compact_jws token in
  let? signature := decode_compact_segment "JWS signature" signature_segment in
  if negb (byte_len signature =? signature_len header_algorithm)%Z then
    jose_err VerificationFailed ("JWS signature length must be " +:+
      to_string (signature_len header_algorithm) +:+ " bytes for " +:+ jose_alg header_algorithm)
  else
  let signing_input := header_segment +:+ "." +:+ payload_segment in
  let? public_key := openssl_public_key_from_raw_bytes header_algorithm
                       (dec_public_key decoded_public) in
  let? _ := map_err (fun e => mkJoseError InvalidKey ("create ML-DSA verifier failed: " +:+ e))
    (verifier_new_without_digest public_key) in
  let? valid := map_err (fun e => mkJoseError VerificationFailed ("ML-DSA verification failed: " +:+ e))
    (verify_oneshot public_key signature signing_input) in
  if negb valid then jose_err VerificationFailed "JWS verification failed"
  else decode_payload_claims payload_segment.

Definition verify_mldsa_claims_against_jwk {T} `{FromJson T} (token : string) (jwk : PublicJwk)
    (header_alg : string) : result JoseError T :=
  if pqc_openssl then verify_mldsa_openssl token jwk header_alg
  else jose_err UnsupportedAlgorithm ("JWS algorithm " +:+ header_alg +:+
         " requires the pqc-openssl-unstable feature").

(** [jwks.keys.iter().find(|key| key.kid == kid)]. *)
Definition find_jwk (kid : string) (jwks : JwksDocument) : option PublicJwk :=
  List.find (fun key => bool_decide (jwk_kid key = kid)) (jwks_keys jwks).

Definition verify_claims_against_jwks_inner {T} `{FromJson T} (token : string)
    (jwks : JwksDocument) (allowed_algs : option (list string)) : result JoseError (VerifiedJws T) :=
  let? header := decode_compact_jws_header token in
  if is_some_and (fun allowed => negb (existsb (fun a => bool_decide (a = h_alg header)) allowed))
       allowed_algs
  then jose_err UnsupportedAlgorithm ("JWS algorithm " +:+ h_alg header +:+
         " is not allowed for this verification context")
  else
  let? kid := ok_or (h_kid header)
    (mkJoseError InvalidCompactJws "compact JWS header missing kid") in
  let? jwk := ok_or (find_jwk kid jwks)
    (mkJoseError VerificationFailed ("no JWK found for kid " +:+ kid)) in
  let? claims :=
    (if bool_decide (h_alg header = "RS256") then verify_rs256_claims_against_jwk token jwk
     else if opt_is_some (from_jose_alg (h_alg header)) then
       verify_mldsa_claims_against_jwk token jwk (h_alg header)
     else jose_err UnsupportedAlgorithm ("unsupported JWS algorithm " +:+ h_alg header)) in
  Ok (mkVerifiedJws claims (h_alg header) kid (h_typ header)).

Definition verify_claims_against_jwks_with_header {T} `{FromJson T} (token : string)
    (jwks : JwksDocument) : result JoseError (VerifiedJws T) :=
  verify_claims_against_jwks_inner token jwks None.

Definition verify_claims_against_jwks {T} `{FromJson T} (token : string) (jwks : JwksDocument)
    : result JoseError T :=
  res_map v_claims (verify_claims_against_jwks_with_header token jwks).

Definition verify_claims_against_jwks_with_allowed_algs {T} `{FromJson T} (token : string)
    (jwks : JwksDocument) (allowed_algs : list string) : result JoseError (VerifiedJws T) :=
  verify_claims_against_jwks_inner token jwks (Some allowed_algs).

(** * Specification *)

(** What a verified JWS stands on: a signature check by the library with the
    key the [kid] names, of the key type that the header's algorithm asks for. *)
Inductive signature_checked {T} `{FromJson T} (token : string) (jwk : PublicJwk) (claims : T)
    : string -> Prop :=
| checked_rs256 key n e :
    jwk_kty jwk = "RSA" -> jwk_alg jwk = "RS256" ->
    jwk_n jwk = Some n -> jwk_e jwk = Some e ->
    decoding_key_from_rsa_components n e = Ok key ->
    jwt_decode T _ token key signature_only_rs256_validation = Ok claims ->
    signature_checked token jwk claims "RS256"
| checked_mldsa a pub raw key header_segment payload_segment signature_segment signature payload :
    pqc_openssl = true -> jwk_kty jwk = "AKP" -> jwk_alg jwk = jose_alg a ->
    jwk_pub jwk = Some pub -> b64_decode pub = Ok raw ->
    byte_len raw = public_key_len a ->
    public_key_from_raw_bytes_ex a raw = Ok key ->
    token = header_segment +:+ "." +:+ payload_segment +:+ "." +:+ signature_segment ->
    b64_decode signature_segment = Ok signature ->
    byte_len signature = signature_len a ->
    verify_oneshot key signature (header_segment +:+ "." +:+ payload_segment) = Ok true ->
    b64_decode payload_segment = Ok payload -> from_json payload = Ok claims ->
    signature_checked token jwk claims (jose_alg a).

End Verification.

(** * Lemmas *)

Lemma from_jose_alg_Some s a : from_jose_alg s = Some a <-> s = jose_alg a.
Proof.
  unfold from_jose_alg. split.
  - repeat case_bool_decide; intros; simplify_eq; done.
  - intros ->. by destruct a.
Qed.

Lemma parse_compact_jws_ok token h p s :
  parse_compact_jws token = Ok (h, p, s) <-> split_char "."%char token = [h; p; s].
Proof.
  unfold parse_compact_jws. destruct (split_char _ token) as [|a [|b [|c [|d l]]]];
    split; intros E; simplify_eq; done.
Qed.

Lemma split_three c token h p s :
  split_char c token = [h; p; s] <->
  token = h +:+ str1 c +:+ p +:+ str1 c +:+ s /\
  contains_char c h = false /\ contains_char c p = false /\ contains_char c s = false.
Proof.
  unfold str1. rewrite !app_cons, !app_empty_l. split.
  - intros E. pose proof (split_char_parts c token) as [Hf Hj]. rewrite E in Hf, Hj.
    apply Forall_cons in Hf as [? Hf]. apply Forall_cons in Hf as [? Hf].
    apply Forall_cons in Hf as [? _]. simpl in Hj. unfold str1 in Hj.
    by rewrite !app_cons, !app_empty_l in Hj.
  - intros (-> & Hh & Hp & Hs). rewrite !split_char_sep by done. by rewrite split_char_last.
Qed.

Lemma rsa_public_key_ok `{Base64} jwk k :
  rsa_public_key_from_jwk jwk = Ok k ->
  jwk_kty jwk = "RSA" /\ jwk_alg jwk = "RS256" /\
  exists n e, jwk_n jwk = Some n /\ jwk_e jwk = Some e /\
    b64_decode n = Ok (dec_n k) /\ b64_decode e = Ok (dec_e k) /\
    is_empty (dec_n k) = false /\ first_byte_zero (dec_n k) = false.
Proof.
  unfold rsa_public_key_from_jwk, decode_jwk_component, decode_jwk_octets, validate_public_components,
    jose_err. intros Hk. ok_inv. bool_hyps. ok_inv. bool_hyps. naive_solver.
Qed.

Lemma akp_public_key_ok `{Base64} jwk k :
  akp_public_key_from_jwk jwk = Ok k ->
  jwk_kty jwk = "AKP" /\ jwk_alg jwk = jose_alg (dec_algorithm k) /\
  jwk_n jwk = None /\ jwk_e jwk = None /\
  exists pub, jwk_pub jwk = Some pub /\ b64_decode pub = Ok (dec_public_key k) /\
    byte_len (dec_public_key k) = public_key_len (dec_algorithm k).
Proof.
  unfold akp_public_key_from_jwk, decode_jwk_octets, jose_err. intros Hk. ok_inv. bool_hyps. ok_inv.
  rewrite from_jose_alg_Some in *. destruct (jwk_n jwk), (jwk_e jwk); try done.
  bool_hyps. simpl. rewrite Z.eqb_eq in *. naive_solver.
Qed.

Section Soundness.
Context `{Features} `{Base64} `{Jwt} `{OpenSsl} `{FromJson CompactJwsHeader}.

Lemma verify_rs256_ok {T} `{FromJson T} token jwk (claims : T) :
  verify_rs256_claims_against_jwk token jwk = Ok claims ->
  signature_checked token jwk claims "RS256".
Proof.
  unfold verify_rs256_claims_against_jwk. intros Hv. ok_inv.
  match goal with Hk : rsa_public_key_from_jwk _ = Ok _ |- _ =>
    apply rsa_public_key_ok in Hk as (? & ? & ? & ? & ? & ? & _) end.
  by eapply checked_rs256.
Qed.

Lemma verify_mldsa_ok {T} `{FromJson T} token jwk alg (claims : T) :
  verify_mldsa_claims_against_jwk token jwk alg = Ok claims ->
  signature_checked token jwk claims alg.
Proof.
  unfold verify_mldsa_claims_against_jwk, verify_mldsa_openssl, decode_compact_segment,
    decode_payload_claims, openssl_public_key_from_raw_bytes, jose_err.
  intros Hv. destruct pqc_openssl eqn:Hq; [|done]. ok_inv.
  match goal with Hk : context [match ?x with _ => _ end] |- _ => destruct x as [[hs ps] ss] end.
  ok_inv. bool_hyps. rewrite Z.eqb_eq in *.
  repeat match goal with
  | Hk : from_jose_alg _ = Some _ |- _ => apply from_jose_alg_Some in Hk as ->
  | Hk : akp_public_key_from_jwk _ = Ok _ |- _ =>
      apply akp_public_key_ok in Hk as (? & ? & _ & _ & ? & ? & ? & ?)
  | Hk : parse_compact_jws _ = Ok _ |- _ =>
      apply parse_compact_jws_ok, split_three in Hk as (? & _)
  end; subst.
  unfold decode_compact_segment in *. ok_inv. eapply checked_mldsa; try done; congruence.
Qed.

(** * Properties *)

(** C12: a compact JWS is accepted only with an algorithm of the caller's
    allowlist, only with the first published key that carries the header's
    [kid], only when that key is of the type and algorithm the header names
    (so a public key is never used under another algorithm), and only after
    the library's signature check over the token's own first two segments. *)
Theorem jws_verify_sound {T} `{FromJson T} (token : string) (jwks : JwksDocument)
    (allowed : option (list string)) (v : VerifiedJws T) :
  verify_claims_against_jwks_inner token jwks allowed = Ok v ->
  exists header jwk,
    decode_compact_jws_header token = Ok header /\
    v_alg v = h_alg header /\ Some (v_kid v) = h_kid header /\ v_typ v = h_typ header /\
    (forall l, allowed = Some l -> v_alg v ∈ l) /\
    v_alg v ∈ supported_jws_signing_algs /\
    find_jwk (v_kid v) jwks = Some jwk /\
    signature_checked token jwk (v_claims v) (v_alg v).
Proof.
  unfold verify_claims_against_jwks_inner, jose_err at 1. intros Hv. ok_inv.
  unfold is_some_and in *. eexists _, _. split; [done|]. simpl. split_and!; try done.
  - intros l ->. bool_hyps. match goal with Hx : existsb _ _ = true |- _ =>
      apply existsb_exists_elem in Hx as (x & ? & ?) end. bool_hyps. by subst.
  - unfold supported_jws_signing_algs. case_bool_decide.
    { destruct pqc_openssl; set_solver. }
    unfold opt_is_some in *. destruct (from_jose_alg _) as [a'|] eqn:Ha; [|done].
    apply from_jose_alg_Some in Ha as ->. unfold verify_mldsa_claims_against_jwk, jose_err in *.
    destruct pqc_openssl; [|done]. destruct a'; set_solver.
  - case_bool_decide as Ha; [rewrite Ha; by apply verify_rs256_ok|].
    destruct (opt_is_some _); [by apply verify_mldsa_ok|done].
Qed.

End Soundness.

(** The modulus size policy checks read is the bit length of the modulus. *)
Fixpoint be_value_from (acc : Z) (n : string) : Z :=
  match n with
  | String b rest => be_value_from (acc * 256 + byte_val b) rest
  | EmptyString => acc
  end.

(** The unsigned integer a big-endian byte string stands for. *)
Definition be_value (n : string) : Z := be_value_from 0 n.

Lemma byte_val_bound b : (0 <= byte_val b < 256)%Z.
Proof. unfold byte_val. pose proof (N_ascii_bounded b). lia. Qed.

Lemma be_value_skip n : be_value (skip_zero_bytes n) = be_value n.
Proof.
  induction n as [|b n IH]; [done|]. cbn [skip_zero_bytes]. destruct (Z.eqb_spec (byte_val b) 0) as [E|]; [|done].
  rewrite IH. unfold be_value. cbn [be_value_from]. by rewrite E.
Qed.

Lemma be_value_from_log acc n : (0 < acc)%Z ->
  (0 < be_value_from acc n)%Z /\ Z.log2 (be_value_from acc n) = (Z.log2 acc + byte_len n * 8)%Z.
Proof.
  revert acc; induction n as [|b n IH]; intros acc Ha; cbn [be_value_from].
  - unfold byte_len. simpl. lia.
  - pose proof (byte_val_bound b) as Hb. destruct (IH (acc * 256 + byte_val b)%Z ltac:(lia)) as [? ->].
    split; [done|]. replace (Z.log2 (acc * 256 + byte_val b)) with (Z.log2 acc + 8)%Z.
    { unfold byte_len. cbn [String.length]. lia. }
    symmetry. apply Z.log2_unique; [pose proof (Z.log2_nonneg acc); lia|].
    pose proof (Z.log2_spec acc Ha) as [H1 H2]. pose proof (Z.log2_nonneg acc).
    rewrite Z.pow_succ_r in H2 by lia. rewrite Z.pow_succ_r by lia. rewrite Z.pow_add_r by lia.
    change (2 ^ 8)%Z with 256%Z. lia.
Qed.

(** the size that the public-key policy checks is the bit length of the
    modulus, whatever leading zero bytes its encoding has. *)
Theorem rsa_modulus_bits_spec (n : string) :
  rsa_modulus_bits n = (if be_value n =? 0 then 0 else Z.log2 (be_value n) + 1)%Z.
Proof.
  unfold rsa_modulus_bits. rewrite <- be_value_skip.
  assert (Hs : forall b rest, skip_zero_bytes n = String b rest -> (byte_val b =? 0)%Z = false).
  { induction n as [|c n IH]; [done|]. cbn [skip_zero_bytes].
    destruct (byte_val c =? 0)%Z eqn:E; [done|]. by intros b rest [= <- <-]. }
  destruct (skip_zero_bytes n) as [|b rest]; [done|]. specialize (Hs b rest eq_refl).
  unfold be_value. cbn [be_value_from]. rewrite Z.mul_0_l, Z.add_0_l.
  pose proof (byte_val_bound b). apply Z.eqb_neq in Hs.
  destruct (be_value_from_log (byte_val b) rest ltac:(lia)) as [Hp ->].
  unfold leading_zeros8. rewrite (proj2 (Z.eqb_neq _ _) Hs).
  destruct (Z.eqb_spec (be_value_from (byte_val b) rest) 0); lia.
Qed.

(** A build and libraries simple enough to evaluate: a segment is its own
    encoding, every signature is good, and the header is the one given. *)
Module Toy.
Definition jwt_header : CompactJwsHeader := mkCompactJwsHeader "RS256" (Some "k1") (Some "JWT").
Definition rsa_jwk : PublicJwk := mkPublicJwk "RSA" "k1" "sig" "RS256" (Some "n") (Some "e") None.
#[local] Instance features : Features := true.
#[local] Instance base64 : Base64 := {| b64_encode x := x; b64_decode := Ok |}.
#[local] Instance header_json : FromJson CompactJwsHeader := fun _ => Ok jwt_header.
#[local] Instance string_json : FromJson string := Ok.
#[local] Instance jwt : Jwt := {|
  DecodingKey := unit; EncodingKey := unit;
  decoding_key_from_rsa_components _ _ := Ok tt;
  encoding_key_from_rsa_pem _ := Ok tt;
  encoding_key_from_rsa_der _ := tt;
  encoding_key_inner _ := "";
  validation_new a := mkValidation a ["exp"] true true;
  jwt_decode _ _ token _ _ := map_err (mkJwtError JwtJson) (from_json token);
  jwt_encode _ _ _ := Ok ""
|}.
#[local] Instance openssl : OpenSsl := {|
  PKeyPrivate := unit; PKeyPublic := unit;
  private_key_from_seed _ _ := Ok tt; public_key_from_raw_bytes_ex _ _ := Ok tt;
  raw_public_key _ := Ok ""; signer_new_without_digest _ := Ok tt; sign_oneshot_to_vec _ _ := Ok "";
  verifier_new_without_digest _ := Ok tt; verify_oneshot _ _ _ := Ok true
|}.

Lemma jws_verify_sound_witness :
  let v := mkVerifiedJws "h.p.s" "RS256" "k1" (Some "JWT") in
  exists header jwk,
    decode_compact_jws_header "h.p.s" = Ok header /\
    v_alg v = h_alg header /\ Some (v_kid v) = h_kid header /\ v_typ v = h_typ header /\
    (forall l, Some ["RS256"] = Some l -> v_alg v ∈ l) /\
    v_alg v ∈ supported_jws_signing_algs /\
    find_jwk (v_kid v) (mkJwksDocument [rsa_jwk]) = Some jwk /\
    signature_checked "h.p.s" jwk (v_claims v) (v_alg v).
Proof.
  intros v. apply (jws_verify_sound "h.p.s" (mkJwksDocument [rsa_jwk]) (Some ["RS256"]) v).
  vm_compute. reflexivity.
Defined.
End Toy.
