(* ===== verification/JoseSigners.v ===== *)
(** crates/sts-jose, second part: backend selection and the signers.

    A signer is a record of the Rust struct's fields; the trait [JoseSigner] is
    a class with one instance per struct, and [JoseSignerLaws] states what the
    HTTP layer relies on. *)

From S2P Require Import Prelude RustStr Json Core Replay Jose.
From Stdlib Require Import Ascii.

(** The trait [JoseSigner]. *)
Class JoseSigner (S : Type) : Type := {
  signer_alg : S -> string;
  sign_claims : S -> MintedClaims -> result JoseError string;
  public_jwks : S -> JwksDocument;
  verify_claims : S -> string -> result JoseError MintedClaims
}.

#[export] Instance serialize_minted_claims : Serialize MintedClaims :=
  fun c => VObject (minted_claims_fields c).

(** [struct ProtectedHeader]. *)
Record ProtectedHeader : Type := mkProtectedHeader { ph_alg : string; ph_kid : string; ph_typ : string }.

#[export] Instance serialize_protected_header : Serialize ProtectedHeader := fun h =>
  VObject [("alg", VString (ph_alg h)); ("kid", VString (ph_kid h)); ("typ", VString (ph_typ h))].

(** * Backend selection *)

Definition resolve_backend `{Features} (selection : BackendSelection) : result JoseError unit :=
  match selection with
  | Classical => Ok tt
  | RequestedPqc requested =>
      let? _ := ok_or (from_selector requested)
        (mkJoseError UnsupportedAlgorithm ("requested signing backend " +:+ debug_str requested +:+
           " is not supported; refusing to fall back to RS256")) in
      if pqc_openssl then Ok tt
      else jose_err UnsupportedAlgorithm ("requested PQC signing backend " +:+ debug_str requested +:+
             " requires the pqc-openssl-unstable feature; refusing to fall back to RS256")
  end.

Definition ensure_classical_backend (selection : BackendSelection) : result JoseError unit :=
  match selection with
  | Classical => Ok tt
  | RequestedPqc requested =>
      jose_err UnsupportedAlgorithm ("requested PQC signing backend " +:+ debug_str requested +:+
        " cannot instantiate the RS256 signer; refusing to fall back to RS256")
  end.

Definition selected_pqc_algorithm (selection : BackendSelection) : result JoseError MlDsaAlgorithm :=
  match selection with
  | Classical =>
      jose_err UnsupportedAlgorithm "classical signing selection does not identify an ML-DSA algorithm"
  | RequestedPqc requested =>
      ok_or (from_selector requested)
        (mkJoseError UnsupportedAlgorithm
           ("requested PQC signing backend " +:+ debug_str requested +:+ " is not supported"))
  end.

(** * RSA key encodings *)

Section RsaKeys.
Context `{Base64} `{SerdeJson} `{Asn1} `{AwsLc} `{Sha256}.

(** [rsa_jwk_thumbprint]: the members of RFC 7638 in their canonical order. *)
Definition rsa_jwk_thumbprint (n e : string) : string :=
  let q s := dquote +:+ s +:+ dquote in
  let canonical := "{" +:+ q "e" +:+ ":" +:+ q e +:+ "," +:+ q "kty" +:+ ":" +:+ q "RSA" +:+ ","
                   +:+ q "n" +:+ ":" +:+ q n +:+ "}" in
  b64_encode (sha256 canonical).

Definition akp_jwk_thumbprint (alg public : string) : string :=
  let q s := dquote +:+ s +:+ dquote in
  let canonical := "{" +:+ q "alg" +:+ ":" +:+ q alg +:+ "," +:+ q "kty" +:+ ":" +:+ q "AKP" +:+ ","
                   +:+ q "pub" +:+ ":" +:+ q public +:+ "}" in
  b64_encode (sha256 canonical).

(** [bytes.iter().all(|byte| *byte == 0)]. *)
Definition all_zero (bytes : string) : bool := is_empty (skip_zero_bytes bytes).

Definition positive_integer_block (name bytes : string) : result JoseError ASN1Block :=
  if (is_empty bytes || all_zero bytes)%bool then
    jose_err InvalidKey ("invalid RSA private JWK " +:+ name +:+ ": zero unsigned integer")
  else Ok (Integer (biguint_from_bytes_be bytes)).

Definition rsa_private_jwk_to_pkcs1_der (jwk : PrivateRsaJwk) : result JoseError string :=
  let? n := decode_jwk_component "n" (rsa_n jwk) in
  let? e := decode_jwk_component "e" (rsa_e jwk) in
  let? d := decode_jwk_component "d" (rsa_d jwk) in
  let? p := decode_jwk_component "p" (rsa_p jwk) in
  let? q := decode_jwk_component "q" (rsa_q jwk) in
  let? dp := decode_required_private_component "dp" (rsa_dp jwk) in
  let? dq := decode_required_private_component "dq" (rsa_dq jwk) in
  let? qi := decode_required_private_component "qi" (rsa_qi jwk) in
  let? blocks := try_map (fun nb => positive_integer_block nb.1 nb.2)
    [("n", n); ("e", e); ("d", d); ("p", p); ("q", q); ("dp", dp); ("dq", dq); ("qi", qi)] in
  map_err (fun e => mkJoseError InvalidKey
                      ("failed to encode RSA private JWK as PKCS#1 DER: " +:+ e))
    (to_der (Sequence (Integer 0 :: blocks))).

(** The search below one block. *)
Fixpoint block_octet_string (block : ASN1Block) : option string :=
  match block with
  | OctetString value => Some value
  | Sequence values | SetBlock values =>
      (fix go (l : list ASN1Block) : option string :=
         match l with
         | [] => None
         | b :: l' => opt_or (block_octet_string b) (go l')
         end) values
  | Explicit inner => block_octet_string inner
  | _ => None
  end.

Fixpoint find_first_octet_string (blocks : list ASN1Block) : option string :=
  match blocks with
  | [] => None
  | b :: rest => opt_or (block_octet_string b) (find_first_octet_string rest)
  end.

Definition extract_pkcs8_private_key_octets (private_der : string) : result JoseError string :=
  let? blocks := map_err (fun e => mkJoseError InvalidKey ("invalid RSA private key DER: " +:+ e))
    (from_der private_der) in
  ok_or (find_first_octet_string blocks)
    (mkJoseError InvalidKey "invalid RSA private key DER: PKCS#8 privateKey octets not found").

Definition normalize_rsa_private_key_der (private_der : string) : result JoseError string :=
  if is_ok (rsa_from_der private_der) then Ok private_der
  else extract_pkcs8_private_key_octets private_der.

Definition rsa_integer_component (sequence : list ASN1Block) (index : nat) (name : string)
    : result JoseError string :=
  match sequence !! index with
  | Some (Integer value) =>
      if (value <=? 0)%Z then
        jose_err InvalidKey ("invalid generated RSA key DER: non-positive integer " +:+ name)
      else Ok (b64_encode (bigint_to_bytes_be value))
  | _ => jose_err InvalidKey ("invalid generated RSA key DER: missing integer " +:+ name)
  end.

Definition private_jwk_json_from_pkcs8_der (private_der : string) (public_jwk : PublicJwk)
    : result JoseError string :=
  let? pkcs1_der := normalize_rsa_private_key_der private_der in
  let? blocks := map_err (fun e => mkJoseError InvalidKey ("invalid generated RSA key DER: " +:+ e))
    (from_der pkcs1_der) in
  let? sequence :=
    match blocks with
    | [Sequence sequence] => Ok sequence
    | _ => jose_err InvalidKey "invalid generated RSA key DER: expected PKCS#1 sequence"
    end in
  if (length sequence <? 9)%nat then
    jose_err InvalidKey "invalid generated RSA key DER: missing RSA private key components"
  else
  let? n := rsa_integer_component sequence 1 "n" in
  let? e := rsa_integer_component sequence 2 "e" in
  let? d := rsa_integer_component sequence 3 "d" in
  let? p := rsa_integer_component sequence 4 "p" in
  let? q := rsa_integer_component sequence 5 "q" in
  let? dp := rsa_integer_component sequence 6 "dp" in
  let? dq := rsa_integer_component sequence 7 "dq" in
  let? qi := rsa_integer_component sequence 8 "qi" in
  let jwk := json_object
    [("kty", VString "RSA"); ("kid", VString (jwk_kid public_jwk)); ("use", VString "sig");
     ("alg", VString "RS256"); ("n", VString n); ("e", VString e); ("d", VString d);
     ("p", VString p); ("q", VString q); ("dp", VString dp); ("dq", VString dq);
     ("qi", VString qi)] in
  map_err (fun e => mkJoseError InvalidKey ("encode generated RSA JWK failed: " +:+ e))
    (res_map (fun json => json +:+ newline) (json_to_string_pretty jwk)).

End RsaKeys.

(** * Compact JWS construction and the checks every signer's [verify_claims] makes *)

Section Compact.
Context `{Features} `{Base64} `{SerdeJson}.

(** [sign_json_claims_with_typ] of the signers that build the JWS themselves;
    [sign] makes the raw signature of the signing input. *)
Definition sign_compact {T} `{Serialize T} (alg kid typ : string) (claims : T)
    (sign : string -> result JoseError string) : result JoseError string :=
  let? protected := map_err (fun e => mkJoseError InvalidClaims ("encode JWS header failed: " +:+ e))
    (json_to_vec (serialize (mkProtectedHeader alg kid typ))) in
  let? payload := map_err (fun e => mkJoseError InvalidClaims ("encode claims failed: " +:+ e))
    (json_to_vec (serialize claims)) in
  let signing_input := b64_encode protected +:+ "." +:+ b64_encode payload in
  let? signature := sign signing_input in
  Ok (signing_input +:+ "." +:+ b64_encode signature).

Context `{Jwt} `{OpenSsl} `{FromJson CompactJwsHeader} `{FromJson MintedClaims}.

(** [verify_claims]: the header must name this signer's algorithm and key. *)
Definition verify_own_claims (alg kid : string) (jwks : JwksDocument) (token : string)
    : result JoseError MintedClaims :=
  let? header := decode_compact_jws_header token in
  if negb (bool_decide (h_alg header = alg)) then
    jose_err VerificationFailed "unexpected JWS algorithm"
  else if negb (bool_decide (h_kid header = Some kid)) then
    jose_err VerificationFailed "unexpected JWS kid"
  else verify_claims_against_jwks token jwks.

End Compact.

(** * The RS256 signer *)

Section Rsa.
Context `{Features} `{Base64} `{SerdeJson} `{Asn1} `{AwsLc} `{Sha256} `{Jwt} `{OpenSsl}
  `{FromJson CompactJwsHeader} `{FromJson MintedClaims} `{FromJson PrivateRsaJwk}.

Record RsaJoseSigner : Type := mkRsaSigner {
  rs_kid : string;
  rs_encoding_key : EncodingKey;
  rs_public_jwk : PublicJwk
}.

Definition modulus_too_small : JoseError :=
  mkJoseError InvalidKey "RSA signing key modulus must be at least 2048 bits".

Definition rsa_from_pkcs1_der (private_der kid : string) : result JoseError RsaJoseSigner :=
  let? key_pair := map_err (fun e => mkJoseError InvalidKey ("invalid RSA private key: " +:+ e))
    (rsa_from_der private_der) in
  if (public_modulus_len key_pair * 8 <? 2048)%Z then Err modulus_too_small
  else
  let public_jwk := mkPublicJwk "RSA" kid "sig" "RS256"
    (Some (b64_encode (rsa_public_n key_pair))) (Some (b64_encode (rsa_public_e key_pair))) None in
  Ok (mkRsaSigner kid (encoding_key_from_rsa_der private_der) public_jwk).

Definition rsa_from_pkcs1_pem (private_pem kid : string) : result JoseError RsaJoseSigner :=
  let? encoding_key := map_err map_jwt_key_error (encoding_key_from_rsa_pem (trim private_pem)) in
  rsa_from_pkcs1_der (encoding_key_inner encoding_key) kid.

Definition rsa_from_private_key_der (private_der kid : string) : result JoseError RsaJoseSigner :=
  let? private_der := normalize_rsa_private_key_der private_der in
  rsa_from_pkcs1_der private_der kid.

Definition rsa_from_private_jwk (private_jwk_json fallback_kid : string)
    : result JoseError RsaJoseSigner :=
  let? jwk := map_err (fun e => mkJoseError InvalidKey ("invalid RSA private JWK JSON: " +:+ e))
    (from_json private_jwk_json) in
  if negb (bool_decide (rsa_kty jwk = "RSA")) then
    jose_err InvalidKey ("unsupported private JWK key type " +:+ rsa_kty jwk)
  else
  let? n := decode_jwk_component "n" (rsa_n jwk) in
  let? e := decode_jwk_component "e" (rsa_e jwk) in
  let? _ := validate_public_components n e in
  if (rsa_modulus_bits n <? 2048)%Z then Err modulus_too_small
  else
  let? private_der := rsa_private_jwk_to_pkcs1_der jwk in
  rsa_from_pkcs1_der private_der (default fallback_kid (rsa_kid jwk)).

Definition rsa_from_pkcs1_pem_for_backend (selection : BackendSelection) (private_pem kid : string)
    : result JoseError RsaJoseSigner :=
  let? _ := ensure_classical_backend selection in rsa_from_pkcs1_pem private_pem kid.

Definition rsa_from_private_jwk_for_backend (selection : BackendSelection)
    (private_jwk_json fallback_kid : string) : result JoseError RsaJoseSigner :=
  let? _ := ensure_classical_backend selection in rsa_from_private_jwk private_jwk_json fallback_kid.

Definition rsa_from_private_key_der_for_backend (selection : BackendSelection)
    (private_der kid : string) : result JoseError RsaJoseSigner :=
  let? _ := ensure_classical_backend selection in rsa_from_private_key_der private_der kid.

Record GeneratedRsaKey : Type := mkGeneratedRsaKey {
  gr_private_jwk_json : string;
  gr_public_jwk : PublicJwk
}.

(** [RsaJoseSigner::generate_for_tests]; [generated] is the library's fresh key. *)
Definition rsa_generate_for_tests (generated : result string RsaKeyPair) (kid : string)
    : result JoseError RsaJoseSigner :=
  let? key_pair := map_err (fun e => mkJoseError InvalidKey ("generate RSA key failed: " +:+ e))
    generated in
  let? private_der := map_err (fun e => mkJoseError InvalidKey ("encode RSA key failed: " +:+ e))
    (rsa_as_pkcs8_der key_pair) in
  rsa_from_private_key_der private_der kid.

Definition rsa_generate_private_jwk (generated : result string RsaKeyPair)
    : result JoseError GeneratedRsaKey :=
  let? key_pair := map_err (fun e => mkJoseError InvalidKey ("generate RSA key failed: " +:+ e))
    generated in
  let? private_der := map_err (fun e => mkJoseError InvalidKey ("encode RSA key failed: " +:+ e))
    (rsa_as_pkcs8_der key_pair) in
  let n := b64_encode (rsa_public_n key_pair) in
  let e := b64_encode (rsa_public_e key_pair) in
  let kid := rsa_jwk_thumbprint n e in
  let public_jwk := mkPublicJwk "RSA" kid "sig" "RS256" (Some n) (Some e) None in
  let? private_jwk_json := private_jwk_json_from_pkcs8_der private_der public_jwk in
  Ok (mkGeneratedRsaKey private_jwk_json public_jwk).

(** [sign_json_claims_with_typ]: the library builds the JWS. *)
Definition rsa_sign_with_typ {T} `{Serialize T} (self : RsaJoseSigner) (claims : T) (typ : string)
    : result JoseError string :=
  map_err map_jwt_encode_error
    (jwt_encode (mkJwtHeader "RS256" (Some (rs_kid self)) (Some typ)) (serialize claims)
       (rs_encoding_key self)).

Definition rsa_sign_json_claims {T} `{Serialize T} (self : RsaJoseSigner) (claims : T)
    : result JoseError string := rsa_sign_with_typ self claims "JWT".

#[export] Instance rsa_jose_signer : JoseSigner RsaJoseSigner := {
  signer_alg _ := "RS256";
  sign_claims self claims := rsa_sign_with_typ self claims "at+jwt";
  public_jwks self := mkJwksDocument [rs_public_jwk self];
  verify_claims self token :=
    let? _ := parse_compact_jws token in
    verify_own_claims "RS256" (rs_kid self) (mkJwksDocument [rs_public_jwk self]) token
}.

(** * External RS256 key custody *)

(** The trait [ExternalRs256SignerProvider] has one operation. *)
Definition ExternalRs256SignerProvider : Type := string -> result JoseError string.

Record ExternalRs256JoseSigner : Type := mkExternalRs256 {
  er_kid : string;
  er_public_jwk : PublicJwk;
  er_provider : ExternalRs256SignerProvider
}.

Definition external_rs256_new (kid : string) (public_jwk : PublicJwk)
    (provider : ExternalRs256SignerProvider) : result JoseError ExternalRs256JoseSigner :=
  if is_empty (trim kid) then jose_err InvalidKey "external signer kid is required"
  else
  let? _ := validate_public_jwk public_jwk in
  if (negb (bool_decide (jwk_kty public_jwk = "RSA"))
      || negb (bool_decide (jwk_alg public_jwk = "RS256")))%bool then
    jose_err UnsupportedAlgorithm "external signer currently supports RS256 RSA public keys only"
  else if negb (bool_decide (jwk_kid public_jwk = kid)) then
    jose_err InvalidKey "external signer kid does not match public JWK kid"
  else Ok (mkExternalRs256 kid public_jwk provider).

#[export] Instance external_rs256_signer : JoseSigner ExternalRs256JoseSigner := {
  signer_alg _ := "RS256";
  sign_claims self claims := sign_compact "RS256" (er_kid self) "at+jwt" claims (er_provider self);
  public_jwks self := mkJwksDocument [er_public_jwk self];
  verify_claims self token :=
    verify_own_claims "RS256" (er_kid self) (mkJwksDocument [er_public_jwk self]) token
}.

(** [MockExternalRs256Provider]: a key pair held locally. *)
Record MockExternalRs256Provider : Type := mkMockRs256 {
  mr_key_pair : RsaKeyPair;
  mr_signature_len : Z
}.

Definition mock_rs256_from_private_jwk_for_backend (selection : BackendSelection)
    (private_jwk_json : string) : result JoseError MockExternalRs256Provider :=
  let? _ := ensure_classical_backend selection in
  let? jwk := map_err (fun e => mkJoseError InvalidKey ("invalid RSA private JWK JSON: " +:+ e))
    (from_json private_jwk_json) in
  if negb (bool_decide (rsa_kty jwk = "RSA")) then
    jose_err InvalidKey ("unsupported private JWK key type " +:+ rsa_kty jwk)
  else
  let? private_der := rsa_private_jwk_to_pkcs1_der jwk in
  let? key_pair := map_err (fun e => mkJoseError InvalidKey ("invalid RSA private key: " +:+ e))
    (rsa_from_der private_der) in
  if (public_modulus_len key_pair * 8 <? 2048)%Z then Err modulus_too_small
  else Ok (mkMockRs256 key_pair (public_modulus_len key_pair)).

Definition mock_sign_rs256 (self : MockExternalRs256Provider) : ExternalRs256SignerProvider :=
  fun signing_input =>
    map_err (fun e => mkJoseError InvalidKey ("external RS256 signing failed: " +:+ e))
      (rsa_sign_pkcs1_sha256 (mr_key_pair self) signing_input).

End Rsa.

(** * The ML-DSA signers (compiled with the PQC feature only) *)

Section MlDsa.
Context `{Features} `{Base64} `{SerdeJson} `{Sha256} `{Jwt} `{OpenSsl}
  `{FromJson CompactJwsHeader} `{FromJson MintedClaims} `{FromJson PrivateAkpJwk}.

Definition openssl_private_key_from_seed (algorithm : MlDsaAlgorithm) (seed : string)
    : result JoseError PKeyPrivate :=
  map_err (fun e => mkJoseError InvalidKey ("AKP private JWK seed was rejected by OpenSSL: " +:+ e))
    (private_key_from_seed algorithm seed).

Definition openssl_raw_public_key (key_pair : PKeyPrivate) : result JoseError string :=
  map_err (fun e => mkJoseError InvalidKey
             ("derive ML-DSA public key from OpenSSL private key failed: " +:+ e))
    (raw_public_key key_pair).

Definition openssl_sign_mldsa (algorithm : MlDsaAlgorithm) (key_pair : PKeyPrivate)
    (signing_input : string) : result JoseError string :=
  let? _ := map_err (fun e => mkJoseError InvalidKey ("create ML-DSA signer failed: " +:+ e))
    (signer_new_without_digest key_pair) in
  let? signature := map_err (fun e => mkJoseError InvalidKey ("ML-DSA signing failed: " +:+ e))
    (sign_oneshot_to_vec key_pair signing_input) in
  if negb (byte_len signature =? signature_len algorithm)%Z then
    jose_err InvalidKey ("ML-DSA signature length was " +:+ to_string (byte_len signature) +:+
      " bytes, expected " +:+ to_string (signature_len algorithm) +:+ " for " +:+ jose_alg algorithm)
  else Ok signature.

Record MlDsaJoseSigner : Type := mkMlDsaSigner {
  md_kid : string;
  md_algorithm : MlDsaAlgorithm;
  md_key_pair : PKeyPrivate;
  md_public_jwk : PublicJwk
}.

Definition akp_public_jwk (kid : string) (algorithm : MlDsaAlgorithm) (public : string) : PublicJwk :=
  mkPublicJwk "AKP" kid "sig" (jose_alg algorithm) None None (Some public).

Definition mldsa_from_private_jwk_for_backend (selection : BackendSelection)
    (private_jwk_json fallback_kid : string) : result JoseError MlDsaJoseSigner :=
  let? _ := resolve_backend selection in
  let? selected_algorithm := selected_pqc_algorithm selection in
  let? jwk := map_err (fun e => mkJoseError InvalidKey ("invalid AKP private JWK JSON: " +:+ e))
    (from_json private_jwk_json) in
  if negb (bool_decide (akp_kty jwk = "AKP")) then
    jose_err InvalidKey ("unsupported private JWK key type " +:+ akp_kty jwk)
  else
  let? algorithm := ok_or (from_jose_alg (akp_alg jwk))
    (mkJoseError UnsupportedAlgorithm ("unsupported AKP private JWK alg " +:+ akp_alg jwk)) in
  if negb (bool_decide (algorithm = selected_algorithm)) then
    jose_err InvalidKey "selected signing algorithm does not match AKP private JWK alg"
  else
  let? seed := decode_jwk_octets "AKP private JWK priv" (akp_priv jwk) in
  if negb (byte_len seed =? 32)%Z then
    jose_err InvalidKey "AKP private JWK priv must be a 32-byte seed"
  else
  let? supplied_public := decode_jwk_octets "AKP private JWK pub" (akp_pub jwk) in
  if negb (byte_len supplied_public =? public_key_len algorithm)%Z then
    jose_err InvalidKey ("AKP private JWK pub length must be " +:+
      to_string (public_key_len algorithm) +:+ " bytes for " +:+ jose_alg algorithm)
  else
  let? key_pair := openssl_private_key_from_seed algorithm seed in
  let? derived_public := openssl_raw_public_key key_pair in
  if negb (bool_decide (derived_public = supplied_public)) then
    jose_err InvalidKey "AKP private JWK pub does not match priv-derived public key"
  else
  let public := b64_encode derived_public in
  let kid := match akp_kid jwk with
             | Some kid => kid
             | None => if is_empty fallback_kid then akp_jwk_thumbprint (jose_alg algorithm) public
                       else fallback_kid
             end in
  Ok (mkMlDsaSigner kid algorithm key_pair (akp_public_jwk kid algorithm public)).

Definition mldsa_from_seed_for_tests (algorithm : MlDsaAlgorithm) (seed kid : string)
    : result JoseError MlDsaJoseSigner :=
  let? key_pair := openssl_private_key_from_seed algorithm seed in
  let? raw := openssl_raw_public_key key_pair in
  Ok (mkMlDsaSigner kid algorithm key_pair (akp_public_jwk kid algorithm (b64_encode raw))).

Record GeneratedMlDsaKey : Type := mkGeneratedMlDsaKey {
  gm_private_jwk_json : string;
  gm_public_jwk : PublicJwk
}.

(** [MlDsaJoseSigner::generate_private_jwk]; [random] is the 32-byte seed drawn
    from the system's random source. *)
Definition mldsa_generate_private_jwk (random : result string string) (algorithm : MlDsaAlgorithm)
    (kid : option string) : result JoseError GeneratedMlDsaKey :=
  let? seed := map_err (fun e => mkJoseError InvalidKey ("ML-DSA seed generation failed: " +:+ e))
    random in
  let? key_pair := openssl_private_key_from_seed algorithm seed in
  let? raw := openssl_raw_public_key key_pair in
  let public := b64_encode raw in
  let kid := default (akp_jwk_thumbprint (jose_alg algorithm) public)
               (opt_filter (fun value => negb (is_empty (trim value))) kid) in
  let private_jwk := json_object
    [("kty", VString "AKP"); ("kid", VString kid); ("use", VString "sig");
     ("alg", VString (jose_alg algorithm)); ("pub", VString public);
     ("priv", VString (b64_encode seed))] in
  let? private_jwk_json :=
    map_err (fun e => mkJoseError InvalidKey ("encode generated ML-DSA JWK failed: " +:+ e))
      (res_map (fun value => value +:+ newline) (json_to_string_pretty private_jwk)) in
  let? signer := mldsa_from_private_jwk_for_backend (backend_selection_parse (jose_alg algorithm))
                   private_jwk_json "" in
  Ok (mkGeneratedMlDsaKey private_jwk_json (md_public_jwk signer)).

Definition mldsa_sign_with_typ {T} `{Serialize T} (self : MlDsaJoseSigner) (claims : T) (typ : string)
    : result JoseError string :=
  sign_compact (jose_alg (md_algorithm self)) (md_kid self) typ claims
    (openssl_sign_mldsa (md_algorithm self) (md_key_pair self)).

Definition mldsa_sign_json_claims {T} `{Serialize T} (self : MlDsaJoseSigner) (claims : T)
    : result JoseError string := mldsa_sign_with_typ self claims "JWT".

#[export] Instance mldsa_jose_signer : JoseSigner MlDsaJoseSigner := {
  signer_alg self := jose_alg (md_algorithm self);
  sign_claims self claims := mldsa_sign_with_typ self claims "at+jwt";
  public_jwks self := mkJwksDocument [md_public_jwk self];
  verify_claims self token :=
    verify_own_claims (jose_alg (md_algorithm self)) (md_kid self)
      (mkJwksDocument [md_public_jwk self]) token
}.

(** The trait [ExternalMlDsaSignerProvider]. *)
Record ExternalMlDsaSignerProvider : Type := mkMlDsaProvider {
  prov_algorithm : MlDsaAlgorithm;
  prov_sign_mldsa : string -> result JoseError string
}.

Record ExternalMlDsaJoseSigner : Type := mkExternalMlDsa {
  em_kid : string;
  em_algorithm : MlDsaAlgorithm;
  em_public_jwk : PublicJwk;
  em_provider : ExternalMlDsaSignerProvider
}.

Definition external_mldsa_new (kid : string) (public_jwk : PublicJwk)
    (provider : ExternalMlDsaSignerProvider) : result JoseError ExternalMlDsaJoseSigner :=
  if is_empty (trim kid) then jose_err InvalidKey "external ML-DSA signer kid is required"
  else
  let? _ := validate_public_jwk public_jwk in
  let algorithm := prov_algorithm provider in
  if (negb (bool_decide (jwk_kty public_jwk = "AKP"))
      || negb (bool_decide (jwk_alg public_jwk = jose_alg algorithm)))%bool then
    jose_err UnsupportedAlgorithm
      "external ML-DSA signer public JWK must be AKP with matching ML-DSA alg"
  else if negb (bool_decide (jwk_kid public_jwk = kid)) then
    jose_err InvalidKey "external ML-DSA signer kid does not match public JWK kid"
  else
  let? public := akp_public_key_from_jwk public_jwk in
  if negb (bool_decide (dec_algorithm public = algorithm)) then
    jose_err InvalidKey "external ML-DSA signer provider alg does not match public JWK"
  else Ok (mkExternalMlDsa kid algorithm public_jwk provider).

Definition external_mldsa_sign (self : ExternalMlDsaJoseSigner) (signing_input : string)
    : result JoseError string :=
  let? signature := prov_sign_mldsa (em_provider self) signing_input in
  if negb (byte_len signature =? signature_len (em_algorithm self))%Z then
    jose_err InvalidKey "external ML-DSA provider returned wrong-sized signature"
  else Ok signature.

#[export] Instance external_mldsa_signer : JoseSigner ExternalMlDsaJoseSigner := {
  signer_alg self := jose_alg (em_algorithm self);
  sign_claims self claims :=
    sign_compact (jose_alg (em_algorithm self)) (em_kid self) "at+jwt" claims (external_mldsa_sign self);
  public_jwks self := mkJwksDocument [em_public_jwk self];
  verify_claims self token :=
    verify_own_claims (jose_alg (em_algorithm self)) (em_kid self)
      (mkJwksDocument [em_public_jwk self]) token
}.

(** [MockExternalMlDsaProvider::from_private_jwk_for_backend]. *)
Definition mock_mldsa_from_private_jwk_for_backend (selection : BackendSelection)
    (private_jwk_json : string) : result JoseError (ExternalMlDsaSignerProvider * PublicJwk) :=
  let? _ := resolve_backend selection in
  let? selected_algorithm := selected_pqc_algorithm selection in
  let? signer := mldsa_from_private_jwk_for_backend selection private_jwk_json "" in
  if negb (bool_decide (md_algorithm signer = selected_algorithm)) then
    jose_err InvalidKey "mock external ML-DSA provider alg mismatch"
  else Ok (mkMlDsaProvider (md_algorithm signer)
             (openssl_sign_mldsa (md_algorithm signer) (md_key_pair signer)), md_public_jwk signer).

End MlDsa.

(** * Specifications *)

(** What the HTTP layer relies on: the one published key is the signer's own,
    is valid, and a token is taken for its own only when the header names the
    signer's algorithm and that key. *)
Class JoseSignerLaws (S : Type) `{JoseSigner S} `{Base64} `{FromJson CompactJwsHeader} : Type := {
  signer_ok : S -> Prop;
  published_key s : signer_ok s -> exists jwk,
    public_jwks s = mkJwksDocument [jwk] /\ validate_public_jwk jwk = Ok tt /\ jwk_alg jwk = signer_alg s;
  verify_own s token c : signer_ok s -> verify_claims s token = Ok c -> exists header jwk,
    decode_compact_jws_header token = Ok header /\ h_alg header = signer_alg s /\
    public_jwks s = mkJwksDocument [jwk] /\ h_kid header = Some (jwk_kid jwk)
}.

(** A published key is valid and carries the signer's algorithm and key id. *)
Definition key_ok `{Base64} (alg kid : string) (jwk : PublicJwk) : Prop :=
  validate_public_jwk jwk = Ok tt /\ jwk_alg jwk = alg /\ jwk_kid jwk = kid.

(** aws-lc-rs gives a public key's components without leading zeros. *)
Class AwsLcLaws `{AwsLc} : Prop := {
  components_minimal der key : rsa_from_der der = Ok key ->
    validate_public_components (rsa_public_n key) (rsa_public_e key) = Ok tt
}.

(** The octet strings of a list of blocks in the order of the encoding. *)
Fixpoint octets_of (block : ASN1Block) : list string :=
  match block with
  | OctetString value => [value]
  | Sequence values | SetBlock values => concat (map octets_of values)
  | Explicit inner => octets_of inner
  | _ => []
  end.

(** The laws of OpenSSL and of the encodings that signing relies on. *)
Class Base64Laws `{Base64} : Prop := {
  b64_decode_encode x : b64_decode (b64_encode x) = Ok x;
  b64_no_dot x : contains_char "."%char (b64_encode x) = false
}.

Class OpenSslLaws `{OpenSsl} : Prop := {
  mldsa_verifies algorithm seed key raw signature message :
    private_key_from_seed algorithm seed = Ok key -> raw_public_key key = Ok raw ->
    sign_oneshot_to_vec key message = Ok signature ->
    exists public, public_key_from_raw_bytes_ex algorithm raw = Ok public /\
      verifier_new_without_digest public = Ok tt /\ verify_oneshot public signature message = Ok true
}.

(** A protected header reads back from its text. *)
Class HeaderLaws `{SerdeJson} `{FromJson CompactJwsHeader} : Prop := {
  header_reads_back alg kid typ bytes :
    json_to_vec (serialize (mkProtectedHeader alg kid typ)) = Ok bytes ->
    from_json bytes = Ok (mkCompactJwsHeader alg (Some kid) (Some typ))
}.

(** [serde] reads back the claims that it writes. *)
Class ClaimsLaws `{SerdeJson} `{FromJson MintedClaims} : Prop := {
  claims_read_back (c : MintedClaims) bytes : json_to_vec (serialize c) = Ok bytes -> from_json bytes = Ok c
}.

(** What [jsonwebtoken] encodes is a compact JWS under the header given, and it
    decodes what it has encoded with the same key pair. *)
Class JwtLaws `{Jwt} `{Base64} `{AwsLc} `{FromJson CompactJwsHeader} `{FromJson MintedClaims} : Prop := {
  jwt_header_encoded header claims key token : jwt_encode header claims key = Ok token ->
    exists h p s, token = (b64_encode h +:+ "." +:+ b64_encode p) +:+ "." +:+ b64_encode s /\
      from_json h = Ok (mkCompactJwsHeader (jh_alg header) (jh_kid header) (jh_typ header));
  jwt_decodes der pair kid typ (c : MintedClaims) token :
    rsa_from_der der = Ok pair ->
    jwt_encode (mkJwtHeader "RS256" kid typ) (serialize c) (encoding_key_from_rsa_der der) = Ok token ->
    exists key, decoding_key_from_rsa_components (b64_encode (rsa_public_n pair)) (b64_encode (rsa_public_e pair)) = Ok key /\
      jwt_decode MintedClaims _ token key signature_only_rs256_validation = Ok c
}.

(** What the server relies on when it takes back what it has signed: the token
    verifies under every key set in which the signer's key is found, as an
    access token with the claims signed. *)
Class JoseSignerRoundtrip (S : Type) `{JoseSigner S} `{Features} `{Base64} `{Jwt} `{OpenSsl}
    `{FromJson CompactJwsHeader} `{FromJson MintedClaims} : Type := {
  verifiable : S -> Prop;
  signed_verifies s c token jwk jwks : verifiable s -> sign_claims s c = Ok token ->
    public_jwks s = mkJwksDocument [jwk] -> find_jwk (jwk_kid jwk) jwks = Some jwk ->
    exists v, verify_claims_against_jwks_with_header token jwks = Ok v /\ v_claims v = c /\ v_typ v = Some "at+jwt"
}.

(** * Lemmas *)

Lemma ensure_classical_ok selection u : ensure_classical_backend selection = Ok u -> selection = Classical.
Proof. by destruct selection. Qed.

Lemma selected_pqc_ok selection a :
  selected_pqc_algorithm selection = Ok a ->
  exists requested, selection = RequestedPqc requested /\ from_selector requested = Some a.
Proof. destruct selection; simpl; [done|]. intros H. ok_inv. eauto. Qed.

Lemma parse_classical value :
  backend_selection_parse value = Classical <->
  to_ascii_lowercase (trim value) = "classical" \/ to_ascii_lowercase (trim value) = "rs256".
Proof.
  unfold backend_selection_parse. repeat case_bool_decide; simpl; try case_match; split; try done;
    try (left; done); try (right; done); intros [?|?]; congruence.
Qed.

Lemma resolve_backend_ok `{Features} selection u :
  resolve_backend selection = Ok u ->
  selection = Classical \/ (pqc_openssl = true /\
    exists r a, selection = RequestedPqc r /\ from_selector r = Some a).
Proof.
  destruct selection as [|r]; simpl; [auto|]. intros H'. ok_inv. unfold jose_err in H'.
  destruct pqc_openssl; [eauto 10|done].
Qed.

(** What [from_private_jwk_for_backend] has checked when it returns a signer. *)
Lemma mldsa_from_private_jwk_ok `{Features} `{Base64} `{Sha256} `{OpenSsl} `{FromJson PrivateAkpJwk}
    selection json fallback s :
  mldsa_from_private_jwk_for_backend selection json fallback = Ok s ->
  resolve_backend selection = Ok tt /\ selected_pqc_algorithm selection = Ok (md_algorithm s) /\
  exists seed raw, byte_len seed = 32%Z /\ byte_len raw = public_key_len (md_algorithm s) /\
    private_key_from_seed (md_algorithm s) seed = Ok (md_key_pair s) /\
    raw_public_key (md_key_pair s) = Ok raw /\
    md_public_jwk s = akp_public_jwk (md_kid s) (md_algorithm s) (b64_encode raw).
Proof.
  unfold mldsa_from_private_jwk_for_backend, jose_err, openssl_private_key_from_seed,
    openssl_raw_public_key. intros Hs.
  ok_inv. bool_hyps. rewrite Z.eqb_eq in *. subst. simpl. ok_inv.
  match goal with u : () |- _ => destruct u end. naive_solver.
Qed.

Lemma akp_public_jwk_ok `{Base64Laws} kid algorithm raw :
  byte_len raw = public_key_len algorithm ->
  akp_public_key_from_jwk (akp_public_jwk kid algorithm (b64_encode raw))
  = Ok (mkDecodedAkp algorithm raw).
Proof.
  intros Hl. unfold akp_public_key_from_jwk, akp_public_jwk, decode_jwk_octets. simpl.
  rewrite (proj2 (from_jose_alg_Some _ algorithm)) by done. simpl.
  rewrite b64_decode_encode. simpl. rewrite Hl, Z.eqb_refl. done.
Qed.

Lemma verify_own_ok `{Features} `{Base64} `{Jwt} `{OpenSsl} `{FromJson CompactJwsHeader}
    `{FromJson MintedClaims} alg kid jwks token c :
  verify_own_claims alg kid jwks token = Ok c ->
  exists header, decode_compact_jws_header token = Ok header /\ h_alg header = alg /\
    h_kid header = Some kid.
Proof. unfold verify_own_claims, jose_err. intros Hv. ok_inv. bool_hyps. eauto. Qed.

Lemma parse_compact_joined `{Base64Laws} h p s :
  parse_compact_jws ((b64_encode h +:+ "." +:+ b64_encode p) +:+ "." +:+ b64_encode s)
  = Ok (b64_encode h, b64_encode p, b64_encode s).
Proof.
  apply parse_compact_jws_ok, split_three. rewrite !b64_no_dot. split; [|done].
  by rewrite !str_app_assoc.
Qed.

(** The header of what [sign_compact] returns. *)
Lemma sign_compact_header `{Base64Laws} `{HeaderLaws} {T} `{Serialize T} alg kid typ (claims : T) sign token :
  sign_compact alg kid typ claims sign = Ok token ->
  decode_compact_jws_header token = Ok (mkCompactJwsHeader alg (Some kid) (Some typ)).
Proof.
  unfold sign_compact. intros Hs. ok_inv. unfold decode_compact_jws_header, decode_compact_segment.
  rewrite parse_compact_joined. simpl. rewrite b64_decode_encode. simpl.
  by erewrite header_reads_back.
Qed.

(** The order of the search in one block and in a list of blocks. *)
Lemma block_octet_string_head block : block_octet_string block = head (octets_of block).
Proof.
  revert block. fix IH 1. intros [n|v|l|l|b|]; [done|done| | |exact (IH b)|done].
  all: simpl; induction l as [|b l IHl]; simpl; [done|]; rewrite (IH b), IHl; by destruct (octets_of b).
Qed.

Lemma find_first_head blocks : find_first_octet_string blocks = head (concat (map octets_of blocks)).
Proof.
  induction blocks as [|b l IH]; simpl; [done|].
  rewrite block_octet_string_head, IH. by destruct (octets_of b).
Qed.

(** * The signers keep the trait's promises *)

Section Laws.
Context `{Features} `{Base64Laws} `{SerdeJson} `{Asn1} `{AwsLcLaws} `{Sha256} `{Jwt} `{OpenSsl}
  `{FromJson CompactJwsHeader} `{FromJson MintedClaims} `{FromJson PrivateRsaJwk} `{FromJson PrivateAkpJwk}.

Lemma key_ok_own alg kid jwk token c :
  key_ok alg kid jwk -> verify_own_claims alg kid (mkJwksDocument [jwk]) token = Ok c ->
  exists header jwk', decode_compact_jws_header token = Ok header /\ h_alg header = alg /\
    mkJwksDocument [jwk] = mkJwksDocument [jwk'] /\ h_kid header = Some (jwk_kid jwk').
Proof. intros (_ & _ & <-) (header & ? & ? & ?)%verify_own_ok. by exists header, jwk. Qed.

#[export] Instance rsa_signer_laws : JoseSignerLaws RsaJoseSigner.
Proof.
  refine {| signer_ok s := key_ok (signer_alg s) (rs_kid s) (rs_public_jwk s) |}.
  - intros s (? & ? & ?). by eexists.
  - intros s token c Hs Hv. simpl in Hv. ok_inv. by eapply key_ok_own.
Defined.

#[export] Instance external_rs256_laws : JoseSignerLaws ExternalRs256JoseSigner.
Proof.
  refine {| signer_ok s := key_ok (signer_alg s) (er_kid s) (er_public_jwk s) |}.
  - intros s (? & ? & ?). by eexists.
  - intros s token c Hs Hv. by eapply key_ok_own.
Defined.

#[export] Instance mldsa_signer_laws : JoseSignerLaws MlDsaJoseSigner.
Proof.
  refine {| signer_ok s := key_ok (signer_alg s) (md_kid s) (md_public_jwk s) |}.
  - intros s (? & ? & ?). by eexists.
  - intros s token c Hs Hv. by eapply key_ok_own.
Defined.

#[export] Instance external_mldsa_laws : JoseSignerLaws ExternalMlDsaJoseSigner.
Proof.
  refine {| signer_ok s := key_ok (signer_alg s) (em_kid s) (em_public_jwk s) |}.
  - intros s (? & ? & ?). by eexists.
  - intros s token c Hs Hv. by eapply key_ok_own.
Defined.

Lemma akp_public_jwk_key_ok kid algorithm raw :
  byte_len raw = public_key_len algorithm ->
  key_ok (jose_alg algorithm) kid (akp_public_jwk kid algorithm (b64_encode raw)).
Proof.
  intros Hl. split; [|done]. unfold validate_public_jwk. simpl. by rewrite akp_public_jwk_ok.
Qed.

Lemma rsa_public_jwk_key_ok kid n e :
  validate_public_components n e = Ok tt ->
  key_ok "RS256" kid (mkPublicJwk "RSA" kid "sig" "RS256" (Some (b64_encode n)) (Some (b64_encode e)) None).
Proof.
  intros Hv. split; [|done]. unfold validate_public_jwk, rsa_public_key_from_jwk, decode_jwk_component,
    decode_jwk_octets. simpl. rewrite !b64_decode_encode. simpl.
  assert (is_empty n = false /\ is_empty e = false) as [-> ->].
  { revert Hv. unfold validate_public_components, jose_err. destruct (is_empty n), (is_empty e); done. }
  simpl. by rewrite Hv.
Qed.

Lemma rsa_constructed der kid s :
  rsa_from_pkcs1_der der kid = Ok s -> @signer_ok RsaJoseSigner _ _ _ _ s /\ rs_kid s = kid.
Proof.
  unfold rsa_from_pkcs1_der. intros Hs. ok_inv.
  split; [|done]. apply rsa_public_jwk_key_ok. by eapply components_minimal.
Qed.

Lemma external_rs256_constructed kid jwk provider s :
  external_rs256_new kid jwk provider = Ok s ->
  @signer_ok ExternalRs256JoseSigner _ _ _ _ s /\ er_public_jwk s = jwk.
Proof.
  unfold external_rs256_new, jose_err. intros Hs. ok_inv. bool_hyps. subst.
  match goal with u : () |- _ => destruct u end. done.
Qed.

Lemma mldsa_constructed selection json kid s :
  mldsa_from_private_jwk_for_backend selection json kid = Ok s -> @signer_ok MlDsaJoseSigner _ _ _ _ s.
Proof.
  intros Hs. apply mldsa_from_private_jwk_ok in Hs as (_ & _ & seed & raw & _ & Hl & _ & _ & Hj).
  simpl. rewrite Hj. by apply akp_public_jwk_key_ok.
Qed.

(** What an ML-DSA signer signs verifies under every key set in which its key
    is found. *)
Lemma mldsa_signed_verifies `{!OpenSslLaws} `{!HeaderLaws} selection json kid s c token bytes jwks :
  mldsa_from_private_jwk_for_backend selection json kid = Ok s ->
  sign_claims s c = Ok token -> json_to_vec (serialize c) = Ok bytes -> from_json bytes = Ok c ->
  find_jwk (md_kid s) jwks = Some (md_public_jwk s) ->
  verify_claims_against_jwks_with_header token jwks
  = Ok (mkVerifiedJws c (jose_alg (md_algorithm s)) (md_kid s) (Some "at+jwt")).
Proof.
  intros Hs Ht Hb Hc Hf.
  apply mldsa_from_private_jwk_ok in Hs as (Hres & Hsel & seed & raw & _ & Hl & Hk & Hraw & Hj).
  assert (Hpqc : pqc_openssl = true).
  { apply selected_pqc_ok in Hsel as (r & -> & _). by apply resolve_backend_ok in Hres as [|[]]. }
  simpl in Ht. unfold mldsa_sign_with_typ in Ht. pose proof (sign_compact_header _ _ _ _ _ _ Ht) as Hh.
  unfold sign_compact, openssl_sign_mldsa, jose_err in Ht. rewrite Hb in Ht. ok_inv.
  bool_hyps. rewrite Z.eqb_eq in *.
  match goal with Hsig : sign_oneshot_to_vec _ _ = Ok _ |- _ =>
    destruct (mldsa_verifies _ _ _ _ _ _ Hk Hraw Hsig) as (public & Hpub & Hnew & Hver) end.
  unfold verify_claims_against_jwks_with_header, verify_claims_against_jwks_inner.
  rewrite Hh. simpl. rewrite Hf, Hj. simpl.
  rewrite bool_decide_eq_false_2 by (by destruct (md_algorithm s)).
  assert (from_jose_alg (jose_alg (md_algorithm s)) = Some (md_algorithm s)) as Ha by by apply from_jose_alg_Some.
  rewrite Ha. simpl. unfold verify_mldsa_claims_against_jwk. rewrite Hpqc. unfold verify_mldsa_openssl.
  rewrite Ha. simpl. rewrite akp_public_jwk_ok by done. simpl. rewrite bool_decide_eq_true_2 by done. simpl.
  rewrite parse_compact_joined. simpl. unfold decode_compact_segment. rewrite b64_decode_encode. simpl.
  rewrite (proj2 (Z.eqb_eq _ _)) by done. simpl. unfold openssl_public_key_from_raw_bytes.
  rewrite Hpub. simpl. rewrite Hnew. simpl. rewrite Hver. simpl.
  unfold decode_payload_claims, decode_compact_segment. rewrite b64_decode_encode. simpl. by rewrite Hc.
Qed.

(** The same for the classical signer. *)
Lemma rsa_signed_verifies `{!JwtLaws} der kid s c token jwks :
  rsa_from_pkcs1_der der kid = Ok s -> sign_claims s c = Ok token ->
  find_jwk kid jwks = Some (rs_public_jwk s) ->
  verify_claims_against_jwks_with_header token jwks = Ok (mkVerifiedJws c "RS256" kid (Some "at+jwt")).
Proof.
  intros Hs Ht Hf. destruct (rsa_constructed _ _ _ Hs) as [[Hv _] Hkid]. unfold rsa_from_pkcs1_der in Hs. ok_inv.
  rewrite <- Hs in *. simpl in *. unfold rsa_sign_with_typ in Ht. apply map_err_ok in Ht. simpl in Ht.
  match goal with Hd : rsa_from_der _ = Ok _ |- _ => destruct (jwt_decodes _ _ _ _ _ _ Hd Ht) as (key & Hkey & Hdec) end.
  destruct (jwt_header_encoded _ _ _ _ Ht) as (h & p & sg & -> & Hh). simpl in Hh.
  unfold verify_claims_against_jwks_with_header, verify_claims_against_jwks_inner, decode_compact_jws_header.
  rewrite parse_compact_joined. simpl. unfold decode_compact_segment. rewrite b64_decode_encode. simpl. rewrite Hh. simpl.
  rewrite Hf. simpl. unfold verify_rs256_claims_against_jwk. simpl.
  unfold validate_public_jwk in Hv. simpl in Hv. destruct (rsa_public_key_from_jwk _); [|done]. simpl.
  rewrite Hkey. simpl. by rewrite Hdec.
Qed.

#[export] Instance rsa_roundtrip `{!JwtLaws} : JoseSignerRoundtrip RsaJoseSigner.
Proof.
  refine {| verifiable s := exists der kid, rsa_from_pkcs1_der der kid = Ok s |}.
  intros s c token jwk jwks (der & kid & Hs) Ht [= <-] Hf. destruct (rsa_constructed _ _ _ Hs) as [(_ & _ & Hj) Hk].
  eexists. split; [eapply rsa_signed_verifies; [exact Hs|exact Ht|]|done]. rewrite <- Hf. f_equal. by rewrite Hj, Hk.
Defined.

#[export] Instance mldsa_roundtrip `{!OpenSslLaws} `{!HeaderLaws} `{!ClaimsLaws} : JoseSignerRoundtrip MlDsaJoseSigner.
Proof.
  refine {| verifiable s := exists selection json kid, mldsa_from_private_jwk_for_backend selection json kid = Ok s |}.
  intros s c token jwk jwks (selection & json & kid & Hs) Ht [= <-] Hf.
  assert (Hb : exists bytes, json_to_vec (serialize c) = Ok bytes).
  { simpl in Ht. unfold mldsa_sign_with_typ, sign_compact in Ht. ok_inv. eauto. }
  destruct Hb as [bytes Hb]. destruct (mldsa_constructed _ _ _ _ Hs) as (_ & _ & Hk). rewrite Hk in Hf.
  eexists. split; [by eapply mldsa_signed_verifies; [exact Hs|exact Ht|exact Hb|by apply claims_read_back|]|done].
Defined.

(** * Properties *)

(** every signer that a constructor returns publishes exactly one key,
    which is a valid public JWK of the signer's own algorithm under the
    signer's key id. *)
Theorem constructed_signers_ok :
  (forall der kid s, rsa_from_pkcs1_der der kid = Ok s -> @signer_ok RsaJoseSigner _ _ _ _ s /\ rs_kid s = kid) /\
  (forall kid jwk provider s, external_rs256_new kid jwk provider = Ok s ->
     @signer_ok ExternalRs256JoseSigner _ _ _ _ s /\ er_public_jwk s = jwk) /\
  (forall selection json kid s, mldsa_from_private_jwk_for_backend selection json kid = Ok s ->
     @signer_ok MlDsaJoseSigner _ _ _ _ s) /\
  (forall kid jwk provider s, external_mldsa_new kid jwk provider = Ok s ->
     @signer_ok ExternalMlDsaJoseSigner _ _ _ _ s /\ em_public_jwk s = jwk).
Proof.
  split_and!.
  - apply rsa_constructed.
  - apply external_rs256_constructed.
  - apply mldsa_constructed.
  - unfold external_mldsa_new, jose_err. intros kid jwk provider s Hs. ok_inv. bool_hyps. subst.
    match goal with u : () |- _ => destruct u end. done.
Qed.

(** the classical signer is built only when the configured selection,
    trimmed and in any case, is "classical" or "rs256"; the ML-DSA signer only
    when the selection names an ML-DSA algorithm of a build that has them, and
    then for exactly that algorithm. No selection falls back to the other. *)
Theorem backend_fail_closed (value : string) :
  (forall s pem jwk der kid,
     rsa_from_pkcs1_pem_for_backend (backend_selection_parse value) pem kid = Ok s \/
     rsa_from_private_jwk_for_backend (backend_selection_parse value) jwk kid = Ok s \/
     rsa_from_private_key_der_for_backend (backend_selection_parse value) der kid = Ok s ->
     to_ascii_lowercase (trim value) = "classical" \/ to_ascii_lowercase (trim value) = "rs256") /\
  (forall s jwk kid,
     mldsa_from_private_jwk_for_backend (backend_selection_parse value) jwk kid = Ok s ->
     pqc_openssl = true /\
     exists requested, backend_selection_parse value = RequestedPqc requested /\
       from_selector requested = Some (md_algorithm s)).
Proof.
  split.
  - intros s pem jwk der kid Hs. apply parse_classical.
    destruct Hs as [Hs|[Hs|Hs]]; apply res_bind_ok in Hs as (u & Hu & _); by eapply ensure_classical_ok.
  - intros s jwk kid Hs. apply mldsa_from_private_jwk_ok in Hs as (Hr & Hp & _).
    apply selected_pqc_ok in Hp as (requested & Hv & Hf). rewrite Hv in Hr |- *.
    apply resolve_backend_ok in Hr as [|(Hq & _)]; [done|]. eauto.
Qed.

(** the private key taken out of a PKCS#8 file is the first octet string of
    its DER encoding, however deeply the blocks nest. *)
Theorem pkcs8_first_octets (der : string) (blocks : list ASN1Block) :
  from_der der = Ok blocks ->
  res_ok (extract_pkcs8_private_key_octets der) = head (concat (map octets_of blocks)).
Proof.
  intros Hd. unfold extract_pkcs8_private_key_octets. rewrite Hd. simpl.
  rewrite find_first_head. by destruct (head _).
Qed.

(** a token that an ML-DSA signer built from a private JWK signs is one that
    this signer verifies, and verification gives back the claims signed. *)
Theorem mldsa_sign_verify_roundtrip `{!OpenSslLaws} `{!HeaderLaws} (selection : BackendSelection)
    (json kid : string) (s : MlDsaJoseSigner) (c : MintedClaims) (token bytes : string) :
  mldsa_from_private_jwk_for_backend selection json kid = Ok s ->
  sign_claims s c = Ok token ->
  json_to_vec (serialize c) = Ok bytes -> from_json bytes = Ok c ->
  verify_claims s token = Ok c.
Proof.
  intros Hs Ht Hb Hc. pose proof Hs as Hk. apply mldsa_from_private_jwk_ok in Hk as (_ & _ & seed & raw & _ & _ & _ & _ & Hj).
  assert (Hf : find_jwk (md_kid s) (mkJwksDocument [md_public_jwk s]) = Some (md_public_jwk s)).
  { unfold find_jwk. rewrite Hj. simpl. by rewrite bool_decide_eq_true_2. }
  pose proof (mldsa_signed_verifies _ _ _ _ _ _ _ _ Hs Ht Hb Hc Hf) as Hv.
  pose proof (sign_compact_header _ _ _ _ _ _ Ht) as Hh. simpl. unfold verify_own_claims. rewrite Hh. simpl.
  rewrite !bool_decide_eq_true_2 by done. simpl. unfold verify_claims_against_jwks. by rewrite Hv.
Qed.

End Laws.

(** Libraries simple enough to evaluate: hexadecimal for base64, keys that are
    their algorithm, and a signature check that accepts every signature of the
    right size.  They satisfy the laws. *)
Module SignerToy.
Definition unhex_digit (c : ascii) : Z :=
  let n := byte_val c in if (n <? 58)%Z then n - 48 else n - 87.

Fixpoint unhex (s : string) : result string string :=
  match s with
  | EmptyString => Ok EmptyString
  | String a (String b rest) =>
      let? tl := unhex rest in
      Ok (String (ascii_of_N (Z.to_N (16 * unhex_digit a + unhex_digit b))) tl)
  | _ => Err "odd length"
  end.

Definition toy_claims : MintedClaims := minted_claims_new "iss" "sub" "aud" "read" 1 2 "jti" "client".

Fixpoint zero_bytes (n : nat) : string :=
  match n with O => EmptyString | S n => String (ascii_of_N 0) (zero_bytes n) end.
Definition zeros (n : Z) : string := zero_bytes (Z.to_nat n).

#[local] Instance features : Features := true.
#[local] Instance sha : Sha256 := fun x => x.
#[local] Instance base64 : Base64 := {| b64_encode := hex_lower; b64_decode := unhex |}.
#[local] Instance serde : SerdeJson := {|
  json_to_vec v :=
    match v with
    | VObject [("alg", VString a); ("kid", VString k); ("typ", VString t)] =>
        Ok (hex_lower a +:+ "." +:+ hex_lower k +:+ "." +:+ hex_lower t)
    | _ => Ok "claims"
    end;
  json_to_string_pretty _ := Ok ""
|}.
#[local] Instance header_json : FromJson CompactJwsHeader := fun bytes =>
  match split_char "."%char bytes with
  | [a; k; t] => let? a := unhex a in let? k := unhex k in let? t := unhex t in
                 Ok (mkCompactJwsHeader a (Some k) (Some t))
  | _ => Err "no header"
  end.
#[local] Instance claims_json : FromJson MintedClaims := fun _ => Ok toy_claims.
#[local] Instance akp_json : FromJson PrivateAkpJwk := fun _ =>
  Ok (mkPrivateAkpJwk "AKP" (Some "k1") "ML-DSA-65" (hex_lower (zeros 1952)) (hex_lower (zeros 32))).
#[local] Instance rsa_json : FromJson PrivateRsaJwk := fun _ => Err "no RSA key".
#[local] Instance jwt : Jwt := Toy.jwt.
#[local] Instance asn1 : Asn1 := {|
  to_der _ := Ok ""; from_der _ := Ok [Sequence [Integer 0; Explicit (OctetString "key")]];
  biguint_from_bytes_be _ := 1%Z; bigint_to_bytes_be _ := "1"
|}.
#[local] Instance awslc : AwsLc := {|
  RsaKeyPair := unit; rsa_from_der _ := Ok tt; rsa_as_pkcs8_der _ := Ok "der";
  public_modulus_len _ := 256%Z; rsa_public_n _ := "n"; rsa_public_e _ := "e";
  rsa_sign_pkcs1_sha256 _ _ := Ok "sig"
|}.
#[local] Instance openssl : OpenSsl := {|
  PKeyPrivate := MlDsaAlgorithm; PKeyPublic := MlDsaAlgorithm;
  private_key_from_seed a _ := Ok a; public_key_from_raw_bytes_ex a _ := Ok a;
  raw_public_key a := Ok (zeros (public_key_len a));
  signer_new_without_digest _ := Ok tt; sign_oneshot_to_vec a _ := Ok (zeros (signature_len a));
  verifier_new_without_digest _ := Ok tt; verify_oneshot _ _ _ := Ok true
|}.

Lemma unhex_hex x : unhex (hex_lower x) = Ok x.
Proof.
  induction x as [|b x IH]; [done|]. cbn [hex_lower]. unfold str1.
  rewrite !app_cons, !app_empty_l. cbn [unhex]. rewrite IH. cbn [res_bind]. do 2 f_equal.
  by destruct b as [[] [] [] [] [] [] [] []]; vm_compute.
Qed.

Lemma hex_no_dot x : contains_char "."%char (hex_lower x) = false.
Proof.
  induction x as [|b x IH]; [done|]. cbn [hex_lower]. unfold str1.
  rewrite !app_cons, !app_empty_l. cbn [contains_char]. rewrite IH.
  by destruct b as [[] [] [] [] [] [] [] []]; vm_compute.
Qed.

#[local] Instance base64_laws : Base64Laws.
Proof. split; [apply unhex_hex|apply hex_no_dot]. Qed.

#[local] Instance awslc_laws : AwsLcLaws.
Proof. split. reflexivity. Qed.

#[local] Instance openssl_laws : OpenSslLaws.
Proof. split. intros a seed key raw signature message _ _ _. by exists a. Qed.

#[local] Instance header_laws : HeaderLaws.
Proof.
  split. intros alg kid typ bytes. simpl. intros [= <-]. unfold from_json, header_json.
  rewrite (proj2 (split_three "."%char _ (hex_lower alg) (hex_lower kid) (hex_lower typ))).
  - rewrite !unhex_hex. done.
  - rewrite !hex_no_dot. done.
Qed.

Definition toy_signer : result JoseError MlDsaJoseSigner :=
  mldsa_from_private_jwk_for_backend (RequestedPqc "ML-DSA-65") "{}" "".

Lemma zeros_len n : (0 <= n)%Z -> byte_len (zeros n) = n.
Proof.
  intros Hn. unfold byte_len, zeros. rewrite <- (Z2Nat.id n) at 2 by done. f_equal.
  induction (Z.to_nat n) as [|k IH]; [done|]. simpl. by rewrite IH.
Qed.

#[local] Opaque zeros.

Definition toy_key : PublicJwk := akp_public_jwk "k1" MlDsa65 (hex_lower (zeros 1952)).

Definition toy_mldsa : MlDsaJoseSigner := mkMlDsaSigner "k1" MlDsa65 MlDsa65 toy_key.

Lemma toy_signer_eq : toy_signer = Ok toy_mldsa.
Proof.
  unfold toy_signer, mldsa_from_private_jwk_for_backend. cbn -[unhex hex_lower byte_len].
  unfold decode_jwk_octets. cbn -[unhex hex_lower byte_len].
  rewrite !unhex_hex. cbn -[unhex hex_lower byte_len]. rewrite !zeros_len by done.
  cbn -[unhex hex_lower byte_len]. by rewrite bool_decide_eq_true_2.
Qed.

Lemma toy_sign_ok : is_ok (sign_claims toy_mldsa toy_claims) = true.
Proof.
  cbn -[hex_lower zeros byte_len]. unfold openssl_sign_mldsa. cbn -[hex_lower zeros byte_len].
  by rewrite zeros_len.
Qed.

Lemma constructed_signers_ok_witness :
  exists s, toy_signer = Ok s /\ @signer_ok MlDsaJoseSigner _ _ _ _ s.
Proof.
  destruct constructed_signers_ok as (_ & _ & Hm & _).
  eexists. split; [exact toy_signer_eq|].
  exact (Hm (RequestedPqc "ML-DSA-65") "{}" "" _ toy_signer_eq).
Defined.

Lemma pkcs8_first_octets_witness : res_ok (extract_pkcs8_private_key_octets "der") = Some "key".
Proof.
  apply (pkcs8_first_octets "der" [Sequence [Integer 0; Explicit (OctetString "key")]]).
  reflexivity.
Defined.

Lemma mldsa_sign_verify_roundtrip_witness :
  exists s token, toy_signer = Ok s /\ sign_claims s toy_claims = Ok token /\
    verify_claims s token = Ok toy_claims.
Proof.
  pose proof toy_sign_ok as Hok.
  destruct (sign_claims toy_mldsa toy_claims) as [token|e] eqn:Ht; [|discriminate Hok].
  exists toy_mldsa, token. split; [exact toy_signer_eq|]. split; [exact Ht|].
  apply (mldsa_sign_verify_roundtrip (RequestedPqc "ML-DSA-65") "{}" "" _ toy_claims token "claims").
  - exact toy_signer_eq.
  - exact Ht.
  - reflexivity.
  - reflexivity.
Defined.
End SignerToy.
