(* ===== verification/Url.v ===== *)
(** The [url] crate as the STS crates use it: a parameter with one function per
    accessor.  [Host] and the loopback tests are the crate's public type and
    the standard library's address tests. *)

From S2P Require Import Prelude RustStr.
From Stdlib Require Import Ascii.

(** [url::Host]; an IPv4 address is its 32-bit value, an IPv6 one its 128-bit. *)
Inductive Host : Type :=
| Domain (host : string)
| Ipv4 (addr : Z)
| Ipv6 (addr : Z).

Class UrlLib : Type := {
  Url : Type;
  url_parse : string -> result string Url;
  url_scheme : Url -> string;
  url_host_str : Url -> option string;
  url_host : Url -> option Host;
  url_port : Url -> option Z;
  url_path : Url -> string;
  url_query : Url -> option string;
  url_fragment : Url -> option string;
  url_without_query_fragment : Url -> string
}.

(** [Ipv4Addr::is_loopback] (127.0.0.0/8) and [Ipv6Addr::is_loopback] (::1). *)
Definition ipv4_is_loopback (addr : Z) : bool := (Z.shiftr addr 24 =? 127)%Z.
Definition ipv6_is_loopback (addr : Z) : bool := (addr =? 1)%Z.

Definition host_is_loopback (h : option Host) : bool :=
  match h with
  | Some (Domain host) => eq_ignore_ascii_case host "localhost"
  | Some (Ipv4 host) => ipv4_is_loopback host
  | Some (Ipv6 host) => ipv6_is_loopback host
  | None => false
  end.

(** A parser of a few shapes of URL, enough to evaluate examples:
    [scheme://host/path], no port, query or fragment. *)
Module ToyUrl.
Definition split_host (rest : string) : string * string :=
  match split_char "/"%char rest with
  | host :: path => (host, match path with [] => "/" | _ => "/" +:+ join "/" path end)
  | [] => ("", "/")
  end.

Definition parse (s : string) : result string (string * string * string) :=
  let go scheme rest := let '(host, path) := split_host rest in Ok (scheme, host, path) in
  match strip_prefix "https://" s, strip_prefix "http://" s with
  | Some rest, _ => go "https" rest
  | None, Some rest => go "http" rest
  | None, None => Err "relative URL without a base"
  end.

Definition lib : UrlLib := {|
  Url := string * string * string;
  url_parse := parse;
  url_scheme u := u.1.1;
  url_host_str u := Some u.1.2;
  url_host u := Some (Domain u.1.2);
  url_port _ := None;
  url_path u := u.2;
  url_query _ := None;
  url_fragment _ := None;
  url_without_query_fragment u := u.1.1 +:+ "://" +:+ u.1.2 +:+ u.2
|}.
End ToyUrl.
