(* ===== verification/NetAddr.v ===== *)
(** [std::net::SocketAddr::from_str], the standard library's address parser, as
    the bind address of the server goes through it.

    A parser is a function on the remaining text; a part that fails leaves the
    text where it was, as the library's [read_atomically] does. *)

From S2P Require Import Prelude RustStr Url.
From Stdlib Require Import Ascii.

Inductive IpAddr : Type :=
| V4 (addr : Z)
| V6 (addr : Z).

Record SocketAddr : Type := mkSocketAddr { sa_ip : IpAddr; sa_port : Z }.

(** [IpAddr::is_loopback]. *)
Definition ip_is_loopback (ip : IpAddr) : bool :=
  match ip with
  | V4 addr => ipv4_is_loopback addr
  | V6 addr => ipv6_is_loopback addr
  end.

(** * Parsing *)

Definition Parser (A : Type) : Type := string -> option (A * string).

(** [read_given_char]. *)
Definition read_given_char (c : ascii) : Parser unit := fun s =>
  match s with
  | String a r => if bool_decide (a = c) then Some (tt, r) else None
  | EmptyString => None
  end.

(** [char::to_digit]. *)
Definition to_digit (radix : Z) (a : ascii) : option Z :=
  let n := byte_val a in
  let d :=
    if ((48 <=? n) && (n <=? 57))%Z%bool then Some (n - 48)%Z
    else if ((97 <=? n) && (n <=? 122))%Z%bool then Some (n - 87)%Z
    else if ((65 <=? n) && (n <=? 90))%Z%bool then Some (n - 55)%Z
    else None in
  opt_filter (fun d => d <? radix)%Z d.

(** The longest run of digits: its value, its length and the rest. *)
Fixpoint read_digits (radix acc : Z) (count : Z) (s : string) : Z * Z * string :=
  match s with
  | EmptyString => (acc, count, s)
  | String a r =>
      match to_digit radix a with
      | Some d => read_digits radix (acc * radix + d) (count + 1) r
      | None => (acc, count, s)
      end
  end.

(** [read_number] into a type whose largest value is [top]. *)
Definition read_number (radix : Z) (max_digits : option Z) (allow_zero_prefix : bool) (top : Z)
    : Parser Z := fun s =>
  let '(value, count, rest) := read_digits radix 0 0 s in
  if (count =? 0)%Z then None
  else if is_some_and (fun m => m <? count)%Z max_digits then None
  else if (top <? value)%Z then None
  else if (negb allow_zero_prefix && starts_with "0" s && (1 <? count))%Z%bool then None
  else Some (value, rest).

(** [read_ipv4_addr]: four octets of at most three digits, none with a leading
    zero. *)
Definition read_octet : Parser Z := read_number 10 (Some 3%Z) false 255.

Definition dot_then {A} (p : Parser A) : Parser A := fun s =>
  match read_given_char "."%char s with Some (_, r) => p r | None => None end.

Definition read_ipv4_addr : Parser Z := fun s =>
  match read_octet s with
  | None => None
  | Some (a, s1) =>
      match dot_then read_octet s1 with
      | None => None
      | Some (b, s2) =>
          match dot_then read_octet s2 with
          | None => None
          | Some (c, s3) =>
              match dot_then read_octet s3 with
              | None => None
              | Some (d, s4) => Some ((a * 2 ^ 24 + b * 2 ^ 16 + c * 2 ^ 8 + d)%Z, s4)
              end
          end
      end
  end.

(** [read_separator(':', index, inner)]. *)
Definition read_separator {A} (index : nat) (inner : Parser A) : Parser A := fun s =>
  match index with
  | O => inner s
  | _ => match read_given_char ":"%char s with Some (_, r) => inner r | None => None end
  end.

(** [read_groups] with room for [room] more groups, [i] read so far: the
    groups, whether an IPv4 tail ended them, and the rest. *)
Fixpoint read_groups (i room : nat) (s : string) : list Z * bool * string :=
  match room with
  | O => ([], false, s)
  | S room' =>
      match (if bool_decide (0 < room') then read_separator i read_ipv4_addr s else None) with
      | Some (addr, r) => ([Z.shiftr addr 16; Z.land addr 65535], true, r)
      | None =>
          match read_separator i (read_number 16 (Some 4%Z) true 65535) s with
          | None => ([], false, s)
          | Some (group, r) =>
              let '(groups, ipv4, r') := read_groups (S i) room' r in (group :: groups, ipv4, r')
          end
      end
  end.

Definition groups_value (groups : list Z) : Z := fold_left (fun acc g => acc * 65536 + g)%Z groups 0%Z.

(** [read_ipv6_addr]: eight groups, or fewer with one [::] in place of the
    missing zero groups; an IPv4 tail only at the end. *)
Definition read_ipv6_addr : Parser Z := fun s =>
  let '(head, head_ipv4, r) := read_groups 0 8 s in
  if bool_decide (length head = 8) then Some (groups_value head, r)
  else if head_ipv4 then None
  else
  match strip_prefix "::" r with
  | None => None
  | Some r =>
      let '(tail, _, r') := read_groups 0 (8 - (length head + 1)) r in
      Some (groups_value (head ++ replicate (8 - length head - length tail) 0%Z ++ tail), r')
  end.

Definition read_port : Parser Z := fun s =>
  match read_given_char ":"%char s with
  | Some (_, r) => read_number 10 None true 65535 r
  | None => None
  end.

Definition read_socket_addr_v4 : Parser SocketAddr := fun s =>
  match read_ipv4_addr s with
  | None => None
  | Some (ip, r) => option_map (fun pr => (mkSocketAddr (V4 ip) pr.1, pr.2)) (read_port r)
  end.

(** [read_scope_id]: a [%] and a [u32]. *)
Definition read_scope_id : Parser Z := fun s =>
  match read_given_char "%"%char s with
  | Some (_, r) => read_number 10 None true 4294967295 r
  | None => None
  end.

Definition read_socket_addr_v6 : Parser SocketAddr := fun s =>
  match read_given_char "["%char s with
  | None => None
  | Some (_, s1) =>
      match read_ipv6_addr s1 with
      | None => None
      | Some (ip, s2) =>
          let s3 := match read_scope_id s2 with Some (_, r) => r | None => s2 end in
          match read_given_char "]"%char s3 with
          | None => None
          | Some (_, s4) => option_map (fun pr => (mkSocketAddr (V6 ip) pr.1, pr.2)) (read_port s4)
          end
      end
  end.

(** [str::parse::<SocketAddr>]: the whole text is an address. *)
Definition parse_socket_addr (s : string) : result string SocketAddr :=
  let r := match read_socket_addr_v4 s with Some x => Some x | None => read_socket_addr_v6 s end in
  match r with
  | Some (addr, EmptyString) => Ok addr
  | _ => Err "invalid socket address syntax"
  end.

(** * Examples *)

Example parse_v4 : parse_socket_addr "127.0.0.1:8888" = Ok (mkSocketAddr (V4 2130706433) 8888).
Proof. vm_compute. reflexivity. Qed.
Example parse_v6 : parse_socket_addr "[::1]:80" = Ok (mkSocketAddr (V6 1) 80).
Proof. vm_compute. reflexivity. Qed.
Example parse_v6_tail : parse_socket_addr "[::ffff:127.0.0.1%3]:00080"
  = Ok (mkSocketAddr (V6 (65535 * 2 ^ 32 + 2130706433)) 80).
Proof. vm_compute. reflexivity. Qed.
Example parse_v6_full : parse_socket_addr "[1:2:3:4:5:6:7:8]:1"
  = Ok (mkSocketAddr (V6 (groups_value [1; 2; 3; 4; 5; 6; 7; 8]%Z)) 1).
Proof. vm_compute. reflexivity. Qed.
Example parse_bad : map (fun s => is_ok (parse_socket_addr s))
  ["127.0.0.01:80"; "127.0.0.256:80"; "127.0.0.1"; "127.0.0.1:65536"; "127.0.0.1:80 "; "localhost:80";
   "[1:2:3:4:5:6:7]:1"; "[1::2::3]:1"] = replicate 8 false.
Proof. vm_compute. reflexivity. Qed.
