(* ===== verification/Verify.v ===== *)
(** crates/sts-verify: issuers and trust anchors, discovery, and the
    verification of subject tokens and of actor and client assertions.

    The system clock and the HTTP client are effects on a world [W]; URL
    parsing, the JWS layer's libraries and SHA-256 are parameters. *)

From S2P Require Import Prelude RustStr Json Url Replay Jose.
From Stdlib Require Import Ascii.

(** * The world *)

(** [SystemTime::now().duration_since(UNIX_EPOCH)]: the seconds, or nothing
    when the clock is before the epoch. *)
Class HasClock (W : Type) : Type := system_time : W -> option Z * W.

Definition now_unix {W E} `{HasClock W} : Eff W E Z := fun w =>
  let '(t, w') := system_time w in
  (Ok (match t with Some secs => wrap64 secs | None => 0%Z end), w').

(** A reqwest response: its status and its body, either of which may fail. *)
Record Response : Type := mkResponse { resp_status : Z; resp_body : result string string }.

Class HasHttp (W : Type) : Type := {
  http_get : string -> W -> result string Response * W;
  status_text : Z -> string
}.

(** [StatusCode::is_success]. *)
Definition is_success (status : Z) : bool := ((200 <=? status) && (status <? 300))%Z%bool.

(** [Response::json]. *)
Definition response_json {T} `{FromJson T} (r : Response) : result string T :=
  res_bind (resp_body r) from_json.

(** * Data *)

Inductive TrustAnchorKind : Type := Idp | Actor | Client.

Definition trust_anchor_kind_str (k : TrustAnchorKind) : string :=
  match k with Idp => "idp" | Actor => "actor" | Client => "client" end.

Record TrustAnchorRef : Type := mkTrustAnchor {
  ta_kind : TrustAnchorKind;
  ta_issuer : option string;
  ta_jwks_url : option string;
  ta_jwks_file : option string
}.

Record VerificationPlan : Type := mkPlan {
  plan_idp : TrustAnchorRef;
  plan_actor : TrustAnchorRef;
  plan_client : TrustAnchorRef
}.

Inductive VerifyErrorKind : Type :=
| InvalidIssuer | InvalidUrl | InvalidAnchor | AnchorCollision | InvalidToken | VInvalidClaims
| InvalidAudience | InvalidLifetime | KeyBindingMismatch | DiscoveryFailed | FetchFailed.

Definition verify_error_code (k : VerifyErrorKind) : string :=
  match k with
  | InvalidIssuer => "invalid_issuer"
  | InvalidUrl => "invalid_url"
  | InvalidAnchor => "invalid_anchor"
  | AnchorCollision => "anchor_collision"
  | InvalidToken => "invalid_token"
  | VInvalidClaims => "invalid_claims"
  | InvalidAudience => "invalid_audience"
  | InvalidLifetime => "invalid_lifetime"
  | KeyBindingMismatch => "key_binding_mismatch"
  | DiscoveryFailed => "discovery_failed"
  | FetchFailed => "fetch_failed"
  end.

Record VerifyError : Type := mkVerifyError { verify_kind : VerifyErrorKind; verify_message : string }.

(** [impl Display for VerifyError]. *)
Definition verify_error_display (e : VerifyError) : string :=
  verify_error_code (verify_kind e) +:+ ": " +:+ verify_message e.

(** [Err(VerifyError::new(kind, message))]. *)
Definition verify_err {A} (k : VerifyErrorKind) (message : string) : result VerifyError A :=
  Err (mkVerifyError k message).

Record DiscoveryDocument : Type := mkDiscovery { disc_issuer : string; disc_jwks_uri : string }.

Record SubjectTokenClaims : Type := mkSubjectClaims {
  st_iss : string;
  st_sub : option string;
  st_aud : Value;
  st_scope : option string;
  st_scp : option Value;
  st_exp : Z;
  st_nbf : option Z;
  st_iat : option Z;
  st_act : option Value;
  st_may_act : option Value;
  st_auth_time : option Z;
  st_acr : option string;
  st_amr : option (list string)
}.

Record AssertionClaims : Type := mkAssertionClaims {
  as_iss : string;
  as_sub : string;
  as_aud : Value;
  as_exp : Z;
  as_iat : option Z;
  as_jti : option string;
  as_sub_tok_hash : option string
}.

Record AssertionVerificationOptions : Type := mkAssertionOptions {
  expected_issuer : string;
  expected_audiences : list string;
  clock_skew_leeway : Z;
  max_ttl : Z;
  binding_subject_token : option string;
  require_subject_binding : bool;
  key_binding_registry : option (gset string)
}.

Definition SUBJECT_TOKEN_SIGNING_ALGS : list string := ["RS256"].
Definition LEGACY_ASSERTION_SIGNING_ALGS : list string := ["RS256"].
Definition subject_token_signing_algs : list string := SUBJECT_TOKEN_SIGNING_ALGS.

(** * Issuers and anchors *)

Section Anchors.
Context `{UrlLib}.

Definition validate_issuer (value : string) : result VerifyError string :=
  let trimmed := trim value in
  if is_empty trimmed then verify_err InvalidIssuer "issuer must not be empty"
  else if any_whitespace trimmed then verify_err InvalidIssuer "issuer must not contain whitespace"
  else
  let? parsed := map_err (fun err => mkVerifyError InvalidIssuer
                                       ("issuer must be an absolute URL: " +:+ err))
                   (url_parse trimmed) in
  if opt_is_none (url_host_str parsed) then verify_err InvalidIssuer "issuer must include a host"
  else if (opt_is_some (url_query parsed) || opt_is_some (url_fragment parsed))%bool then
    verify_err InvalidIssuer "issuer must not contain a query or fragment component"
  else
  let is_loopback := host_is_loopback (url_host parsed) in
  if (negb (bool_decide (url_scheme parsed = "https"))
      && negb (bool_decide (url_scheme parsed = "http") && is_loopback))%bool then
    verify_err InvalidIssuer
      "issuer must use https, except http is allowed for loopback local development"
  else Ok (trim_end_char "/"%char trimmed).

Definition validate_jwks_url (value : string) : result VerifyError string :=
  let trimmed := trim value in
  if is_empty trimmed then verify_err InvalidUrl "JWKS URL must not be empty"
  else if negb (starts_with "https://" trimmed) then
    verify_err InvalidUrl "JWKS URL must use https://"
  else if contains_char "#"%char trimmed then
    verify_err InvalidUrl "JWKS URL must not contain a fragment"
  else Ok trimmed.

(** [.map(str::trim).filter(|value| !value.is_empty())]. *)
Definition non_blank (o : option string) : option string :=
  opt_filter (fun value => negb (is_empty value)) (option_map trim o).

Definition build_anchor_ref (kind : TrustAnchorKind) (issuer jwks_url jwks_file : option string)
    : result VerifyError TrustAnchorRef :=
  let? issuer := opt_traverse validate_issuer issuer in
  let? jwks_url := opt_traverse validate_jwks_url jwks_url in
  let jwks_file := non_blank jwks_file in
  if (opt_is_none jwks_url && opt_is_none jwks_file)%bool then
    verify_err InvalidAnchor (trust_anchor_kind_str kind +:+ " anchor needs at least one JWKS source")
  else Ok (mkTrustAnchor kind issuer jwks_url jwks_file).

Definition require_distinct_actor_client_anchors (actor client : TrustAnchorRef)
    : result VerifyError unit :=
  if (bool_decide (ta_jwks_file actor = ta_jwks_file client)
      && bool_decide (ta_jwks_url actor = ta_jwks_url client))%bool then
    verify_err AnchorCollision "actor and client anchors must remain distinct"
  else Ok tt.

Definition build_verification_plan (idp actor client : TrustAnchorRef)
    : result VerifyError VerificationPlan :=
  let? _ := require_distinct_actor_client_anchors actor client in
  Ok (mkPlan idp actor client).

(** * Discovery *)

Context {W : Type} `{HasHttp W} `{FromJson DiscoveryDocument} `{FromJson JwksDocument}.

Definition discover_document (issuer : string) : Eff W VerifyError DiscoveryDocument :=
  do? issuer <- validate_issuer issuer in
  let discovery_url := trim_end_char "/"%char issuer +:+ "/.well-known/openid-configuration" in
  do! response <- eff_map_err (mkVerifyError DiscoveryFailed) (http_get discovery_url) in
  if negb (is_success (resp_status response)) then
    eff_err (mkVerifyError DiscoveryFailed
               ("OIDC discovery returned HTTP " +:+ status_text (resp_status response)))
  else
  eff_lift (map_err (fun e => mkVerifyError DiscoveryFailed ("invalid discovery JSON: " +:+ e))
              (response_json response)).

Definition fetch_jwks (jwks_url : string) : Eff W VerifyError JwksDocument :=
  do? jwks_url <- validate_jwks_url jwks_url in
  do! response <- eff_map_err (mkVerifyError FetchFailed) (http_get jwks_url) in
  if negb (is_success (resp_status response)) then
    eff_err (mkVerifyError FetchFailed
               ("JWKS fetch returned HTTP " +:+ status_text (resp_status response)))
  else
  eff_lift (map_err (fun e => mkVerifyError FetchFailed ("invalid JWKS JSON: " +:+ e))
              (response_json response)).

Definition resolve_idp_jwks (issuer : string) (explicit_jwks_uri : option string)
    : Eff W VerifyError JwksDocument :=
  match non_blank explicit_jwks_uri with
  | Some jwks_uri => fetch_jwks jwks_uri
  | None =>
      do! discovery <- discover_document issuer in
      do? expected <- validate_issuer issuer in
      if negb (bool_decide (trim_end_char "/"%char (disc_issuer discovery) = expected)) then
        eff_err (mkVerifyError DiscoveryFailed
                   "OIDC discovery issuer did not match configured issuer")
      else fetch_jwks (disc_jwks_uri discovery)
  end.

End Anchors.

(** * Token checks *)

Definition map_jose_error (err : JoseError) : VerifyError :=
  mkVerifyError
    match jose_kind err with
    | InvalidKey => InvalidToken
    | UnsupportedAlgorithm => InvalidToken
    | InvalidClaims => VInvalidClaims
    | VerificationFailed => InvalidToken
    | InvalidCompactJws => InvalidToken
    end (jose_message err).

Definition audience_matches (aud : Value) (expected : string) : bool :=
  match aud with
  | VString value => bool_decide (value = expected)
  | VArray values => existsb (fun item => bool_decide (as_str item = Some expected)) values
  | _ => false
  end.

Definition ensure_audience_matches (aud : Value) (expected : list string) : result VerifyError unit :=
  if existsb (audience_matches aud) expected then Ok tt
  else verify_err InvalidAudience "subject token audience not accepted".

(** The nested function [prefix_match]. *)
Definition prefix_match (kid identity : string) : bool :=
  bool_decide (kid = identity)
  || is_some_and (fun suffix => starts_with "-" suffix || starts_with "/" suffix
                                || starts_with "." suffix)
       (strip_prefix identity kid).

Definition kid_belongs_to_claimed_identity (kid claimed_identity : string)
    (registry : gset string) : bool :=
  if (is_empty kid || is_empty claimed_identity)%bool then false
  else if negb (prefix_match kid claimed_identity) then false
  else negb (existsb (fun other => negb (bool_decide (other = claimed_identity))
                                   && (byte_len claimed_identity <? byte_len other)%Z
                                   && prefix_match kid other)
               (btree_iter registry)).

Section Tokens.
Context {W : Type} `{HasClock W}.

(** Additions and subtractions wrap around at 64 bits. *)
Definition validate_time_window (exp : Z) (nbf : option Z) (clock_skew_leeway : Z)
    : Eff W VerifyError unit :=
  do! now <- now_unix in
  if (i64_add exp clock_skew_leeway <? now)%Z then
    eff_err (mkVerifyError InvalidLifetime "token has expired")
  else if is_some_and (fun nbf => (now <? i64_sub nbf clock_skew_leeway)%Z) nbf then
    eff_err (mkVerifyError InvalidLifetime "token is not yet valid")
  else eff_ret tt.

Definition validate_assertion_lifetime (claims : AssertionClaims) (max_ttl clock_skew_leeway : Z)
    : Eff W VerifyError unit :=
  let cap := i64_add max_ttl clock_skew_leeway in
  do! span <- (match as_iat claims with
               | Some iat => eff_ret (i64_sub (as_exp claims) iat)
               | None => do! now <- now_unix in eff_ret (i64_sub (as_exp claims) now)
               end) in
  if (cap <? span)%Z then
    eff_err (mkVerifyError InvalidLifetime "assertion lifetime exceeds the allowed maximum")
  else eff_ret tt.

Context `{Features} `{Base64} `{Jwt} `{OpenSsl} `{UrlLib} `{Sha256} `{FromJson CompactJwsHeader}
  `{FromJson SubjectTokenClaims} `{FromJson AssertionClaims}.

Definition subject_token_hash (subject_token : string) : string := b64_encode (sha256 subject_token).

Definition verify_subject_token (token : string) (jwks : JwksDocument) (expected_issuer : string)
    (expected_audiences : list string) (clock_skew_leeway : Z)
    : Eff W VerifyError SubjectTokenClaims :=
  do? verified <- map_err map_jose_error
    (verify_claims_against_jwks_with_allowed_algs token jwks SUBJECT_TOKEN_SIGNING_ALGS) in
  let claims := v_claims verified in
  do? expected_issuer <- validate_issuer expected_issuer in
  if negb (bool_decide (st_iss claims = expected_issuer)) then
    eff_err (mkVerifyError InvalidIssuer ("unexpected issuer " +:+ st_iss claims))
  else
  do! _ <- validate_time_window (st_exp claims) (st_nbf claims) clock_skew_leeway in
  do? _ <- ensure_audience_matches (st_aud claims) expected_audiences in
  eff_ret claims.

(** [verify_assertion_with_allowed_alg_refs]. *)
Definition verify_assertion_with_allowed_algs (token : string) (jwks : JwksDocument)
    (allowed_algs : list string) (options : AssertionVerificationOptions)
    : Eff W VerifyError AssertionClaims :=
  do? verified <- map_err map_jose_error
    (verify_claims_against_jwks_with_allowed_algs token jwks allowed_algs) in
  let claims : AssertionClaims := v_claims verified in
  do? _ <- validate_issuer (expected_issuer options) in
  if negb (bool_decide (as_iss claims = as_sub claims)) then
    eff_err (mkVerifyError VInvalidClaims "assertion iss and sub must match")
  else if negb (existsb (audience_matches (as_aud claims)) (expected_audiences options)) then
    eff_err (mkVerifyError InvalidAudience
               "assertion audience does not identify this authorization server")
  else if is_some_and (fun registry => negb (kid_belongs_to_claimed_identity (v_kid verified)
                                               (as_sub claims) registry))
            (key_binding_registry options) then
    eff_err (mkVerifyError KeyBindingMismatch
               "assertion signing key does not belong to the claimed identity")
  else
  do! _ <- validate_time_window (as_exp claims) None (clock_skew_leeway options) in
  do! _ <- validate_assertion_lifetime claims (max_ttl options) (clock_skew_leeway options) in
  if (require_subject_binding options
      && negb (bool_decide (default "" (as_sub_tok_hash claims)
                            = subject_token_hash (default "" (binding_subject_token options)))))%bool
  then eff_err (mkVerifyError KeyBindingMismatch
                  "assertion not bound to the presented subject token")
  else eff_ret claims.

Definition verify_assertion (token : string) (jwks : JwksDocument)
    (options : AssertionVerificationOptions) : Eff W VerifyError AssertionClaims :=
  verify_assertion_with_allowed_algs token jwks LEGACY_ASSERTION_SIGNING_ALGS options.

End Tokens.

(** * Specifications *)

(** An [aud] claim names an audience: it is that string or a list holding it. *)
Definition aud_names (aud : Value) (a : string) : Prop :=
  aud = VString a \/ exists l, aud = VArray l /\ VString a ∈ l.

(** The lifetime a claim set asks for, counted from [iat] or else from now. *)
Definition lifetime_from (claims : AssertionClaims) (now : Z) : Z :=
  (as_exp claims - default now (as_iat claims))%Z.

(** * Lemmas *)

Lemma audience_matches_names aud a : audience_matches aud a = true <-> aud_names aud a.
Proof.
  unfold audience_matches, aud_names. destruct aud; try (split; [done|naive_solver]).
  - rewrite bool_decide_eq_true. naive_solver.
  - rewrite existsb_exists_elem. setoid_rewrite bool_decide_eq_true. split.
    + intros (x & Hx & Ha). destruct x; simplify_eq/=. eauto.
    + intros [|(l' & [= <-] & Hl)]; [done|]. by exists (VString a).
Qed.

Lemma prefix_match_spec kid i :
  prefix_match kid i = true <->
  kid = i \/ exists c rest, kid = i +:+ c +:+ rest /\ c ∈ ["-"; "/"; "."].
Proof.
  unfold prefix_match. rewrite orb_true_iff, bool_decide_eq_true. apply or_iff_compat_l.
  destruct (strip_prefix i kid) as [suffix|] eqn:Hs; simpl.
  - apply strip_prefix_Some in Hs as ->. rewrite !orb_true_iff, !starts_with_spec. split.
    + intros [[[t ->]|[t ->]]|[t ->]]; eexists _, t; (split; [done|set_solver]).
    + intros (c & rest & Hk & Hc). apply str_app_inj_l in Hk as ->.
      apply list_elem_of_In in Hc. simpl in Hc. naive_solver.
  - split; [done|]. intros (c & rest & -> & _).
    assert (strip_prefix i (i +:+ c +:+ rest) = Some (c +:+ rest)) by by apply strip_prefix_Some.
    congruence.
Qed.

Lemma prefix_match_prefix kid i : prefix_match kid i = true -> exists rest, kid = i +:+ rest.
Proof.
  intros [->|(c & rest & -> & _)]%prefix_match_spec; [exists ""; by rewrite app_empty_r|eauto].
Qed.

(** No registered identity that is longer claims a key which belongs to one. *)
Lemma kid_belongs_spec kid i reg :
  kid_belongs_to_claimed_identity kid i reg = true <->
  kid <> "" /\ i <> "" /\ prefix_match kid i = true /\
  forall other, other ∈ reg -> other <> i -> (byte_len i < byte_len other)%Z -> prefix_match kid other = false.
Proof.
  unfold kid_belongs_to_claimed_identity.
  destruct (is_empty kid) eqn:Hk; simpl; [apply is_empty_true in Hk; naive_solver|].
  destruct (is_empty i) eqn:Hi; simpl; [apply is_empty_true in Hi; naive_solver|].
  apply is_empty_false in Hk, Hi. destruct (prefix_match kid i); simpl; [|naive_solver].
  rewrite negb_true_iff, existsb_false_elem. setoid_rewrite elem_of_btree_iter. split.
  - intros Hf. split_and!; try done. intros other Ho Hne Hl. specialize (Hf other Ho).
    rewrite bool_decide_eq_false_2 in Hf by done. simpl in Hf.
    apply Z.ltb_lt in Hl. by rewrite Hl in Hf.
  - intros (_ & _ & _ & Hf) other Ho. case_bool_decide; [done|]. simpl.
    destruct (Z.ltb_spec (byte_len i) (byte_len other)); [|done]. simpl. by apply Hf.
Qed.

Lemma now_unix_ok {W E} `{HasClock W} w : exists now w', @now_unix W E _ w = (Ok now, w').
Proof. unfold now_unix. destruct (system_time w). eauto. Qed.

(** Accepting a sum that wrapped is impossible once it has to reach a
    non-negative bound. *)
Lemma i64_add_ge a b n :
  in_i64 a -> (0 <= b)%Z -> (n <= i64_add a b)%Z -> (n <= a + b)%Z.
Proof.
  intros [Ha _] Hb Hn. pose proof (wrap64_le (a + b) ltac:(lia)). unfold i64_add in Hn. lia.
Qed.

(** The subtraction of a non-negative start can only wrap upwards. *)
Lemma i64_sub_le a b n :
  in_i64 a -> (0 <= b)%Z -> (i64_sub a b <= n)%Z -> (a - b <= n)%Z.
Proof.
  intros [_ Ha] Hb Hn. pose proof (wrap64_ge (a - b) ltac:(lia)). unfold i64_sub in Hn. lia.
Qed.

Lemma time_window_ok {W} `{HasClock W} exp nbf leeway w u w' :
  validate_time_window exp nbf leeway w = (Ok u, w') ->
  exists now, now_unix (E := VerifyError) w = (Ok now, w') /\ (now <= i64_add exp leeway)%Z /\
    forall t, nbf = Some t -> (i64_sub t leeway <= now)%Z.
Proof.
  unfold validate_time_window. intros Hv. ok_inv. bool_hyps. eexists. split; [done|].
  split; [done|]. intros t ->. simpl in *. by bool_hyps.
Qed.

Lemma assertion_lifetime_ok {W} `{HasClock W} claims ttl leeway w u w' :
  validate_assertion_lifetime claims ttl leeway w = (Ok u, w') ->
  match as_iat claims with
  | Some iat => w' = w /\ (i64_sub (as_exp claims) iat <= i64_add ttl leeway)%Z
  | None => exists now, now_unix (E := VerifyError) w = (Ok now, w') /\
              (i64_sub (as_exp claims) now <= i64_add ttl leeway)%Z
  end.
Proof.
  unfold validate_assertion_lifetime. intros Hv. ok_inv.
  destruct (as_iat claims); ok_inv; bool_hyps; eauto.
Qed.

(** A token without [nbf] that has not expired is inside its window. *)
Lemma time_window_passes {W} `{HasClock W} exp leeway now (w w' : W) :
  now_unix (E := VerifyError) w = (Ok now, w') -> (now <= exp)%Z -> (0 <= leeway)%Z -> in_i64 (exp + leeway) ->
  validate_time_window exp None leeway w = (Ok tt, w').
Proof.
  intros Hn Hle Hl Hi. unfold validate_time_window, eff_bind. rewrite Hn, i64_add_small by done.
  by rewrite (proj2 (Z.ltb_ge _ _)) by lia.
Qed.

(** * Properties *)

Section Properties.
Context {W : Type} `{HasClock W} `{Features} `{Base64} `{Jwt} `{OpenSsl} `{UrlLib} `{Sha256}
  `{FromJson CompactJwsHeader} `{FromJson SubjectTokenClaims} `{FromJson AssertionClaims}.

(** C13: an actor or client assertion is accepted only when its signature
    verifies with an allowed algorithm, it names itself as issuer and subject,
    it is addressed to this server, its key belongs to the claimed identity,
    it has not expired, its stated lifetime is within the cap, and it carries
    the hash of the subject token where binding is required.  The lifetime is
    [exp] less [iat] (or less the instant of the check) as 64-bit arithmetic has
    it; for an [iat] that is not negative that bounds the real difference, and
    for others [assertion_lifetime_wraps] shows that it does not. *)
Theorem verify_assertion_sound (token : string) (jwks : JwksDocument) (algs : list string)
    (o : AssertionVerificationOptions) (c : AssertionClaims) (w w' : W) :
  verify_assertion_with_allowed_algs token jwks algs o w = (Ok c, w') ->
  in_i64 (as_exp c) -> (0 <= clock_skew_leeway o)%Z -> (0 <= max_ttl o)%Z ->
  in_i64 (max_ttl o + clock_skew_leeway o) ->
  exists v now w1,
    verify_claims_against_jwks_with_allowed_algs token jwks algs = Ok v /\ v_claims v = c /\
    as_iss c = as_sub c /\
    (exists a, a ∈ expected_audiences o /\ aud_names (as_aud c) a) /\
    (forall reg, key_binding_registry o = Some reg ->
       kid_belongs_to_claimed_identity (v_kid v) (as_sub c) reg = true) /\
    now_unix (E := VerifyError) w = (Ok now, w1) /\ (now <= as_exp c + clock_skew_leeway o)%Z /\
    (exists start, (i64_sub (as_exp c) start <= max_ttl o + clock_skew_leeway o)%Z /\
       (0 <= start -> as_exp c - start <= max_ttl o + clock_skew_leeway o)%Z /\
       match as_iat c with
       | Some iat => start = iat
       | None => now_unix (E := VerifyError) w1 = (Ok start, w')
       end) /\
    (require_subject_binding o = true ->
       default "" (as_sub_tok_hash c) = subject_token_hash (default "" (binding_subject_token o))).
Proof.
  unfold verify_assertion_with_allowed_algs. intros Hv Hexp Hl Ht Hcap.
  ok_inv. bool_hyps.
  repeat match goal with
  | Hw : validate_time_window _ _ _ _ = _ |- _ => apply time_window_ok in Hw as (now & Hnow & Hle & _)
  | Hw : validate_assertion_lifetime _ _ _ _ = _ |- _ => apply assertion_lifetime_ok in Hw
  | Hw : existsb _ _ = true |- _ => apply existsb_exists_elem in Hw as (a' & Ha1 & Ha2)
  end.
  eexists _, now, _. split_and!; try done.
  - exists a'. split; [done|]. by apply audience_matches_names.
  - intros reg Hr. match goal with Hx : is_some_and _ _ = false |- _ => rewrite Hr in Hx; simpl in Hx end.
    by bool_hyps.
  - by apply i64_add_ge.
  - destruct (as_iat (v_claims a)) as [iat|].
    + destruct_and!. rewrite i64_add_small in * by done. exists iat. split_and!; [done| |done].
      intros Hi. by apply i64_sub_le.
    + match goal with Hx : exists _, _ |- _ => destruct Hx as (n2 & Hn2 & Hs) end.
      rewrite i64_add_small in * by done. exists n2. split_and!; [done| |done]. intros Hi. by apply i64_sub_le.
  - intros Hr. match goal with Hx : (_ && _)%bool = false |- _ => rewrite Hr in Hx; simpl in Hx end.
    by bool_hyps.
Qed.

(** C14: a subject token is accepted only when its RS256 signature verifies with
    a published key, its issuer is the configured one, it names an accepted
    audience, and it is inside its validity window. *)
Theorem verify_subject_token_sound (token : string) (jwks : JwksDocument) (iss : string)
    (auds : list string) (leeway : Z) (c : SubjectTokenClaims) (w w' : W) :
  verify_subject_token token jwks iss auds leeway w = (Ok c, w') ->
  in_i64 (st_exp c) -> (0 <= leeway)%Z ->
  exists v now,
    verify_claims_against_jwks_with_allowed_algs token jwks ["RS256"] = Ok v /\ v_claims v = c /\
    validate_issuer iss = Ok (st_iss c) /\
    (exists a, a ∈ auds /\ aud_names (st_aud c) a) /\
    now_unix (E := VerifyError) w = (Ok now, w') /\ (now <= st_exp c + leeway)%Z /\
    (forall t, st_nbf c = Some t -> in_i64 (t - leeway) -> (t <= now + leeway)%Z).
Proof.
  unfold verify_subject_token. intros Hv Hexp Hl. ok_inv. bool_hyps.
  repeat match goal with
  | Hw : validate_time_window _ _ _ _ = _ |- _ => apply time_window_ok in Hw as (now & Hnow & Hle & Hnbf)
  | Hw : ensure_audience_matches _ _ = Ok _ |- _ => unfold ensure_audience_matches, verify_err in Hw; ok_inv
  | Hw : existsb _ _ = true |- _ => apply existsb_exists_elem in Hw as (a' & Ha1 & Ha2)
  end.
  eexists _, now. split_and!; try done.
  - exists a'. split; [done|]. by apply audience_matches_names.
  - by apply i64_add_ge.
  - intros t Ht Hi. specialize (Hnbf t Ht). rewrite i64_sub_small in Hnbf by done. lia.
Qed.

(** two registered identities never own the same key id. *)
Theorem kid_single_owner (kid a b : string) (reg : gset string) :
  a ∈ reg -> b ∈ reg ->
  kid_belongs_to_claimed_identity kid a reg = true ->
  kid_belongs_to_claimed_identity kid b reg = true -> a = b.
Proof.
  intros Ha Hb (_ & _ & Pa & La)%kid_belongs_spec (_ & _ & Pb & Lb)%kid_belongs_spec.
  destruct (decide (a = b)) as [|Hne]; [done|]. exfalso.
  destruct (Z.lt_total (byte_len a) (byte_len b)) as [Hl|[Hl|Hl]].
  - specialize (La b Hb ltac:(done) Hl). congruence.
  - apply prefix_match_prefix in Pa as [r ->], Pb as [r' Hr]. apply Hne.
    unfold byte_len in Hl. by apply str_app_inj_length in Hr as [-> _]; [|lia].
  - specialize (Lb a Ha Hne Hl). congruence.
Qed.

(** a JWKS is fetched from an https URL only; without an explicit URL it is
    the one that the configured issuer's discovery document names, and only
    when that document carries the configured issuer. *)
Theorem resolve_idp_jwks_pinned `{!HasHttp W} `{!FromJson DiscoveryDocument} `{!FromJson JwksDocument}
    (issuer : string) (uri : option string) (jwks : JwksDocument) (w w' : W) :
  resolve_idp_jwks issuer uri w = (Ok jwks, w') ->
  exists url w1 r,
    validate_jwks_url url = Ok (trim url) /\ starts_with "https://" (trim url) = true /\
    http_get (trim url) w1 = (Ok r, w') /\ is_success (resp_status r) = true /\
    response_json r = Ok jwks /\
    match non_blank uri with
    | Some u => url = u /\ w1 = w
    | None => exists doc, discover_document issuer w = (Ok doc, w1) /\ url = disc_jwks_uri doc /\
        validate_issuer issuer = Ok (trim_end_char "/"%char (disc_issuer doc))
    end.
Proof.
  assert (Hf : forall url w1, fetch_jwks url w1 = (Ok jwks, w') ->
    exists r, validate_jwks_url url = Ok (trim url) /\ starts_with "https://" (trim url) = true /\
      http_get (trim url) w1 = (Ok r, w') /\ is_success (resp_status r) = true /\
      response_json r = Ok jwks).
  { unfold fetch_jwks. intros url w1 Hr. ok_inv. bool_hyps.
    match goal with Hu : validate_jwks_url _ = Ok _ |- _ => pose proof Hu as Hu';
      unfold validate_jwks_url, verify_err in Hu'; ok_inv; bool_hyps end. eauto 10. }
  unfold resolve_idp_jwks. intros Hr. destruct (non_blank uri) as [u|].
  - destruct (Hf _ _ Hr) as (r & ?). exists u, w, r. naive_solver.
  - ok_inv. bool_hyps. destruct (Hf _ _ Hr) as (r & ?). subst.
    eexists _, _, r. split_and!; try naive_solver.
Qed.

End Properties.

(** C39: the cap on an assertion's lifetime does not bound when it expires: the
    span is counted from the [iat] the assertion states, which is compared with
    nothing, so an assertion that expires at any later time passes both checks
    by stating an [iat] close to its [exp]. *)
Theorem assertion_lifetime_not_bounded_by_now {W} `{HasClock W} (c : AssertionClaims)
    (ttl leeway now : Z) (w w' : W) :
  now_unix (E := VerifyError) w = (Ok now, w') -> (now <= as_exp c)%Z -> in_i64 (as_exp c + leeway) ->
  (0 <= leeway)%Z -> (0 <= ttl)%Z -> in_i64 (ttl + leeway) ->
  as_iat c = Some (as_exp c) ->
  validate_time_window (as_exp c) None leeway w = (Ok tt, w') /\
  validate_assertion_lifetime c ttl leeway w' = (Ok tt, w').
Proof.
  intros Hn Hle Hi Hl Ht Hc Hiat. split; [by apply (time_window_passes _ _ now)|].
  unfold validate_assertion_lifetime, eff_bind, eff_ret. rewrite Hiat, i64_add_small by done.
  rewrite i64_sub_small by (rewrite Z.sub_diag; i64_tac). rewrite Z.sub_diag.
  by rewrite (proj2 (Z.ltb_ge _ _)) by lia.
Qed.

(** C40: nor does the cap bound the lifetime that an assertion states: [exp] less
    [iat] wraps, so with an [iat] at least 2^63 seconds before [exp] (for any
    [exp] that is not negative -2^63 is one) an assertion passes both checks
    until it expires, however small the cap is. *)
Theorem assertion_lifetime_wraps {W} `{HasClock W} (c : AssertionClaims) (iat ttl leeway now : Z) (w w' : W) :
  now_unix (E := VerifyError) w = (Ok now, w') -> (now <= as_exp c)%Z -> in_i64 (as_exp c + leeway) ->
  (0 <= leeway)%Z -> (0 <= ttl)%Z -> in_i64 (ttl + leeway) ->
  as_iat c = Some iat -> in_i64 iat -> in_i64 (as_exp c) -> (2 ^ 63 <= as_exp c - iat)%Z ->
  validate_time_window (as_exp c) None leeway w = (Ok tt, w') /\
  validate_assertion_lifetime c ttl leeway w' = (Ok tt, w').
Proof.
  intros Hn Hle Hi Hl Ht Hc Hiat Hiat64 Hexp Hfar. split; [by apply (time_window_passes _ _ now)|].
  unfold validate_assertion_lifetime, eff_bind, eff_ret. rewrite Hiat, i64_add_small by done.
  assert (Hneg : (i64_sub (as_exp c) iat < 0)%Z).
  { unfold in_i64, i64_min, i64_max in *. unfold i64_sub, wrap64. rewrite <- (Z_mod_plus_full _ (-1)), Z.mod_small; lia. }
  by rewrite (proj2 (Z.ltb_ge _ _)) by lia.
Qed.

(** A clock that stands still, an HTTP server with one document, and the JWS
    libraries of [Toy]. *)
Module VerifyToy.
#[local] Instance clock : HasClock Z := fun w => (Some w, w).
#[local] Instance http : HasHttp Z :=
  {| http_get _ w := (Ok (mkResponse 200 (Ok "{}")), w); status_text := to_string |}.
#[local] Instance features : Features := true.
#[local] Instance sha : Sha256 := fun x => x.
#[local] Instance url : UrlLib := ToyUrl.lib.
#[local] Instance base64 : Base64 := Toy.base64.
#[local] Instance jwt : Jwt := Toy.jwt.
#[local] Instance openssl : OpenSsl := Toy.openssl.
#[local] Instance header_json : FromJson CompactJwsHeader := Toy.header_json.
Definition assertion : AssertionClaims :=
  mkAssertionClaims "k" "k" (VArray [VString "https://sts.example"]) 1300 (Some 1000%Z) (Some "j") None.
Definition subject : SubjectTokenClaims :=
  mkSubjectClaims "https://idp.example" (Some "u") (VString "api") None None 2000 (Some 900%Z) None
    None None None None None.
#[local] Instance assertion_json : FromJson AssertionClaims := fun _ => Ok assertion.
#[local] Instance subject_json : FromJson SubjectTokenClaims := fun _ => Ok subject.
#[local] Instance discovery_json : FromJson DiscoveryDocument :=
  fun _ => Ok (mkDiscovery "https://idp.example/" "https://idp.example/jwks").
#[local] Instance jwks_json : FromJson JwksDocument := fun _ => Ok (mkJwksDocument [Toy.rsa_jwk]).
Definition jwks : JwksDocument := mkJwksDocument [Toy.rsa_jwk].
Definition options : AssertionVerificationOptions :=
  mkAssertionOptions "https://idp.example" ["https://sts.example"] 60 600 None false None.

Lemma verify_assertion_sound_witness :
  exists now : Z, (now <= 1300 + 60)%Z /\ as_iss assertion = as_sub assertion.
Proof.
  destruct (verify_assertion_sound "h.p.s" jwks ["RS256"] options assertion 1200%Z 1200%Z)
    as (v & now & w1 & _ & _ & H & _ & _ & _ & Hn & _).
  - vm_compute. reflexivity.
  - i64_tac.
  - simpl. lia.
  - simpl. lia.
  - i64_tac.
  - exists now. exact (conj Hn H).
Defined.

Lemma verify_subject_token_sound_witness :
  exists a, a ∈ ["api"] /\ aud_names (st_aud subject) a.
Proof.
  destruct (verify_subject_token_sound "h.p.s" jwks "https://idp.example/" ["api"] 60 subject 1200%Z 1200%Z)
    as (v & now & _ & _ & _ & H & _).
  - vm_compute. reflexivity.
  - i64_tac.
  - lia.
  - exact H.
Defined.

Lemma kid_single_owner_witness : "agent-a" = "agent-a".
Proof.
  apply (kid_single_owner "agent-a-2024" "agent-a" "agent-a" {["agent"; "agent-a"]}).
  - set_solver.
  - set_solver.
  - vm_compute. reflexivity.
  - vm_compute. reflexivity.
Defined.

Lemma resolve_idp_jwks_pinned_witness :
  exists url, starts_with "https://" (trim url) = true.
Proof.
  destruct (resolve_idp_jwks_pinned "https://idp.example" None jwks 5%Z 5%Z)
    as (url & w1 & r & _ & H & _).
  - vm_compute. reflexivity.
  - exists url. exact H.
Defined.

Lemma assertion_lifetime_not_bounded_by_now_witness :
  let c := mkAssertionClaims "k" "k" (VString "a") 9999999999 (Some 9999999999%Z) None None in
  validate_time_window (as_exp c) None 60 1200%Z = (Ok tt, 1200%Z) /\ validate_assertion_lifetime c 600 60 1200%Z = (Ok tt, 1200%Z).
Proof.
  intros c.
  apply (assertion_lifetime_not_bounded_by_now c 600 60 1200 1200%Z 1200%Z).
  - reflexivity.
  - simpl. lia.
  - i64_tac.
  - lia.
  - lia.
  - i64_tac.
  - reflexivity.
Defined.

Lemma assertion_lifetime_wraps_witness :
  let c := mkAssertionClaims "k" "k" (VString "a") 9999999999 (Some (- 2 ^ 63)%Z) None None in
  validate_time_window (as_exp c) None 60 1200%Z = (Ok tt, 1200%Z) /\ validate_assertion_lifetime c 600 60 1200%Z = (Ok tt, 1200%Z).
Proof.
  intros c. apply (assertion_lifetime_wraps c (- 2 ^ 63) 600 60 1200 1200%Z 1200%Z).
  - reflexivity.
  - simpl. lia.
  - i64_tac.
  - lia.
  - lia.
  - i64_tac.
  - reflexivity.
  - i64_tac.
  - i64_tac.
  - simpl. lia.
Defined.
End VerifyToy.
