(* ===== verification/Dpop.v ===== *)
(** crates/sts-dpop: validation of RFC 9449 proofs, and the holder key that
    makes them.

    jsonwebtoken's key type and signature check, the P-256 key, base64, URL
    parsing and JSON text are third-party code and parameters. *)

From S2P Require Import Prelude RustStr Json Url Replay Jose.
From Stdlib Require Import Ascii.

(** * Third-party code *)

(** [jsonwebtoken::Algorithm], the variants the proofs may name and the rest. *)
Inductive Algorithm : Type :=
| HS256 | HS384 | HS512 | RS256 | RS384 | RS512 | PS256 | PS384 | PS512 | ES256 | ES384 | EdDSA.

#[export] Instance Algorithm_eq_dec : EqDecision Algorithm.
Proof. solve_decision. Defined.

(** [jsonwebtoken::jwk::AlgorithmParameters]. *)
Inductive AlgorithmParameters : Type := EllipticCurve | RSA | OctetKey | OctetKeyPair.

(** The members of [Validation] that this crate sets. *)
Record ProofValidation : Type := mkProofValidation {
  pv_alg : Algorithm;
  pv_required_spec_claims : list string;
  pv_validate_exp : bool;
  pv_validate_nbf : bool;
  pv_validate_aud : bool
}.

Record VerifiedDpopClaims : Type := mkDpopClaims {
  dc_jti : option Value;
  dc_htm : option Value;
  dc_htu : option Value;
  dc_iat : option Value
}.

Record OutboundDpopClaims : Type := mkOutbound {
  od_jti : string;
  od_htm : string;
  od_htu : string;
  od_iat : Z
}.

Class DpopLib : Type := {
  Jwk : Type;
  ProofKey : Type;
  SigningKey : Type;
  algorithm_from_str : string -> option Algorithm;
  jwk_from_value : Value -> option Jwk;
  jwk_algorithm : Jwk -> AlgorithmParameters;
  jwk_thumbprint : Jwk -> string;
  decoding_key_from_jwk : Jwk -> option ProofKey;
  proof_validation_new : Algorithm -> ProofValidation;
  proof_decode : string -> ProofKey -> ProofValidation -> option VerifiedDpopClaims;
  signing_key_from_bytes : string -> option SigningKey;
  signing_key_to_bytes : SigningKey -> string;
  public_x : SigningKey -> option string;
  public_y : SigningKey -> option string;
  to_pkcs8_der : SigningKey -> option string;
  encode_es256 : string -> Jwk -> OutboundDpopClaims -> string -> option string
}.

(** serde_json's reader of a [Value], without its error text. *)
Class JsonReader : Type := json_parse : string -> option Value.

(** * Constants, errors, data *)

Definition DPOP_SIGNING_ALGS_SUPPORTED : list string :=
  ["RS256"; "RS384"; "RS512"; "PS256"; "PS384"; "PS512"; "ES256"; "ES384"; "EdDSA"].
Definition MAX_DPOP_PROOF_LEN : Z := 8192.
Definition MAX_DPOP_JTI_LEN : Z := 128.
Definition DPOP_TYP : string := "dpop+jwt".
Definition PRIVATE_JWK_MEMBERS : list string := ["d"; "p"; "q"; "dp"; "dq"; "qi"; "oth"; "k"].

Record DpopProofRequest : Type := mkProofRequest {
  dp_proof : string;
  dp_htm : string;
  dp_htu : string;
  dp_now : Z;
  dp_leeway : Z
}.

Record DpopBinding : Type := mkDpopBinding {
  db_jkt : string;
  db_jti : string;
  db_iat : Z;
  db_replay_expires_at : Z
}.

(** [DpopErrorKind] has one value, so an error is its message. *)
Record DpopError : Type := invalid { dpop_message : string }.

(** [impl Display for DpopError]. *)
Definition dpop_error_display (e : DpopError) : string := "invalid_dpop_proof" +:+ ": " +:+ dpop_message e.

Definition dpop_err {A} (message : string) : result DpopError A := Err (invalid message).

Definition OutboundDpopBuild : Type := OutboundDpopClaims.

(** * Claims and header checks *)

Definition check_proof_input (input : DpopProofRequest) : result DpopError unit :=
  if is_empty (trim (dp_proof input)) then dpop_err "DPoP proof missing or not a string"
  else if (MAX_DPOP_PROOF_LEN <? byte_len (dp_proof input))%Z then
    dpop_err "DPoP proof exceeds maximum allowed length"
  else if (is_empty (trim (dp_htm input)) || is_empty (trim (dp_htu input)))%bool then
    dpop_err "DPoP request method/URI not available for proof validation"
  else Ok tt.

(** [compact_parts]: three parts, none of them empty. *)
Definition compact_parts (proof : string) : result DpopError (string * string * string) :=
  match split_char "."%char proof with
  | [header; payload; signature] =>
      if (is_empty header || is_empty payload || is_empty signature)%bool then
        dpop_err "DPoP proof must be a compact JWT"
      else Ok (header, payload, signature)
  | _ => dpop_err "DPoP proof must be a compact JWT"
  end.

Definition required_string_claim (value : option Value) (claim : string) : result DpopError string :=
  ok_or (opt_filter (fun value => negb (is_empty value)) (value ≫= as_str))
    (invalid ("DPoP proof " +:+ claim +:+ " must be a non-empty string")).

Definition validate_jti (jti : string) : result DpopError string :=
  if (MAX_DPOP_JTI_LEN <? byte_len jti)%Z then
    dpop_err "DPoP proof jti exceeds maximum allowed length"
  else Ok jti.

Definition validate_htm (claim_htm htm : string) : result DpopError unit :=
  if bool_decide (claim_htm = htm) then Ok tt
  else dpop_err "DPoP proof htm does not match the request method".

Definition value_to_i64 (value : Value) : option Z :=
  match as_i64 value with
  | Some z => Some z
  | None =>
      match as_u64 value with
      | Some u => if (u <=? i64_max)%Z then Some u else None
      | None =>
          match as_f64 value with
          | Some f =>
              (* [i64::MIN as f64] and [i64::MAX as f64] are -2^63 and 2^63 *)
              if (sf_is_finite f && sf_ge_int f (-(2 ^ 63)) && sf_le_int f (2 ^ 63))%bool
              then Some (sf_to_i64 f) else None
          | None => None
          end
      end
  end.

Definition validate_iat (value : option Value) (now leeway : Z) : result DpopError Z :=
  let? value := ok_or value (invalid "DPoP proof missing required claim iat") in
  let? iat := ok_or (value_to_i64 value) (invalid "DPoP proof iat must be a finite number") in
  if (Z.max leeway 0 <? abs_diff now iat)%Z then
    dpop_err "DPoP proof iat is outside the acceptable window"
  else Ok iat.

Definition default_port (scheme : string) : option Z :=
  if bool_decide (scheme = "https") then Some 443%Z
  else if bool_decide (scheme = "http") then Some 80%Z
  else None.

Section Dpop.
Context `{UrlLib} `{Base64} `{DpopLib} `{JsonReader} `{SerdeJson}.

Definition canonical_htu (value : string) : option string :=
  match url_parse value with
  | Err _ => None
  | Ok parsed =>
      let scheme := to_ascii_lowercase (url_scheme parsed) in
      match url_host_str parsed with
      | None => None
      | Some host =>
          let host := to_ascii_lowercase host in
          let netloc :=
            match url_port parsed with
            | Some port => if bool_decide (Some port = default_port scheme) then host
                           else host +:+ ":" +:+ to_string port
            | None => host
            end in
          Some (scheme +:+ "://" +:+ netloc +:+ url_path parsed)
      end
  end.

Definition validate_htu (claim_htu htu : string) : result DpopError unit :=
  let? claim_htu := ok_or (canonical_htu claim_htu)
    (invalid "DPoP proof htu is not a valid absolute URI") in
  let? request_htu := ok_or (canonical_htu htu)
    (invalid "DPoP request URI is not a valid absolute URI") in
  if bool_decide (claim_htu = request_htu) then Ok tt
  else dpop_err "DPoP proof htu does not match the request URI".

Definition dpop_htu_for_request_uri (uri : string) : result DpopError string :=
  let? parsed := map_err (fun _ => invalid "DPoP htu must be an absolute URI") (url_parse uri) in
  Ok (url_without_query_fragment parsed).

Definition decode_json_part (part name : string) : result DpopError Value :=
  let? bytes := map_err (fun _ => invalid ("DPoP proof " +:+ name +:+ " is not valid base64url JSON"))
    (b64_decode part) in
  ok_or (json_parse bytes) (invalid ("DPoP proof " +:+ name +:+ " is not valid JSON")).

Definition ensure_asymmetric_key_matches_alg (jwk : Jwk) (alg : Algorithm) : result DpopError unit :=
  match jwk_algorithm jwk, alg with
  | RSA, (RS256 | RS384 | RS512 | PS256 | PS384 | PS512) => Ok tt
  | EllipticCurve, (ES256 | ES384) => Ok tt
  | OctetKeyPair, EdDSA => Ok tt
  | _, _ => dpop_err "DPoP proof jwk key type is not compatible with header alg"
  end.

Definition validate_header (header : Value) : result DpopError (Algorithm * Jwk) :=
  let? header := ok_or (as_object header) (invalid "DPoP proof header is not a JSON object") in
  if negb (bool_decide (map_get "typ" header ≫= as_str = Some DPOP_TYP)) then
    dpop_err "DPoP proof typ must be dpop+jwt"
  else
  let? alg_name := ok_or (map_get "alg" header ≫= as_str) (invalid "DPoP proof alg is required") in
  if negb (bool_decide (alg_name ∈ DPOP_SIGNING_ALGS_SUPPORTED)) then
    dpop_err ("DPoP proof alg " +:+ debug_str alg_name +:+ " is not an allowed asymmetric algorithm")
  else
  let? alg := ok_or (algorithm_from_str alg_name) (invalid "DPoP proof alg is not supported") in
  let? jwk_value := ok_or (map_get "jwk" header)
    (invalid "DPoP proof header must carry a public jwk") in
  let? jwk_object := ok_or (as_object jwk_value)
    (invalid "DPoP proof header must carry a public jwk") in
  if existsb (fun member => map_contains_key member jwk_object) PRIVATE_JWK_MEMBERS then
    dpop_err "DPoP proof jwk must not contain private key material"
  else if is_some_and (fun jwk_alg => negb (bool_decide (jwk_alg = alg_name)))
            (map_get "alg" jwk_object ≫= as_str) then
    dpop_err "DPoP proof jwk alg does not match header alg"
  else
  let? jwk := ok_or (jwk_from_value jwk_value)
    (invalid "DPoP proof jwk is not a valid public key") in
  let? _ := ensure_asymmetric_key_matches_alg jwk alg in
  Ok (alg, jwk).

(** The validation used for proofs: the signature only. *)
Definition proof_validation (alg : Algorithm) : ProofValidation :=
  mkProofValidation (pv_alg (proof_validation_new alg)) [] false false false.

Definition verify_proof_signature (proof : string) (alg : Algorithm) (jwk : Jwk)
    : result DpopError VerifiedDpopClaims :=
  let? key := ok_or (decoding_key_from_jwk jwk)
    (invalid "DPoP proof jwk is not a valid public key") in
  ok_or (proof_decode proof key (proof_validation alg))
    (invalid "DPoP proof signature does not verify").

Definition validate_dpop_proof (input : DpopProofRequest) : result DpopError DpopBinding :=
  let? _ := check_proof_input input in
  let? (header_b64, _, _) := compact_parts (dp_proof input) in
  let? header := decode_json_part header_b64 "header" in
  let? (alg, jwk) := validate_header header in
  let? claims := verify_proof_signature (dp_proof input) alg jwk in
  let? jti := required_string_claim (dc_jti claims) "jti" in
  let? jti := validate_jti jti in
  let? htm := required_string_claim (dc_htm claims) "htm" in
  let? _ := validate_htm htm (dp_htm input) in
  let? htu := required_string_claim (dc_htu claims) "htu" in
  let? _ := validate_htu htu (dp_htu input) in
  let? iat := validate_iat (dc_iat claims) (dp_now input) (dp_leeway input) in
  let leeway := Z.max (dp_leeway input) 0 in
  Ok (mkDpopBinding (jwk_thumbprint jwk) jti iat (saturating_add iat leeway)).

(** * Holder keys *)

Record DpopHolderKey : Type := mkHolderKey {
  hk_signing_key : SigningKey;
  hk_x : string;
  hk_y : string;
  hk_d : string;
  hk_jkt : string
}.

Record GeneratedDpopHolderKey : Type := mkGeneratedHolderKey {
  gh_private_jwk_json : string;
  gh_public_jkt : string
}.

Definition required_jwk_string (object : Map) (name : string) : result DpopError string :=
  ok_or (opt_filter (fun value => negb (is_empty value)) (map_get name object ≫= as_str))
    (invalid ("DPoP holder key missing " +:+ name)).

Definition decode_coordinate (value name : string) : result DpopError string :=
  let? decoded := map_err (fun _ => invalid ("DPoP holder key " +:+ name +:+ " is not base64url"))
    (b64_decode value) in
  if negb (byte_len decoded =? 32)%Z then
    dpop_err ("DPoP holder key " +:+ name +:+ " must be 32 bytes")
  else Ok decoded.

(** [public_jwk_value], from the coordinates. *)
Definition public_jwk_members (x y : string) : Value :=
  json_object [("kty", VString "EC"); ("crv", VString "P-256"); ("x", VString x); ("y", VString y);
               ("alg", VString "ES256")].

Definition from_signing_key (signing_key : SigningKey) : result DpopError DpopHolderKey :=
  let? x := ok_or (public_x signing_key) (invalid "DPoP public key missing x coordinate") in
  let x := b64_encode x in
  let? y := ok_or (public_y signing_key) (invalid "DPoP public key missing y coordinate") in
  let y := b64_encode y in
  let d := b64_encode (signing_key_to_bytes signing_key) in
  let? public_jwk := ok_or (jwk_from_value (public_jwk_members x y))
    (invalid "generated DPoP public JWK is invalid") in
  Ok (mkHolderKey signing_key x y d (jwk_thumbprint public_jwk)).

Definition holder_public_jwk_value (self : DpopHolderKey) : Value :=
  public_jwk_members (hk_x self) (hk_y self).

Definition holder_public_jwk (self : DpopHolderKey) : result DpopError Jwk :=
  ok_or (jwk_from_value (holder_public_jwk_value self)) (invalid "DPoP public JWK is invalid").

(** [DpopHolderKey::generate_private_jwk]; [random] is the key drawn. *)
Definition holder_generate_private_jwk (random : SigningKey) : result DpopError GeneratedDpopHolderKey :=
  let? key := from_signing_key random in
  let? object := ok_or (as_object (holder_public_jwk_value key))
    (invalid "generated DPoP key did not produce a JSON object") in
  let object := map_insert "d" (VString (hk_d key)) object in
  let object := map_insert "use" (VString "sig") object in
  let object := map_insert "kid" (VString (hk_jkt key)) object in
  let? private_jwk_json :=
    map_err (fun _ => invalid "failed to encode generated DPoP private JWK")
      (json_to_string_pretty (VObject object)) in
  Ok (mkGeneratedHolderKey (private_jwk_json +:+ newline) (hk_jkt key)).

(** [DpopHolderKey::from_private_jwk]. *)
Definition holder_from_private_jwk (raw : string) : result DpopError DpopHolderKey :=
  let? value := ok_or (json_parse raw) (invalid "DPoP holder key file is not valid JSON") in
  let? object := ok_or (as_object value) (invalid "DPoP holder key must be a JSON object") in
  let? kty := required_jwk_string object "kty" in
  let? crv := required_jwk_string object "crv" in
  let? x := required_jwk_string object "x" in
  let? y := required_jwk_string object "y" in
  let? d := required_jwk_string object "d" in
  if (negb (bool_decide (kty = "EC")) || negb (bool_decide (crv = "P-256")))%bool then
    dpop_err "DPoP holder key must be an EC P-256 JWK"
  else if is_some_and (fun alg => negb (bool_decide (alg = "ES256"))) (map_get "alg" object ≫= as_str) then
    dpop_err "DPoP holder key alg must be ES256 when present"
  else if map_contains_key "k" object then
    dpop_err "DPoP holder key must not be symmetric JWK material"
  else
  let? d_bytes := decode_coordinate d "d" in
  let? signing_key := ok_or (signing_key_from_bytes d_bytes)
    (invalid "DPoP holder key private scalar is invalid") in
  let? key := from_signing_key signing_key in
  if (negb (bool_decide (hk_x key = x)) || negb (bool_decide (hk_y key = y)))%bool then
    dpop_err "DPoP holder key public coordinates do not match private scalar"
  else Ok key.

(** [DpopHolderKey::sign_proof]. *)
Definition sign_proof (self : DpopHolderKey) (proof : OutboundDpopBuild) : result DpopError string :=
  if (is_empty (trim (od_htm proof)) || is_empty (trim (od_htu proof)))%bool then
    dpop_err "DPoP proof htm/htu must not be empty"
  else
  let? _ := validate_jti (od_jti proof) in
  let? jwk := holder_public_jwk self in
  let? der := ok_or (to_pkcs8_der (hk_signing_key self)) (invalid "failed to encode DPoP holder key") in
  ok_or (encode_es256 DPOP_TYP jwk proof der) (invalid "failed to sign DPoP proof").

(** [generate_dpop_jti] of sixteen random bytes. *)
Definition generate_dpop_jti (bytes : string) : string := b64_encode bytes.

End Dpop.

(** * Lemmas *)

Lemma value_to_i64_range v z :
  (forall n, v = VNumber (PosInt n) -> (0 <= n)%Z) -> (forall n, v = VNumber (NegInt n) -> in_i64 n) ->
  value_to_i64 v = Some z -> in_i64 z.
Proof.
  intros Hp Hn. unfold value_to_i64, as_i64, as_u64, as_f64. destruct v as [| |n| | |]; try done.
  destruct n as [n|n|f].
  - destruct (n <=? i64_max)%Z eqn:E; [|done]. intros [= <-]. apply Z.leb_le in E.
    specialize (Hp n eq_refl). i64_tac.
  - intros [= <-]. by apply Hn.
  - destruct (_ && _)%bool; [|done]. intros [= <-]. apply sf_to_i64_range.
Qed.

Lemma validate_iat_ok v now leeway iat :
  validate_iat v now leeway = Ok iat ->
  (v ≫= value_to_i64) = Some iat /\ (Z.abs (now - iat) <= Z.max leeway 0)%Z.
Proof.
  unfold validate_iat, dpop_err, abs_diff. intros Hv. ok_inv. bool_hyps. by subst.
Qed.

Lemma required_string_claim_ok v name s :
  required_string_claim v name = Ok s -> v = Some (VString s) /\ s <> "".
Proof.
  unfold required_string_claim. intros Hv. ok_inv. bool_hyps.
  match goal with Hx : is_empty _ = false |- _ => apply is_empty_false in Hx end.
  destruct v as [[]|]; simplify_eq/=; done.
Qed.

Section Soundness.
Context `{UrlLib} `{Base64} `{DpopLib} `{JsonReader}.

(** The key types that the asymmetric algorithm families belong to. *)
Definition key_family (alg : Algorithm) : option AlgorithmParameters :=
  match alg with
  | RS256 | RS384 | RS512 | PS256 | PS384 | PS512 => Some RSA
  | ES256 | ES384 => Some EllipticCurve
  | EdDSA => Some OctetKeyPair
  | HS256 | HS384 | HS512 => None
  end.

Lemma key_matches_ok jwk alg u :
  ensure_asymmetric_key_matches_alg jwk alg = Ok u -> key_family alg = Some (jwk_algorithm jwk).
Proof.
  unfold ensure_asymmetric_key_matches_alg, dpop_err.
  destruct (jwk_algorithm jwk), alg; done.
Qed.

(** What an accepted header says. *)
Definition header_accepted (header : Value) (alg : Algorithm) (jwk : Jwk) : Prop :=
  exists members name key,
    header = VObject members /\ map_get "typ" members = Some (VString "dpop+jwt") /\
    map_get "alg" members = Some (VString name) /\ name ∈ DPOP_SIGNING_ALGS_SUPPORTED /\
    algorithm_from_str name = Some alg /\ map_get "jwk" members = Some (VObject key) /\
    (forall m, m ∈ PRIVATE_JWK_MEMBERS -> map_get m key = None) /\
    (forall a, map_get "alg" key = Some (VString a) -> a = name) /\
    jwk_from_value (VObject key) = Some jwk /\ key_family alg = Some (jwk_algorithm jwk).

Lemma bind_as_str o s : (o ≫= as_str) = Some s <-> o = Some (VString s).
Proof. destruct o as [[]|]; simpl; split; intros; simplify_eq; done. Qed.

Lemma validate_header_ok header alg jwk :
  validate_header header = Ok (alg, jwk) -> header_accepted header alg jwk.
Proof.
  unfold validate_header, dpop_err. intros Hv. ok_inv. rewrite existsb_false_elem in *. bool_hyps.
  match goal with Hk : as_object ?h = Some ?o |- _ => destruct h; simplify_eq/= end.
  match goal with Hk : as_object ?h = Some ?o |- _ => destruct h; simplify_eq/= end.
  match goal with Hk : ensure_asymmetric_key_matches_alg _ _ = _ |- _ => apply key_matches_ok in Hk end.
  rewrite !bind_as_str in *. eexists _, _, _. split_and!; try done.
  - intros m Hm. match goal with Hx : forall x, x ∈ _ -> _ = false |- _ => specialize (Hx m Hm) end.
    unfold map_contains_key in *. by destruct (map_get m _).
  - intros a' Ha'. match goal with Hx : is_some_and _ _ = false |- _ =>
      rewrite (proj2 (bind_as_str _ _) Ha') in Hx; simpl in Hx end. by bool_hyps.
Qed.
End Soundness.

(** * Properties *)

(** What an accepted proof and the binding made from it stand on. *)
Definition proof_accepted `{UrlLib} `{Base64} `{DpopLib} `{JsonReader}
    (r : DpopProofRequest) (b : DpopBinding) : Prop :=
  exists header_text payload signature header alg jwk key claims htu,
    dp_proof r = header_text +:+ "." +:+ payload +:+ "." +:+ signature /\
    decode_json_part header_text "header" = Ok header /\ header_accepted header alg jwk /\
    decoding_key_from_jwk jwk = Some key /\
    proof_decode (dp_proof r) key (proof_validation alg) = Some claims /\
    db_jkt b = jwk_thumbprint jwk /\
    dc_jti claims = Some (VString (db_jti b)) /\ db_jti b <> "" /\ (byte_len (db_jti b) <= 128)%Z /\
    dc_htm claims = Some (VString (dp_htm r)) /\
    dc_htu claims = Some (VString htu) /\ is_Some (canonical_htu htu) /\
    canonical_htu htu = canonical_htu (dp_htu r) /\
    (dc_iat claims ≫= value_to_i64) = Some (db_iat b) /\
    (Z.abs (dp_now r - db_iat b) <= Z.max (dp_leeway r) 0)%Z /\
    db_replay_expires_at b = saturating_add (db_iat b) (Z.max (dp_leeway r) 0).

Section Properties.
Context `{UrlLib} `{Base64} `{DpopLib} `{JsonReader}.

Lemma dpop_accepted r b :
  validate_dpop_proof r = Ok b -> proof_accepted r b /\ (byte_len (dp_proof r) <= MAX_DPOP_PROOF_LEN)%Z.
Proof.
  unfold validate_dpop_proof, verify_proof_signature, compact_parts, validate_htm, validate_htu,
    validate_jti, check_proof_input, dpop_err. intros Hv. ok_inv.
  match goal with Hk : context [split_char ?c ?t] |- _ => destruct (split_char c t) as [|h [|p [|s [|]]]] eqn:Hsp end;
    ok_inv; repeat case_match; simplify_eq/=; ok_inv; bool_hyps.
  repeat match goal with
  | Hk : required_string_claim _ _ = Ok _ |- _ => apply required_string_claim_ok in Hk as [? ?]
  | Hk : validate_iat _ _ _ = Ok _ |- _ => apply validate_iat_ok in Hk as [? ?]
  | Hk : validate_header _ = Ok _ |- _ => apply validate_header_ok in Hk
  end.
  apply split_three in Hsp as (Htok & _).
  split; [|done]. unfold proof_accepted. simpl.
  do 9 eexists. split_and!; try done; try congruence.
Qed.

(** C24: a DPoP proof is accepted only when it is a compact JWT whose header
    says dpop+jwt and names an allowed asymmetric algorithm, carries a public
    key of that algorithm's family and no private member, its signature
    verifies with that key, it was made for this method and URI, and its time
    is inside the window; the binding returned is that key's thumbprint, the
    proof's own id, and an expiry for the replay store. *)
Theorem dpop_proof_sound (r : DpopProofRequest) (b : DpopBinding) :
  validate_dpop_proof r = Ok b ->
  proof_accepted r b /\ (byte_len (dp_proof r) <= 8192)%Z.
Proof. apply dpop_accepted. Qed.

(** The part of the validation that depends on the proof alone. *)
Definition proof_content (proof : string) : result DpopError (Jwk * VerifiedDpopClaims) :=
  let? (header_b64, _, _) := compact_parts proof in
  let? header := decode_json_part header_b64 "header" in
  let? (alg, jwk) := validate_header header in
  let? claims := verify_proof_signature proof alg jwk in
  Ok (jwk, claims).

Lemma accepted_content r b :
  validate_dpop_proof r = Ok b -> exists jwk claims,
    proof_content (dp_proof r) = Ok (jwk, claims) /\
    db_jkt b = jwk_thumbprint jwk /\ dc_jti claims = Some (VString (db_jti b)) /\
    (dc_iat claims ≫= value_to_i64) = Some (db_iat b) /\
    (Z.abs (dp_now r - db_iat b) <= Z.max (dp_leeway r) 0)%Z /\
    db_replay_expires_at b = saturating_add (db_iat b) (Z.max (dp_leeway r) 0).
Proof.
  unfold validate_dpop_proof, proof_content, validate_jti, dpop_err. intros Hv. ok_inv.
  repeat case_match; simplify_eq/=. ok_inv. case_match. ok_inv. bool_hyps.
  repeat match goal with
  | Hk : required_string_claim _ _ = Ok _ |- _ => apply required_string_claim_ok in Hk as [? ?]
  | Hk : validate_iat _ _ _ = Ok _ |- _ => apply validate_iat_ok in Hk as [? ?]
  | Hk : ?e = Ok _ |- context [res_bind ?e] => rewrite Hk; simpl
  end. do 2 eexists. split_and!; done.
Qed.

(** Where the time of a proof lies inside the window, the expiry recorded for
    it has not passed. *)
Lemma replay_expiry_covers iat leeway now :
  in_i64 iat -> in_i64 now -> (Z.abs (now - iat) <= Z.max leeway 0)%Z ->
  (now <= saturating_add iat (Z.max leeway 0))%Z.
Proof. unfold in_i64, saturating_add, i64_min, i64_max. lia. Qed.

(** C25: a DPoP proof that has been accepted and recorded is refused ever after:
    at every later time at which the proof itself would still be accepted, its
    replay key is still held, for every store that satisfies the interface. *)
Theorem dpop_proof_single_use {S} `{ReplayStoreLaws S} `{Sha256}
    (r1 r2 : DpopProofRequest) (b1 b2 : DpopBinding) (s s1 s3 : S) (between : list Call) :
  dp_proof r2 = dp_proof r1 -> dp_leeway r2 = dp_leeway r1 ->
  validate_dpop_proof r1 = Ok b1 -> validate_dpop_proof r2 = Ok b2 ->
  in_i64 (db_iat b1) -> in_i64 (dp_now r2) ->
  store_ok s -> Forall (fun c => in_i64 (c_exp c) /\ (c_now c <= dp_now r2)%Z) between ->
  check_and_record (dpop_replay_key (db_jkt b1) (db_jti b1)) (db_replay_expires_at b1) (dp_now r1) s
    = (Ok tt, s1) ->
  check_and_record (dpop_replay_key (db_jkt b2) (db_jti b2)) (db_replay_expires_at b2) (dp_now r2)
    (run_calls between s1) <> (Ok tt, s3).
Proof.
  intros Hp Hl V1 V2 Hi Hn Hs Hb C1 C2.
  apply accepted_content in V1 as (k1 & c1 & P1 & J1 & T1 & I1 & W1 & X1).
  apply accepted_content in V2 as (k2 & c2 & P2 & J2 & T2 & I2 & W2 & X2).
  rewrite Hp, P1 in P2. simplify_eq.
  rewrite J2, <- J1, X2, Hl in C2. rewrite X1 in C1.
  assert (db_jti b1 = db_jti b2) as Hj by congruence.
  assert (db_iat b1 = db_iat b2) as Ht by congruence.
  rewrite <- Hj, <- Ht in C2. rewrite <- Ht, Hl in W2.
  pose proof (replay_expiry_covers _ _ _ Hi Hn W2).
  pose proof (no_second_record _ _ _ _ _ _ _ _ _ Hs (saturating_add_range _ _) (saturating_add_range _ _) Hb C1 C2).
  lia.
Qed.

End Properties.

(** Libraries with one key and one proof. *)
Module DpopToy.
Definition key_members : Map :=
  [("alg", VString "ES256"); ("crv", VString "P-256"); ("kty", VString "EC"); ("x", VString "x");
   ("y", VString "y")].
#[local] Instance url : UrlLib := ToyUrl.lib.
#[local] Instance base64 : Base64 := Toy.base64.
#[local] Instance sha : Sha256 := fun x => x.
#[local] Instance lib : DpopLib := {|
  Jwk := unit; ProofKey := unit; SigningKey := unit;
  algorithm_from_str s := if bool_decide (s = "ES256") then Some ES256 else None;
  jwk_from_value _ := Some tt;
  jwk_algorithm _ := EllipticCurve;
  jwk_thumbprint _ := "thumb";
  decoding_key_from_jwk _ := Some tt;
  proof_validation_new a := mkProofValidation a ["exp"] true false true;
  proof_decode _ _ _ :=
    Some (mkDpopClaims (Some (VString "j1")) (Some (VString "POST"))
            (Some (VString "https://sts.example/token")) (Some (VNumber (PosInt 1000))));
  signing_key_from_bytes _ := Some tt;
  signing_key_to_bytes _ := "d";
  public_x _ := Some "x";
  public_y _ := Some "y";
  to_pkcs8_der _ := Some "der";
  encode_es256 _ _ _ _ := Some "h.p.s"
|}.
#[local] Instance reader : JsonReader := fun _ =>
  Some (VObject [("alg", VString "ES256"); ("jwk", VObject key_members); ("typ", VString "dpop+jwt")]).

Definition request (now : Z) : DpopProofRequest :=
  mkProofRequest "h.p.s" "POST" "https://STS.example/token" now 60.
Definition binding : DpopBinding := mkDpopBinding "thumb" "j1" 1000 1060.

Lemma dpop_proof_sound_witness : validate_dpop_proof (mkProofRequest "h.p.s" "POST" "https://sts.example/token" 1001 60)
    = Ok binding /\ (byte_len "h.p.s" <= 8192)%Z.
Proof.
  split; [vm_compute; reflexivity|].
  apply (dpop_proof_sound (mkProofRequest "h.p.s" "POST" "https://sts.example/token" 1001 60) binding).
  vm_compute. reflexivity.
Defined.

Definition later (now : Z) : DpopProofRequest :=
  mkProofRequest "h.p.s" "POST" "https://sts.example/token" now 60.

Lemma dpop_proof_single_use_witness :
  let store := (check_and_record (dpop_replay_key "thumb" "j1") 1060 1001 (in_memory_new 8 4)).2 in
  (check_and_record (dpop_replay_key "thumb" "j1") 1060 1060 store).1 <> Ok tt.
Proof.
  intros store Hok.
  destruct (check_and_record (dpop_replay_key "thumb" "j1") 1060 1060 store) as [r s3] eqn:Hc.
  simpl in Hok. subst r. revert Hc.
  apply (dpop_proof_single_use (later 1001) (later 1060) binding binding (in_memory_new 8 4) store s3 []).
  - reflexivity.
  - reflexivity.
  - vm_compute. reflexivity.
  - vm_compute. reflexivity.
  - i64_tac.
  - i64_tac.
  - vm_compute. discriminate.
  - constructor.
  - vm_compute. reflexivity.
Defined.
End DpopToy.
