(* ===== verification/Config.v ===== *)
(** crates/sts-config: the runtime configuration read from the environment and
    the deployment's target and impersonation policies.

    The environment is a map given as an argument; reading a policy file and
    parsing JSON text are parameters.  Paths are strings. *)

From S2P Require Import Prelude RustStr Json Url.
From Stdlib Require Import Ascii.

(** [fs::read_to_string(path).ok()]. *)
Class FileReader : Type := read_to_string : string -> option string.
(** [serde_json::from_str::<Value>], with its error text. *)
Class JsonText : Type := json_from_str : string -> result string Value.

Definition DEFAULT_ISSUER : string := "http://localhost:8888/".
Definition DEFAULT_KID : string := "sts-delegate-key-1".
Definition DEFAULT_SECRETS_DIR : string := "./secrets".
Definition DEFAULT_HTTP_ADDR : string := "127.0.0.1:8888".
Definition DEFAULT_CLOCK_SKEW_LEEWAY : Z := 30.
Definition DEFAULT_SCOPED_TOKEN_TTL : Z := 300.
Definition DEFAULT_JWKS_CACHE_MAX_AGE : Z := 300.
Definition DEFAULT_ASSERTION_MAX_TTL : Z := 300.
Definition DEFAULT_MAX_SEEN_JTI : Z := 100000.
Definition DEFAULT_MAX_TOKEN_LEN : Z := 8192.
Definition DEFAULT_STS_SIGNING_ALG : string := "ML-DSA-65".
Definition DEFAULT_PQC_PREFERRED_ALGS : string := "ML-DSA-65,ML-DSA-87,ML-DSA-44".
Definition DEFAULT_PQC_PREFERRED : bool := true.
Definition DEFAULT_INBOUND_ASSERTION_ALG : string := "ML-DSA-65".
Definition DEFAULT_INBOUND_PQC_PREFERRED : bool := true.

(** * Errors and data *)

Inductive ConfigErrorKind : Type := MissingEnv | InvalidValue | InvalidJson | InvalidPolicy | NotFound.

Definition config_error_code (k : ConfigErrorKind) : string :=
  match k with
  | MissingEnv => "missing_env"
  | InvalidValue => "invalid_value"
  | InvalidJson => "invalid_json"
  | InvalidPolicy => "invalid_policy"
  | NotFound => "not_found"
  end.

Record ConfigError : Type := mkConfigError {
  config_kind : ConfigErrorKind;
  config_key : option string;
  config_message : string
}.

(** [impl Display for ConfigError]. *)
Definition config_error_display (e : ConfigError) : string :=
  match config_key e with
  | Some key => config_error_code (config_kind e) +:+ "(" +:+ key +:+ "): " +:+ config_message e
  | None => config_error_code (config_kind e) +:+ ": " +:+ config_message e
  end.

(** [Err(ConfigError::new(kind, Some(key), message))]. *)
Definition config_err {A} (k : ConfigErrorKind) (key message : string) : result ConfigError A :=
  Err (mkConfigError k (Some key) message).

Inductive TokenExchangeMode : Type := Delegation | Impersonation | Both.
Inductive ClientAuthPolicy : Type := Auto | PrivateKeyJwtRequired | ActorTokenAllowed.
Inductive ReplayBackend : Type := Memory | File (dir : string).

#[export] Instance TokenExchangeMode_eq_dec : EqDecision TokenExchangeMode.
Proof. solve_decision. Defined.
#[export] Instance ClientAuthPolicy_eq_dec : EqDecision ClientAuthPolicy.
Proof. solve_decision. Defined.

Record TargetPolicyEntry : Type := mkTargetEntry {
  allowed_scopes : gset string;
  default_scopes : gset string;
  accepted_token_signing_algs : gset string;
  pqc_required : bool
}.

Definition TargetPolicy : Type := gmap string TargetPolicyEntry.

(** [TargetPolicy::get]. *)
Definition target_policy_get (audience : string) (p : TargetPolicy) : option TargetPolicyEntry :=
  p !! audience.

Inductive ImpersonationSelector : Type :=
| Any
| Values (values : gset string).

Record ImpersonationPolicyEntry : Type := mkImpersonationEntry {
  imp_targets : ImpersonationSelector;
  imp_subjects : ImpersonationSelector
}.

Definition ImpersonationPolicy : Type := gmap string ImpersonationPolicyEntry.

(** [policy.clients.get(client_id)]. *)
Definition impersonation_policy_get (client_id : string) (p : ImpersonationPolicy)
    : option ImpersonationPolicyEntry := p !! client_id.

(** [ImpersonationSelector::allows]. *)
Definition selector_allows (s : ImpersonationSelector) (value : string) : bool :=
  match s with
  | Any => true
  | Values values => bool_decide (value ∈ values)
  end.

(** [ConfigSource]. *)
Definition ConfigSource : Type := gmap string string.
Definition source_get (source : ConfigSource) (key : string) : option string := source !! key.

Record RuntimeConfig : Type := mkConfig {
  idp_issuer : string;
  expected_subject_aud : gset string;
  our_issuer : string;
  our_kid : string;
  sts_secrets_dir : string;
  obo_sts_key_file : string;
  idp_jwks_file : option string;
  idp_jwks_uri : option string;
  actor_jwks_file : string;
  client_jwks_file : string;
  obo_sts_extra_jwks_file : option string;
  actor_ids : gset string;
  actor_id : string;
  client_ids : gset string;
  token_exchange_mode : TokenExchangeMode;
  client_auth_policy : ClientAuthPolicy;
  impersonation_policy : ImpersonationPolicy;
  target_policy : TargetPolicy;
  sts_signing_alg : string;
  pqc_preferred : bool;
  allow_non_pqc : bool;
  pqc_preferred_algs : list string;
  inbound_pqc_preferred : bool;
  allow_non_pqc_inbound : bool;
  inbound_assertion_algs : list string;
  sts_signing_provider : string;
  sts_signing_public_jwks_file : option string;
  mock_external_signer_key_file : option string;
  cfg_clock_skew_leeway : Z;
  scoped_token_ttl : Z;
  jwks_cache_max_age : Z;
  assertion_max_ttl : Z;
  max_seen_jti : Z;
  replay_backend : ReplayBackend;
  max_token_len : Z;
  cfg_require_subject_binding : bool;
  subject_scope_bound_required : bool;
  allow_insecure_jwks : bool;
  allow_insecure_actor_jwks : bool;
  allow_insecure_client_jwks : bool;
  allow_insecure_key_file : bool;
  allow_insecure_http_bind : bool;
  actor_jwks_sha256 : option string;
  client_jwks_sha256 : option string;
  http_addr : string;
  enable_metrics : bool;
  log_format_json : bool;
  log_level : string;
  audit_hash_chain : bool
}.

(** * Parsing *)

(** [PathBuf::join] of a relative name. *)
Definition path_join (dir name : string) : string :=
  if is_empty dir then name
  else if bool_decide (trim_end_char "/"%char dir = dir) then dir +:+ "/" +:+ name
  else dir +:+ name.

(** [source.get(key).map(str::trim).filter(|value| !value.is_empty())]. *)
Definition get_non_blank (source : ConfigSource) (key : string) : option string :=
  opt_filter (fun value => negb (is_empty value)) (option_map trim (source_get source key)).

Definition split_csv_vec (raw : string) : list string :=
  List.filter (fun value => negb (is_empty value)) (map trim (split_char ","%char raw)).

Definition split_csv_set (raw : string) : gset string := list_to_set (split_csv_vec raw).

Definition is_true_word (value : string) : bool := eq_ignore_ascii_case (trim value) "true".

Definition parse_bool (source : ConfigSource) (key : string) (dflt : bool) : bool :=
  match source_get source key with Some value => is_true_word value | None => dflt end.

Definition parse_bool_with_fallback (source : ConfigSource) (key fallback_key : string)
    (dflt : bool) : bool :=
  match opt_or (source_get source key) (source_get source fallback_key) with
  | Some value => is_true_word value
  | None => dflt
  end.

(** [minimum.is_some_and(..) || maximum.is_some_and(..)]. *)
Definition out_of_range (minimum maximum : option Z) (value : Z) : bool :=
  is_some_and (fun min => value <? min)%Z minimum || is_some_and (fun max => max <? value)%Z maximum.

Definition parse_env_int (source : ConfigSource) (key : string) (dflt : Z)
    (minimum maximum : option Z) : result ConfigError Z :=
  let raw := default "" (source_get source key) in
  let raw := if is_empty raw then to_string dflt else raw in
  let? value := ok_or (parse_i64 (trim raw))
    (mkConfigError InvalidValue (Some key) (key +:+ " must be an integer")) in
  if out_of_range minimum maximum value then config_err InvalidValue key (key +:+ " out of range")
  else Ok value.

Definition parse_env_usize (source : ConfigSource) (key : string) (dflt : Z)
    (minimum maximum : option Z) : result ConfigError Z :=
  let raw := default "" (source_get source key) in
  let raw := if is_empty raw then to_string dflt else raw in
  let? value := ok_or (parse_usize (trim raw))
    (mkConfigError InvalidValue (Some key) (key +:+ " must be a non-negative integer")) in
  if out_of_range minimum maximum value then config_err InvalidValue key (key +:+ " out of range")
  else Ok value.

Definition parse_actor_ids (source : ConfigSource) : result ConfigError (gset string) :=
  let ids := split_csv_set (default "" (source_get source "ACTOR_IDS")) in
  let ids := match get_non_blank source "GATEWAY_ACTOR_ID" with
             | Some single => {[single]} ∪ ids
             | None => ids
             end in
  if bool_decide (ids = ∅) then
    config_err MissingEnv "ACTOR_IDS"
      "set ACTOR_IDS (or GATEWAY_ACTOR_ID) to at least one actor identity"
  else Ok ids.

Definition parse_client_ids (source : ConfigSource) (actor_ids : gset string) : gset string :=
  let ids := split_csv_set (default "" (source_get source "CLIENT_IDS")) in
  if bool_decide (ids = ∅) then actor_ids else ids.

(** [raw.trim().to_ascii_lowercase()]. *)
Definition word (raw : string) : string := to_ascii_lowercase (trim raw).

Definition parse_token_exchange_mode (source : ConfigSource) : result ConfigError TokenExchangeMode :=
  let other := word (default "delegation" (source_get source "STS_TOKEN_EXCHANGE_MODE")) in
  if bool_decide (other = "delegation") then Ok Delegation
  else if bool_decide (other = "impersonation") then Ok Impersonation
  else if bool_decide (other = "both") then Ok Both
  else config_err InvalidValue "STS_TOKEN_EXCHANGE_MODE"
         ("must be delegation, impersonation, or both; got " +:+ debug_str other).

Definition parse_client_auth_policy (source : ConfigSource) : result ConfigError ClientAuthPolicy :=
  let other := word (default "auto" (source_get source "CLIENT_AUTH_POLICY")) in
  if bool_decide (other ∈ ["auto"; "actor_token_allowed"]) then Ok Auto
  else if bool_decide (other = "private_key_jwt_required") then Ok PrivateKeyJwtRequired
  else config_err InvalidValue "CLIENT_AUTH_POLICY"
         ("must be auto, actor_token_allowed, or private_key_jwt_required; got " +:+ debug_str other).

Definition parse_replay_backend (source : ConfigSource) : result ConfigError ReplayBackend :=
  let other := word (default "memory" (source_get source "STS_REPLAY_BACKEND")) in
  if bool_decide (other ∈ [""; "memory"; "in_memory"]) then Ok Memory
  else if bool_decide (other = "file") then
    let? raw_dir := ok_or (get_non_blank source "STS_REPLAY_DIR")
      (mkConfigError MissingEnv (Some "STS_REPLAY_DIR")
         "set STS_REPLAY_DIR when STS_REPLAY_BACKEND=file") in
    Ok (File raw_dir)
  else config_err InvalidValue "STS_REPLAY_BACKEND"
         ("must be memory or file; got " +:+ debug_str other).

Definition parse_log_level (source : ConfigSource) : string :=
  trim (default "info" (source_get source "LOG_LEVEL")).

Definition parse_allow_non_pqc (source : ConfigSource) : bool :=
  let pqc_preferred := parse_bool source "STS_PQC_PREFERRED" DEFAULT_PQC_PREFERRED in
  parse_bool source "STS_ALLOW_NON_PQC" (negb pqc_preferred).

Definition parse_pqc_preferred_algs (source : ConfigSource) : result ConfigError (list string) :=
  let algs := split_csv_vec (default DEFAULT_PQC_PREFERRED_ALGS (source_get source "STS_PQC_PREFERRED_ALGS")) in
  if bool_decide (algs = []) then
    config_err InvalidValue "STS_PQC_PREFERRED_ALGS"
      "STS_PQC_PREFERRED_ALGS must contain at least one algorithm"
  else Ok algs.

Definition parse_allow_non_pqc_inbound (source : ConfigSource) (inbound_pqc_preferred : bool) : bool :=
  parse_bool source "STS_ALLOW_NON_PQC_INBOUND" (negb inbound_pqc_preferred).

Definition is_pqc_inbound_assertion_alg (alg : string) : bool :=
  bool_decide (alg ∈ ["ML-DSA-44"; "ML-DSA-65"; "ML-DSA-87"]).

Definition is_supported_inbound_assertion_alg (alg : string) : bool :=
  bool_decide (alg = "RS256") || is_pqc_inbound_assertion_alg alg.

(** [dedup_preserving_order]; [seen] are the values kept so far. *)
Fixpoint dedup_from (seen : gset string) (values : list string) : list string :=
  match values with
  | [] => []
  | value :: rest =>
      if bool_decide (value ∈ seen) then dedup_from seen rest
      else value :: dedup_from ({[value]} ∪ seen) rest
  end.
Definition dedup_preserving_order (values : list string) : list string := dedup_from ∅ values.

Definition parse_inbound_assertion_algs (source : ConfigSource)
    (inbound_pqc_preferred allow_non_pqc_inbound : bool) : result ConfigError (list string) :=
  let key := "STS_INBOUND_ASSERTION_ALGS" in
  let algs :=
    match get_non_blank source key with
    | Some raw => split_csv_vec raw
    | None =>
        (if inbound_pqc_preferred then [DEFAULT_INBOUND_ASSERTION_ALG] else [])
        ++ (if allow_non_pqc_inbound then ["RS256"] else [])
    end in
  let algs := dedup_preserving_order algs in
  if bool_decide (algs = []) then
    config_err InvalidValue key "STS_INBOUND_ASSERTION_ALGS must contain at least one algorithm"
  else
  let? _ := try_map (fun alg =>
      if is_supported_inbound_assertion_alg alg then Ok tt
      else config_err InvalidValue key ("unsupported inbound assertion signing algorithm " +:+ alg))
    algs in
  if (existsb (fun alg => bool_decide (alg = "RS256")) algs && negb allow_non_pqc_inbound)%bool then
    config_err InvalidValue key "RS256 inbound assertions require STS_ALLOW_NON_PQC_INBOUND=true"
  else if (negb allow_non_pqc_inbound && negb (existsb is_pqc_inbound_assertion_alg algs))%bool then
    config_err InvalidValue key
      "non-PQC inbound assertions are disabled, but no PQC assertion algorithm is configured"
  else Ok algs.

(** * Policies *)

(** The loop of [parse_scopes]. *)
Definition parse_scopes (aud key : string) (value : option Value) : result ConfigError (gset string) :=
  match value with
  | None => Ok ∅
  | Some value =>
      let? arr := ok_or (as_array value)
        (mkConfigError InvalidPolicy (Some aud) (key +:+ " must be a JSON array of strings")) in
      try_fold (fun scopes scope =>
          let? scope := ok_or (as_str scope)
            (mkConfigError InvalidPolicy (Some aud) (key +:+ " must contain only strings")) in
          Ok ({[scope]} ∪ scopes)) ∅ arr
  end.

Definition parse_string_set (aud key : string) (value : option Value)
    : result ConfigError (gset string) :=
  match value with
  | None => Ok ∅
  | Some value =>
      let? arr := ok_or (as_array value)
        (mkConfigError InvalidPolicy (Some aud) (key +:+ " must be a JSON array of strings")) in
      try_fold (fun values item =>
          let? item := ok_or (as_str item)
            (mkConfigError InvalidPolicy (Some aud) (key +:+ " must contain only strings")) in
          let item := trim item in
          if is_empty item then
            config_err InvalidPolicy aud (key +:+ " must not contain empty strings")
          else Ok ({[item]} ∪ values)) ∅ arr
  end.

Definition parse_policy_bool (aud key : string) (value : option Value) : result ConfigError bool :=
  match value with
  | None => Ok false
  | Some value =>
      ok_or (as_bool value) (mkConfigError InvalidPolicy (Some aud) (key +:+ " must be a boolean"))
  end.

(** The body of the loop of [normalize_target_policy]. *)
Definition target_policy_row (aud : string) (policy : Value) : result ConfigError TargetPolicyEntry :=
  let? entry := ok_or (as_object policy)
    (mkConfigError InvalidPolicy (Some aud) "target policy entry must be an object") in
  let? allowed := parse_scopes aud "allowed_scopes"
    (opt_or (map_get "allowed_scopes" entry) (map_get "scopes" entry)) in
  let? defaults := parse_scopes aud "default_scopes" (map_get "default_scopes" entry) in
  let? algs := parse_string_set aud "accepted_token_signing_algs"
    (map_get "accepted_token_signing_algs" entry) in
  let? pqc := parse_policy_bool aud "pqc_required" (map_get "pqc_required" entry) in
  Ok (mkTargetEntry allowed defaults algs pqc).

Definition normalize_target_policy (data : Value) : result ConfigError TargetPolicy :=
  let? map := ok_or (as_object data)
    (mkConfigError InvalidPolicy (Some "TARGET_POLICY_JSON") "target policy must be a JSON object") in
  try_fold (fun targets '(aud, policy) =>
      if starts_with "_" aud then Ok targets
      else
      let? entry := target_policy_row aud policy in
      Ok (<[aud := entry]> targets)) ∅ map.

Definition parse_impersonation_selector (client_id field : string) (value : option Value)
    : result ConfigError ImpersonationSelector :=
  match value with
  | None => Ok (Values ∅)
  | Some value =>
      if bool_decide (as_str value = Some "*") then Ok Any
      else
      let? values := ok_or (as_array value)
        (mkConfigError InvalidPolicy (Some client_id)
           ("impersonation policy " +:+ field +:+ " must be a JSON array of strings or "
            +:+ dquote +:+ "*" +:+ dquote)) in
      let? parsed := try_fold (fun parsed item =>
          let? item := ok_or (as_str item)
            (mkConfigError InvalidPolicy (Some client_id)
               ("impersonation policy " +:+ field +:+ " must contain only strings")) in
          Ok ({[item]} ∪ parsed)) ∅ values in
      Ok (Values parsed)
  end.

Definition normalize_impersonation_policy (data : Value) : result ConfigError ImpersonationPolicy :=
  let? map := ok_or (as_object data)
    (mkConfigError InvalidPolicy (Some "IMPERSONATION_POLICY_JSON")
       "impersonation policy must be a JSON object") in
  try_fold (fun clients '(client_id, policy) =>
      let? entry := ok_or (as_object policy)
        (mkConfigError InvalidPolicy (Some client_id) "impersonation policy entry must be an object") in
      let? targets := parse_impersonation_selector client_id "targets" (map_get "targets" entry) in
      let? subjects := parse_impersonation_selector client_id "subjects" (map_get "subjects" entry) in
      Ok (<[client_id := mkImpersonationEntry targets subjects]> clients)) ∅ map.

Section Loading.
Context `{UrlLib} `{JsonText} `{FileReader}.

Definition validate_issuer (value key : string) : result ConfigError string :=
  let trimmed := trim value in
  if is_empty trimmed then config_err InvalidValue key "issuer must not be empty"
  else if any_whitespace trimmed then config_err InvalidValue key "issuer must not contain whitespace"
  else
  let? parsed := map_err (fun err => mkConfigError InvalidValue (Some key)
                                       ("issuer must be an absolute URL: " +:+ err))
                   (url_parse trimmed) in
  if opt_is_none (url_host_str parsed) then config_err InvalidValue key "issuer must include a host"
  else if (opt_is_some (url_query parsed) || opt_is_some (url_fragment parsed))%bool then
    config_err InvalidValue key "issuer must not contain a query or fragment component"
  else if (negb (bool_decide (url_scheme parsed = "https"))
           && negb (bool_decide (url_scheme parsed = "http") && host_is_loopback (url_host parsed)))%bool then
    config_err InvalidValue key
      "issuer must use https, except http is allowed for loopback local development"
  else Ok (trim_end_char "/"%char trimmed).

Definition require_issuer (source : ConfigSource) : result ConfigError string :=
  match source_get source "IDP_ISSUER", source_get source "OKTA_ISSUER" with
  | Some value, _ => validate_issuer value "IDP_ISSUER"
  | None, Some value => validate_issuer value "OKTA_ISSUER"
  | None, None =>
      config_err MissingEnv "IDP_ISSUER"
        "set IDP_ISSUER (or OKTA_ISSUER) to the OIDC issuer that signs subject tokens"
  end.

Definition require_expected_aud (source : ConfigSource) : result ConfigError (gset string) :=
  let? raw := ok_or (source_get source "EXPECTED_SUBJECT_AUD")
    (mkConfigError MissingEnv (Some "EXPECTED_SUBJECT_AUD")
       "set EXPECTED_SUBJECT_AUD to the subject-token audience") in
  let values := split_csv_set raw in
  if bool_decide (values = ∅) then
    config_err InvalidValue "EXPECTED_SUBJECT_AUD" "EXPECTED_SUBJECT_AUD contains no non-empty entries"
  else Ok values.

Definition parse_impersonation_policy (source : ConfigSource) : result ConfigError ImpersonationPolicy :=
  match get_non_blank source "IMPERSONATION_POLICY_JSON" with
  | None => Ok ∅
  | Some raw =>
      let? parsed := map_err (fun err => mkConfigError InvalidJson (Some "IMPERSONATION_POLICY_JSON")
                                ("impersonation policy JSON could not be parsed: " +:+ err))
                       (json_from_str raw) in
      normalize_impersonation_policy parsed
  end.

Definition load_target_policy_from_source (source : ConfigSource) : result ConfigError TargetPolicy :=
  let raw := opt_or (source_get source "TARGET_POLICY_JSON")
               (source_get source "TARGET_POLICY_FILE" ≫= read_to_string) in
  match raw with
  | None => Ok ∅
  | Some raw =>
      let? parsed := map_err (fun err => mkConfigError InvalidJson (Some "TARGET_POLICY_JSON")
                                ("target policy JSON could not be parsed: " +:+ err))
                       (json_from_str raw) in
      normalize_target_policy parsed
  end.

(** [RuntimeConfig::from_source]. *)
Definition from_source (source : ConfigSource) : result ConfigError RuntimeConfig :=
  let? issuer := require_issuer source in
  let? expected_aud := require_expected_aud source in
  let secrets_dir := default DEFAULT_SECRETS_DIR (source_get source "STS_SECRETS_DIR") in
  let actor_jwks := default (path_join secrets_dir "actor_jwks.json")
                      (source_get source "ACTOR_JWKS_FILE") in
  let key_file := default (path_join secrets_dir "obo_sts_private_key.json")
                    (source_get source "OBO_STS_KEY_FILE") in
  let jwks_uri := opt_filter (fun value => negb (is_empty value))
                    (option_map trim (opt_or (source_get source "IDP_JWKS_URI")
                                             (source_get source "OKTA_JWKS_URL"))) in
  let client_jwks := default actor_jwks (source_get source "CLIENT_JWKS_FILE") in
  let? ids := parse_actor_ids source in
  let actor := default (default "" (head (btree_iter ids))) (get_non_blank source "GATEWAY_ACTOR_ID") in
  if is_empty actor then config_err MissingEnv "ACTOR_IDS" "no actor identities configured"
  else
  let clients := parse_client_ids source ids in
  let inbound_pqc := parse_bool source "STS_INBOUND_PQC_PREFERRED" DEFAULT_INBOUND_PQC_PREFERRED in
  let non_pqc_inbound := parse_allow_non_pqc_inbound source inbound_pqc in
  let? inbound_algs := parse_inbound_assertion_algs source inbound_pqc non_pqc_inbound in
  let? ours := validate_issuer (default DEFAULT_ISSUER (source_get source "OBO_STS_ISSUER")) "OBO_STS_ISSUER" in
  let? mode := parse_token_exchange_mode source in
  let? auth := parse_client_auth_policy source in
  let? impersonation := parse_impersonation_policy source in
  let? targets := load_target_policy_from_source source in
  let? preferred := parse_pqc_preferred_algs source in
  let? leeway := parse_env_int source "CLOCK_SKEW_LEEWAY" DEFAULT_CLOCK_SKEW_LEEWAY (Some 0%Z) None in
  let? ttl := parse_env_int source "SCOPED_TOKEN_TTL" DEFAULT_SCOPED_TOKEN_TTL (Some 1%Z) (Some 3600%Z) in
  let? max_age := parse_env_int source "JWKS_CACHE_MAX_AGE" DEFAULT_JWKS_CACHE_MAX_AGE (Some 0%Z) None in
  let? assertion_ttl := parse_env_int source "ASSERTION_MAX_TTL" DEFAULT_ASSERTION_MAX_TTL (Some 1%Z) None in
  let? max_seen := parse_env_usize source "MAX_SEEN_JTI" DEFAULT_MAX_SEEN_JTI (Some 1%Z) None in
  let? backend := parse_replay_backend source in
  let? token_len := parse_env_usize source "MAX_TOKEN_LEN" DEFAULT_MAX_TOKEN_LEN (Some 1%Z) None in
  Ok {|
    idp_issuer := issuer;
    expected_subject_aud := expected_aud;
    our_issuer := ours;
    our_kid := default DEFAULT_KID (get_non_blank source "STS_SIGNING_KID");
    sts_secrets_dir := secrets_dir;
    obo_sts_key_file := key_file;
    idp_jwks_file := get_non_blank source "IDP_JWKS_FILE";
    idp_jwks_uri := jwks_uri;
    actor_jwks_file := actor_jwks;
    client_jwks_file := client_jwks;
    obo_sts_extra_jwks_file := get_non_blank source "OBO_STS_EXTRA_JWKS_FILE";
    actor_ids := ids;
    actor_id := actor;
    client_ids := clients;
    token_exchange_mode := mode;
    client_auth_policy := auth;
    impersonation_policy := impersonation;
    target_policy := targets;
    sts_signing_alg := default DEFAULT_STS_SIGNING_ALG (get_non_blank source "STS_SIGNING_ALG");
    pqc_preferred := parse_bool source "STS_PQC_PREFERRED" DEFAULT_PQC_PREFERRED;
    allow_non_pqc := parse_allow_non_pqc source;
    pqc_preferred_algs := preferred;
    inbound_pqc_preferred := inbound_pqc;
    allow_non_pqc_inbound := non_pqc_inbound;
    inbound_assertion_algs := inbound_algs;
    sts_signing_provider := word (default "file" (source_get source "STS_SIGNING_PROVIDER"));
    sts_signing_public_jwks_file := get_non_blank source "STS_SIGNING_PUBLIC_JWKS_FILE";
    mock_external_signer_key_file := get_non_blank source "STS_MOCK_EXTERNAL_SIGNER_KEY_FILE";
    cfg_clock_skew_leeway := leeway;
    scoped_token_ttl := ttl;
    jwks_cache_max_age := max_age;
    assertion_max_ttl := assertion_ttl;
    max_seen_jti := max_seen;
    replay_backend := backend;
    max_token_len := token_len;
    cfg_require_subject_binding := parse_bool source "REQUIRE_SUBJECT_BINDING" true;
    subject_scope_bound_required := parse_bool source "SUBJECT_SCOPE_BOUND_REQUIRED" false;
    allow_insecure_jwks := parse_bool source "ALLOW_INSECURE_JWKS" false;
    allow_insecure_actor_jwks := parse_bool source "ALLOW_INSECURE_ACTOR_JWKS" false;
    allow_insecure_client_jwks :=
      parse_bool_with_fallback source "ALLOW_INSECURE_CLIENT_JWKS" "ALLOW_INSECURE_ACTOR_JWKS" false;
    allow_insecure_key_file := parse_bool source "ALLOW_INSECURE_KEY_FILE" false;
    allow_insecure_http_bind := parse_bool source "ALLOW_INSECURE_HTTP_BIND" false;
    actor_jwks_sha256 := get_non_blank source "ACTOR_JWKS_SHA256";
    client_jwks_sha256 := opt_or (get_non_blank source "CLIENT_JWKS_SHA256")
                            (get_non_blank source "ACTOR_JWKS_SHA256");
    http_addr := trim (default DEFAULT_HTTP_ADDR (source_get source "STS_HTTP_ADDR"));
    enable_metrics := parse_bool source "STS_ENABLE_METRICS" false;
    log_format_json :=
      parse_bool source "LOG_FORMAT_JSON" false
      || is_some_and (fun v => eq_ignore_ascii_case (trim v) "json") (source_get source "LOG_FORMAT");
    log_level := parse_log_level source;
    audit_hash_chain := parse_bool source "STS_AUDIT_HASH_CHAIN" false
  |}.

End Loading.

(** * Lemmas *)

Lemma try_fold_rows {E X} (g : gmap string X -> string * Value -> result E (gmap string X))
    (row : string -> Value -> option X -> Prop) (m : Map) (acc p : gmap string X) :
  (forall acc k v acc', g acc (k, v) = Ok acc' -> exists o, row k v o /\
     acc' = match o with Some x => <[k := x]> acc | None => acc end) ->
  NoDup m.*1 -> try_fold g acc m = Ok p ->
  (forall k, k ∉ m.*1 -> p !! k = acc !! k) /\
  (forall k v, (k, v) ∈ m -> exists o, row k v o /\
     p !! k = match o with Some x => Some x | None => acc !! k end).
Proof.
  intros Hg. revert acc. induction m as [|[k v] m IH]; intros acc Hnd Hf; simpl in *.
  - simplify_eq. split; [done|]. intros k v Hkv. by apply not_elem_of_nil in Hkv.
  - apply NoDup_cons in Hnd as [Hk Hnd]. ok_inv.
    apply Hg in E0 as (o & Hrow & ->). destruct (IH _ Hnd Hf) as [I1 I2]. split.
    + intros k' Hk'. rewrite not_elem_of_cons in Hk'. destruct Hk' as [Hne Hk'].
      rewrite (I1 k') by done. destruct o; [by rewrite lookup_insert_ne|done].
    + intros k' v' [Heq|Hin]%elem_of_cons.
      * simplify_eq. exists o. split; [done|]. rewrite (I1 k) by done.
        destruct o; [by rewrite lookup_insert_eq|done].
      * destruct (I2 k' v' Hin) as (o' & Hr & Hp). exists o'. split; [done|]. rewrite Hp.
        assert (k' <> k). { intros ->. apply Hk. by eapply (list_elem_of_fmap_2' fst _ (k, v')). }
        destruct o', o; rewrite ?lookup_insert_ne by done; done.
Qed.

Lemma map_get_NoDup k v (m : Map) : NoDup m.*1 -> (k, v) ∈ m -> map_get k m = Some v.
Proof.
  induction m as [|[k' v'] m IH]; simpl; intros Hnd Hin; [by apply not_elem_of_nil in Hin|].
  apply NoDup_cons in Hnd as [Hk Hnd]. apply elem_of_cons in Hin as [|Hin]; simplify_eq.
  - by rewrite bool_decide_eq_true_2.
  - rewrite bool_decide_eq_false_2; [by apply IH|]. intros ->. apply Hk.
    by eapply (list_elem_of_fmap_2' fst _ (k', v)).
Qed.

Lemma map_get_None_keys k (m : Map) : map_get k m = None -> k ∉ m.*1.
Proof.
  induction m as [|[k' v'] m IH]; simpl; [intros _ Hx; by apply not_elem_of_nil in Hx|].
  case_bool_decide; [done|]. intros H0 [|]%elem_of_cons; [done|]. by apply IH.
Qed.

(** The set a loop over strings collects. *)
Lemma try_fold_strings {E} (e : E) (arr : list Value) (acc s : gset string) :
  try_fold (fun acc item => let? item := ok_or (as_str item) e in Ok ({[item]} ∪ acc)) acc arr = Ok s ->
  forall x, x ∈ s <-> x ∈ acc \/ VString x ∈ arr.
Proof.
  revert acc. induction arr as [|v arr IH]; intros acc Hf x; simpl in Hf.
  - simplify_eq. split; [auto|]. intros [|H0]; [done|by apply not_elem_of_nil in H0].
  - ok_inv. destruct v; simplify_eq/=. rewrite (IH _ Hf x). rewrite elem_of_cons. set_solver.
Qed.

Lemma parse_env_int_ok source key dflt lo hi z :
  parse_env_int source key dflt lo hi = Ok z ->
  in_i64 z /\ (forall a, lo = Some a -> (a <= z)%Z) /\ (forall b, hi = Some b -> (z <= b)%Z).
Proof.
  unfold parse_env_int, out_of_range, config_err. intros Hp. ok_inv. bool_hyps.
  split; [by eapply parse_i64_range|]. split; intros ? ->; simpl in *; bool_hyps; done.
Qed.

Lemma parse_env_usize_ok source key dflt lo hi z :
  parse_env_usize source key dflt lo hi = Ok z ->
  (forall a, lo = Some a -> (a <= z)%Z) /\ (forall b, hi = Some b -> (z <= b)%Z).
Proof.
  unfold parse_env_usize, out_of_range, config_err. intros Hp. ok_inv. bool_hyps.
  split; intros ? ->; simpl in *; bool_hyps; done.
Qed.

Lemma elem_of_dedup_from x seen l : x ∈ dedup_from seen l <-> x ∈ l /\ x ∉ seen.
Proof.
  revert seen. induction l as [|a l IH]; intros seen; simpl; [set_solver|].
  case_bool_decide; rewrite ?elem_of_cons, IH; [set_solver|].
  rewrite elem_of_union, elem_of_singleton. destruct (decide (x = a)); set_solver.
Qed.

Lemma dedup_NoDup seen l : NoDup (dedup_from seen l).
Proof.
  revert seen. induction l as [|a l IH]; intros seen; simpl; [constructor|].
  case_bool_decide; [apply IH|]. constructor; [|apply IH]. rewrite elem_of_dedup_from. set_solver.
Qed.

Lemma inbound_algs_ok source pref allow algs :
  parse_inbound_assertion_algs source pref allow = Ok algs ->
  algs <> [] /\ NoDup algs /\ Forall (fun a => a ∈ ["RS256"; "ML-DSA-44"; "ML-DSA-65"; "ML-DSA-87"]) algs /\
  (allow = false -> "RS256" ∉ algs).
Proof.
  unfold parse_inbound_assertion_algs, config_err. intros Hp. ok_inv. bool_hyps.
  split_and!; [done|apply dedup_NoDup| |].
  - match goal with Ht : try_map _ _ = Ok _ |- _ => apply try_map_ok in Ht; rename Ht into Hs end.
    eapply Forall2_Forall_l; [exact Hs|]. apply Forall_true. simpl. intros u b Hb. ok_inv.
    unfold is_supported_inbound_assertion_alg, is_pqc_inbound_assertion_alg in *.
    match goal with Hx : (_ || _)%bool = true |- _ => apply orb_true_iff in Hx as [?|?] end;
      bool_hyps; subst; set_solver.
  - intros ->. match goal with Hx : (_ && negb false)%bool = false |- _ => rewrite andb_true_r in Hx;
      rewrite existsb_false_elem in Hx; intros Hin; specialize (Hx _ Hin) end.
    by bool_hyps.
Qed.

Lemma parse_actor_ids_ok source ids :
  parse_actor_ids source = Ok ids ->
  ids <> ∅ /\ forall a, get_non_blank source "GATEWAY_ACTOR_ID" = Some a -> a ∈ ids.
Proof.
  unfold parse_actor_ids, config_err. intros Hp. ok_inv. bool_hyps. split; [done|].
  intros a Ha. rewrite Ha. set_solver.
Qed.

Lemma split_csv_not_blank raw x : x ∈ split_csv_set raw -> trim x <> "".
Proof.
  unfold split_csv_set, split_csv_vec. rewrite elem_of_list_to_set. intros Hx%list_elem_of_In.
  apply filter_In in Hx as [Hm Hn]. apply in_map_iff in Hm as (y & <- & _).
  rewrite trim_idem. by apply negb_true_iff, is_empty_false in Hn.
Qed.

Lemma actor_ids_not_blank source ids x : parse_actor_ids source = Ok ids -> x ∈ ids -> trim x <> "".
Proof.
  unfold parse_actor_ids, config_err, get_non_blank. intros Hp. ok_inv. bool_hyps.
  destruct (source_get source "GATEWAY_ACTOR_ID") as [y|]; cbn [option_map opt_filter]; [|apply split_csv_not_blank].
  destruct (is_empty (trim y)) eqn:Hy; cbn [negb]; [apply split_csv_not_blank|].
  intros [->%elem_of_singleton|Hx]%elem_of_union; [|by eapply split_csv_not_blank].
  rewrite trim_idem. by apply is_empty_false in Hy.
Qed.

Lemma client_ids_not_blank source ids x :
  (forall y, y ∈ ids -> trim y <> "") -> x ∈ parse_client_ids source ids -> trim x <> "".
Proof. unfold parse_client_ids. intros Hi. case_bool_decide; [apply Hi|apply split_csv_not_blank]. Qed.

Lemma head_btree_iter (ids : gset string) : ids <> ∅ -> default "" (head (btree_iter ids)) ∈ ids.
Proof.
  intros Hne. destruct (btree_iter ids) as [|a l] eqn:Hb.
  - exfalso. apply Hne, set_eq. intros x. rewrite <- elem_of_btree_iter, Hb. set_solver.
  - simpl. apply elem_of_btree_iter. rewrite Hb. left.
Qed.

(** One turn of the loop of [normalize_target_policy]. *)
Lemma target_row_step (acc : TargetPolicy) k v acc' :
  (if starts_with "_" k then Ok acc
   else let? entry := target_policy_row k v in Ok (<[k := entry]> acc)) = Ok acc' ->
  exists o, match o with
            | Some x => starts_with "_" k = false /\ target_policy_row k v = Ok x
            | None => starts_with "_" k = true
            end /\ acc' = match o with Some x => <[k := x]> acc | None => acc end.
Proof.
  destruct (starts_with "_" k); intros Hg; ok_inv; [by exists None|]. by eexists (Some _).
Qed.

(** One turn of the loop of [normalize_impersonation_policy]. *)
Definition impersonation_row (k : string) (v : Value) (o : option ImpersonationPolicyEntry) : Prop :=
  exists entry e, v = VObject entry /\ o = Some e /\
    parse_impersonation_selector k "targets" (map_get "targets" entry) = Ok (imp_targets e) /\
    parse_impersonation_selector k "subjects" (map_get "subjects" entry) = Ok (imp_subjects e).

Lemma impersonation_row_step (acc : ImpersonationPolicy) k v acc' :
  (let? entry := ok_or (as_object v)
     (mkConfigError InvalidPolicy (Some k) "impersonation policy entry must be an object") in
   let? targets := parse_impersonation_selector k "targets" (map_get "targets" entry) in
   let? subjects := parse_impersonation_selector k "subjects" (map_get "subjects" entry) in
   Ok (<[k := mkImpersonationEntry targets subjects]> acc)) = Ok acc' ->
  exists o, impersonation_row k v o /\ acc' = match o with Some x => <[k := x]> acc | None => acc end.
Proof.
  intros Hg. ok_inv. destruct v; simplify_eq/=. eexists (Some _). split; [|reflexivity].
  do 2 eexists. split_and!; [reflexivity|reflexivity|done|done].
Qed.

(** * Properties *)

(** What a loaded configuration promises to the server. *)
Record config_ok (c : RuntimeConfig) : Prop := {
  ok_ttl : (1 <= scoped_token_ttl c <= 3600)%Z;
  ok_leeway : in_i64 (cfg_clock_skew_leeway c) /\ (0 <= cfg_clock_skew_leeway c)%Z;
  ok_assertion_ttl : in_i64 (assertion_max_ttl c) /\ (1 <= assertion_max_ttl c)%Z;
  ok_limits : (1 <= max_seen_jti c)%Z /\ (1 <= max_token_len c)%Z;
  ok_actor : actor_id c ∈ actor_ids c;
  ok_clients : client_ids c <> ∅;
  ok_ids : forall id, id ∈ actor_ids c ∪ client_ids c -> trim id <> "";
  ok_audience : expected_subject_aud c <> ∅;
  ok_inbound : inbound_assertion_algs c <> [] /\ NoDup (inbound_assertion_algs c) /\
    Forall (fun a => a ∈ ["RS256"; "ML-DSA-44"; "ML-DSA-65"; "ML-DSA-87"]) (inbound_assertion_algs c);
  ok_no_downgrade : allow_non_pqc_inbound c = false -> "RS256" ∉ inbound_assertion_algs c
}.

(** C36: a configuration that loads has a token lifetime of at most an hour,
    non-negative clock skew, positive limits, an actor identity that is one of
    the configured actors, at least one client and one subject audience, no
    blank identity, and an inbound algorithm list without duplicates or unsupported entries that
    holds RS256 only when non-PQC assertions are allowed. *)
Theorem config_guarantees `{UrlLib} `{JsonText} `{FileReader} (source : ConfigSource) (c : RuntimeConfig) :
  from_source source = Ok c -> config_ok c.
Proof.
  unfold from_source, config_err. intros Hf. ok_inv.
  repeat match goal with
  | Hk : parse_env_int _ _ _ _ _ = Ok _ |- _ => apply parse_env_int_ok in Hk as (? & ? & ?)
  | Hk : parse_env_usize _ _ _ _ _ = Ok _ |- _ => apply parse_env_usize_ok in Hk as (? & ?)
  | Hk : parse_inbound_assertion_algs _ _ _ = Ok _ |- _ => apply inbound_algs_ok in Hk as (? & ? & ? & ?)
  | Hk : parse_actor_ids _ = Ok _ |- _ => pose proof (fun x => actor_ids_not_blank _ _ x Hk) as Hids;
      apply parse_actor_ids_ok in Hk as (Hne & Hin)
  | Hk : require_expected_aud _ = Ok _ |- _ => unfold require_expected_aud, config_err in Hk; ok_inv; bool_hyps
  end.
  constructor; simpl; auto.
  - destruct (get_non_blank source "GATEWAY_ACTOR_ID"); simpl; [by apply Hin|by apply head_btree_iter].
  - unfold parse_client_ids. case_bool_decide; done.
  - intros id [Hx|Hx]%elem_of_union; [by apply Hids|by eapply client_ids_not_blank].
Qed.

(** the loaded target policy is deny by default and reads the data as it is
    written: it has an entry for an audience exactly when the JSON object has a
    member of that name that does not start with an underscore and whose row
    is well formed, and the entry is that row's. *)
Theorem target_policy_spec (members : Map) (p : TargetPolicy) (aud : string) (e : TargetPolicyEntry) :
  NoDup members.*1 -> normalize_target_policy (VObject members) = Ok p ->
  target_policy_get aud p = Some e <->
  exists row, map_get aud members = Some row /\ starts_with "_" aud = false /\
    target_policy_row aud row = Ok e.
Proof.
  unfold normalize_target_policy. simpl. intros Hnd Hf.
  destruct (try_fold_rows _ (fun k v o => match o with
      | Some x => starts_with "_" k = false /\ target_policy_row k v = Ok x
      | None => starts_with "_" k = true end) _ _ _ target_row_step Hnd Hf) as [Hout Hin].
  destruct (map_get aud members) as [row|] eqn:Hg.
  - destruct (Hin aud row (map_get_elem _ _ _ Hg)) as (o & Hrow & Hp).
    change (target_policy_get aud p = match o with Some x => Some x | None => None end) in Hp.
    rewrite Hp. destruct o as [x|]; split; try done.
    + intros [= ->]. by exists row.
    + intros (r & [= <-] & _ & Hr). destruct Hrow. congruence.
    + intros (r & _ & Hs & _). congruence.
  - assert (Hp : target_policy_get aud p = None) by by apply Hout, map_get_None_keys.
    rewrite Hp. split; [done|]. by intros (r & ? & _).
Qed.

(** an impersonation policy allows a client a target (or subject) exactly
    when the JSON gives that client the value "*" or a list holding that
    string; absent clients and absent members allow nothing. *)
Theorem impersonation_policy_spec (members : Map) (p : ImpersonationPolicy) (client value : string) :
  NoDup members.*1 -> normalize_impersonation_policy (VObject members) = Ok p ->
  let lists field := exists entry v, map_get client members = Some (VObject entry) /\
    map_get field entry = Some v /\ (v = VString "*" \/ exists l, v = VArray l /\ VString value ∈ l) in
  (is_some_and (fun e => selector_allows (imp_targets e) value) (impersonation_policy_get client p) = true <-> lists "targets") /\
  (is_some_and (fun e => selector_allows (imp_subjects e) value) (impersonation_policy_get client p) = true <-> lists "subjects").
Proof.
  assert (Hsel : forall field o s, parse_impersonation_selector client field o = Ok s ->
    selector_allows s value = true <->
    exists v, o = Some v /\ (v = VString "*" \/ exists l, v = VArray l /\ VString value ∈ l)).
  { unfold parse_impersonation_selector. intros field [v|] s Hs; [|simplify_eq/=; rewrite bool_decide_eq_true;
      set_solver].
    case_bool_decide as Hv.
    - destruct v; simplify_eq/=. split; [eauto|done].
    - ok_inv. destruct v as [| | | |l|]; simplify_eq/=.
      rewrite bool_decide_eq_true. erewrite try_fold_strings by done. split.
      + intros [Hx|Hx]; [set_solver|]. eauto 10.
      + intros (v & [= <-] & [|(l' & [= <-] & Hl)]); [done|auto]. }
  unfold normalize_impersonation_policy. simpl. intros Hnd Hf.
  destruct (try_fold_rows _ impersonation_row _ _ _ impersonation_row_step Hnd Hf) as [Hout Hin].
  destruct (map_get client members) as [row|] eqn:Hg.
  - destruct (Hin client row (map_get_elem _ _ _ Hg)) as (o & (entry & e & -> & -> & Ht & Hs) & Hp).
    change (impersonation_policy_get client p = Some e) in Hp. rewrite Hp. simpl.
    rewrite (Hsel _ _ _ Ht), (Hsel _ _ _ Hs).
    split; split; [intros (v & ? & ?); by exists entry, v|intros (entry' & v & [= <-] & ? & ?); by exists v|
                   intros (v & ? & ?); by exists entry, v|intros (entry' & v & [= <-] & ? & ?); by exists v].
  - assert (Hp : impersonation_policy_get client p = None) by by apply Hout, map_get_None_keys.
    rewrite Hp. simpl. split; (split; [done|]); by intros (entry & v & ? & _).
Qed.

(** An environment that loads. *)
Module ConfigToy.
#[local] Instance url : UrlLib := ToyUrl.lib.
#[local] Instance text : JsonText := fun _ => Ok (VObject []).
#[local] Instance reader : FileReader := fun _ => None.

Definition env : ConfigSource :=
  {["IDP_ISSUER" := "https://idp.example/"; "EXPECTED_SUBJECT_AUD" := "api";
    "ACTOR_IDS" := "agent-b, agent-a"; "OBO_STS_ISSUER" := "https://sts.example/"]}.

Definition loaded : result ConfigError RuntimeConfig := from_source env.

Lemma loaded_actor : option_map actor_id (res_ok loaded) = Some "agent-a".
Proof. vm_compute. reflexivity. Qed.

Lemma config_guarantees_witness :
  exists c, loaded = Ok c /\ actor_id c = "agent-a" /\ config_ok c.
Proof.
  pose proof loaded_actor as Ha. destruct loaded as [c|e] eqn:Hl; [|discriminate Ha].
  exists c. split; [reflexivity|]. split; [by injection Ha|exact (config_guarantees env c Hl)].
Defined.

Definition row : Value := VObject [("pqc_required", VBool true); ("scopes", VArray [VString "read"])].
Definition policy_members : Map := [("_comment", VString "x"); ("https://api.example", row)].

Lemma policy_loads : is_ok (normalize_target_policy (VObject policy_members)) = true.
Proof. vm_compute. reflexivity. Qed.

Lemma target_policy_spec_witness :
  match normalize_target_policy (VObject policy_members) with
  | Ok p => forall e, target_policy_get "https://other.example" p = Some e <->
      exists r, map_get "https://other.example" policy_members = Some r /\
        starts_with "_" "https://other.example" = false /\
        target_policy_row "https://other.example" r = Ok e
  | Err _ => False
  end.
Proof.
  pose proof policy_loads as Hok.
  destruct (normalize_target_policy (VObject policy_members)) as [p|e] eqn:Hp; [|discriminate Hok].
  intros e. apply (target_policy_spec policy_members p "https://other.example" e).
  - repeat constructor; vm_compute; set_solver.
  - exact Hp.
Defined.

Definition impersonation_members : Map :=
  [("client-1", VObject [("subjects", VString "*"); ("targets", VArray [VString "api"])])].

Lemma impersonation_loads : is_ok (normalize_impersonation_policy (VObject impersonation_members)) = true.
Proof. vm_compute. reflexivity. Qed.

Lemma impersonation_policy_spec_witness :
  match normalize_impersonation_policy (VObject impersonation_members) with
  | Ok p => is_some_and (fun e => selector_allows (imp_targets e) "api") (impersonation_policy_get "client-1" p) = true
  | Err _ => False
  end.
Proof.
  pose proof impersonation_loads as Hok.
  destruct (normalize_impersonation_policy (VObject impersonation_members)) as [p|e] eqn:Hp;
    [|discriminate Hok].
  apply (impersonation_policy_spec impersonation_members p "client-1" "api").
  - repeat constructor; vm_compute; set_solver.
  - exact Hp.
  - do 2 eexists. split; [reflexivity|]. split; [reflexivity|]. right. eexists. split; [reflexivity|]. left.
Defined.
End ConfigToy.
