(* ===== verification/HttpForms.v ===== *)
(** crates/sts-http, the transport boundary: OAuth errors, request headers,
    form parsing and the checks on request parameters.

    Header values and form bodies are decoded by the [http] and
    [form_urlencoded] crates, parameters here. *)

From S2P Require Import Prelude RustStr Json Jose Core.
From Stdlib Require Import Ascii.

(** [HeaderValue::to_str] and [form_urlencoded::parse]. *)
Class HttpLib : Type := {
  header_to_str : string -> option string;
  header_value_from_str : string -> option string;
  form_parse : string -> list (string * string)
}.

(** [http::HeaderMap]: values in the order received, names in lower case. *)
Definition HeaderMap : Type := list (string * string).
Definition header_get_all (name : string) (headers : HeaderMap) : list string :=
  (List.filter (fun h => bool_decide (h.1 = name)) headers).*2.
Definition header_get (name : string) (headers : HeaderMap) : option string :=
  head (header_get_all name headers).
(** [HeaderMap::insert] replaces every value of the name. *)
Definition header_insert (name value : string) (headers : HeaderMap) : HeaderMap :=
  List.filter (fun h => negb (bool_decide (h.1 = name))) headers ++ [(name, value)].

Definition CLIENT_ASSERTION_TYPE : string := "urn:ietf:params:oauth:client-assertion-type:jwt-bearer".

(** * Errors *)

Record HttpError : Type := mkHttpError {
  he_status : Z;
  he_error : option string;
  he_description : string;
  he_retry_after : option string;
  he_www_authenticate : option string
}.

Definition oauth (status : Z) (error description : string) : HttpError :=
  mkHttpError status (Some error) description None None.
Definition invalid_request : string -> HttpError := oauth 400 "invalid_request".
Definition invalid_client : string -> HttpError := oauth 401 "invalid_client".
Definition unsupported_authorization_client_auth (description challenge : string) : HttpError :=
  mkHttpError 401 (Some "invalid_client") description None (Some challenge).
Definition invalid_target : string -> HttpError := oauth 400 "invalid_target".
Definition invalid_scope : string -> HttpError := oauth 400 "invalid_scope".
Definition invalid_grant : string -> HttpError := oauth 400 "invalid_grant".
Definition unsupported_grant_type : string -> HttpError := oauth 400 "unsupported_grant_type".
Definition invalid_dpop_proof : string -> HttpError := oauth 400 "invalid_dpop_proof".
Definition service_unavailable (description : string) : HttpError :=
  mkHttpError 503 None description (Some "2") None.
Definition server_error : string -> HttpError := oauth 500 "server_error".

(** [impl Display for HttpError]. *)
Definition http_error_display (e : HttpError) : string :=
  match he_error e with
  | Some error => error +:+ ": " +:+ he_description e
  | None => he_description e
  end.

Definition security_headers : HeaderMap := header_insert "x-content-type-options" "nosniff" [].

Definition token_headers : HeaderMap :=
  header_insert "pragma" "no-cache" (header_insert "cache-control" "no-store" security_headers).

(** A response as the handlers build it. *)
Record HttpResponse : Type := mkHttpResponse {
  hr_status : Z;
  hr_headers : HeaderMap;
  hr_body : option Value
}.

(** [impl IntoResponse for HttpError]. *)
Definition error_into_response `{HttpLib} (e : HttpError) : HttpResponse :=
  let headers := header_insert "content-type" "application/json" [] in
  let headers := header_insert "x-content-type-options" "nosniff" headers in
  let headers := header_insert "cache-control" "no-store" headers in
  let headers := header_insert "pragma" "no-cache" headers in
  let headers := match he_retry_after e with
                 | Some retry_after => header_insert "retry-after" retry_after headers
                 | None => headers
                 end in
  let headers := match he_www_authenticate e ≫= header_value_from_str with
                 | Some value => header_insert "www-authenticate" value headers
                 | None => headers
                 end in
  let body := match he_error e with
              | Some error => json_object [("error", VString error);
                                           ("error_description", VString (he_description e))]
              | None => json_object [("error_description", VString (he_description e))]
              end in
  mkHttpResponse (he_status e) headers (Some body).

(** * Forms *)

Record TokenForm : Type := mkTokenForm {
  tf_grant_type : option string;
  tf_subject_token : option string;
  tf_subject_token_type : option string;
  tf_actor_token : option string;
  tf_actor_token_type : option string;
  tf_empty_actor_token_supplied : bool;
  tf_audience : option string;
  tf_resource : option string;
  tf_scope : option string;
  tf_requested_token_type : option string;
  tf_client_id : option string;
  tf_client_assertion : option string;
  tf_client_assertion_type : option string
}.

Definition default_token_form : TokenForm :=
  mkTokenForm None None None None None false None None None None None None None.

Record OnlineTokenForm : Type := mkOnlineForm {
  of_token : option string;
  of_token_type_hint : option string;
  of_client_id : option string;
  of_client_assertion : option string;
  of_client_assertion_type : option string
}.

Definition default_online_form : OnlineTokenForm := mkOnlineForm None None None None None.

(** [TokenForm::into_exchange_request]. *)
Definition into_exchange_request (f : TokenForm) : ExchangeRequest :=
  mkExchangeRequest (default "" (tf_grant_type f)) (default "" (tf_subject_token f))
    (default "" (tf_subject_token_type f)) (tf_actor_token f) (tf_actor_token_type f)
    (tf_audience f) (tf_resource f) (tf_scope f) (tf_requested_token_type f)
    (tf_client_id f) (tf_client_assertion f) (tf_client_assertion_type f).

Definition token_form_keys : list string :=
  ["grant_type"; "subject_token"; "subject_token_type"; "actor_token"; "actor_token_type"; "audience";
   "resource"; "scope"; "requested_token_type"; "client_id"; "client_assertion"; "client_assertion_type"].
Definition is_recognized_token_form_key (key : string) : bool := bool_decide (key ∈ token_form_keys).

Definition online_form_keys : list string :=
  ["token"; "token_type_hint"; "client_id"; "client_assertion"; "client_assertion_type"].
Definition is_online_token_param (key : string) : bool := bool_decide (key ∈ online_form_keys).

Definition non_empty_form_value (value : string) : option string :=
  if is_empty value then None else Some value.

(** [assign_token_form_value]: the field the key names is replaced. *)
Definition assign_token_form_value (f : TokenForm) (key value : string) : TokenForm :=
  let 'mkTokenForm g st stt at_ att ea au re sc rt ci ca cat := f in
  let v := non_empty_form_value value in
  if bool_decide (key = "grant_type") then mkTokenForm v st stt at_ att ea au re sc rt ci ca cat
  else if bool_decide (key = "subject_token") then mkTokenForm g v stt at_ att ea au re sc rt ci ca cat
  else if bool_decide (key = "subject_token_type") then mkTokenForm g st v at_ att ea au re sc rt ci ca cat
  else if bool_decide (key = "actor_token") then
    (if is_empty value then mkTokenForm g st stt None att true au re sc rt ci ca cat
     else mkTokenForm g st stt (Some value) att ea au re sc rt ci ca cat)
  else if bool_decide (key = "actor_token_type") then mkTokenForm g st stt at_ v ea au re sc rt ci ca cat
  else if bool_decide (key = "audience") then mkTokenForm g st stt at_ att ea v re sc rt ci ca cat
  else if bool_decide (key = "resource") then mkTokenForm g st stt at_ att ea au v sc rt ci ca cat
  else if bool_decide (key = "scope") then mkTokenForm g st stt at_ att ea au re v rt ci ca cat
  else if bool_decide (key = "requested_token_type") then mkTokenForm g st stt at_ att ea au re sc v ci ca cat
  else if bool_decide (key = "client_id") then mkTokenForm g st stt at_ att ea au re sc rt v ca cat
  else if bool_decide (key = "client_assertion") then mkTokenForm g st stt at_ att ea au re sc rt ci v cat
  else if bool_decide (key = "client_assertion_type") then mkTokenForm g st stt at_ att ea au re sc rt ci ca v
  else f.

Definition assign_online_token_form_value (f : OnlineTokenForm) (key value : string) : OnlineTokenForm :=
  let 'mkOnlineForm t h ci ca cat := f in
  let v := non_empty_form_value value in
  if bool_decide (key = "token") then mkOnlineForm v h ci ca cat
  else if bool_decide (key = "token_type_hint") then mkOnlineForm t v ci ca cat
  else if bool_decide (key = "client_id") then mkOnlineForm t h v ca cat
  else if bool_decide (key = "client_assertion") then mkOnlineForm t h ci v cat
  else if bool_decide (key = "client_assertion_type") then mkOnlineForm t h ci ca v
  else f.

Definition once_error (key : string) : HttpError :=
  invalid_request ("parameter " +:+ debug_str key +:+ " is included more than once").

(** The loop of [parse_token_form]; [seen] are the recognised keys so far. *)
Fixpoint token_form_loop (seen : gset string) (form : TokenForm) (pairs : list (string * string))
    : result HttpError TokenForm :=
  match pairs with
  | [] => Ok form
  | (key, value) :: rest =>
      if negb (is_recognized_token_form_key key) then token_form_loop seen form rest
      else if bool_decide (key ∈ seen) then
        if bool_decide (key ∈ ["audience"; "resource"]) then
          Err (invalid_target ("multiple " +:+ key +:+ " values are not supported; send one target"))
        else Err (once_error key)
      else token_form_loop ({[key]} ∪ seen) (assign_token_form_value form key value) rest
  end.

Fixpoint online_form_loop (seen : gset string) (form : OnlineTokenForm) (pairs : list (string * string))
    : result HttpError OnlineTokenForm :=
  match pairs with
  | [] => Ok form
  | (key, value) :: rest =>
      if (is_online_token_param key && bool_decide (key ∈ seen))%bool then Err (once_error key)
      else online_form_loop (if is_online_token_param key then {[key]} ∪ seen else seen)
             (assign_online_token_form_value form key value) rest
  end.

Section Parsing.
Context `{HttpLib}.

Definition require_form_urlencoded (headers : HeaderMap) : result HttpError unit :=
  let content_type := default "" (header_get "content-type" headers ≫= header_to_str) in
  let media_type :=
    to_ascii_lowercase (trim (default "" (head (split_char ";"%char content_type)))) in
  if bool_decide (media_type = "application/x-www-form-urlencoded") then Ok tt
  else Err (invalid_request "Content-Type must be application/x-www-form-urlencoded").

Definition reject_authorization_header_client_auth (headers : HeaderMap) : result HttpError unit :=
  match header_get "authorization" headers with
  | None => Ok tt
  | Some value =>
      let authorization := default "" (header_to_str value) in
      let scheme := default "Basic" (head (split_whitespace authorization)) in
      let challenge := if eq_ignore_ascii_case scheme "basic" then "Basic" else scheme in
      Err (unsupported_authorization_client_auth
             "Authorization header client authentication is not supported; use private_key_jwt"
             challenge)
  end.

Definition parse_token_form (headers : HeaderMap) (body : string) : result HttpError TokenForm :=
  let? _ := require_form_urlencoded headers in
  let? _ := reject_authorization_header_client_auth headers in
  token_form_loop ∅ default_token_form (form_parse body).

Definition parse_online_token_form (headers : HeaderMap) (body : string)
    : result HttpError OnlineTokenForm :=
  let? _ := require_form_urlencoded headers in
  let? _ := reject_authorization_header_client_auth headers in
  online_form_loop ∅ default_online_form (form_parse body).

End Parsing.

Definition required_online_token (form : OnlineTokenForm) (max_token_len : Z) : result HttpError string :=
  let? token := ok_or (opt_filter (fun value => negb (is_empty (trim value))) (of_token form))
    (invalid_request "token is required") in
  if (max_token_len <? byte_len token)%Z then Err (invalid_request "token too large")
  else Ok token.

(** * Request parameters *)

Definition is_supported_input_token_type (value : string) : bool :=
  bool_decide (value ∈ [ACCESS_TOKEN_TYPE; JWT_TOKEN_TYPE]).
Definition is_supported_requested_token_type (value : string) : bool :=
  bool_decide (value = ACCESS_TOKEN_TYPE).

Definition check_actor_token (request : ExchangeRequest) (max_token_len : Z) : result HttpError unit :=
  match actor_token request with
  | None => Ok tt
  | Some token =>
      if is_empty token then Err (invalid_request "actor_token must be a non-empty string")
      else if (max_token_len <? byte_len token)%Z then Err (invalid_request "actor_token too large")
      else if is_empty (default "" (actor_token_type request)) then
        Err (invalid_request "actor_token_type required when actor_token is present")
      else Ok tt
  end.

Definition validate_request_params (request : ExchangeRequest) (max_token_len : Z)
    : result HttpError unit :=
  if is_empty (grant_type request) then Err (invalid_request "grant_type is required")
  else if negb (bool_decide (grant_type request = TOKEN_EXCHANGE_GRANT_TYPE)) then
    Err (unsupported_grant_type ("grant_type must be " +:+ TOKEN_EXCHANGE_GRANT_TYPE))
  else if (is_empty (subject_token request) || is_empty (subject_token_type request))%bool then
    Err (invalid_request "subject_token and subject_token_type are required")
  else if (max_token_len <? byte_len (subject_token request))%Z then
    Err (invalid_request "subject_token too large")
  else
  let? _ := check_actor_token request max_token_len in
  if (opt_is_some (actor_token_type request) && opt_is_none (actor_token request))%bool then
    Err (invalid_request "actor_token_type present without actor_token")
  else if negb (is_supported_input_token_type (subject_token_type request)) then
    Err (invalid_request ("unsupported subject_token_type " +:+ subject_token_type request))
  else if is_some_and (fun t => negb (is_supported_input_token_type t)) (actor_token_type request) then
    Err (invalid_request ("unsupported actor_token_type " +:+ default "" (actor_token_type request)))
  else if is_some_and (fun t => negb (is_supported_requested_token_type t))
            (requested_token_type request) then
    Err (invalid_request ("unsupported requested_token_type "
                          +:+ default "" (requested_token_type request)))
  else
  let? _ := try_map (fun fv : string * option string =>
      if is_some_and (fun value => max_token_len <? byte_len value)%Z fv.2 then
        Err (invalid_request (fv.1 +:+ " too large"))
      else Ok tt)
    [("scope", scope request); ("audience", audience request); ("resource", resource request);
     ("client_assertion", client_assertion request)] in
  Ok tt.

Definition validate_client_assertion_type (request : ExchangeRequest) : result HttpError unit :=
  if bool_decide (client_assertion_type request = Some CLIENT_ASSERTION_TYPE) then Ok tt
  else Err (invalid_client ("client_assertion_type must be " +:+ CLIENT_ASSERTION_TYPE)).

(** * Specifications *)

(** The value of the first pair with a key. *)
Fixpoint pair_get (key : string) (pairs : list (string * string)) : option string :=
  match pairs with
  | [] => None
  | (k, v) :: rest => if bool_decide (k = key) then Some v else pair_get key rest
  end.

(** The recognised keys that a body uses, with repetitions. *)
Definition used_keys (pairs : list (string * string)) : list string :=
  List.filter is_recognized_token_form_key pairs.*1.

(** The field of a form that a key stands for. *)
Definition form_field (f : TokenForm) (key : string) : option string :=
  if bool_decide (key = "grant_type") then tf_grant_type f
  else if bool_decide (key = "subject_token") then tf_subject_token f
  else if bool_decide (key = "subject_token_type") then tf_subject_token_type f
  else if bool_decide (key = "actor_token") then tf_actor_token f
  else if bool_decide (key = "actor_token_type") then tf_actor_token_type f
  else if bool_decide (key = "audience") then tf_audience f
  else if bool_decide (key = "resource") then tf_resource f
  else if bool_decide (key = "scope") then tf_scope f
  else if bool_decide (key = "requested_token_type") then tf_requested_token_type f
  else if bool_decide (key = "client_id") then tf_client_id f
  else if bool_decide (key = "client_assertion") then tf_client_assertion f
  else if bool_decide (key = "client_assertion_type") then tf_client_assertion_type f
  else None.

(** * Lemmas *)

Ltac key_cases H :=
  repeat (apply elem_of_cons in H as [->|H]; [|]); [..|by apply not_elem_of_nil in H].

Lemma recognized_spec key : is_recognized_token_form_key key = true <-> key ∈ token_form_keys.
Proof. apply bool_decide_eq_true. Qed.

Lemma form_field_assign f k v k' :
  k ∈ token_form_keys -> k' ∈ token_form_keys ->
  form_field (assign_token_form_value f k v) k' =
  if bool_decide (k = k') then non_empty_form_value v else form_field f k'.
Proof.
  destruct f. unfold non_empty_form_value. intros Hk Hk'. unfold token_form_keys in *.
  destruct (is_empty v) eqn:Hv; unfold assign_token_form_value, non_empty_form_value; rewrite Hv;
    key_cases Hk; key_cases Hk'; reflexivity.
Qed.

Lemma empty_actor_assign f k v :
  tf_empty_actor_token_supplied (assign_token_form_value f k v) =
  (tf_empty_actor_token_supplied f || bool_decide (k = "actor_token") && is_empty v)%bool.
Proof.
  destruct f. unfold assign_token_form_value. simpl. destruct (is_empty v).
  all: repeat case_bool_decide; subst; simpl; try done; by rewrite ?orb_false_r, ?orb_true_r.
Qed.

Lemma pair_get_None key pairs : key ∉ pairs.*1 -> pair_get key pairs = None.
Proof.
  induction pairs as [|[k v] pairs IH]; simpl; [done|]. rewrite not_elem_of_cons. intros [Hne Hn].
  rewrite bool_decide_eq_false_2 by congruence. auto.
Qed.

Lemma elem_of_used key pairs : key ∈ used_keys pairs <-> key ∈ token_form_keys /\ key ∈ pairs.*1.
Proof. unfold used_keys. rewrite !list_elem_of_In, filter_In, recognized_spec, !list_elem_of_In. naive_solver. Qed.

(** The loop succeeds exactly without a repetition, and then every field holds
    its key's value. *)
Lemma token_form_loop_spec pairs seen form :
  (NoDup (used_keys pairs) /\ (forall k, k ∈ used_keys pairs -> k ∉ seen) ->
   exists form', token_form_loop seen form pairs = Ok form') /\
  (forall form', token_form_loop seen form pairs = Ok form' ->
    NoDup (used_keys pairs) /\ (forall k, k ∈ used_keys pairs -> k ∉ seen) /\
    (forall k, k ∈ token_form_keys -> form_field form' k =
       match pair_get k pairs with Some v => non_empty_form_value v | None => form_field form k end) /\
    tf_empty_actor_token_supplied form' =
      (tf_empty_actor_token_supplied form || bool_decide (pair_get "actor_token" pairs = Some ""))%bool).
Proof.
  revert seen form. induction pairs as [|[k v] pairs IH]; intros seen form.
  - split; [eauto|]. simpl. intros form' [= <-]. split_and!; try constructor; try done.
    + intros k Hk. by apply not_elem_of_nil in Hk.
    + by rewrite orb_false_r.
  - simpl. unfold used_keys. simpl. fold (used_keys pairs).
    destruct (is_recognized_token_form_key k) eqn:Hk; simpl.
    + apply recognized_spec in Hk. destruct (IH ({[k]} ∪ seen) (assign_token_form_value form k v)) as [I1 I2].
      split.
      * intros [Hnd Hseen]. apply NoDup_cons in Hnd as [Hn Hnd].
        rewrite bool_decide_eq_false_2 by (apply Hseen; left). apply I1. split; [done|].
        intros k' Hk'. rewrite not_elem_of_union, not_elem_of_singleton.
        split; [by intros ->|]. apply Hseen. by right.
      * intros form'. destruct (bool_decide (k ∈ seen)) eqn:Hs; [intros Hx; exfalso; simpl in Hx; case_match; discriminate Hx|].
        apply bool_decide_eq_false in Hs.
        intros Hf. destruct (I2 form' Hf) as (Hnd & Hseen & Hfield & Hea). clear I1 I2 IH.
        assert (Hknot : k ∉ used_keys pairs).
        { intros Hin. apply (Hseen k Hin). set_solver. }
        assert (Hpn : pair_get k pairs = None).
        { apply pair_get_None. intros Hin. apply Hknot, elem_of_used. done. }
        split_and!.
        -- by constructor.
        -- intros k' [->|Hin]%elem_of_cons; [done|]. specialize (Hseen k' Hin). set_solver.
        -- intros k' Hk'. rewrite (Hfield k' Hk'), form_field_assign by done.
           destruct (decide (k = k')) as [<-|Hne];
             [by rewrite Hpn, !bool_decide_eq_true_2|by rewrite !bool_decide_eq_false_2].
        -- rewrite Hea, empty_actor_assign.
           destruct (decide (k = "actor_token")) as [Heq|Hne].
           ++ rewrite !(bool_decide_eq_true_2 (k = _)) by done. rewrite <- Heq, Hpn.
              destruct v; simpl; by rewrite ?orb_true_r, ?orb_false_r.
           ++ rewrite !(bool_decide_eq_false_2 (k = _)) by done. simpl. by rewrite orb_false_r.
    + destruct (IH seen form) as [I1 I2]. split; [exact I1|]. intros form' Hf.
      destruct (I2 form' Hf) as (Hnd & Hseen & Hfield & Hea). split_and!; try done.
      * intros k' Hk'. rewrite (Hfield k' Hk'). rewrite bool_decide_eq_false_2; [done|].
        intros <-. apply recognized_spec in Hk'. congruence.
      * rewrite Hea. rewrite (bool_decide_eq_false_2 (k = "actor_token")); [done|].
        intros ->. done.
Qed.

(** * Properties *)

(** C35: a token form is accepted exactly when its body repeats no recognised
    parameter; then each parameter holds the one value sent (an empty value
    counts as absent, except that an empty actor token is remembered), and
    unknown parameters change nothing. *)
Theorem token_form_spec (pairs : list (string * string)) :
  match token_form_loop ∅ default_token_form pairs with
  | Ok form =>
      NoDup (used_keys pairs) /\
      (forall k, k ∈ token_form_keys ->
         form_field form k = (pair_get k pairs ≫= non_empty_form_value)) /\
      tf_empty_actor_token_supplied form = bool_decide (pair_get "actor_token" pairs = Some "")
  | Err e => ~ NoDup (used_keys pairs) /\ he_status e = 400%Z
  end.
Proof.
  destruct (token_form_loop_spec pairs ∅ default_token_form) as [I1 I2].
  destruct (token_form_loop ∅ default_token_form pairs) as [form|e] eqn:Hf.
  - destruct (I2 form eq_refl) as (Hnd & _ & Hfield & Hea). split_and!; [done| |done].
    intros k Hk. rewrite (Hfield k Hk). destruct (pair_get k pairs); [done|]. simpl.
    unfold form_field. simpl. by repeat case_bool_decide.
  - split.
    + intros Hnd. destruct I1 as [form' Hx]; [|done]. split; [done|]. intros k _. set_solver.
    + clear I1 I2. revert Hf. generalize (∅ : gset string), default_token_form.
      induction pairs as [|[k v] pairs IH]; intros seen form; simpl; [done|].
      repeat case_match; intros Hx; simplify_eq/=; try done; by eapply IH.
Qed.
