(* ===== verification/HttpState.v ===== *)
(** crates/sts-http, the server's state: endpoints, the revocation list, the
    metrics, the published documents and the routes.

    [HttpState] holds what never changes while serving; the [World] holds what
    does (replay store, revocations, metrics) together with the clock and the
    random source, so a handler is a computation on a [World]. *)

From S2P Require Import Prelude RustStr Json Url Core Replay Jose JoseSigners Verify Config Dpop HttpForms.
From Stdlib Require Import Ascii.

(** * State *)

Record MetricsState : Type := mkMetrics {
  exchanges_minted : Z;
  exchanges_denied : Z;
  denials : Mutex (gmap string Z);
  signing_algs : Mutex (gmap (string * bool) Z)
}.

Definition default_metrics : MetricsState := mkMetrics 0 0 (mutex_new ∅) (mutex_new ∅).

(** [RevocationState]: tokens, by hash, with their expiry. *)
Definition RevocationState : Type := Mutex (gmap string Z).

Record World (S : Type) : Type := mkWorld {
  w_time : nat -> option Z;
  w_reads : nat;
  w_random : nat -> string;
  w_draws : nat;
  w_replay : ReplayPolicy S;
  w_revocations : RevocationState;
  w_metrics : MetricsState
}.
Arguments mkWorld {S}.
Arguments w_time {S}.
Arguments w_reads {S}.
Arguments w_random {S}.
Arguments w_draws {S}.
Arguments w_replay {S}.
Arguments w_revocations {S}.
Arguments w_metrics {S}.

Definition set_replay {S} (r : ReplayPolicy S) (w : World S) : World S :=
  mkWorld (w_time w) (w_reads w) (w_random w) (w_draws w) r (w_revocations w) (w_metrics w).
Definition set_revocations {S} (r : RevocationState) (w : World S) : World S :=
  mkWorld (w_time w) (w_reads w) (w_random w) (w_draws w) (w_replay w) r (w_metrics w).
Definition set_metrics {S} (m : MetricsState) (w : World S) : World S :=
  mkWorld (w_time w) (w_reads w) (w_random w) (w_draws w) (w_replay w) (w_revocations w) m.

(** Each reading of the clock takes the next instant. *)
#[export] Instance world_clock {S} : HasClock (World S) := fun w =>
  (w_time w (w_reads w),
   mkWorld (w_time w) (Datatypes.S (w_reads w)) (w_random w) (w_draws w) (w_replay w) (w_revocations w)
     (w_metrics w)).

(** [OsRng.fill_bytes] of sixteen bytes. *)
Definition fill_bytes {S} (w : World S) : string * World S :=
  (w_random w (w_draws w),
   mkWorld (w_time w) (w_reads w) (w_random w) (Datatypes.S (w_draws w)) (w_replay w) (w_revocations w)
     (w_metrics w)).

Record HttpState (Sg : Type) : Type := mkHttpState {
  config : RuntimeConfig;
  signer : Sg;
  published_jwks : JwksDocument;
  subject_jwks : JwksDocument;
  actor_jwks : JwksDocument;
  client_jwks : JwksDocument
}.
Arguments mkHttpState {Sg}.
Arguments config {Sg}.
Arguments signer {Sg}.
Arguments published_jwks {Sg}.
Arguments subject_jwks {Sg}.
Arguments actor_jwks {Sg}.
Arguments client_jwks {Sg}.

(** The members of the server's state that its handlers change, as they are
    when it is made; the others are [HttpState]. *)
Record Shared (S : Type) : Type := mkShared {
  sh_replay : ReplayPolicy S;
  sh_revocations : RevocationState;
  sh_metrics : MetricsState
}.
Arguments mkShared {S}.
Arguments sh_replay {S}.
Arguments sh_revocations {S}.
Arguments sh_metrics {S}.

Definition shared_of {S} (w : World S) : Shared S := mkShared (w_replay w) (w_revocations w) (w_metrics w).

(** [HttpState::new_with_published_jwks] and [new_with_signer_arc]. *)
Definition http_state_with_published {Sg S} (c : RuntimeConfig) (s : Sg) (published subject actor client : JwksDocument)
    (replay : ReplayPolicy S) : HttpState Sg * Shared S :=
  (mkHttpState c s published subject actor client, mkShared replay (mutex_new ∅) default_metrics).

(** [HttpState::new]. *)
Definition http_state_new {Sg S} `{JoseSigner Sg} (c : RuntimeConfig) (s : Sg)
    (subject actor client : JwksDocument) (replay : ReplayPolicy S) : HttpState Sg * Shared S :=
  http_state_with_published c s (public_jwks s) subject actor client replay.

(** * Revocation *)

Definition sweep_revoked (revoked : gmap string Z) (now : Z) : gmap string Z :=
  filter (fun kv => (now <= kv.2)%Z) revoked.

Definition revocation_key `{Sha256} (token : string) : string :=
  hex_lower (sha256 ("sts-revocation-v1" +:+ (nul +:+ token))).

(** [RevocationState::revoke]. *)
Definition revoke_token `{Sha256} (token : string) (exp now max_seen : Z)
    : Eff RevocationState HttpError unit := fun state =>
  match lock state with
  | None => (Err (service_unavailable "revocation store unavailable, retry shortly"), state)
  | Some revoked =>
      let revoked := sweep_revoked revoked now in
      let key := revocation_key token in
      if (opt_is_none (revoked !! key) && (max_seen <=? map_len revoked)%Z)%bool then
        (Err (service_unavailable "revocation store full, retry shortly"), mutex_new revoked)
      else (Ok tt, mutex_new (<[key := exp]> revoked))
  end.

(** [RevocationState::is_revoked_or_unavailable]. *)
Definition is_revoked_or_unavailable `{Sha256} (token : string) (now : Z) (state : RevocationState)
    : bool * RevocationState :=
  match lock state with
  | None => (true, state)
  | Some revoked =>
      let revoked := sweep_revoked revoked now in
      (opt_is_some (revoked !! revocation_key token), mutex_new revoked)
  end.

(** * Metrics *)

(** [u64] counters wrap around. *)
Definition u64_add (a b : Z) : Z := ((a + b) mod 2 ^ 64)%Z.

(** [*map.entry(key).or_insert(0) += 1] under a lock; a poisoned lock skips it. *)
Definition count_entry {K} `{Countable K} (key : K) (m : Mutex (gmap K Z)) : Mutex (gmap K Z) :=
  match lock m with
  | Some entries => mutex_new (<[key := u64_add (default 0%Z (entries !! key)) 1]> entries)
  | None => m
  end.

(** [MetricsState::record_exchange]. *)
Definition record_exchange {T} (result : result HttpError T) (m : MetricsState) : MetricsState :=
  match result with
  | Ok _ => mkMetrics (u64_add (exchanges_minted m) 1) (exchanges_denied m) (denials m) (signing_algs m)
  | Err err =>
      mkMetrics (exchanges_minted m) (u64_add (exchanges_denied m) 1)
        (match he_error err with Some error => count_entry error (denials m) | None => denials m end)
        (signing_algs m)
  end.

Record SigningDecision : Type := mkDecision {
  sd_alg : string;
  sd_pqc_fallback : bool;
  sd_pqc_fallback_reason : option string
}.

(** [MetricsState::record_signing]. *)
Definition record_signing (d : SigningDecision) (m : MetricsState) : MetricsState :=
  mkMetrics (exchanges_minted m) (exchanges_denied m) (denials m)
    (count_entry (sd_alg d, sd_pqc_fallback d) (signing_algs m)).

Definition escape_prometheus_label (value : string) : string :=
  replace_char (ascii_of_N 10) "\n"
    (replace_char (ascii_of_N 34) ("\" +:+ dquote) (replace_char (ascii_of_N 92) "\\" value)).

Definition label (name value : string) : string := name +:+ "=" +:+ dquote +:+ value +:+ dquote.

(** [MetricsState::render]; the maps are printed in key order. *)
Definition metrics_render (m : MetricsState) (replay_cache_size : Z) : string :=
  let line s := s +:+ newline in
  let denials := default ∅ (lock (denials m)) in
  let algs := default ∅ (lock (signing_algs m)) in
  line "# HELP sts_exchanges_total Total token exchange outcomes (minted = success, denied = any OAuth error)"
  +:+ line "# TYPE sts_exchanges_total counter"
  +:+ line ("sts_exchanges_total{" +:+ label "result" "minted" +:+ "} " +:+ to_string (exchanges_minted m))
  +:+ line ("sts_exchanges_total{" +:+ label "result" "denied" +:+ "} " +:+ to_string (exchanges_denied m))
  +:+ line "# HELP sts_denials_total Token exchange denials labelled by OAuth error code"
  +:+ line "# TYPE sts_denials_total counter"
  +:+ join "" (map (fun error =>
        line ("sts_denials_total{" +:+ label "error" (escape_prometheus_label error) +:+ "} "
              +:+ to_string (default 0%Z (denials !! error))))
        (btree_iter (dom denials)))
  +:+ line "# HELP sts_token_signing_alg_total Minted token signing algorithms selected by STS policy"
  +:+ line "# TYPE sts_token_signing_alg_total counter"
  +:+ join "" (concat (map (fun alg => omap (fun fallback : bool =>
        option_map (fun count =>
          line ("sts_token_signing_alg_total{" +:+ label "alg" (escape_prometheus_label alg) +:+ ","
                +:+ label "pqc_fallback" (if fallback then "true" else "false") +:+ "} "
                +:+ to_string count))
          (algs !! (alg, fallback))) [false; true])
        (btree_iter (set_map fst (dom algs)))))
  +:+ line "# HELP sts_replay_cache_size Unexpired jtis currently held in the active replay cache"
  +:+ line "# TYPE sts_replay_cache_size gauge"
  +:+ line ("sts_replay_cache_size " +:+ to_string replay_cache_size).

(** * Endpoints *)

Section Endpoints.
Context {Sg : Type} `{UrlLib} (state : HttpState Sg).

Definition base : string := trim_end_char "/"%char (our_issuer (config state)).
Definition token_endpoint : string := base +:+ "/token".
Definition jwks_uri : string := base +:+ "/jwks".
Definition introspection_endpoint : string := base +:+ "/introspect".
Definition revocation_endpoint : string := base +:+ "/revoke".

Definition issuer_path : option string :=
  match url_parse (our_issuer (config state)) with
  | Err _ => None
  | Ok parsed =>
      let path := trim_end_char "/"%char (url_path parsed) in
      if is_empty path then None else Some path
  end.

Definition issuer_origin : string :=
  match url_parse (our_issuer (config state)) with
  | Err _ => base
  | Ok parsed =>
      match url_host_str parsed with
      | None => base
      | Some host =>
          url_scheme parsed +:+ "://" +:+ host
          +:+ match url_port parsed with Some port => ":" +:+ to_string port | None => "" end
      end
  end.

Definition resource_identifier_for_metadata_path (request_path : string) : string :=
  let suffix := default "" (strip_prefix "/.well-known/oauth-protected-resource" request_path) in
  let resource_path := trim_char "/"%char suffix in
  if is_empty resource_path then issuer_origin else issuer_origin +:+ "/" +:+ resource_path.

Definition resource_metadata_url_for_resource_path (request_path : string) : string :=
  let resource_path := trim_char "/"%char request_path in
  if is_empty resource_path then issuer_origin +:+ "/.well-known/oauth-protected-resource"
  else issuer_origin +:+ "/.well-known/oauth-protected-resource/" +:+ resource_path.

(** * Documents *)

Definition public_cache_headers (max_age : Z) : HeaderMap :=
  header_insert "cache-control" ("public, max-age=" +:+ to_string (Z.max max_age 0)) security_headers.

Record AuthorizationServerMetadata : Type := mkServerMetadata {
  am_issuer : string;
  am_token_endpoint : string;
  am_jwks_uri : string;
  am_introspection_endpoint : string;
  am_revocation_endpoint : string;
  am_response_types_supported : list string;
  am_grant_types_supported : list string;
  am_token_auth_methods : list string;
  am_token_auth_algs : list string;
  am_introspection_auth_methods : list string;
  am_introspection_auth_algs : list string;
  am_revocation_auth_methods : list string;
  am_revocation_auth_algs : list string;
  am_dpop_signing_algs : list string;
  am_protected_resources : list string
}.

(** The [metadata] handler. *)
Definition metadata : HeaderMap * AuthorizationServerMetadata :=
  let auth_methods := ["private_key_jwt"] in
  let auth_algs := inbound_assertion_algs (config state) in
  (public_cache_headers (jwks_cache_max_age (config state)),
   mkServerMetadata (our_issuer (config state)) token_endpoint jwks_uri introspection_endpoint
     revocation_endpoint [] [TOKEN_EXCHANGE_GRANT_TYPE] auth_methods auth_algs auth_methods auth_algs
     auth_methods auth_algs DPOP_SIGNING_ALGS_SUPPORTED [our_issuer (config state)]).

Record ProtectedResourceMetadata : Type := mkResourceMetadata {
  pr_resource : string;
  pr_authorization_servers : list string;
  pr_scopes_supported : list string;
  pr_bearer_methods_supported : list string
}.

(** The [protected_resource_metadata] handler. *)
Definition protected_resource_metadata (path : string) : HeaderMap * ProtectedResourceMetadata :=
  let scopes := map_fold (fun _ target scopes => allowed_scopes target ∪ scopes) ∅
                  (target_policy (config state)) in
  (public_cache_headers (jwks_cache_max_age (config state)),
   mkResourceMetadata (resource_identifier_for_metadata_path path) [our_issuer (config state)]
     (btree_iter scopes) ["header"]).

(** The [jwks] handler. *)
Definition jwks_handler : HeaderMap * JwksDocument :=
  (public_cache_headers (jwks_cache_max_age (config state)), published_jwks state).

(** The [openapi] handler: the document that is built in, under this build's
    version. *)
Definition openapi_handler `{JsonText} (curated version : string) : HeaderMap * Value :=
  let document :=
    match json_from_str curated with
    | Ok document => document
    | Err _ => json_object [("openapi", VString "3.1.0");
                            ("info", json_object [("title", VString "sts-delegate-rs"); ("version", VString version)]);
                            ("paths", VObject [])]
    end in
  let document :=
    match document with
    | VObject members =>
        match map_get "info" members with
        | Some (VObject info) =>
            VObject (map_insert "info" (VObject (map_insert "version" (VString version) info)) members)
        | _ => document
        end
    | _ => document
    end in
  (public_cache_headers 300, document).

(** The [metrics] handler. *)
Definition metrics_handler {St} `{ReplayStore St} (w : World St) : HeaderMap * string :=
  (header_insert "pragma" "no-cache" (header_insert "cache-control" "no-store"
     (header_insert "x-content-type-options" "nosniff"
        (header_insert "content-type" "text/plain; version=0.0.4; charset=utf-8" []))),
   metrics_render (w_metrics w) (policy_cache_size (w_replay w))).

(** The [protected_resource_challenge] handler. *)
Definition protected_resource_challenge `{HttpLib} (path : string) : result HttpError HttpResponse :=
  let challenge := "Bearer resource_metadata=" +:+ dquote
                   +:+ resource_metadata_url_for_resource_path path +:+ dquote in
  let? challenge := ok_or (header_value_from_str challenge)
    (server_error "resource metadata challenge could not be rendered") in
  let headers := header_insert "content-type" "application/json" token_headers in
  let headers := header_insert "www-authenticate" challenge headers in
  Ok (mkHttpResponse 401 headers
        (Some (json_object [("error", VString "invalid_token");
                            ("error_description", VString "valid bearer token required")]))).

Definition method_not_allowed : HttpResponse :=
  mkHttpResponse 405 token_headers
    (Some (json_object [("error", VString "invalid_request");
                        ("error_description", VString "method not allowed")])).

Definition token_method_not_allowed : HttpResponse :=
  mkHttpResponse 405 (header_insert "allow" "POST" token_headers) None.

(** * Routes *)

(** What a route answers to which method: a handler, a refusal, or (axum's
    default) 405 for the rest. *)
Inductive Handler : Type :=
| HToken | HIntrospect | HRevoke | HJwks | HOpenapi | HMetadata | HChallenge | HResourceMetadata | HMetrics.

Inductive MethodRouter : Type :=
| PostElseTokenRefusal (h : Handler)
| PostGetRefusal (h : Handler)
| GetOnly (h : Handler)
| GetPostRefusal (h : Handler)
| AnyMethod (h : Handler).

Definition router : list (string * MethodRouter) :=
  [("/token", PostElseTokenRefusal HToken);
   ("/introspect", PostGetRefusal HIntrospect);
   ("/revoke", PostGetRefusal HRevoke);
   ("/jwks", GetOnly HJwks);
   ("/openapi.json", GetOnly HOpenapi);
   ("/.well-known/oauth-authorization-server", GetOnly HMetadata);
   ("/mcp", AnyMethod HChallenge);
   ("/{resource}/mcp", AnyMethod HChallenge);
   ("/.well-known/oauth-protected-resource", GetPostRefusal HResourceMetadata);
   ("/.well-known/oauth-protected-resource/{*resource}", GetPostRefusal HResourceMetadata)]
  ++ (if enable_metrics (config state) then [("/metrics", GetOnly HMetrics)] else [])
  ++ match issuer_path with
     | None => []
     | Some path =>
         [(path +:+ "/token", PostElseTokenRefusal HToken);
          (path +:+ "/introspect", PostGetRefusal HIntrospect);
          (path +:+ "/revoke", PostGetRefusal HRevoke);
          (path +:+ "/jwks", GetOnly HJwks);
          ("/.well-known/oauth-authorization-server" +:+ path, GetOnly HMetadata);
          (path +:+ "/mcp", AnyMethod HChallenge);
          (path +:+ "/{resource}/mcp", AnyMethod HChallenge);
          ("/.well-known/oauth-protected-resource" +:+ path, GetPostRefusal HResourceMetadata)]
     end.

End Endpoints.
