(* ===== verification/HttpToken.v ===== *)
(** crates/sts-http, the token exchange: the policy gates and the handlers of
    the token, introspection and revocation endpoints.

    Every handler is a computation on the [World]: what it has recorded before
    an error stays recorded. *)

From S2P Require Import Prelude RustStr Json Url Core Replay Jose JoseSigners Verify Config Dpop.
From S2P Require Import HttpForms HttpState.
From Stdlib Require Import Ascii.

(** * Pure gates *)

Definition map_core_error (err : CoreError) : HttpError :=
  match core_kind err with
  | Core.InvalidRequest => invalid_request (core_message err)
  | Core.InvalidClient => invalid_client (core_message err)
  | Core.InvalidTarget => invalid_target (core_message err)
  | Core.InvalidScope => invalid_scope (core_message err)
  end.

Definition map_subject_verify_error (err : VerifyError) : HttpError :=
  match verify_kind err with
  | InvalidAudience | InvalidIssuer | InvalidLifetime | InvalidToken | VInvalidClaims =>
      invalid_grant (verify_message err)
  | _ => invalid_request (verify_message err)
  end.

Definition map_replay_error (err : ReplayError) : HttpError :=
  match replay_kind err with
  | RInvalidRequest | ReplayDetected => invalid_request (replay_message err)
  | StoreFull => service_unavailable (replay_message err)
  end.

Definition map_client_assertion_replay_error (err : ReplayError) : HttpError :=
  match replay_kind err with
  | RInvalidRequest => invalid_client (replay_message err)
  | ReplayDetected => invalid_client "client_assertion replay detected"
  | StoreFull => service_unavailable (replay_message err)
  end.

Definition map_dpop_error (err : DpopError) : HttpError := invalid_dpop_proof (dpop_message err).

Definition map_dpop_replay_error (err : ReplayError) : HttpError :=
  match replay_kind err with
  | RInvalidRequest | ReplayDetected => invalid_dpop_proof "DPoP proof replay detected"
  | StoreFull => service_unavailable (replay_message err)
  end.

Definition join_scope_set (scopes : gset string) : string := join " " (btree_iter scopes).

Definition subject_scope_string (claims : SubjectTokenClaims) : result HttpError (option string) :=
  let scopes := match st_scope claims with Some scope => split_whitespace scope | None => [] end in
  let? more :=
    match st_scp claims with
    | None | Some VNull => Ok []
    | Some (VString scope) => Ok (split_whitespace scope)
    | Some (VArray values) =>
        res_map (@concat string)
          (try_map (fun value => res_map split_whitespace
                      (ok_or (as_str value) (invalid_request "malformed scope claim"))) values)
    | Some _ => Err (invalid_request "malformed scope claim")
    end in
  let scopes : gset string := list_to_set (scopes ++ more) in
  Ok (if bool_decide (scopes = ∅) then None else Some (join_scope_set scopes)).

(** [act_claim_from_value_at_depth]; the recursion is on the JSON value. *)
Fixpoint act_claim_from_value_at_depth (value : Value) (depth : Z) : result HttpError ActClaim :=
  if (10 <? depth)%Z then Err (invalid_request "act delegation chain too deep")
  else
  match value with
  | VObject obj =>
      let? sub := ok_or (opt_filter (fun value => negb (is_empty value)) (map_get "sub" obj ≫= as_str))
        (invalid_request "malformed prior act claim") in
      let iss := map_get "iss" obj ≫= as_str in
      let? act :=
        (fix nested (o : list (string * Value)) : result HttpError (option ActClaim) :=
           match o with
           | [] => Ok None
           | (k, v) :: o' =>
               if bool_decide ("act" = k) then res_map Some (act_claim_from_value_at_depth v (depth + 1))
               else nested o'
           end) obj in
      Ok (mkActClaim sub iss act)
  | _ => Err (invalid_request "malformed prior act claim")
  end.

Definition act_claim_from_value (value : Value) : result HttpError ActClaim :=
  act_claim_from_value_at_depth value 1.

Definition gate_may_act (subject_claims : SubjectTokenClaims) (actor_claims : AssertionClaims)
    : result HttpError unit :=
  match st_may_act subject_claims with
  | None => Ok tt
  | Some may_act =>
      let? may_act := ok_or (as_object may_act) (invalid_request "may_act must be a JSON object") in
      if bool_decide (length may_act = 0) then
        Err (invalid_request "may_act present but empty: no actor authorized")
      else if negb (bool_decide ((map_get "sub" may_act ≫= as_str) = Some (as_sub actor_claims))) then
        Err (invalid_request "may_act does not authorize this actor")
      else if is_some_and (fun want_iss => negb (bool_decide (as_str want_iss = Some (as_iss actor_claims))))
                (map_get "iss" may_act) then
        Err (invalid_request "may_act issuer does not match this actor")
      else Ok tt
  end.

Definition client_assertion_jti (claims : AssertionClaims) : result HttpError string :=
  ok_or (non_blank (as_jti claims)) (invalid_client "client_assertion jti must be a non-empty string").

Inductive EffectiveExchangeMode : Type := MDelegation | MImpersonation.

#[export] Instance EffectiveExchangeMode_eq_dec : EqDecision EffectiveExchangeMode.
Proof. solve_decision. Defined.

Definition effective_exchange_mode (config : RuntimeConfig) (request : ExchangeRequest)
    (empty_actor_token_supplied : bool) : EffectiveExchangeMode :=
  match token_exchange_mode config with
  | Delegation => MDelegation
  | Impersonation => MImpersonation
  | Both => if (opt_is_some (actor_token request) || empty_actor_token_supplied)%bool
            then MDelegation else MImpersonation
  end.

Record VerifiedExchange : Type := mkExchange {
  ve_subject_claims : SubjectTokenClaims;
  ve_subject_sub : string;
  ve_target : string;
  ve_scope : string;
  ve_client_claims : option AssertionClaims;
  ve_dpop_binding : option DpopBinding
}.

Record TokenResponse : Type := mkTokenResponse {
  tr_access_token : string;
  tr_issued_token_type : string;
  tr_token_type : string;
  tr_expires_in : Z;
  tr_scope : string;
  tr_signing_alg_selected : string;
  tr_pqc_fallback : bool;
  tr_pqc_fallback_reason : option string
}.

Definition token_type_for_sender (binding : option DpopBinding) : string :=
  if opt_is_some binding then "DPoP" else "Bearer".

(** [{:?}] of a string. *)
Definition unknown_target (target : string) : HttpError :=
  invalid_target ("unknown/forbidden target " +:+ debug_str target).

Section Gates.
Context {Sg : Type} `{JoseSigner Sg}.

Definition key_binding_registry_of (state : HttpState Sg) : gset string :=
  actor_ids (config state) ∪ client_ids (config state).

Definition validate_actor_identity (state : HttpState Sg) (actor_claims : AssertionClaims)
    : result HttpError unit :=
  if negb (bool_decide (as_sub actor_claims ∈ actor_ids (config state))) then
    Err (invalid_client ("actor identity " +:+ debug_str (as_sub actor_claims) +:+ " not permitted"))
  else if negb (bool_decide (as_iss actor_claims = as_sub actor_claims)) then
    Err (invalid_client "actor_token iss and sub must match")
  else Ok tt.

Definition resolve_target_for_request (request : ExchangeRequest) (state : HttpState Sg)
    : result HttpError string :=
  if bool_decide (audience request = Some "") then Err (invalid_request "audience must not be empty")
  else if bool_decide (resource request = Some "") then Err (invalid_target "resource must not be empty")
  else
  let? target := map_err map_core_error (resolve_target (audience request) (resource request)) in
  if opt_is_none (target_policy_get target (target_policy (config state))) then
    Err (unknown_target target)
  else Ok target.

Definition signing_decision_for_target (state : HttpState Sg) (target : string)
    : result HttpError SigningDecision :=
  let? policy := ok_or (target_policy_get target (target_policy (config state))) (unknown_target target) in
  let alg := signer_alg (signer state) in
  let alg_is_pqc := is_pqc_jws_alg alg in
  if (negb (bool_decide (accepted_token_signing_algs policy = ∅))
      && negb (bool_decide (alg ∈ accepted_token_signing_algs policy)))%bool then
    Err (invalid_target "target does not accept the configured token signing algorithm")
  else if (pqc_required policy && negb alg_is_pqc)%bool then
    Err (invalid_target "target requires PQC token signing but the runtime signer is non-PQC")
  else if (pqc_preferred (config state) && alg_is_pqc
           && negb (bool_decide (alg ∈ pqc_preferred_algs (config state))))%bool then
    Err (invalid_target
           "configured PQC token signing algorithm is not allowed by STS_PQC_PREFERRED_ALGS")
  else if (pqc_preferred (config state) && negb alg_is_pqc)%bool then
    if negb (allow_non_pqc (config state)) then
      Err (invalid_target "PQC token signing is preferred and non-PQC fallback is disabled")
    else Ok (mkDecision alg true (Some "pqc_signer_not_selected"))
  else Ok (mkDecision alg false None).

Definition resolve_scope_for_request (request : ExchangeRequest) (state : HttpState Sg)
    (subject_claims : SubjectTokenClaims) (target : string) : result HttpError string :=
  let? policy := ok_or (target_policy_get target (target_policy (config state))) (unknown_target target) in
  let allowed := join_scope_set (allowed_scopes policy) in
  let default_scope := join_scope_set (default_scopes policy) in
  let requested_scope := opt_or (non_blank (scope request)) (non_empty_form_value default_scope) in
  let? subject := subject_scope_string subject_claims in
  map_err map_core_error
    (downscope requested_scope allowed subject (subject_scope_bound_required (config state))).

End Gates.

(** * Effects of the handlers *)

Section Handlers.
Context {Sg St : Type} `{JoseSigner Sg} `{ReplayStore St} `{HttpLib} `{UrlLib} `{Features} `{Base64}
  `{Jwt} `{OpenSsl} `{DpopLib} `{JsonReader} `{Sha256}
  `{FromJson CompactJwsHeader} `{FromJson SubjectTokenClaims} `{FromJson AssertionClaims}
  `{FromJson MintedClaims}.

Definition Http (A : Type) : Type := Eff (World St) HttpError A.

Definition unix_now : Http Z := now_unix.

Definition new_jti : Http string := fun w =>
  let '(bytes, w') := fill_bytes w in (Ok (b64_encode bytes), w').

(** [state.replay.check_and_record(..)], with the caller's error mapping. *)
Definition replay_check (map_error : ReplayError -> HttpError) (jti : string) (exp now : Z)
    : Http unit := fun w =>
  let '(r, p) := policy_check_and_record jti exp now (w_replay w) in
  (map_err map_error r, set_replay p w).

Definition record_client_assertion_replay (claims : AssertionClaims) (now : Z) : Http unit :=
  do? jti <- client_assertion_jti claims in
  replay_check map_client_assertion_replay_error ("ca:" +:+ as_sub claims +:+ ":" +:+ jti)
    (as_exp claims) now.

Definition record_dpop_replay (binding : DpopBinding) (now : Z) : Http unit :=
  replay_check map_dpop_replay_error (dpop_replay_key (db_jkt binding) (db_jti binding))
    (db_replay_expires_at binding) now.

Definition validate_dpop_header (headers : HeaderMap) (state : HttpState Sg) (now : Z)
    : result HttpError (option DpopBinding) :=
  match header_get_all "dpop" headers with
  | [] => Ok None
  | _ :: _ :: _ => Err (invalid_dpop_proof "multiple DPoP header fields are not allowed")
  | [proof] =>
      let? proof := ok_or (header_to_str proof)
        (invalid_dpop_proof "DPoP proof missing or not a string") in
      map_err map_dpop_error (res_map Some
        (validate_dpop_proof (mkProofRequest proof "POST" (token_endpoint state) now
                                (cfg_clock_skew_leeway (config state)))))
  end.

(** The options every assertion is verified with. *)
Definition assertion_options (state : HttpState Sg) (endpoint : string)
    (binding : option string) (require : bool) : AssertionVerificationOptions :=
  mkAssertionOptions (our_issuer (config state)) [our_issuer (config state); endpoint]
    (cfg_clock_skew_leeway (config state)) (assertion_max_ttl (config state)) binding require
    (Some (key_binding_registry_of state)).

Definition verify_actor_token (state : HttpState Sg) (actor_token subject_token : string)
    : Http AssertionClaims :=
  eff_map_err (fun err => invalid_client (verify_message err))
    (verify_assertion_with_allowed_algs actor_token (actor_jwks state)
       (inbound_assertion_algs (config state))
       (assertion_options state (token_endpoint state) (Some subject_token)
          (cfg_require_subject_binding (config state)))).

(** The three client-authentication members that must not be blank. *)
Definition reject_blank_client_auth (request : ExchangeRequest) : result HttpError unit :=
  let? _ := try_map (fun fv : string * option string =>
      if is_some_and (fun value => is_empty (trim value)) fv.2 then
        Err (invalid_client (fv.1 +:+ " present but empty"))
      else Ok tt)
    [("client_assertion", client_assertion request);
     ("client_assertion_type", client_assertion_type request); ("client_id", client_id request)] in
  Ok tt.

Definition has_client_auth (request : ExchangeRequest) : bool :=
  opt_is_some (client_assertion request) || opt_is_some (client_assertion_type request)
  || opt_is_some (client_id request).

(** The part that both client-authentication paths share: the assertion is
    verified for an endpoint, its subject is a configured client, and it agrees
    with a [client_id] that was sent. *)
Definition verify_client_assertion (state : HttpState Sg) (request : ExchangeRequest)
    (endpoint : string) : Http AssertionClaims :=
  do? _ <- reject_blank_client_auth request in
  do? _ <- validate_client_assertion_type request in
  do? assertion <- ok_or (client_assertion request) (invalid_client "client_assertion required") in
  do! claims <- eff_map_err (fun err => invalid_client (verify_message err))
    (verify_assertion_with_allowed_algs assertion (client_jwks state)
       (inbound_assertion_algs (config state)) (assertion_options state endpoint None false)) in
  if negb (bool_decide (as_sub claims ∈ client_ids (config state))) then
    eff_err (invalid_client ("client " +:+ debug_str (as_sub claims) +:+ " not permitted"))
  else if is_some_and (fun client_id => negb (bool_decide (client_id = as_sub claims)))
            (client_id request) then
    eff_err (invalid_client "client_id does not match the authenticated client_assertion")
  else
  do? _ <- client_assertion_jti claims in
  eff_ret claims.

Definition authenticate_client_if_present (state : HttpState Sg) (request : ExchangeRequest)
    (mode : EffectiveExchangeMode) : Http (option AssertionClaims) :=
  if (bool_decide (mode = MImpersonation) && opt_is_some (actor_token request))%bool then
    eff_err (invalid_client "impersonation requires client_assertion, not actor_token")
  else if (bool_decide (mode = MImpersonation) && negb (has_client_auth request))%bool then
    eff_err (invalid_client "impersonation requires client_assertion")
  else if (bool_decide (client_auth_policy (config state) = PrivateKeyJwtRequired)
           && negb (has_client_auth request))%bool then
    eff_err (invalid_client "client_assertion required by CLIENT_AUTH_POLICY")
  else if negb (has_client_auth request) then eff_ret None
  else
  do! claims <- verify_client_assertion state request (token_endpoint state) in
  if (bool_decide (mode = MDelegation) && opt_is_none (actor_token request))%bool then
    eff_err (invalid_request "actor_token required for delegation")
  else eff_ret (Some claims).

Definition authenticate_online_client (state : HttpState Sg) (form : OnlineTokenForm)
    (endpoint : string) : Http AssertionClaims :=
  let d := default_exchange_request in
  let request := mkExchangeRequest (grant_type d) (subject_token d) (subject_token_type d)
    (actor_token d) (actor_token_type d) (audience d) (resource d) (scope d) (requested_token_type d)
    (of_client_id form) (of_client_assertion form) (of_client_assertion_type form) in
  if negb (has_client_auth request) then eff_err (invalid_client "client_assertion required")
  else verify_client_assertion state request endpoint.

(** [state.metrics.record_signing(..)]. *)
Definition record_signing_metric (d : SigningDecision) : Http unit := fun w =>
  (Ok tt, set_metrics (record_signing d (w_metrics w)) w).

(** The expiry given to a minted token: the least of the configured lifetime
    and the expiries it derives from. *)
Definition minted_exp (now ttl subject_exp authority_exp : Z) : Z :=
  Z.min (i64_add now ttl) (Z.min subject_exp authority_exp).

(** The end of both exchanges: mint, sign, count, answer. *)
Definition mint (state : HttpState Sg) (exchange : VerifiedExchange) (now exp : Z)
    (client : string) (act : option ActClaim) (decision : SigningDecision)
    : Http (HeaderMap * TokenResponse) :=
  do! jti <- new_jti in
  let payload := build_scoped_payload (our_issuer (config state)) (ve_subject_sub exchange)
    (ve_target exchange) (ve_scope exchange) now exp jti client act
    (option_map db_jkt (ve_dpop_binding exchange)) in
  let payload := mkMintedClaims (mc_iss payload) (mc_sub payload) (mc_aud payload) (mc_scope payload)
    (mc_iat payload) (mc_exp payload) (mc_jti payload) (mc_client_id payload) (mc_act payload)
    (mc_cnf_jkt payload) (st_auth_time (ve_subject_claims exchange))
    (st_acr (ve_subject_claims exchange)) (default [] (st_amr (ve_subject_claims exchange))) in
  do? access_token <- map_err (fun _ => server_error "internal error")
    (sign_claims (signer state) payload) in
  do! _ <- record_signing_metric decision in
  eff_ret (token_headers,
    mkTokenResponse access_token ACCESS_TOKEN_TYPE (token_type_for_sender (ve_dpop_binding exchange))
      (Z.max (i64_sub exp now) 0) (ve_scope exchange) (sd_alg decision) (sd_pqc_fallback decision)
      (sd_pqc_fallback_reason decision)).

(** [if let Some(..) = .. { record(..)?; }]. *)
Definition when_some {A} (o : option A) (f : A -> Http unit) : Http unit :=
  match o with Some a => f a | None => eff_ret tt end.

Definition exchange_delegation (state : HttpState Sg) (request : ExchangeRequest)
    (exchange : VerifiedExchange) : Http (HeaderMap * TokenResponse) :=
  do? actor_token <- ok_or (actor_token request)
    (if opt_is_some (ve_client_claims exchange)
     then invalid_request "actor_token required for delegation"
     else invalid_client "no client authentication: send a client_assertion or an actor_token") in
  do! actor_claims <- verify_actor_token state actor_token (subject_token request) in
  do? _ <- validate_actor_identity state actor_claims in
  do? _ <- gate_may_act (ve_subject_claims exchange) actor_claims in
  do? decision <- signing_decision_for_target state (ve_target exchange) in
  do! now <- unix_now in
  do? prior_act <- opt_traverse act_claim_from_value (st_act (ve_subject_claims exchange)) in
  let act := build_act (as_sub actor_claims) prior_act in
  do? actor_jti <- ok_or (opt_filter (fun value => negb (is_empty (trim value))) (as_jti actor_claims))
    (invalid_client "actor_token jti must be a non-empty string") in
  do! _ <- replay_check map_replay_error ("act:" +:+ as_sub actor_claims +:+ ":" +:+ actor_jti)
    (as_exp actor_claims) now in
  do! _ <- when_some (ve_client_claims exchange)
    (fun client_claims => record_client_assertion_replay client_claims now) in
  do! _ <- when_some (ve_dpop_binding exchange) (fun binding => record_dpop_replay binding now) in
  let exp := minted_exp now (scoped_token_ttl (config state)) (st_exp (ve_subject_claims exchange))
               (as_exp actor_claims) in
  mint state exchange now exp (as_sub actor_claims) (Some act) decision.

(** The three checks of the impersonation policy. *)
Definition impersonation_gate (state : HttpState Sg) (client target subject : string)
    : result HttpError unit :=
  let? policy_entry := ok_or (impersonation_policy_get client (impersonation_policy (config state)))
    (invalid_request ("impersonation not authorized for client " +:+ debug_str client)) in
  if negb (selector_allows (imp_targets policy_entry) target) then
    Err (invalid_target ("impersonation to " +:+ debug_str target
           +:+ " not authorized for client " +:+ debug_str client))
  else if negb (selector_allows (imp_subjects policy_entry) subject) then
    Err (invalid_request ("impersonation of subject " +:+ debug_str subject
           +:+ " not authorized for client " +:+ debug_str client))
  else Ok tt.

Definition exchange_impersonation (state : HttpState Sg) (request : ExchangeRequest)
    (exchange : VerifiedExchange) : Http (HeaderMap * TokenResponse) :=
  if opt_is_some (actor_token request) then
    eff_err (invalid_client "impersonation requires client_assertion, not actor_token")
  else
  do? client_claims <- ok_or (ve_client_claims exchange)
    (invalid_client "impersonation requires client_assertion") in
  do? _ <- impersonation_gate state (as_sub client_claims) (ve_target exchange)
    (ve_subject_sub exchange) in
  do? decision <- signing_decision_for_target state (ve_target exchange) in
  do! now <- unix_now in
  do! _ <- record_client_assertion_replay client_claims now in
  do! _ <- when_some (ve_dpop_binding exchange) (fun binding => record_dpop_replay binding now) in
  let exp := minted_exp now (scoped_token_ttl (config state)) (st_exp (ve_subject_claims exchange))
               (as_exp client_claims) in
  mint state exchange now exp (as_sub client_claims) None decision.

Definition token_inner (headers : HeaderMap) (state : HttpState Sg) (body : string)
    : Http (HeaderMap * TokenResponse) :=
  do? form <- parse_token_form headers body in
  let request := into_exchange_request form in
  do? _ <- validate_request_params request (max_token_len (config state)) in
  let mode := effective_exchange_mode (config state) request (tf_empty_actor_token_supplied form) in
  do! client_claims <- authenticate_client_if_present state request mode in
  do! now <- unix_now in
  do? dpop_binding <- validate_dpop_header headers state now in
  do! subject_claims <- eff_map_err map_subject_verify_error
    (verify_subject_token (subject_token request) (subject_jwks state) (idp_issuer (config state))
       (btree_iter (expected_subject_aud (config state))) (cfg_clock_skew_leeway (config state))) in
  do? target <- resolve_target_for_request request state in
  do? scope <- resolve_scope_for_request request state subject_claims target in
  do? subject_sub <- ok_or (opt_filter (fun value => negb (is_empty (trim value))) (st_sub subject_claims))
    (invalid_grant "subject token missing sub") in
  let exchange := mkExchange subject_claims subject_sub target scope client_claims dpop_binding in
  match mode with
  | MDelegation => exchange_delegation state request exchange
  | MImpersonation => exchange_impersonation state request exchange
  end.

(** The [token] handler: the outcome is counted, whatever it is. *)
Definition token (headers : HeaderMap) (state : HttpState Sg) (body : string)
    : Http (HeaderMap * TokenResponse) := fun w =>
  let '(r, w') := token_inner headers state body w in
  (r, set_metrics (record_exchange r (w_metrics w')) w').

(** * Introspection and revocation *)

(** [verified_sts_access_token]: [None] is "not a live token of this server". *)
Definition verified_sts_access_token (state : HttpState Sg) (token : string) (now : Z)
    (check_revocation : bool) (w : World St) : option MintedClaims * World St :=
  match verify_claims_against_jwks_with_header token (published_jwks state) with
  | Err _ => (None, w)
  | Ok verified =>
      let claims : MintedClaims := v_claims verified in
      if negb (bool_decide (v_typ verified = Some "at+jwt")) then (None, w)
      else if negb (bool_decide (mc_iss claims = our_issuer (config state))) then (None, w)
      else if opt_is_none (target_policy_get (mc_aud claims) (target_policy (config state))) then (None, w)
      else if (is_empty (trim (mc_sub claims)) || is_empty (trim (mc_client_id claims))
               || is_empty (trim (mc_scope claims)))%bool then (None, w)
      else if ((mc_exp claims <=? now)
               || (i64_add now (cfg_clock_skew_leeway (config state)) <? mc_iat claims))%Z%bool then (None, w)
      else if check_revocation then
        let '(revoked, r) := is_revoked_or_unavailable token now (w_revocations w) in
        (if revoked then None else Some claims, set_revocations r w)
      else (Some claims, w)
  end.

(** [serde_json::to_value] of an [ActClaim] cannot fail. *)
Definition introspection_body (claims : MintedClaims) : Value :=
  let body := [("active", VBool true); ("iss", VString (mc_iss claims)); ("sub", VString (mc_sub claims));
               ("aud", VString (mc_aud claims)); ("scope", VString (mc_scope claims));
               ("exp", json_i64 (mc_exp claims)); ("iat", json_i64 (mc_iat claims));
               ("client_id", VString (mc_client_id claims))]
    ++ match mc_act claims with Some act => [("act", VObject (act_claim_fields act))] | None => [] end
    ++ match mc_cnf_jkt claims with
       | Some jkt => [("cnf", json_object [("jkt", VString jkt)])]
       | None => []
       end in
  json_object body.

Definition introspection_response_for_token (state : HttpState Sg) (token : string) (now : Z)
    : Http Value := fun w =>
  let '(claims, w') := verified_sts_access_token state token now true w in
  (Ok match claims with
      | None => json_object [("active", VBool false)]
      | Some claims => introspection_body claims
      end, w').

Definition introspect (headers : HeaderMap) (state : HttpState Sg) (body : string)
    : Http (HeaderMap * Value) :=
  do? form <- parse_online_token_form headers body in
  do? token <- required_online_token form (max_token_len (config state)) in
  do! claims <- authenticate_online_client state form (introspection_endpoint state) in
  do! now <- unix_now in
  do! _ <- record_client_assertion_replay claims now in
  do! now2 <- unix_now in
  do! response <- introspection_response_for_token state token now2 in
  eff_ret (token_headers, response).

(** [state.revocations.revoke(..)]. *)
Definition revoke_in_world (token : string) (exp now max_seen : Z) : Http unit := fun w =>
  let '(r, revocations) := revoke_token token exp now max_seen (w_revocations w) in
  (r, set_revocations revocations w).

Definition revoke (headers : HeaderMap) (state : HttpState Sg) (body : string) : Http HttpResponse :=
  do? form <- parse_online_token_form headers body in
  do? token <- required_online_token form (max_token_len (config state)) in
  do! claims <- authenticate_online_client state form (revocation_endpoint state) in
  do! now <- unix_now in
  do! _ <- record_client_assertion_replay claims now in
  do! now2 <- unix_now in
  do! token_claims <- (fun w => let '(c, w') := verified_sts_access_token state token now2 false w in (Ok c, w')) in
  do! _ <- match token_claims with
           | None => eff_ret tt
           | Some token_claims =>
               do! now3 <- unix_now in
               revoke_in_world token (mc_exp token_claims) now3 (max_seen_jti (config state))
           end in
  eff_ret (mkHttpResponse 200 token_headers None).

End Handlers.
