(* ===== verification/HttpToy.v ===== *)
(** A server small enough to evaluate: libraries that decode by table, one key,
    one target, a clock that stands still.  Nothing here models code; the
    examples of the following files run on it. *)

From S2P Require Import Prelude RustStr Json Url Core Replay Jose JoseSigners Verify Config Dpop.
From S2P Require Import HttpForms HttpState HttpToken.
From Stdlib Require Import Ascii.

#[export] Instance toy_features : Features := true.
#[export] Instance toy_sha : Sha256 := fun x => x.
#[export] Instance toy_url : UrlLib := ToyUrl.lib.
#[export] Instance toy_base64 : Base64 := Toy.base64.
#[export] Instance toy_jwt : Jwt := Toy.jwt.
#[export] Instance toy_openssl : OpenSsl := Toy.openssl.
#[export] Instance toy_dpop : DpopLib := DpopToy.lib.
#[export] Instance toy_reader : JsonReader := DpopToy.reader.
#[export] Instance toy_header : FromJson CompactJwsHeader :=
  fun _ => Ok (mkCompactJwsHeader "RS256" (Some "k1") (Some "at+jwt")).

Definition toy_subject : SubjectTokenClaims :=
  mkSubjectClaims "https://idp.example" (Some "u") (VString "api") (Some "read write") None 2000
    (Some 900%Z) None None None None None None.
Definition toy_assertion (jti : string) : AssertionClaims :=
  mkAssertionClaims "k1" "k1" (VString "https://sts.example") 1300 (Some 1000%Z) (Some jti) None.
Definition toy_minted (iat exp : Z) : MintedClaims :=
  minted_claims_new "https://sts.example" "u" "https://api.example" "read" iat exp "jti" "k1".

#[export] Instance toy_subject_json : FromJson SubjectTokenClaims := fun _ => Ok toy_subject.
#[export] Instance toy_assertion_json : FromJson AssertionClaims := fun bytes => Ok (toy_assertion bytes).
#[export] Instance toy_minted_json : FromJson MintedClaims := fun bytes =>
  if bool_decide (bytes = "t.t.t") then Ok (toy_minted 1100 1400) else Err "not a token of this server".

(** Keys and values as they stand, parted by [&] and [=]. *)
#[export] Instance toy_http : HttpLib := {|
  header_to_str := Some;
  header_value_from_str := Some;
  form_parse body :=
    map (fun pair => match split_char "="%char pair with
                     | k :: v :: _ => (k, v)
                     | _ => (pair, "")
                     end) (split_char "&"%char body)
|}.

Definition toy_jwks : JwksDocument := mkJwksDocument [Toy.rsa_jwk].

#[export] Instance toy_signer : JoseSigner unit := {|
  signer_alg _ := "RS256";
  sign_claims _ _ := Ok "t.t.t";
  public_jwks _ := toy_jwks;
  verify_claims _ _ := Ok (toy_minted 1100 1400)
|}.

Definition toy_target : TargetPolicyEntry := mkTargetEntry {["read"]} {["read"]} ∅ false.

Definition toy_config : RuntimeConfig :=
  mkConfig "https://idp.example" {["api"]} "https://sts.example" "k1" "/secrets" "/key" None None "/actors"
    "/clients" None {["k1"]} "k1" {["k1"]} Both Auto
    {["k1" := mkImpersonationEntry (Values {["https://api.example"]}) Any]}
    {["https://api.example" := toy_target]} "RS256" true true ["ML-DSA-65"] false true ["RS256"] "classical"
    None None 60 300 300 600 1000 Memory 8192 false true false false false false false None None
    "127.0.0.1:8080" true false "info" false.

Definition toy_new : HttpState unit * Shared InMemoryReplayStore :=
  http_state_new toy_config tt toy_jwks toy_jwks toy_jwks (mkReplayPolicy (in_memory_new 8 4)).
Definition toy_state : HttpState unit := toy_new.1.

Definition toy_world (now : Z) : World InMemoryReplayStore :=
  mkWorld (fun _ => Some now) 0 (fun _ => "random") 0 (sh_replay toy_new.2)
    (sh_revocations toy_new.2) (sh_metrics toy_new.2).

Definition toy_headers : HeaderMap := [("content-type", "application/x-www-form-urlencoded")].

Definition common_body : string :=
  "grant_type=" +:+ TOKEN_EXCHANGE_GRANT_TYPE +:+ "&subject_token=s.s.s&subject_token_type="
  +:+ ACCESS_TOKEN_TYPE +:+ "&audience=https://api.example&scope=read".
Definition actor_body : string :=
  common_body +:+ "&actor_token=a.a.a&actor_token_type=" +:+ JWT_TOKEN_TYPE.
Definition client_body : string :=
  common_body +:+ "&client_assertion=c.c.c&client_assertion_type=" +:+ CLIENT_ASSERTION_TYPE.
Definition online_body (assertion : string) : string :=
  "token=t.t.t&client_assertion=" +:+ assertion +:+ "&client_assertion_type=" +:+ CLIENT_ASSERTION_TYPE.

Definition toy_response : TokenResponse :=
  mkTokenResponse "t.t.t" ACCESS_TOKEN_TYPE "Bearer" 100 "read" "RS256" true (Some "pqc_signer_not_selected").

(** Every assertion that verifies here expires at the same instant, whatever
    the other libraries are. *)
Lemma toy_expiry `{Features} `{Base64} `{OpenSsl} `{FromJson CompactJwsHeader} t jwks algs (v : VerifiedJws AssertionClaims) :
  verify_claims_against_jwks_with_allowed_algs t jwks algs = Ok v -> as_exp (v_claims v) = 1300%Z.
Proof.
  assert (Hj : forall bytes (c : AssertionClaims), from_json bytes = Ok c -> as_exp c = 1300%Z).
  { by intros bytes c [= <-]. }
  unfold verify_claims_against_jwks_with_allowed_algs, verify_claims_against_jwks_inner, jose_err at 1.
  intros Hv. ok_inv. simpl. case_bool_decide.
  - unfold verify_rs256_claims_against_jwk in *. ok_inv. simpl in *. ok_inv. by eapply Hj.
  - destruct (opt_is_some _); [|done].
    match goal with Hm : verify_mldsa_claims_against_jwk _ _ _ = Ok _ |- _ =>
      apply (verify_mldsa_ok t) in Hm; inversion Hm; subst; [congruence|by eapply Hj] end.
Qed.

Lemma toy_assertions t jwks algs (v : VerifiedJws AssertionClaims) :
  verify_claims_against_jwks_with_allowed_algs t jwks algs = Ok v -> as_exp (v_claims v) = 1300%Z.
Proof. apply toy_expiry. Qed.
