(* ===== verification/HttpExchange.v ===== *)
(** What the token endpoint guarantees: who gets a token, for what, for how
    long, and what is recorded on the way.  The definitions are those of
    [HttpToken]; the signer and the replay store enter through their
    interfaces. *)

From S2P Require Import Prelude RustStr Json Url Core Replay Jose JoseSigners Verify Config Dpop.
From S2P Require Import HttpForms HttpState HttpToken HttpToy.
From Stdlib Require Import Ascii.

(** * Frames *)

(** A part of a run that reads the clock and draws random bytes, and leaves the
    stores as they were. *)
Record same_stores {S} (w w' : World S) : Prop := {
  same_replay : w_replay w' = w_replay w;
  same_revocations : w_revocations w' = w_revocations w;
  same_metrics : w_metrics w' = w_metrics w;
  same_time : w_time w' = w_time w;
  later_reads : w_reads w <= w_reads w'
}.

#[export] Instance same_stores_preorder {S} : PreOrder (@same_stores S).
Proof. split; [done|]. intros x y z [] []. split; first [congruence|lia]. Qed.

(** The token endpoint writes to the replay store and counts signatures; it
    leaves the revocation list and the outcome counters alone. *)
Record outside_replay {S} (w w' : World S) : Prop := {
  or_revocations : w_revocations w' = w_revocations w;
  or_minted : exchanges_minted (w_metrics w') = exchanges_minted (w_metrics w);
  or_denied : exchanges_denied (w_metrics w') = exchanges_denied (w_metrics w);
  or_time : w_time w' = w_time w;
  or_reads : w_reads w <= w_reads w'
}.

(** What every handler leaves alone but for counting its outcome. *)
Record same_counts {S} (w w' : World S) : Prop := {
  sc_minted : exchanges_minted (w_metrics w') = exchanges_minted (w_metrics w);
  sc_denied : exchanges_denied (w_metrics w') = exchanges_denied (w_metrics w);
  sc_time : w_time w' = w_time w;
  sc_reads : w_reads w <= w_reads w'
}.

(** A frame: a preorder on worlds that reading the clock respects. *)
Class IsFrame {S} (R : relation (World S)) : Prop := {
  frame_preorder :: PreOrder R;
  frame_quiet w w' : same_stores w w' -> R w w'
}.

(** A computation stays inside a frame, whatever its outcome. *)
Class Frame {S E A} (R : relation (World S)) (m : Eff (World S) E A) : Prop :=
  frame w : R w (m w).2.

#[export] Instance same_stores_frame {S} : IsFrame (@same_stores S).
Proof. split; [apply _|done]. Qed.
#[export] Instance outside_replay_frame {S} : IsFrame (@outside_replay S).
Proof.
  split; [split; [done|]; intros x y z [] []; split; first [congruence|lia]|].
  intros w w' []. split; congruence.
Qed.
#[export] Instance same_counts_frame {S} : IsFrame (@same_counts S).
Proof.
  split; [split; [done|]; intros x y z [] []; split; first [congruence|lia]|].
  intros w w' []. split; congruence.
Qed.

Section Frames.
Context {S : Type} (R : relation (World S)) `{!IsFrame R}.

#[export] Instance frame_ret {E A} (a : A) : Frame (E := E) R (eff_ret a).
Proof. intros w. done. Qed.
#[export] Instance frame_err {E A} (e : E) : Frame (A := A) R (eff_err e).
Proof. intros w. done. Qed.
#[export] Instance frame_lift {E A} (r : result E A) : Frame R (eff_lift r).
Proof. intros w. done. Qed.
#[export] Instance frame_bind {E A B} (m : Eff (World S) E A) (f : A -> Eff (World S) E B) :
  Frame R m -> (forall a, Frame R (f a)) -> Frame R (eff_bind m f).
Proof.
  intros Hm Hf w. unfold eff_bind. pose proof (Hm w) as H1. destruct (m w) as [[a|e] w1]; [|done].
  etrans; [exact H1|apply Hf].
Qed.
#[export] Instance frame_map_err {E F A} (g : E -> F) (m : Eff (World S) E A) :
  Frame R m -> Frame R (eff_map_err g m).
Proof. intros Hm w. unfold eff_map_err. pose proof (Hm w). by destruct (m w). Qed.
#[export] Instance frame_now {E} : Frame R (@now_unix (World S) E _).
Proof. intros w. apply frame_quiet. split; simpl; first [done|lia]. Qed.
#[export] Instance frame_if {E A} (b : bool) (m1 m2 : Eff (World S) E A) :
  Frame R m1 -> Frame R m2 -> Frame R (if b then m1 else m2).
Proof. by destruct b. Qed.
#[export] Instance frame_option {E A B} (o : option B) (f : B -> Eff (World S) E A) (m : Eff (World S) E A) :
  (forall b, Frame R (f b)) -> Frame R m -> Frame R (match o with Some b => f b | None => m end).
Proof. destruct o; auto. Qed.
#[export] Instance frame_mode {E A} (o : EffectiveExchangeMode) (m1 m2 : Eff (World S) E A) :
  Frame R m1 -> Frame R m2 -> Frame R (match o with MDelegation => m1 | MImpersonation => m2 end).
Proof. destruct o; auto. Qed.
End Frames.

Section HandlerFrames.
Context {Sg St : Type} `{JoseSigner Sg} `{ReplayStore St} `{HttpLib} `{UrlLib} `{Features} `{Base64}
  `{Jwt} `{OpenSsl} `{DpopLib} `{JsonReader} `{Sha256}
  `{FromJson CompactJwsHeader} `{FromJson SubjectTokenClaims} `{FromJson AssertionClaims}
  `{FromJson MintedClaims}.

Section Verifying.
Context (R : relation (World St)) `{!IsFrame R}.

#[export] Instance frame_time_window exp nbf leeway : Frame R (validate_time_window exp nbf leeway).
Proof. unfold validate_time_window. apply _. Qed.
#[export] Instance frame_lifetime claims ttl leeway :
  Frame R (validate_assertion_lifetime claims ttl leeway).
Proof. unfold validate_assertion_lifetime. apply _. Qed.
#[export] Instance frame_assertion token jwks algs o :
  Frame R (verify_assertion_with_allowed_algs token jwks algs o).
Proof. unfold verify_assertion_with_allowed_algs. apply _. Qed.
#[export] Instance frame_subject token jwks iss auds leeway :
  Frame R (verify_subject_token token jwks iss auds leeway).
Proof. unfold verify_subject_token. apply _. Qed.
#[export] Instance frame_client (state : HttpState Sg) request endpoint :
  Frame R (verify_client_assertion state request endpoint).
Proof. unfold verify_client_assertion. apply _. Qed.
#[export] Instance frame_authenticate (state : HttpState Sg) request mode :
  Frame R (authenticate_client_if_present state request mode).
Proof. unfold authenticate_client_if_present. apply _. Qed.
#[export] Instance frame_actor (state : HttpState Sg) token subject :
  Frame R (verify_actor_token state token subject).
Proof. unfold verify_actor_token. apply _. Qed.
#[export] Instance frame_unix_now : Frame R (unix_now (St := St)).
Proof. unfold unix_now. apply _. Qed.
#[export] Instance frame_new_jti : Frame R (new_jti (St := St)).
Proof. intros w. apply frame_quiet. split; simpl; first [done|lia]. Qed.
#[export] Instance frame_online (state : HttpState Sg) form endpoint :
  Frame R (authenticate_online_client state form endpoint).
Proof. unfold authenticate_online_client. apply _. Qed.
End Verifying.

#[export] Instance frame_outside_counts {E A} (m : Eff (World St) E A) :
  Frame outside_replay m -> Frame same_counts m | 100.
Proof. intros Hm w. destruct (Hm w). by split. Qed.

#[export] Instance frame_replay_check f k e n : Frame (S := St) outside_replay (replay_check f k e n).
Proof. intros w. unfold replay_check. by destruct (policy_check_and_record _ _ _ _). Qed.
#[export] Instance frame_record_client claims now :
  Frame (S := St) outside_replay (record_client_assertion_replay claims now).
Proof. unfold record_client_assertion_replay. apply _. Qed.
#[export] Instance frame_record_dpop binding now : Frame (S := St) outside_replay (record_dpop_replay binding now).
Proof. unfold record_dpop_replay. apply _. Qed.
#[export] Instance frame_when_some {A} (o : option A) (f : A -> Http unit) :
  (forall a, Frame (S := St) outside_replay (f a)) -> Frame outside_replay (when_some o f).
Proof. unfold when_some. apply _. Qed.
#[export] Instance frame_signing_metric d : Frame (S := St) outside_replay (record_signing_metric d).
Proof. intros w. done. Qed.
#[export] Instance frame_mint (state : HttpState Sg) ex now exp client act decision :
  Frame (S := St) outside_replay (mint state ex now exp client act decision).
Proof. unfold mint. apply _. Qed.
#[export] Instance frame_delegation (state : HttpState Sg) request ex :
  Frame (S := St) outside_replay (exchange_delegation state request ex).
Proof. unfold exchange_delegation. apply _. Qed.
#[export] Instance frame_impersonation (state : HttpState Sg) request ex :
  Frame (S := St) outside_replay (exchange_impersonation state request ex).
Proof. unfold exchange_impersonation. apply _. Qed.
#[export] Instance frame_token_inner headers (state : HttpState Sg) body :
  Frame (S := St) outside_replay (token_inner headers state body).
Proof. unfold token_inner. apply _. Qed.
End HandlerFrames.

(** * Inversion of the handlers' steps *)

Lemma frame_run {S E A} (R : relation (World S)) (m : Eff (World S) E A) `{!Frame R m} w r w' :
  m w = (r, w') -> R w w'.
Proof. intros Hm. pose proof (frame (R := R) (m := m) w) as Hq. by rewrite Hm in Hq. Qed.

(** What every step of a run that stays in the frame [R] left alone. *)
Ltac track R :=
  repeat match goal with
  | Hx : ?m ?a = (_, ?b) |- _ =>
      lazymatch type of a with World ?S =>
        lazymatch goal with Hs : R S a b |- _ => fail | _ => idtac end;
        let Hq := fresh "Hq" in assert (Hq : Frame (R S) m) by apply _;
        let Hs := fresh "Hs" in assert (Hs : R S a b) by exact (frame_run (R S) m _ _ _ Hx);
        clear Hq
      end
  end.
Ltac chain :=
  match goal with
  | |- ?R ?a ?a => reflexivity
  | Hs : ?R ?a ?b |- ?R ?a ?c => etrans; [exact Hs|chain]
  end.
Ltac unchanged :=
  track (@same_stores);
  match goal with |- w_replay ?b = w_replay ?a =>
    let Hs := fresh "Hs" in assert (Hs : same_stores a b) by chain; apply Hs end.

Section Steps.
Context {Sg St : Type} `{JoseSigner Sg} `{ReplayStore St} `{HttpLib} `{UrlLib} `{Features} `{Base64}
  `{Jwt} `{OpenSsl} `{DpopLib} `{JsonReader} `{Sha256}
  `{FromJson CompactJwsHeader} `{FromJson SubjectTokenClaims} `{FromJson AssertionClaims}
  `{FromJson MintedClaims}.

Lemma replay_check_run f k e n (w : World St) r w' :
  replay_check f k e n w = (r, w') ->
  exists r0 s1, check_and_record k e n (store (w_replay w)) = (r0, s1) /\ r = map_err f r0 /\
    w' = set_replay (mkReplayPolicy s1) w.
Proof.
  unfold replay_check, policy_check_and_record. destruct (check_and_record _ _ _ _) as [r0 s1].
  intros [= <- <-]. eauto.
Qed.

Lemma replay_check_ok f k e n (w : World St) u w' :
  replay_check f k e n w = (Ok u, w') ->
  exists s1, check_and_record k e n (store (w_replay w)) = (Ok tt, s1) /\
    w' = set_replay (mkReplayPolicy s1) w.
Proof.
  intros (r0 & s1 & Hc & Hr & ->)%replay_check_run. destruct r0 as [[]|]; [|done]. eauto.
Qed.

(** The calls on the replay store that an optional recording made. *)
Definition recorded (now : Z) (exps : list Z) (w w' : World St) : Prop :=
  exists calls, store (w_replay w') = run_calls calls (store (w_replay w)) /\
    Forall (fun c => c_now c = now /\ c_exp c ∈ exps) calls.

Lemma recorded_refl now exps w : recorded now exps w w.
Proof. by exists []. Qed.

Lemma recorded_trans now e1 e2 w1 w2 w3 :
  recorded now e1 w1 w2 -> recorded now e2 w2 w3 -> recorded now (e1 ++ e2) w1 w3.
Proof.
  intros (c1 & H1' & F1) (c2 & H2' & F2). exists (c1 ++ c2). split.
  - by rewrite H2', H1', run_calls_app.
  - apply Forall_app. split; eapply Forall_impl; try done; simpl; intros c [-> Hc]; set_solver.
Qed.

Lemma record_client_ok claims now (w : World St) u w' :
  record_client_assertion_replay claims now w = (Ok u, w') -> recorded now [as_exp claims] w w'.
Proof.
  unfold record_client_assertion_replay. intros Hr. ok_inv.
  match goal with Hx : replay_check _ _ _ _ _ = _ |- _ => apply replay_check_ok in Hx as (s1 & Hc & ->) end.
  eexists [mkCall _ _ _]. simpl. rewrite Hc. split; [done|]. repeat constructor; simpl; set_solver.
Qed.

Lemma record_dpop_ok binding now (w : World St) u w' :
  record_dpop_replay binding now w = (Ok u, w') -> recorded now [db_replay_expires_at binding] w w'.
Proof.
  unfold record_dpop_replay. intros (s1 & Hc & ->)%replay_check_ok.
  eexists [mkCall _ _ _]. simpl. rewrite Hc. split; [done|]. repeat constructor; simpl; set_solver.
Qed.

(** The expiries the optional recordings of an exchange may use. *)
Definition client_exps (ex : VerifiedExchange) : list Z :=
  match ve_client_claims ex with Some c => [as_exp c] | None => [] end.
Definition dpop_exps (ex : VerifiedExchange) : list Z :=
  match ve_dpop_binding ex with Some b => [db_replay_expires_at b] | None => [] end.

Lemma when_client_ok ex now (w : World St) u w' :
  when_some (ve_client_claims ex) (fun c => record_client_assertion_replay c now) w = (Ok u, w') ->
  recorded now (client_exps ex) w w'.
Proof.
  unfold when_some, client_exps. destruct (ve_client_claims ex); [apply record_client_ok|].
  intros Hr. ok_inv. apply recorded_refl.
Qed.

Lemma when_dpop_ok ex now (w : World St) u w' :
  when_some (ve_dpop_binding ex) (fun b => record_dpop_replay b now) w = (Ok u, w') ->
  recorded now (dpop_exps ex) w w'.
Proof.
  unfold when_some, dpop_exps. destruct (ve_dpop_binding ex); [apply record_dpop_ok|].
  intros Hr. ok_inv. apply recorded_refl.
Qed.

(** The claims [mint] signs. *)
Definition minted_payload (state : HttpState Sg) (ex : VerifiedExchange) (now exp : Z) (jti client : string)
    (act : option ActClaim) : MintedClaims :=
  mkMintedClaims (our_issuer (config state)) (ve_subject_sub ex) (ve_target ex) (ve_scope ex) now exp jti
    client act (option_map db_jkt (ve_dpop_binding ex)) (st_auth_time (ve_subject_claims ex))
    (st_acr (ve_subject_claims ex)) (default [] (st_amr (ve_subject_claims ex))).

Lemma mint_ok state ex now exp client act decision (w : World St) h resp w' :
  mint state ex now exp client act decision w = (Ok (h, resp), w') ->
  h = token_headers /\ w_replay w' = w_replay w /\
  exists jti token, sign_claims (signer state) (minted_payload state ex now exp jti client act) = Ok token /\
    resp = mkTokenResponse token ACCESS_TOKEN_TYPE (token_type_for_sender (ve_dpop_binding ex))
             (Z.max (i64_sub exp now) 0) (ve_scope ex) (sd_alg decision) (sd_pqc_fallback decision)
             (sd_pqc_fallback_reason decision).
Proof.
  unfold mint, new_jti, record_signing_metric, fill_bytes. intros Hm. ok_inv.
  split; [done|]. split; [done|]. do 2 eexists. split; [done|done].
Qed.

Lemma actor_identity_ok (state : HttpState Sg) ac u :
  validate_actor_identity state ac = Ok u -> as_sub ac ∈ actor_ids (config state) /\ as_iss ac = as_sub ac.
Proof. unfold validate_actor_identity. intros Hv. ok_inv. by bool_hyps. Qed.

Lemma delegation_ok (state : HttpState Sg) request ex (w : World St) r w' :
  exchange_delegation state request ex w = (Ok r, w') ->
  exists token ac w1 decision now w2 prior jti s1 w3,
    actor_token request = Some token /\
    verify_actor_token state token (subject_token request) w = (Ok ac, w1) /\
    as_sub ac ∈ actor_ids (config state) /\
    gate_may_act (ve_subject_claims ex) ac = Ok tt /\
    signing_decision_for_target state (ve_target ex) = Ok decision /\
    same_stores w w1 /\ unix_now w1 = (Ok now, w2) /\ outside_replay w2 w' /\
    opt_traverse act_claim_from_value (st_act (ve_subject_claims ex)) = Ok prior /\
    as_jti ac = Some jti /\
    check_and_record ("act:" +:+ as_sub ac +:+ ":" +:+ jti) (as_exp ac) now (store (w_replay w)) = (Ok tt, s1) /\
    recorded now (client_exps ex ++ dpop_exps ex) (set_replay (mkReplayPolicy s1) w2) w3 /\
    mint state ex now (minted_exp now (scoped_token_ttl (config state)) (st_exp (ve_subject_claims ex))
      (as_exp ac)) (as_sub ac) (Some (build_act (as_sub ac) prior)) decision w3 = (Ok r, w').
Proof.
  unfold exchange_delegation. intros Hd. ok_inv. track (@outside_replay).
  match goal with Hx : unix_now _ = (Ok _, ?b) |- _ =>
    assert (Ho : outside_replay b w') by chain end.
  repeat match goal with
  | Hx : validate_actor_identity _ _ = Ok _ |- _ => apply actor_identity_ok in Hx as [? ?]
  | Hx : replay_check _ _ _ _ _ = (Ok _, _) |- _ => apply replay_check_ok in Hx as (s1 & Hc & ->)
  | Hx : when_some (ve_client_claims _) _ _ = (Ok _, _) |- _ => apply when_client_ok in Hx
  | Hx : when_some (ve_dpop_binding _) _ _ = (Ok _, _) |- _ => apply when_dpop_ok in Hx
  | u : () |- _ => destruct u
  end.
  track (@same_stores). do 10 eexists. split_and!; try done.
  - match goal with Hc : check_and_record _ _ _ (store (w_replay ?a)) = _ |- _ =>
      assert (Hs' : same_stores w a) by chain; rewrite <- (same_replay _ _ Hs'); exact Hc end.
  - by eapply recorded_trans.
Qed.

Lemma impersonation_ok (state : HttpState Sg) request ex (w : World St) r w' :
  exchange_impersonation state request ex w = (Ok r, w') ->
  exists cc decision now w2 w3,
    actor_token request = None /\ ve_client_claims ex = Some cc /\
    impersonation_gate state (as_sub cc) (ve_target ex) (ve_subject_sub ex) = Ok tt /\
    signing_decision_for_target state (ve_target ex) = Ok decision /\
    unix_now w = (Ok now, w2) /\
    record_client_assertion_replay cc now w2 = (Ok tt, w3) /\
    exists w4, recorded now (dpop_exps ex) w3 w4 /\
    mint state ex now (minted_exp now (scoped_token_ttl (config state)) (st_exp (ve_subject_claims ex))
      (as_exp cc)) (as_sub cc) None decision w4 = (Ok r, w').
Proof.
  unfold exchange_impersonation. intros Hd. ok_inv.
  repeat match goal with
  | Hx : when_some (ve_dpop_binding _) _ _ = (Ok _, _) |- _ => apply when_dpop_ok in Hx
  | u : () |- _ => destruct u
  end.
  do 5 eexists. split_and!; try done.
  - destruct (actor_token request); done.
  - eexists. split; [done|done].
Qed.

(** * What an exchange stands on *)

(** The parts of an exchange that both modes verify, during a run that started
    in [w]. *)
Record exchange_verified (state : HttpState Sg) (headers : HeaderMap) (request : ExchangeRequest)
    (w : World St) (ex : VerifiedExchange) : Prop := {
  xv_subject : exists w1 w2, same_stores w w1 /\
    verify_subject_token (subject_token request) (subject_jwks state) (idp_issuer (config state))
      (btree_iter (expected_subject_aud (config state))) (cfg_clock_skew_leeway (config state)) w1
    = (Ok (ve_subject_claims ex), w2);
  xv_sub : st_sub (ve_subject_claims ex) = Some (ve_subject_sub ex) /\ trim (ve_subject_sub ex) <> "";
  xv_target : resolve_target (audience request) (resource request) = Ok (ve_target ex);
  xv_scope : exists policy subject,
    target_policy_get (ve_target ex) (target_policy (config state)) = Some policy /\
    subject_scope_string (ve_subject_claims ex) = Ok subject /\
    scope_tokens (ve_scope ex) <> [] /\
    forall x, x ∈ scope_tokens (ve_scope ex) ->
      x ∈ scope_tokens (join_scope_set (allowed_scopes policy)) /\
      (subject_scope_bound_required (config state) = true -> is_Some subject ->
       x ∈ scope_tokens (default "" subject));
  xv_client : forall c, ve_client_claims ex = Some c -> exists w1 w2, same_stores w w1 /\
    verify_client_assertion state request (token_endpoint state) w1 = (Ok c, w2);
  xv_dpop : exists w1 w2 now, same_stores w w1 /\ unix_now w1 = (Ok now, w2) /\
    validate_dpop_header headers state now = Ok (ve_dpop_binding ex)
}.

(** Who asks for the token, until when they may, and the [act] claim that
    records it: a permitted actor that the subject's [may_act] does not exclude,
    or a client that the impersonation policy lets act as this subject at this
    target. *)
Inductive authorized (state : HttpState Sg) (request : ExchangeRequest) (w : World St)
    (ex : VerifiedExchange) : EffectiveExchangeMode -> string -> Z -> option ActClaim -> Prop :=
| by_actor token ac prior w1 w2 :
    actor_token request = Some token -> same_stores w w1 ->
    verify_actor_token state token (subject_token request) w1 = (Ok ac, w2) ->
    as_sub ac ∈ actor_ids (config state) ->
    gate_may_act (ve_subject_claims ex) ac = Ok tt ->
    opt_traverse act_claim_from_value (st_act (ve_subject_claims ex)) = Ok prior ->
    authorized state request w ex MDelegation (as_sub ac) (as_exp ac)
      (Some (build_act (as_sub ac) prior))
| by_client cc :
    actor_token request = None -> ve_client_claims ex = Some cc ->
    as_sub cc ∈ client_ids (config state) ->
    impersonation_gate state (as_sub cc) (ve_target ex) (ve_subject_sub ex) = Ok tt ->
    authorized state request w ex MImpersonation (as_sub cc) (as_exp cc) None.

Lemma verify_client_ok (state : HttpState Sg) request endpoint (w : World St) c w' :
  verify_client_assertion state request endpoint w = (Ok c, w') -> as_sub c ∈ client_ids (config state).
Proof. unfold verify_client_assertion. intros Hv. ok_inv. by bool_hyps. Qed.

Lemma authenticate_ok (state : HttpState Sg) request mode (w : World St) o w' :
  authenticate_client_if_present state request mode w = (Ok o, w') ->
  forall c, o = Some c -> exists w2 : World St,
    verify_client_assertion state request (token_endpoint state) w = (Ok c, w2).
Proof.
  unfold authenticate_client_if_present. intros Ha c ->.
  repeat match type of Ha with (if ?b then _ else _) _ = _ => destruct b; [by ok_inv|] end.
  ok_inv. eauto.
Qed.

Lemma resolve_target_request_ok (state : HttpState Sg) request t :
  resolve_target_for_request request state = Ok t ->
  resolve_target (audience request) (resource request) = Ok t.
Proof. unfold resolve_target_for_request. intros Hr. by ok_inv. Qed.

Lemma resolve_scope_ok (state : HttpState Sg) request claims target out :
  resolve_scope_for_request request state claims target = Ok out ->
  exists policy subject,
    target_policy_get target (target_policy (config state)) = Some policy /\
    subject_scope_string claims = Ok subject /\
    scope_tokens out <> [] /\
    forall x, x ∈ scope_tokens out ->
      x ∈ scope_tokens (join_scope_set (allowed_scopes policy)) /\
      (subject_scope_bound_required (config state) = true -> is_Some subject ->
       x ∈ scope_tokens (default "" subject)).
Proof.
  unfold resolve_scope_for_request. intros Hr. ok_inv. apply downscope_ok in Hr as [Hne Ht].
  do 2 eexists. split_and!; [done|done|done|]. intros x Hx. rewrite Ht in Hx.
  apply elem_of_granted in Hx as (_ & Hx & Hb). split; [done|]. intros Hs [s ->]. apply Hb.
  simpl. by left.
Qed.

(** A run of the endpoint either fails with the stores untouched or reaches the
    exchange that the mode selects, all common checks passed. *)
Lemma token_inner_cases headers (state : HttpState Sg) body (w : World St) r w' :
  token_inner headers state body w = (r, w') ->
  (same_stores w w' /\ exists e, r = Err e) \/
  exists form ex w1, parse_token_form headers body = Ok form /\
    let request := into_exchange_request form in
    let mode := effective_exchange_mode (config state) request (tf_empty_actor_token_supplied form) in
    validate_request_params request (max_token_len (config state)) = Ok tt /\
    exchange_verified state headers request w ex /\ same_stores w w1 /\
    match mode with
    | MDelegation => exchange_delegation state request ex
    | MImpersonation => exchange_impersonation state request ex
    end w1 = (r, w').
Proof.
  unfold token_inner. intros Hr.
  repeat (apply eff_bind_cases in Hr as [(e & Hm & ->)|(? & ? & ? & Hr)];
    [left; split; [track (@same_stores); chain|by eexists]|]).
  repeat match goal with Hx : eff_lift _ _ = (Ok _, _) |- _ => apply eff_lift_ok in Hx as [? ->] end.
  repeat match goal with u : () |- _ => destruct u end.
  ok_inv. bool_hyps.
  right. eexists _, _, _. split; [done|]. cbv zeta. split; [done|]. split; [|split].
  3: exact Hr.
  - clear Hr. track (@same_stores).
    constructor; cbn [ve_subject_claims ve_subject_sub ve_target ve_scope ve_client_claims ve_dpop_binding].
    + do 2 eexists. split; [|done]. chain.
    + split; [done|]. by apply is_empty_false.
    + by eapply resolve_target_request_ok.
    + by eapply resolve_scope_ok.
    + intros c ->. eexists w. edestruct @authenticate_ok as [w2 Hw]; [eassumption|done|]. by exists w2.
    + do 3 eexists. split; [|split; [eassumption|done]]. chain.
  - clear Hr. track (@same_stores). chain.
Qed.
(** The exchange that the mode selects records nothing unless it is authorized
    and the target's signing policy is met. *)
Lemma delegation_recorded (state : HttpState Sg) request ex (w : World St) r w' :
  exchange_delegation state request ex w = (r, w') ->
  w_replay w' = w_replay w \/
  exists client authority act, authorized state request w ex MDelegation client authority act /\
    is_ok (signing_decision_for_target state (ve_target ex)) = true.
Proof.
  unfold exchange_delegation. intros Hr.
  do 8 (apply eff_bind_cases in Hr as [(e & Hm & ->)|(? & ? & ? & Hr)]; [left; unchanged|]).
  right. repeat match goal with Hx : eff_lift _ _ = (Ok _, _) |- _ => apply eff_lift_ok in Hx as [? ->] end.
  repeat match goal with u : () |- _ => destruct u end. ok_inv.
  match goal with Hx : validate_actor_identity _ _ = Ok _ |- _ => apply actor_identity_ok in Hx as [? ?] end.
  do 3 eexists. split; [eapply by_actor; first [eassumption|reflexivity]|].
  by match goal with Hx : signing_decision_for_target _ _ = Ok _ |- _ => rewrite Hx end.
Qed.

Lemma impersonation_recorded (state : HttpState Sg) request ex (w0 w : World St) headers r w' :
  exchange_verified state headers request w0 ex ->
  exchange_impersonation state request ex w = (r, w') ->
  w_replay w' = w_replay w \/
  exists client authority act, authorized state request w ex MImpersonation client authority act /\
    is_ok (signing_decision_for_target state (ve_target ex)) = true.
Proof.
  intros Hx. unfold exchange_impersonation. destruct (actor_token request) eqn:Ha; [by intros [= _ <-]; left|].
  cbn [opt_is_some]. intros Hr.
  do 4 (apply eff_bind_cases in Hr as [(e & Hm & ->)|(? & ? & ? & Hr)]; [left; unchanged|]).
  right. repeat match goal with Hx : eff_lift _ _ = (Ok _, _) |- _ => apply eff_lift_ok in Hx as [? ->] end.
  repeat match goal with u : () |- _ => destruct u end. ok_inv.
  match goal with Hc : ve_client_claims ex = Some _ |- _ =>
    destruct (xv_client _ _ _ _ _ Hx _ Hc) as (w1 & w2 & _ & Hv) end.
  do 3 eexists. split; [eapply by_client; first [eassumption|by eapply verify_client_ok]|].
  by match goal with Hx : signing_decision_for_target _ _ = Ok _ |- _ => rewrite Hx end.
Qed.

Lemma authorized_weaken (state : HttpState Sg) request (w w1 : World St) ex mode client authority act :
  same_stores w w1 -> authorized state request w1 ex mode client authority act ->
  authorized state request w ex mode client authority act.
Proof.
  intros Hs [token ac prior w2 w3|cc]; [|by eapply by_client].
  eapply (by_actor _ _ _ _ token ac prior w2 w3); try done. by etrans.
Qed.
(** The instants a world's clock gives. *)
Definition reading (w : World St) (n : nat) : Z :=
  match w_time w n with Some secs => wrap64 secs | None => 0%Z end.

Lemma unix_now_ok (w : World St) now w' :
  unix_now w = (Ok now, w') -> now = reading w (w_reads w) /\ w_reads w' = Datatypes.S (w_reads w).
Proof. by intros [= <- <-]. Qed.

(** What an actor token says does not depend on when it is verified. *)
Lemma verify_actor_claims (state : HttpState Sg) token subject (w : World St) c w' :
  verify_actor_token state token subject w = (Ok c, w') ->
  exists v, verify_claims_against_jwks_with_allowed_algs token (actor_jwks state)
              (inbound_assertion_algs (config state)) = Ok v /\ v_claims v = c.
Proof.
  unfold verify_actor_token, verify_assertion_with_allowed_algs. intros Hv. ok_inv. eauto.
Qed.

Lemma verify_client_claims (state : HttpState Sg) request endpoint (w : World St) c w' :
  verify_client_assertion state request endpoint w = (Ok c, w') ->
  exists token v, verify_claims_against_jwks_with_allowed_algs token (client_jwks state)
              (inbound_assertion_algs (config state)) = Ok v /\ v_claims v = c.
Proof.
  unfold verify_client_assertion, verify_assertion_with_allowed_algs. intros Hv. ok_inv. eauto.
Qed.

Lemma dpop_expiry_range headers (state : HttpState Sg) now b :
  validate_dpop_header headers state now = Ok (Some b) -> in_i64 (db_replay_expires_at b).
Proof.
  unfold validate_dpop_header. intros Hv. repeat case_match; simplify_eq/=. ok_inv.
  match goal with Hp : validate_dpop_proof _ = Ok _ |- _ =>
    apply accepted_content in Hp as (? & ? & _ & _ & _ & _ & _ & ->) end.
  apply saturating_add_range.
Qed.

(** An exchange that presents an actor token succeeds in delegation mode only,
    and has recorded the token's id until the token expires. *)
Lemma actor_token_recorded headers (state : HttpState Sg) body (w : World St) r w' form token :
  token_inner headers state body w = (Ok r, w') ->
  parse_token_form headers body = Ok form -> tf_actor_token form = Some token ->
  (forall t jwks algs (v : VerifiedJws AssertionClaims),
     verify_claims_against_jwks_with_allowed_algs t jwks algs = Ok v -> in_i64 (as_exp (v_claims v))) ->
  exists v jti n s1 calls,
    verify_claims_against_jwks_with_allowed_algs token (actor_jwks state)
      (inbound_assertion_algs (config state)) = Ok v /\
    as_jti (v_claims v) = Some jti /\ w_reads w <= n < w_reads w' /\
    check_and_record ("act:" +:+ as_sub (v_claims v) +:+ ":" +:+ jti) (as_exp (v_claims v)) (reading w n)
      (store (w_replay w)) = (Ok tt, s1) /\
    store (w_replay w') = run_calls calls s1 /\
    Forall (fun c => c_now c = reading w n /\ in_i64 (c_exp c)) calls.
Proof.
  intros [(_ & e & ?)|(form' & ex & w1 & Hf & _ & Hx & Hs & Hr)]%token_inner_cases Hf' Hat Hi; [done|].
  rewrite Hf in Hf'. injection Hf' as ->. destruct (effective_exchange_mode _ _ _).
  2: { apply impersonation_ok in Hr as (? & ? & ? & ? & ? & Hn & _). simpl in Hn. congruence. }
  apply delegation_ok in Hr as (t & ac & wa & d & now & w2 & prior & jti & s1 & w3 & Ht & Hv & _ & _ & _ &
    Ha & Hn & Ho & _ & Hj & Hc & (calls & Hcalls & Hall) & Hm).
  simpl in Ht. replace t with token in Hv by congruence.
  apply verify_actor_claims in Hv as (v & Hv & <-). apply unix_now_ok in Hn as [-> Hrd].
  destruct r as [h resp]. apply mint_ok in Hm as (_ & Hrep & _).
  assert (Hsa : same_stores w wa) by (by etrans).
  exists v, jti, (w_reads wa), s1, calls. unfold reading in *.
  rewrite <- (same_time _ _ Hsa), <- (same_replay _ _ Hs), Hrep. split_and!; try done.
  - apply Hsa.
  - destruct Ho. lia.
  - eapply Forall_impl; [exact Hall|]. intros c [-> Hin]. split; [done|].
    apply elem_of_app in Hin as [Hin|Hin]; unfold client_exps, dpop_exps in Hin; case_match; try set_solver.
    + apply list_elem_of_singleton in Hin as ->.
      match goal with Hc : ve_client_claims _ = Some _ |- _ =>
        destruct (xv_client _ _ _ _ _ Hx _ Hc) as (? & ? & _ & (? & ? & ? & <-)%verify_client_claims) end.
      by eapply Hi.
    + apply list_elem_of_singleton in Hin as ->.
      destruct (xv_dpop _ _ _ _ _ Hx) as (? & ? & ? & _ & _ & Hd).
      match goal with Hb : ve_dpop_binding _ = Some _ |- _ => rewrite Hb in Hd end.
      by eapply dpop_expiry_range.
Qed.
End Steps.

(** * Properties *)

Section Properties.
Context {Sg St : Type} `{JoseSigner Sg} `{ReplayStore St} `{HttpLib} `{UrlLib} `{Features} `{Base64}
  `{Jwt} `{OpenSsl} `{DpopLib} `{JsonReader} `{Sha256}
  `{FromJson CompactJwsHeader} `{FromJson SubjectTokenClaims} `{FromJson AssertionClaims}
  `{FromJson MintedClaims}.

(** C1: a token is minted only for a well-formed request whose subject token,
    target, scope, client assertion and DPoP proof (where sent) verified during
    that very run, asked for by a permitted actor or by a client that the
    impersonation policy covers, under a signing decision for the target.  What
    is signed is exactly the verified subject, target and scope with the [act]
    chain and key binding; it expires no later than the configured lifetime,
    the subject token or the caller's assertion; and the answer carries that
    token with the no-store headers. *)
Theorem token_mint_sound (headers : HeaderMap) (state : HttpState Sg) (body : string)
    (w w' : World St) (h : HeaderMap) (resp : TokenResponse) :
  token_inner headers state body w = (Ok (h, resp), w') ->
  exists form ex client authority act decision now jti w1 w2,
    parse_token_form headers body = Ok form /\
    let request := into_exchange_request form in
    let exp := minted_exp now (scoped_token_ttl (config state)) (st_exp (ve_subject_claims ex)) authority in
    validate_request_params request (max_token_len (config state)) = Ok tt /\
    exchange_verified state headers request w ex /\
    authorized state request w ex
      (effective_exchange_mode (config state) request (tf_empty_actor_token_supplied form))
      client authority act /\
    signing_decision_for_target state (ve_target ex) = Ok decision /\
    same_stores w w1 /\ unix_now w1 = (Ok now, w2) /\
    sign_claims (signer state) (minted_payload state ex now exp jti client act)
      = Ok (tr_access_token resp) /\
    (exp <= i64_add now (scoped_token_ttl (config state)) /\
     exp <= st_exp (ve_subject_claims ex) /\ exp <= authority)%Z /\
    h = token_headers /\
    resp = mkTokenResponse (tr_access_token resp) ACCESS_TOKEN_TYPE
             (token_type_for_sender (ve_dpop_binding ex)) (Z.max (i64_sub exp now) 0) (ve_scope ex)
             (sd_alg decision) (sd_pqc_fallback decision) (sd_pqc_fallback_reason decision).
Proof.
  intros [(_ & e & ?)|(form & ex & w1 & Hf & Hp & Hx & Hs & Hr)]%token_inner_cases; [done|].
  destruct (effective_exchange_mode _ _ _) eqn:Hm.
  - apply delegation_ok in Hr as (token & ac & wa & d & now & w2 & prior & ? & ? & ? & ? & ? & ? & ? & ? & ? & ? & ? & ? & ? & ? & ? & Hmint).
    apply mint_ok in Hmint as (-> & _ & jti & t & Hsign & ->).
    exists form, ex, (as_sub ac), (as_exp ac), (Some (build_act (as_sub ac) prior)), d, now, jti, wa, w2.
    split; [exact Hf|]. cbv zeta. rewrite Hm. split_and!; try done.
    + by eapply (by_actor _ _ _ _ token ac prior w1 wa).
    + by etrans.
    + apply Z.le_min_l.
    + etrans; [apply Z.le_min_r|apply Z.le_min_l].
    + etrans; [apply Z.le_min_r|apply Z.le_min_r].
  - apply impersonation_ok in Hr as (cc & d & now & w2 & ? & Ha & Hc & ? & ? & ? & ? & ? & _ & Hmint).
    apply mint_ok in Hmint as (-> & _ & jti & t & Hsign & ->).
    destruct (xv_client _ _ _ _ _ Hx _ Hc) as (wa & wb & _ & Hv).
    exists form, ex, (as_sub cc), (as_exp cc), None, d, now, jti, w1, w2.
    split; [exact Hf|]. cbv zeta. rewrite Hm. split_and!; try done.
    + eapply by_client; try done. by eapply verify_client_ok.
    + apply Z.le_min_l.
    + etrans; [apply Z.le_min_r|apply Z.le_min_l].
    + etrans; [apply Z.le_min_r|apply Z.le_min_r].
Qed.

(** C23: a request that is refused on the way leaves no trace in the replay
    store: the store changes only in a run that verified the whole exchange,
    found it authorized in the mode of the request, and could be signed for the
    target. *)
Theorem token_no_trace (headers : HeaderMap) (state : HttpState Sg) (body : string)
    (w w' : World St) (r : result HttpError (HeaderMap * TokenResponse)) :
  token_inner headers state body w = (r, w') ->
  w_replay w' <> w_replay w ->
  exists form ex client authority act,
    parse_token_form headers body = Ok form /\
    let request := into_exchange_request form in
    validate_request_params request (max_token_len (config state)) = Ok tt /\
    exchange_verified state headers request w ex /\
    authorized state request w ex
      (effective_exchange_mode (config state) request (tf_empty_actor_token_supplied form))
      client authority act /\
    is_ok (signing_decision_for_target state (ve_target ex)) = true.
Proof.
  intros [([] & _)|(form & ex & w1 & Hf & Hp & Hx & Hs & Hr)]%token_inner_cases Hne; [done|].
  assert (Hne1 : w_replay w' <> w_replay w1) by (destruct Hs; congruence).
  destruct (effective_exchange_mode _ _ _) eqn:Hm.
  - apply delegation_recorded in Hr as [?|(? & ? & ? & Ha & Hd)]; [done|].
    do 5 eexists. split; [exact Hf|]. cbv zeta. rewrite Hm. eauto using authorized_weaken.
  - eapply impersonation_recorded in Hr as [?|(? & ? & ? & Ha & Hd)]; [done| |exact Hx].
    do 5 eexists. split; [exact Hf|]. cbv zeta. rewrite Hm. eauto using authorized_weaken.
Qed.

(** an actor token buys one exchange: once an exchange with it has
    succeeded, another request that presents the same token does not succeed
    before the token's expiry has passed on the clock, whatever else the replay
    store is asked in between, for every store that satisfies the interface and
    a clock that does not go back.  ([decoded_i64]: expiries are decoded as
    [i64].) *)
Theorem actor_token_single_use `{!ReplayStoreLaws St} (h1 h2 : HeaderMap) (state : HttpState Sg)
    (b1 b2 : string) (w1 w1' w2 w2' : World St) (r1 r2 : HeaderMap * TokenResponse)
    (form1 form2 : TokenForm) (token : string) (between : list Call)
    (decoded_i64 : forall t jwks algs (v : VerifiedJws AssertionClaims),
       verify_claims_against_jwks_with_allowed_algs t jwks algs = Ok v -> in_i64 (as_exp (v_claims v))) :
  token_inner h1 state b1 w1 = (Ok r1, w1') ->
  parse_token_form h1 b1 = Ok form1 -> tf_actor_token form1 = Some token ->
  store_ok (store (w_replay w1)) ->
  store (w_replay w2) = run_calls between (store (w_replay w1')) ->
  (forall n m, w_reads w1 <= n < w_reads w1' -> w_reads w2 <= m -> (reading w1 n <= reading w2 m)%Z) ->
  Forall (fun c => in_i64 (c_exp c) /\ forall m, w_reads w2 <= m -> (c_now c <= reading w2 m)%Z) between ->
  parse_token_form h2 b2 = Ok form2 -> tf_actor_token form2 = Some token ->
  token_inner h2 state b2 w2 = (Ok r2, w2') ->
  exists v m,
    verify_claims_against_jwks_with_allowed_algs token (actor_jwks state)
      (inbound_assertion_algs (config state)) = Ok v /\
    w_reads w2 <= m /\ (as_exp (v_claims v) < reading w2 m)%Z.
Proof.
  intros Run1 F1 T1 Hs Hst Hclock Hb F2 T2 Run2.
  destruct (actor_token_recorded _ _ _ _ _ _ _ _ Run1 F1 T1 decoded_i64)
    as (v & jti & n & s1 & calls & V1 & J1 & N1 & C1 & R1 & A1).
  destruct (actor_token_recorded _ _ _ _ _ _ _ _ Run2 F2 T2 decoded_i64)
    as (v2 & jti2 & m & s2 & ? & V2 & J2 & N2 & C2 & _ & _).
  assert (v2 = v) as -> by congruence. assert (jti2 = jti) as -> by congruence.
  exists v, m. split; [done|]. split; [lia|].
  rewrite Hst, R1, <- run_calls_app in C2.
  eapply no_second_record; [exact Hs|by eapply decoded_i64|by eapply decoded_i64| |exact C1|exact C2].
  apply Forall_app. split; eapply Forall_impl; try done; simpl.
  - intros c [-> ?]. split; [done|]. apply Hclock; lia.
  - intros c [? Hc]. split; [done|]. apply Hc. lia.
Qed.

End Properties.

(** * Examples *)

Lemma toy_run (body : string) (now : Z) :
  body ∈ [actor_body; client_body] -> now = 1200%Z ->
  token_inner toy_headers toy_state body (toy_world now)
  = (Ok (token_headers, toy_response), (token_inner toy_headers toy_state body (toy_world now)).2).
Proof.
  intros Hb ->. rewrite (surjective_pairing (token_inner _ _ _ _)) at 1. f_equal.
  apply elem_of_cons in Hb as [->|Hb]; [vm_compute; reflexivity|].
  apply list_elem_of_singleton in Hb as ->. vm_compute. reflexivity.
Qed.

Lemma token_mint_sound_witness :
  exists form ex client authority act (w1 w2 : World InMemoryReplayStore), unix_now w1 = (Ok 1200%Z, w2) /\
    authorized toy_state (into_exchange_request form) (toy_world 1200) ex
      (effective_exchange_mode toy_config (into_exchange_request form) (tf_empty_actor_token_supplied form))
      client authority act.
Proof.
  destruct (token_mint_sound toy_headers toy_state actor_body (toy_world 1200) _ _ _
              (toy_run actor_body 1200 ltac:(left) eq_refl))
    as (form & ex & client & authority & act & d & now & jti & w1 & w2 & _ & _ & _ & Ha & _ & Hs & Hn & _).
  exists form, ex, client, authority, act, w1, w2. split; [|exact Ha].
  destruct (unix_now_ok _ _ _ Hn) as [-> _]. rewrite Hn. unfold reading.
  rewrite (same_time _ _ Hs). reflexivity.
Defined.

Lemma token_no_trace_witness :
  exists form ex client authority act,
    authorized toy_state (into_exchange_request form) (toy_world 1200) ex
      (effective_exchange_mode toy_config (into_exchange_request form) (tf_empty_actor_token_supplied form))
      client authority act.
Proof.
  destruct (token_no_trace toy_headers toy_state client_body (toy_world 1200) _ _
              (toy_run client_body 1200 ltac:(right; left) eq_refl))
    as (form & ex & client & authority & act & _ & _ & _ & Ha & _).
  - intros He. apply (f_equal (fun r => opt_is_some (m_value (seen (store r)) !! "ca:k1:c.c.c"))) in He.
    vm_compute in He. discriminate He.
  - exists form, ex, client, authority, act. exact Ha.
Defined.

(** The world after a first exchange, its clock moved past the assertion's
    expiry but inside the leeway, and the store swept by other calls. *)
Definition toy_between : list Call :=
  [mkCall "x" 1400 1340; mkCall "y" 1400 1340; mkCall "z" 1400 1340].
Definition toy_later : World InMemoryReplayStore :=
  let w := (token_inner toy_headers toy_state actor_body (toy_world 1200)).2 in
  mkWorld (fun _ => Some 1340%Z) (w_reads w) (w_random w) (w_draws w)
    (mkReplayPolicy (run_calls toy_between (store (w_replay w)))) (w_revocations w) (w_metrics w).

Definition toy_form : TokenForm :=
  match parse_token_form toy_headers actor_body with Ok f => f | Err _ => default_token_form end.

Lemma actor_token_single_use_witness :
  is_ok (token_inner toy_headers toy_state actor_body toy_later).1 = true /\ (1300 < 1340)%Z.
Proof.
  assert (Hok : is_ok (token_inner toy_headers toy_state actor_body toy_later).1 = true)
    by (vm_compute; reflexivity).
  split; [exact Hok|].
  destruct (token_inner toy_headers toy_state actor_body toy_later) as [[r2|e] w2'] eqn:Hrun; [|discriminate Hok].
  destruct (actor_token_single_use toy_headers toy_headers toy_state actor_body actor_body (toy_world 1200)
              (token_inner toy_headers toy_state actor_body (toy_world 1200)).2
              toy_later w2' (token_headers, toy_response) r2 toy_form toy_form "a.a.a" toy_between)
    as (v & m & Hv & _ & Hlt).
  - intros t jwks algs v Hv. rewrite (toy_assertions t jwks algs v Hv). i64_tac.
  - apply (toy_run actor_body 1200); [left|reflexivity].
  - vm_compute. reflexivity.
  - vm_compute. reflexivity.
  - vm_compute. discriminate.
  - reflexivity.
  - intros n m _ _. vm_compute. discriminate.
  - repeat constructor; first [i64_tac | intros m _; vm_compute; discriminate].
  - vm_compute. reflexivity.
  - vm_compute. reflexivity.
  - exact Hrun.
  - rewrite (toy_assertions _ _ _ _ Hv) in Hlt. exact Hlt.
Defined.
