(* ===== verification/HttpGranted.v ===== *)
(** Exactly when the token endpoint grants a request: on a clock that stands at
    one instant, a run succeeds when and only when the request, its tokens and
    the policies say so, the replay store takes the keys and the signer signs;
    and the in-memory store takes them whenever it has room.

    The clock stands so that one instant can be named; a handler reads it up to
    six times. *)

From S2P Require Import Prelude RustStr Json Url Core Replay Jose JoseSigners Verify Config Dpop.
From S2P Require Import HttpForms HttpState HttpToken HttpToy HttpExchange.
From Stdlib Require Import Ascii.

(** * A clock that stands *)

Section Steady.
Context {St : Type}.

(** From here on the clock shows [now]. *)
Definition steady (now : Z) (w : World St) : Prop := forall n, w_reads w <= n -> reading w n = now.

(** The same world, [n] readings later. *)
Definition later (n : nat) (w : World St) : World St :=
  mkWorld (w_time w) (w_reads w + n) (w_random w) (w_draws w) (w_replay w) (w_revocations w) (w_metrics w).

Lemma steady_later now n w : steady now w -> steady now (later n w).
Proof. intros Hs k Hk. apply (Hs k). cbn in Hk. lia. Qed.
Lemma steady_set_replay now r w : steady now w -> steady now (set_replay r w).
Proof. done. Qed.
Lemma later_0 w : later 0 w = w.
Proof. destruct w. unfold later. cbn. by rewrite Nat.add_0_r. Qed.
Lemma later_later n m w : later m (later n w) = later (n + m) w.
Proof. unfold later. cbn. by rewrite Nat.add_assoc. Qed.

(** On such a clock [m] only reads it, and its results are those that satisfy
    [P].  Instances follow the structure of [m]. *)
Class Decides {E A} (now : Z) (m : Eff (World St) E A) (P : A -> Prop) : Prop :=
  decides w : steady now w -> (exists n, (m w).2 = later n w) /\ forall a, (m w).1 = Ok a <-> P a.

Context (now : Z).

#[export] Instance decides_ret {E A} (a : A) : Decides (E := E) now (eff_ret a) (eq a) | 2.
Proof. intros w _. split; [exists 0; by rewrite later_0|]. cbn. naive_solver. Qed.
#[export] Instance decides_err {E A} (e : E) : Decides (A := A) now (eff_err e) (fun _ => False) | 2.
Proof. intros w _. split; [exists 0; by rewrite later_0|]. cbn. naive_solver. Qed.
#[export] Instance decides_lift {E A} (r : result E A) : Decides now (eff_lift r) (fun a => r = Ok a) | 3.
Proof. intros w _. split; [exists 0; by rewrite later_0|]. done. Qed.
#[export] Instance decides_now {E} : Decides (E := E) now now_unix (fun n => n = now) | 1.
Proof.
  intros w Hw. split; [exists 1; unfold later; cbn; by rewrite Nat.add_1_r|].
  intros a. specialize (Hw (w_reads w) (le_n _)). unfold reading in Hw. cbn. rewrite Hw. naive_solver.
Qed.
#[export] Instance decides_bind {E A B} (m : Eff (World St) E A) (f : A -> Eff (World St) E B) P Q :
  Decides now m P -> (forall a, Decides now (f a) (Q a)) ->
  Decides now (eff_bind m f) (fun b => exists a, P a /\ Q a b) | 1.
Proof.
  intros Hm Hf w Hw. destruct (Hm w Hw) as [[n Hn] Ha]. unfold eff_bind.
  destruct (m w) as [[a|e] w1]; cbn in *; subst w1.
  - destruct (Hf a _ (steady_later now n w Hw)) as [[k Hk] Hb]. split; [exists (n + k); by rewrite Hk, later_later|].
    intros b. rewrite Hb. split; [intros Hq; exists a; split; [by apply Ha|done]|].
    intros (a' & Hp & Hq). apply Ha in Hp as [= ->]. done.
  - split; [by exists n|]. intros b. split; [done|]. intros (a & Hp & _). by apply Ha in Hp.
Qed.
#[export] Instance decides_map_err {E F A} (g : E -> F) (m : Eff (World St) E A) P :
  Decides now m P -> Decides now (eff_map_err g m) P | 1.
Proof.
  intros Hm w Hw. destruct (Hm w Hw) as [Hn Ha]. unfold eff_map_err. destruct (m w) as [r w1]. cbn in *.
  split; [done|]. intros a. rewrite <- Ha. destruct r; (split; [by intros [= ->]|by intros [= ->]]).
Qed.
#[export] Instance decides_if {E A} (b : bool) (m1 m2 : Eff (World St) E A) P Q :
  Decides now m1 P -> Decides now m2 Q -> Decides now (if b then m1 else m2) (fun a => if b then P a else Q a) | 1.
Proof. by destruct b. Qed.
#[export] Instance decides_option {E A B} (o : option B) (f : B -> Eff (World St) E A) m P Q :
  (forall b, Decides now (f b) (P b)) -> Decides now m Q ->
  Decides now (match o with Some b => f b | None => m end) (fun a => match o with Some b => P b a | None => Q a end) | 1.
Proof. destruct o; auto. Qed.

Lemma decides_iff {E A} (m : Eff (World St) E A) P Q : (forall a, P a <-> Q a) -> Decides now m P -> Decides now m Q.
Proof. intros Hpq Hm w Hw. destruct (Hm w Hw) as [Hn Ha]. split; [done|]. intros a. by rewrite Ha. Qed.
End Steady.

(** * What each verification accepts at an instant *)

(** A validity window holds [now]; the sums wrap as the code's do. *)
Definition in_window (exp : Z) (nbf : option Z) (leeway now : Z) : Prop :=
  (now <= i64_add exp leeway)%Z /\ forall t, nbf = Some t -> (i64_sub t leeway <= now)%Z.

Section Accepted.
Context {Sg St : Type} `{JoseSigner Sg} `{ReplayStore St} `{HttpLib} `{UrlLib} `{Features} `{Base64}
  `{Jwt} `{OpenSsl} `{DpopLib} `{JsonReader} `{Sha256}
  `{FromJson CompactJwsHeader} `{FromJson SubjectTokenClaims} `{FromJson AssertionClaims}
  `{FromJson MintedClaims}.
Context (state : HttpState Sg) (now : Z).

Record subject_accepted (token : string) (c : SubjectTokenClaims) : Prop := {
  sa_signed : exists v, verify_claims_against_jwks_with_allowed_algs token (subject_jwks state) ["RS256"] = Ok v /\
    v_claims v = c;
  sa_issuer : Verify.validate_issuer (idp_issuer (config state)) = Ok (st_iss c);
  sa_audience : exists a, a ∈ expected_subject_aud (config state) /\ aud_names (st_aud c) a;
  sa_window : in_window (st_exp c) (st_nbf c) (cfg_clock_skew_leeway (config state)) now
}.

Record assertion_accepted (token : string) (jwks : JwksDocument) (o : AssertionVerificationOptions)
    (c : AssertionClaims) : Prop := {
  aa_signed : exists v,
    verify_claims_against_jwks_with_allowed_algs token jwks (inbound_assertion_algs (config state)) = Ok v /\
    v_claims v = c /\ forall reg, key_binding_registry o = Some reg ->
      kid_belongs_to_claimed_identity (v_kid v) (as_sub c) reg = true;
  aa_self : as_iss c = as_sub c;
  aa_issuer : is_ok (Verify.validate_issuer (expected_issuer o)) = true;
  aa_audience : exists a, a ∈ expected_audiences o /\ aud_names (as_aud c) a;
  aa_window : in_window (as_exp c) None (clock_skew_leeway o) now;
  aa_lifetime : (i64_sub (as_exp c) (default now (as_iat c)) <= i64_add (max_ttl o) (clock_skew_leeway o))%Z;
  aa_bound : require_subject_binding o = true ->
    default "" (as_sub_tok_hash c) = subject_token_hash (default "" (binding_subject_token o))
}.

Record client_accepted (request : ExchangeRequest) (endpoint : string) (c : AssertionClaims) : Prop := {
  ca_present : reject_blank_client_auth request = Ok tt /\ validate_client_assertion_type request = Ok tt;
  ca_assertion : exists t, client_assertion request = Some t /\
    assertion_accepted t (client_jwks state) (assertion_options state endpoint None false) c;
  ca_known : as_sub c ∈ client_ids (config state);
  ca_named : forall id, client_id request = Some id -> id = as_sub c;
  ca_jti : is_ok (client_assertion_jti c) = true
}.

(** Who authenticates, if anybody does: a client must in impersonation, and
    where the configuration asks for it. *)
Inductive caller (request : ExchangeRequest) (mode : EffectiveExchangeMode) : option AssertionClaims -> Prop :=
| nobody : mode = MDelegation -> has_client_auth request = false ->
    client_auth_policy (config state) <> PrivateKeyJwtRequired -> caller request mode None
| client c : has_client_auth request = true -> client_accepted request (token_endpoint state) c ->
    match mode with MDelegation => is_Some (actor_token request) | MImpersonation => actor_token request = None end ->
    caller request mode (Some c).

#[local] Notation Dec := (Decides (St := St) now).

Ltac spec := eapply decides_iff; [|typeclasses eauto]; cbn beta.

#[local] Instance decides_time_window exp nbf leeway :
  Dec (validate_time_window exp nbf leeway) (fun _ => in_window exp nbf leeway now).
Proof.
  unfold validate_time_window. spec. intros []. unfold in_window. split.
  - intros (n & -> & Hc). destruct (Z.ltb_spec (i64_add exp leeway) now); [done|]. split; [done|].
    intros t ->. cbn in Hc. destruct (Z.ltb_spec now (i64_sub t leeway)); [done|done].
  - intros [He Hn]. exists now. split; [done|]. rewrite (proj2 (Z.ltb_ge _ _) He).
    destruct nbf as [t|]; cbn; [|done]. by rewrite (proj2 (Z.ltb_ge _ _) (Hn t eq_refl)).
Qed.

#[local] Instance decides_lifetime claims ttl leeway :
  Dec (validate_assertion_lifetime claims ttl leeway)
    (fun _ => (i64_sub (as_exp claims) (default now (as_iat claims)) <= i64_add ttl leeway)%Z).
Proof.
  unfold validate_assertion_lifetime. spec. intros []. split.
  - intros (span & Hs & Hc). destruct (Z.ltb_spec (i64_add ttl leeway) span); [done|].
    destruct (as_iat claims) as [iat|]; cbn in *; [by subst|]. destruct Hs as (n & -> & <-). done.
  - intros Hl. eexists. split; [|by rewrite (proj2 (Z.ltb_ge _ _) Hl)].
    destruct (as_iat claims); [done|]. by exists now.
Qed.

Lemma audience_named aud l : existsb (audience_matches aud) l = true <-> exists a, a ∈ l /\ aud_names aud a.
Proof. rewrite existsb_exists_elem. by setoid_rewrite audience_matches_names. Qed.

#[local] Instance decides_subject token :
  Dec (verify_subject_token token (subject_jwks state) (idp_issuer (config state))
         (btree_iter (expected_subject_aud (config state))) (cfg_clock_skew_leeway (config state)))
    (subject_accepted token).
Proof.
  unfold verify_subject_token, SUBJECT_TOKEN_SIGNING_ALGS, ensure_audience_matches, verify_err. spec. intros c. split.
  - intros (v & Hv & iss & Hi & Hc). destruct (decide (st_iss (v_claims v) = iss)) as [<-|Hne];
      [rewrite bool_decide_eq_true_2 in Hc by done|by rewrite bool_decide_eq_false_2 in Hc by done].
    cbn in Hc. destruct Hc as ([] & Hw & u & Ha & <-). apply map_err_ok in Hv.
    destruct (existsb _ _) eqn:He; [|done]. apply audience_named in He as (a & Hin & Hn).
    split; [by exists v|done| |done]. exists a. split; [by apply elem_of_btree_iter|done].
  - intros [(v & Hv & <-) Hi (a & Hin & Hn) Hw]. exists v. split; [by rewrite Hv|]. eexists. split; [exact Hi|].
    rewrite bool_decide_eq_true_2 by done. cbn. exists tt. split; [done|]. exists tt. split; [|done].
    replace (existsb _ _) with true; [done|]. symmetry. apply audience_named. exists a.
    split; [by apply elem_of_btree_iter|done].
Qed.

#[local] Instance decides_assertion token jwks o :
  Dec (verify_assertion_with_allowed_algs token jwks (inbound_assertion_algs (config state)) o)
    (assertion_accepted token jwks o).
Proof.
  unfold verify_assertion_with_allowed_algs. spec. intros c. split.
  - intros (v & Hv & iss & Hi & Hc). apply map_err_ok in Hv.
    repeat match type of Hc with if ?b then _ else _ => destruct b eqn:?; [done|] end.
    destruct Hc as ([] & Hw & [] & Hl & Hc).
    match type of Hc with if ?b then _ else _ => destruct b eqn:?; [done|] end. subst c. bool_hyps.
    match goal with He : existsb _ _ = true |- _ => apply audience_named in He end.
    split; try done.
    + exists v. split_and!; [done|done|]. intros reg Hr.
      match goal with Hk : is_some_and _ _ = false |- _ => rewrite Hr in Hk; cbn in Hk; by apply negb_false_iff in Hk end.
    + by rewrite Hi.
    + intros Hr. match goal with Hb : (_ && _)%bool = false |- _ => rewrite Hr in Hb; cbn in Hb end. by bool_hyps.
  - intros [(v & Hv & <- & Hk) Hs Hi Ha Hw Hl Hb]. exists v. split; [by rewrite Hv|].
    destruct (Verify.validate_issuer (expected_issuer o)) as [iss|]; [|done]. exists iss. split; [done|].
    rewrite bool_decide_eq_true_2 by done. cbn. rewrite (proj2 (audience_named _ _) Ha). cbn.
    replace (is_some_and _ _) with false.
    2: { destruct (key_binding_registry o) as [reg|]; [|done]. cbn. by rewrite (Hk reg eq_refl). }
    exists tt. split; [done|]. exists tt. split; [done|].
    destruct (require_subject_binding o); cbn; [|done]. by rewrite bool_decide_eq_true_2 by auto.
Qed.

#[local] Instance decides_client request endpoint :
  Dec (verify_client_assertion state request endpoint) (client_accepted request endpoint).
Proof.
  unfold verify_client_assertion. spec. intros c. split.
  - intros ([] & Hr & [] & Ht & t & Ha & c' & Hc' & Hc).
    repeat match type of Hc with if ?b then _ else _ => destruct b eqn:?; [done|] end.
    destruct Hc as (jti & Hj & <-). bool_hyps. apply ok_or_ok in Ha.
    split; [done|by exists t|done| |by rewrite Hj]. intros id Hid.
    match goal with Hx : is_some_and _ _ = false |- _ => rewrite Hid in Hx; cbn in Hx end. by bool_hyps.
  - intros [[Hr Ht] (t & Ha & Hc) Hk Hn Hj]. exists tt. split; [done|]. exists tt. split; [done|]. exists t.
    split; [by rewrite Ha|]. exists c. split; [done|]. rewrite bool_decide_eq_true_2 by done. cbn.
    replace (is_some_and _ _) with false.
    2: { destruct (client_id request) as [id|]; [|done]. cbn. by rewrite bool_decide_eq_true_2 by auto. }
    destruct (client_assertion_jti c) as [jti|]; [|done]. by exists jti.
Qed.

#[local] Instance decides_caller request mode :
  Dec (authenticate_client_if_present state request mode) (caller request mode).
Proof.
  unfold authenticate_client_if_present. spec. intros o. split.
  - intros Hc. repeat match type of Hc with if ?b then False else _ => destruct b eqn:?; [done|] end.
    destruct (has_client_auth request) eqn:Hh; cbn in Hc.
    + destruct Hc as (c & Hc & Ho).
      match type of Ho with if ?b then _ else _ => destruct b eqn:?; [done|] end. subst o. constructor; try done.
      destruct mode, (actor_token request); cbn in *; done.
    + subst o. destruct mode; cbn in *; [|done]. constructor; try done.
      rewrite !andb_true_r in *. by bool_hyps.
  - intros [Hm Hh Hp|c Hh Hc Ha].
    + subst mode. rewrite Hh, (bool_decide_eq_false_2 (_ = PrivateKeyJwtRequired)) by done. done.
    + rewrite Hh, !andb_false_r. destruct mode; [destruct Ha as [t Ht]; rewrite Ht|rewrite Ha]; by exists c.
Qed.

(** * What an exchange records, and its end *)

(** The store after the keys have been recorded at [now], if it takes them all. *)
Fixpoint record_keys (keys : list (string * Z)) (s : St) : option St :=
  match keys with
  | [] => Some s
  | (key, exp) :: rest =>
      match check_and_record key exp now s with
      | (Ok _, s') => record_keys rest s'
      | (Err _, _) => None
      end
  end.

Definition client_keys (c : AssertionClaims) : list (string * Z) :=
  match client_assertion_jti c with
  | Ok jti => [("ca:" +:+ as_sub c +:+ ":" +:+ jti, as_exp c)]
  | Err _ => []
  end.
Definition binding_keys (b : DpopBinding) : list (string * Z) :=
  [(dpop_replay_key (db_jkt b) (db_jti b), db_replay_expires_at b)].
Definition option_keys {A} (keys : A -> list (string * Z)) (o : option A) : list (string * Z) :=
  match o with Some a => keys a | None => [] end.

(** The [jti] that the next minted token gets. *)
Definition next_jti (w : World St) : string := b64_encode (w_random w (w_draws w)).

(** [m] records exactly these keys. *)
Definition records (m : Http unit) (keys : list (string * Z)) : Prop := forall w,
  match record_keys keys (store (w_replay w)) with
  | Some s => m w = (Ok tt, set_replay (mkReplayPolicy s) w)
  | None => is_ok (m w).1 = false
  end.

(** What [m] answers is determined by the store and the next [jti]. *)
Definition serves {A} (m : Http A) (P : St -> string -> A -> Prop) : Prop := forall w, steady now w ->
  forall a, (m w).1 = Ok a <-> P (store (w_replay w)) (next_jti w) a.

Lemma serves_bind {A B} (m : Http A) (f : A -> Http B) P Q :
  Dec m P -> (forall a, P a -> serves (f a) (Q a)) ->
  serves (eff_bind m f) (fun s j b => exists a, P a /\ Q a s j b).
Proof.
  intros Hm Hf w Hw b. destruct (Hm w Hw) as [[n Hn] Ha]. unfold eff_bind.
  destruct (m w) as [[a|e] w1]; cbn in *; subst w1.
  - assert (Hp : P a) by by apply Ha.
    rewrite (Hf a Hp _ (steady_later now n w Hw)). split; [by exists a|].
    intros (a' & Hp' & Hq). by apply Ha in Hp' as [= ->].
  - split; [done|]. intros (a & Hp & _). by apply Ha in Hp.
Qed.

Lemma serves_err {A} (e : HttpError) : serves (A := A) (eff_err e) (fun _ _ _ => False).
Proof. intros w _ a. cbn. naive_solver. Qed.

Lemma serves_records {B} (m : Http unit) keys (f : unit -> Http B) Q :
  records m keys -> serves (f tt) Q ->
  serves (eff_bind m f) (fun s j b => exists s', record_keys keys s = Some s' /\ Q s' j b).
Proof.
  intros Hm Hf w Hw b. specialize (Hm w). unfold eff_bind. destruct (record_keys keys _) as [s'|] eqn:Hs.
  - rewrite Hm. rewrite (Hf _ (steady_set_replay now _ w Hw)). cbn. split; [eauto|]. intros (s1 & [= <-] & Hq). exact Hq.
  - destruct (m w) as [[a|e] w1]; [done|]. split; [done|]. by intros (s1 & ? & _).
Qed.

Lemma serves_iff {A} (m : Http A) P Q : (forall s j a, P s j a <-> Q s j a) -> serves m P -> serves m Q.
Proof. intros Hpq Hm w Hw a. by rewrite (Hm w Hw). Qed.

Lemma records_check f key exp : records (replay_check f key exp now) [(key, exp)].
Proof.
  intros w. cbn. unfold replay_check, policy_check_and_record.
  destruct (check_and_record key exp now (store (w_replay w))) as [[[]|e] s]; done.
Qed.

Lemma records_client c : is_ok (client_assertion_jti c) = true -> records (record_client_assertion_replay c now) (client_keys c).
Proof.
  intros Hj w. unfold record_client_assertion_replay, client_keys.
  destruct (client_assertion_jti c) as [jti|]; [apply records_check|done].
Qed.

Lemma records_when {A} (o : option A) (f : A -> Http unit) keys :
  (forall a, o = Some a -> records (f a) (keys a)) -> records (when_some o f) (option_keys keys o).
Proof. destruct o as [a|]; intros Hf; [by apply Hf|]. intros w. cbn. by destruct w as [? ? ? ? [] ? ?]. Qed.

Lemma record_keys_app k1 k2 s : record_keys (k1 ++ k2) s = record_keys k1 s ≫= record_keys k2.
Proof.
  revert s. induction k1 as [|[key exp] k1 IH]; intros s; [done|]. cbn.
  destruct (check_and_record key exp now s) as [[]]; [apply IH|done].
Qed.

Lemma serves_now {B} (f : Z -> Http B) Q : serves (f now) Q -> serves (eff_bind unix_now f) Q.
Proof.
  intros Hf w Hw b. assert (Hu : unix_now w = (Ok now, later 1 w)).
  { unfold unix_now, now_unix, later. cbn. rewrite Nat.add_1_r. specialize (Hw (w_reads w) (le_n _)).
    unfold reading in Hw. by rewrite Hw. }
  unfold eff_bind. rewrite Hu. apply (Hf _ (steady_later now 1 w Hw)).
Qed.

(** The answer that carries a minted token. *)
Definition granted (ex : VerifiedExchange) (exp : Z) (decision : SigningDecision) (token : string)
    : HeaderMap * TokenResponse :=
  (token_headers,
   mkTokenResponse token ACCESS_TOKEN_TYPE (token_type_for_sender (ve_dpop_binding ex)) (Z.max (i64_sub exp now) 0)
     (ve_scope ex) (sd_alg decision) (sd_pqc_fallback decision) (sd_pqc_fallback_reason decision)).

Lemma serves_mint ex exp client act decision :
  serves (mint state ex now exp client act decision) (fun _ jti a => exists token,
    sign_claims (signer state) (minted_payload state ex now exp jti client act) = Ok token /\
    a = granted ex exp decision token).
Proof.
  intros w _ a. unfold mint, new_jti, fill_bytes, eff_bind, eff_lift, next_jti, minted_payload, build_scoped_payload.
  cbn. destruct (sign_claims _ _) as [token|]; cbn; naive_solver.
Qed.

(** Who may have the token, until when, with which [act] claim, and what is
    recorded for it: a permitted actor whom the subject's [may_act] does not
    exclude, or a client that the impersonation policy covers. *)
Inductive entitled (request : ExchangeRequest) (ex : VerifiedExchange) :
    EffectiveExchangeMode -> string -> Z -> option ActClaim -> list (string * Z) -> Prop :=
| an_actor token ac jti prior :
    actor_token request = Some token ->
    assertion_accepted token (actor_jwks state)
      (assertion_options state (token_endpoint state) (Some (subject_token request))
         (cfg_require_subject_binding (config state))) ac ->
    as_sub ac ∈ actor_ids (config state) ->
    gate_may_act (ve_subject_claims ex) ac = Ok tt ->
    opt_traverse act_claim_from_value (st_act (ve_subject_claims ex)) = Ok prior ->
    as_jti ac = Some jti -> trim jti <> "" ->
    entitled request ex MDelegation (as_sub ac) (as_exp ac) (Some (build_act (as_sub ac) prior))
      (("act:" +:+ as_sub ac +:+ ":" +:+ jti, as_exp ac) ::
       option_keys client_keys (ve_client_claims ex) ++ option_keys binding_keys (ve_dpop_binding ex))
| a_client cc :
    actor_token request = None -> ve_client_claims ex = Some cc ->
    impersonation_gate state (as_sub cc) (ve_target ex) (ve_subject_sub ex) = Ok tt ->
    entitled request ex MImpersonation (as_sub cc) (as_exp cc) None
      (client_keys cc ++ option_keys binding_keys (ve_dpop_binding ex)).

(** The exchange is granted with this answer. *)
Definition grants (request : ExchangeRequest) (ex : VerifiedExchange) (mode : EffectiveExchangeMode)
    (s : St) (jti : string) (answer : HeaderMap * TokenResponse) : Prop :=
  exists who until act keys decision token,
    let exp := minted_exp now (scoped_token_ttl (config state)) (st_exp (ve_subject_claims ex)) until in
    entitled request ex mode who until act keys /\
    signing_decision_for_target state (ve_target ex) = Ok decision /\
    is_Some (record_keys keys s) /\
    sign_claims (signer state) (minted_payload state ex now exp jti who act) = Ok token /\
    answer = granted ex exp decision token.

Lemma serves_impersonation request ex :
  (forall c, ve_client_claims ex = Some c -> is_ok (client_assertion_jti c) = true) ->
  serves (exchange_impersonation state request ex) (grants request ex MImpersonation).
Proof.
  intros Hj. unfold exchange_impersonation.
  destruct (actor_token request) as [t|] eqn:Ht.
  { eapply serves_iff; [|apply serves_err]. intros s j a. split; [done|].
    intros (? & ? & ? & ? & ? & ? & He & _). inversion He. congruence. }
  cbn [opt_is_some]. eapply serves_iff; [|
    eapply serves_bind; [apply _|intros cc Hcc]; do 2 (eapply serves_bind; [apply _|intros ? _]);
    apply serves_now; eapply serves_records; [apply records_client, Hj; by apply ok_or_ok in Hcc|];
    eapply serves_records; [apply records_when; intros ? _; apply records_check|]; apply serves_mint].
  intros s j a. cbn beta. split.
  - intros (cc & Hcc & [] & Hg & d & Hd & s1 & Hs1 & s2 & Hs2 & token & Hsig & ->). apply ok_or_ok in Hcc.
    do 6 eexists. split; [by apply a_client|]. split_and!; [exact Hd| |exact Hsig|done].
    rewrite record_keys_app, Hs1. by exists s2.
  - intros (? & ? & ? & ? & d & token & He & Hd & [s2 Hs] & Hsig & ->). inversion He as [|cc _ Hcc Hg]; subst.
    rewrite record_keys_app in Hs. apply bind_Some in Hs as (s1 & Hs1 & Hs2).
    exists cc. split; [by rewrite Hcc|]. exists tt. split; [done|]. exists d. split; [done|]. exists s1. split; [done|].
    exists s2. split; [exact Hs2|]. by exists token.
Qed.

Lemma opt_filter_some {A} (p : A -> bool) o (a : A) : opt_filter p o = Some a <-> o = Some a /\ p a = true.
Proof. unfold opt_filter. destruct o as [x|]; [|by split; [|intros [? _]]]. destruct (p x) eqn:Hp; (split; [by intros [= <-]|intros [[= <-] ?]; congruence]). Qed.

Lemma serves_delegation request ex :
  (forall c, ve_client_claims ex = Some c -> is_ok (client_assertion_jti c) = true) ->
  serves (exchange_delegation state request ex) (grants request ex MDelegation).
Proof.
  intros Hj. unfold exchange_delegation, verify_actor_token, validate_actor_identity. eapply serves_iff; [|
    eapply serves_bind; [apply _|intros token _]; eapply serves_bind; [apply _|intros ac _];
    do 3 (eapply serves_bind; [apply _|intros ? _]); apply serves_now;
    do 2 (eapply serves_bind; [apply _|intros ? _]);
    eapply serves_records; [apply records_check|];
    eapply serves_records; [apply records_when; intros c Hc; apply records_client, Hj, Hc|];
    eapply serves_records; [apply records_when; intros ? _; apply records_check|]; apply serves_mint].
  intros s j a. cbn beta. split.
  - intros (token & Ht & ac & Hac & u & Hid & v & Hg & d & Hd & prior & Hp & jti & Hjt & s1 & Hs1 & s2 & Hs2 & s3 & Hs3 & tok & Hsig & ->).
    destruct v. apply ok_or_ok in Ht, Hjt. apply opt_filter_some in Hjt as [Hjt Hb]. ok_inv. bool_hyps.
    do 6 eexists. split; [eapply an_actor; try done; by apply is_empty_false|].
    split_and!; [exact Hd| |exact Hsig|done].
    cbn in *. destruct (check_and_record _ _ _ _) as [[] s1']; [|done]. simplify_eq.
    change (record_keys (option_keys client_keys (ve_client_claims ex)) s1 = Some s2) in Hs2.
    rewrite record_keys_app, Hs2. by exists s3.
  - intros (? & ? & ? & ? & d & tok & He & Hd & [s3 Hs] & Hsig & ->). inversion He as [token ac jti prior Ht Hac Hin Hg Hp Hjt Hb|]; subst.
    cbn in Hs. destruct (check_and_record _ _ _ s) as [[[]|] s1] eqn:Hc; [|done].
    rewrite record_keys_app in Hs. apply bind_Some in Hs as (s2 & Hs2 & Hs3).
    exists token. split; [by rewrite Ht|]. exists ac. split; [exact Hac|]. exists tt.
    split; [rewrite bool_decide_eq_true_2 by done; rewrite bool_decide_eq_true_2 by apply Hac; done|].
    exists tt. split; [done|]. exists d. split; [done|]. exists prior. split; [done|]. exists jti.
    split; [rewrite Hjt; cbn; by rewrite (proj2 (is_empty_false _) Hb)|]. exists s1. split; [cbn; by rewrite Hc|].
    exists s2. split; [done|]. exists s3. split; [exact Hs3|]. by exists tok.
Qed.

(** The exchange that a request asks for: its subject token, target, scope,
    client and key are in order. *)
Record exchange_of (headers : HeaderMap) (request : ExchangeRequest) (mode : EffectiveExchangeMode)
    (ex : VerifiedExchange) : Prop := {
  eo_subject : subject_accepted (subject_token request) (ve_subject_claims ex);
  eo_sub : st_sub (ve_subject_claims ex) = Some (ve_subject_sub ex) /\ trim (ve_subject_sub ex) <> "";
  eo_target : resolve_target_for_request request state = Ok (ve_target ex);
  eo_scope : resolve_scope_for_request request state (ve_subject_claims ex) (ve_target ex) = Ok (ve_scope ex);
  eo_client : caller request mode (ve_client_claims ex);
  eo_key : validate_dpop_header headers state now = Ok (ve_dpop_binding ex)
}.

(** The request is granted with this answer. *)
Definition token_granted (headers : HeaderMap) (body : string) (s : St) (jti : string)
    (answer : HeaderMap * TokenResponse) : Prop :=
  exists form ex,
    parse_token_form headers body = Ok form /\
    let request := into_exchange_request form in
    let mode := effective_exchange_mode (config state) request (tf_empty_actor_token_supplied form) in
    validate_request_params request (max_token_len (config state)) = Ok tt /\
    exchange_of headers request mode ex /\ grants request ex mode s jti answer.

Lemma caller_jti request mode o c : caller request mode o -> o = Some c -> is_ok (client_assertion_jti c) = true.
Proof. by intros [|c' _ [] _] [= ->]. Qed.

Lemma serves_mode request ex mode :
  (forall c, ve_client_claims ex = Some c -> is_ok (client_assertion_jti c) = true) ->
  serves (match mode with
          | MDelegation => exchange_delegation state request ex
          | MImpersonation => exchange_impersonation state request ex
          end) (grants request ex mode).
Proof. destruct mode; [apply serves_delegation|apply serves_impersonation]. Qed.

Lemma serves_token headers body : serves (token_inner headers state body) (token_granted headers body).
Proof.
  unfold token_inner. eapply serves_iff; [|
    do 2 (eapply serves_bind; [apply _|intros ? _]); eapply serves_bind; [apply _|intros client Hc]; apply serves_now;
    do 5 (eapply serves_bind; [apply _|intros ? _]); apply serves_mode; intros c; exact (caller_jti _ _ _ c Hc)].
  intros s j a. cbn beta. split.
  - intros (form & Hf & [] & Hp & client & Hc & binding & Hb & claims & Hs & target & Ht & sc & Hsc & sub & Hsub & Hg).
    apply ok_or_ok, opt_filter_some in Hsub as [Hsub Hn]. apply negb_true_iff, is_empty_false in Hn.
    exists form, (mkExchange claims sub target sc client binding). by split_and!.
  - intros (form & [claims sub target sc client binding] & Hf & Hp & [Hs [Hsub Hn] Ht Hsc Hc Hb] & Hg).
    exists form. split; [done|]. exists tt. split; [done|]. exists client. split; [done|]. exists binding. split; [done|].
    exists claims. split; [done|]. exists target. split; [done|]. exists sc. split; [done|]. exists sub.
    split; [|done]. change (st_sub claims = Some sub) in Hsub. rewrite Hsub. unfold opt_filter.
    by rewrite (proj2 (is_empty_false (trim sub)) Hn).
Qed.
End Accepted.

(** * The in-memory store takes the keys *)

Section Memory.
Context {Sg : Type} `{JoseSigner Sg} `{HttpLib} `{UrlLib} `{Features} `{Base64} `{Jwt} `{OpenSsl} `{DpopLib}
  `{JsonReader} `{Sha256} `{FromJson CompactJwsHeader} `{FromJson SubjectTokenClaims} `{FromJson AssertionClaims}
  `{FromJson MintedClaims}.
Context (state : HttpState Sg) (now : Z).

(** A store whose locks are healthy, that holds none of the keys and has room
    for them beside what is live. *)
Record takes (keys : list (string * Z)) (s : InMemoryReplayStore) : Prop := {
  ta_seen : m_poisoned (seen s) = false;
  ta_calls : m_poisoned (calls_since_sweep s) = false;
  ta_fresh : forall k, k ∈ keys.*1 -> m_value (seen s) !! k = None;
  ta_room : (map_len (sweep_expired (m_value (seen s)) now) + Z.of_nat (length keys) <= max_seen s)%Z
}.

Lemma sweep_insert m m0 k e :
  m ⊆ m0 -> (map_len (sweep_expired (<[k := e]> m) now) <= map_len (sweep_expired m0 now) + 1)%Z.
Proof.
  intros Hm. assert (Hs : sweep_expired (<[k := e]> m) now ⊆ <[k := e]> (sweep_expired m0 now)).
  { apply map_subseteq_spec. intros k' e' Hk. pose proof (sweep_sub _ _ _ _ Hk) as Hk'.
    destruct (decide (k = k')) as [<-|Hne]; [by rewrite lookup_insert_eq in *|].
    rewrite lookup_insert_ne in Hk' by done. rewrite lookup_insert_ne by done.
    rewrite lookup_sweep in Hk |- *. rewrite lookup_insert_ne, Hk' in Hk by done.
    by rewrite (lookup_weaken _ _ _ _ Hk' Hm). }
  apply map_subseteq_size in Hs. unfold map_len. rewrite map_size_insert in Hs. case_match; cbn in Hs; lia.
Qed.

Lemma memory_records keys s :
  NoDup keys.*1 -> (forall k, k ∈ keys.*1 -> trim k <> "") -> takes keys s -> is_Some (record_keys now keys s).
Proof.
  revert s. induction keys as [|[k e] keys IH]; intros s Hnd Hne [Hp1 Hp2 Hf Hr]; [by eexists|]. cbn in *.
  apply NoDup_cons in Hnd as [Hk Hnd].
  destruct (in_memory_takes s k e now) as (m & calls & -> & Hm); [apply Hne; by left|done|done|apply Hf; by left|lia|].
  apply IH; [done|intros k' Hk'; apply Hne; by right|]. split; [done|done| |].
  - intros k' Hk'. cbn. rewrite lookup_insert_ne by (intros ->; done).
    apply (lookup_weaken_None _ (m_value (seen s))); [apply Hf; by right|done].
  - pose proof (sweep_insert m (m_value (seen s)) k e Hm). cbn. lia.
Qed.

(** A key of an actor token, a client assertion or a proof. *)
Definition prefixed (k : string) : Prop := exists p x, p ∈ ["act:"; "ca:"; "dpop:"] /\ k = p +:+ x.

Lemma prefixed_not_blank k : prefixed k -> trim k <> "".
Proof.
  intros (p & x & Hp & ->).
  repeat (apply elem_of_cons in Hp as [->|Hp]; [done|]). by apply elem_of_nil in Hp.
Qed.

Lemma client_keys_prefix o k : k ∈ (option_keys client_keys o).*1 -> exists x, k = "ca:" +:+ x.
Proof.
  destruct o as [c|]; cbn; [|by intros ?%elem_of_nil]. unfold client_keys.
  destruct (client_assertion_jti c); cbn; [intros ->%list_elem_of_singleton; eauto|by intros ?%elem_of_nil].
Qed.

Lemma binding_keys_prefix o k : k ∈ (option_keys binding_keys o).*1 -> exists x, k = "dpop:" +:+ x.
Proof. destruct o as [b|]; cbn; [intros ->%list_elem_of_singleton; by eexists|by intros ?%elem_of_nil]. Qed.

Lemma caller_keys o o' :
  let keys := option_keys client_keys o ++ option_keys binding_keys o' in
  NoDup keys.*1 /\ forall k, k ∈ keys.*1 -> prefixed k /\ forall x, k <> "act:" +:+ x.
Proof.
  cbv zeta. rewrite fmap_app. split.
  - apply NoDup_app. split_and!.
    + destruct o as [c|]; cbn; [|apply NoDup_nil_2]. unfold client_keys.
      destruct (client_assertion_jti c); [apply NoDup_singleton|apply NoDup_nil_2].
    + intros k (x & ->)%client_keys_prefix (y & Hy)%binding_keys_prefix. discriminate Hy.
    + destruct o'; [apply NoDup_singleton|apply NoDup_nil_2].
  - intros k [(x & ->)%client_keys_prefix|(x & ->)%binding_keys_prefix]%elem_of_app; (split; [|done]).
    + exists "ca:", x. split; [right; left|done].
    + exists "dpop:", x. split; [right; right; left|done].
Qed.

(** The keys of an exchange are distinct. *)
Lemma entitled_keys request ex mode who until act keys :
  entitled state now request ex mode who until act keys ->
  NoDup keys.*1 /\ forall k, k ∈ keys.*1 -> prefixed k.
Proof.
  intros [token ac jti prior _ _ _ _ _ _ _|cc _ _ _].
  - destruct (caller_keys (ve_client_claims ex) (ve_dpop_binding ex)) as [Hn Hk]. cbn. split.
    + apply NoDup_cons. split; [|done]. intros Hin. destruct (Hk _ Hin) as [_ Hx]. by destruct (Hx (as_sub ac +:+ ":" +:+ jti)).
    + intros k [->|Hin]%elem_of_cons; [|by apply Hk]. eexists "act:", _. split; [left|done].
  - destruct (caller_keys (Some cc) (ve_dpop_binding ex)) as [Hn Hk]. split; [done|]. intros k Hin. by apply Hk.
Qed.

(** At most three keys. *)
Lemma entitled_few request ex mode who until act keys :
  entitled state now request ex mode who until act keys -> length keys <= 3.
Proof.
  assert (Hc : forall c, length (client_keys c) <= 1) by (intros c; unfold client_keys; case_match; cbn; lia).
  assert (Ho : forall o, length (option_keys client_keys o) <= 1) by (intros [c|]; cbn; [apply Hc|lia]).
  assert (Hb : forall o, length (option_keys binding_keys o) <= 1) by (intros [b|]; cbn; lia).
  pose proof (Ho (ve_client_claims ex)). pose proof (Hb (ve_dpop_binding ex)).
  intros [token ac jti prior _ _ _ _ _ _ _|cc _ _ _]; cbn; rewrite length_app; [lia|]. specialize (Hc cc). lia.
Qed.
End Memory.

(** * Properties *)

Section Properties.
Context {Sg : Type} `{JoseSigner Sg} `{HttpLib} `{UrlLib} `{Features} `{Base64} `{Jwt} `{OpenSsl} `{DpopLib}
  `{JsonReader} `{Sha256} `{FromJson CompactJwsHeader} `{FromJson SubjectTokenClaims} `{FromJson AssertionClaims}
  `{FromJson MintedClaims}.

(** C2: on a clock that stands at [now] the token endpoint grants a request when
    and only when its form and parameters are well formed, its subject token is
    signed by the identity provider for an accepted audience and inside its
    window, its target and scope are in the target policy, its caller is
    authenticated as the configuration asks, its DPoP proof (if any) is good,
    an actor or a client is entitled to the token, the target takes a signature
    of this signer, the replay store takes the keys of the actor token, the
    client assertion and the proof in this order, and the signer signs; and the
    answer is the one that these determine. *)
Theorem token_granted_exactly {St} `{ReplayStore St} (headers : HeaderMap) (state : HttpState Sg) (body : string)
    (now : Z) (w : World St) (answer : HeaderMap * TokenResponse) :
  steady now w ->
  (token headers state body w).1 = Ok answer <->
  token_granted state now headers body (store (w_replay w)) (next_jti w) answer.
Proof.
  intros Hw. rewrite <- (serves_token state now headers body w Hw answer). unfold token.
  by destruct (token_inner headers state body w).
Qed.

(** C6: a valid request is served: where all that [token_granted_exactly] asks of
    the request, of the policies and of the signer holds, and the in-memory
    store is healthy, holds none of the request's keys and has room for them
    (at most three) beside its live entries, the token endpoint answers with the
    token.  Expired entries do not stand in the way. *)
Theorem valid_exchange_served (headers : HeaderMap) (state : HttpState Sg) (body : string) (now : Z)
    (w : World InMemoryReplayStore) (form : TokenForm) (ex : VerifiedExchange) (mode : EffectiveExchangeMode)
    (who : string) (until : Z) (act : option ActClaim) (keys : list (string * Z)) (decision : SigningDecision)
    (token_text : string) :
  let request := into_exchange_request form in
  let exp := minted_exp now (scoped_token_ttl (config state)) (st_exp (ve_subject_claims ex)) until in
  steady now w ->
  parse_token_form headers body = Ok form ->
  validate_request_params request (max_token_len (config state)) = Ok tt ->
  mode = effective_exchange_mode (config state) request (tf_empty_actor_token_supplied form) ->
  exchange_of state now headers request mode ex ->
  entitled state now request ex mode who until act keys ->
  signing_decision_for_target state (ve_target ex) = Ok decision ->
  sign_claims (signer state) (minted_payload state ex now exp (next_jti w) who act) = Ok token_text ->
  takes now keys (store (w_replay w)) ->
  (token headers state body w).1 = Ok (granted now ex exp decision token_text).
Proof.
  cbv zeta. intros Hw Hf Hp -> Hx He Hd Hs Ht.
  assert (Hg : (token_inner headers state body w).1 = Ok (granted now ex
     (minted_exp now (scoped_token_ttl (config state)) (st_exp (ve_subject_claims ex)) until) decision token_text)).
  { apply (serves_token state now headers body w Hw). exists form, ex. split; [done|]. split; [done|]. split; [done|].
    exists who, until, act, keys, decision, token_text. destruct (entitled_keys _ _ _ _ _ _ _ _ _ He) as [Hn Hb].
    split_and!; [done|done|apply memory_records; [done|intros k Hk; by apply prefixed_not_blank, Hb|done]|done|done]. }
  unfold token. by destruct (token_inner headers state body w).
Qed.
End Properties.

(** * Examples *)

Lemma toy_steady now : in_i64 now -> steady now (toy_world now).
Proof. intros Hn n _. unfold reading. cbn. by apply wrap64_small. Qed.

Lemma toy_granted :
  token_granted toy_state 1200 toy_headers actor_body (store (w_replay (toy_world 1200))) (next_jti (toy_world 1200))
    (token_headers, toy_response).
Proof.
  apply (proj1 (serves_token toy_state 1200 toy_headers actor_body (toy_world 1200) (toy_steady 1200 ltac:(i64_tac)) _)).
  by rewrite (toy_run actor_body 1200 ltac:(left) eq_refl).
Qed.

Lemma token_granted_exactly_witness :
  (token toy_headers toy_state actor_body (toy_world 1200)).1 = Ok (token_headers, toy_response) /\
  forall now, in_i64 now -> (1360 < now)%Z -> forall answer,
    (token toy_headers toy_state actor_body (toy_world now)).1 <> Ok answer.
Proof.
  split.
  - apply (token_granted_exactly toy_headers toy_state actor_body 1200 (toy_world 1200) (token_headers, toy_response)
             (toy_steady 1200 ltac:(i64_tac))). exact toy_granted.
  - intros now Hn Hl answer Ha.
    apply (token_granted_exactly toy_headers toy_state actor_body now (toy_world now) answer (toy_steady now Hn)) in Ha.
    destruct Ha as (form & ex & Hf & _ & _ & who & until & act & keys & d & t & He & _).
    assert (form = toy_form) as -> by (vm_compute in Hf; injection Hf as <-; vm_compute; reflexivity).
    destruct He as [a ac jti prior _ [(v & Hv & <- & _) _ _ _ [Hw _] _ _] _ _ _ _ _|cc Ht _ _]; [|discriminate Ht].
    rewrite (toy_assertions _ _ _ _ Hv) in Hw.
    assert (Hb : i64_add 1300 (clock_skew_leeway (assertion_options toy_state (token_endpoint toy_state)
      (Some (subject_token (into_exchange_request toy_form))) (cfg_require_subject_binding (config toy_state)))) = 1360%Z)
      by (vm_compute; reflexivity).
    rewrite Hb in Hw. lia.
Defined.

(** The same request when expired entries fill the store. *)
Definition full_world : World InMemoryReplayStore :=
  set_replay (mkReplayPolicy (mkInMemory (mutex_new {["old:1" := 1100%Z; "old:2" := 1150%Z; "old:3" := 1180%Z]})
    (mutex_new 0%Z) 3 256)) (toy_world 1200).

Lemma valid_exchange_served_witness :
  map_len (m_value (seen (store (w_replay full_world)))) = max_seen (store (w_replay full_world)) /\
  exists ex exp decision text,
    (token toy_headers toy_state actor_body full_world).1 = Ok (granted 1200 ex exp decision text).
Proof.
  split; [vm_compute; reflexivity|].
  destruct toy_granted as (form & ex & Hf & Hp & Hx & who & until & act & keys & d & t & He & Hd & _ & Hs & _).
  eexists ex, _, d, t.
  eapply (valid_exchange_served toy_headers toy_state actor_body 1200 full_world form ex _ who until act keys d t).
  - exact (toy_steady 1200 ltac:(i64_tac)).
  - exact Hf.
  - exact Hp.
  - reflexivity.
  - exact Hx.
  - exact He.
  - exact Hd.
  - exact Hs.
  - split; [reflexivity|reflexivity| |].
    + intros k Hk. destruct (proj2 (entitled_keys _ _ _ _ _ _ _ _ _ He) k Hk) as (p & x & Hp' & ->).
      repeat (apply elem_of_cons in Hp' as [->|Hp']; [reflexivity|]). destruct (not_elem_of_nil _ Hp').
    + pose proof (entitled_few _ _ _ _ _ _ _ _ _ He). cbn [max_seen store w_replay full_world set_replay].
      replace (map_len _) with 0%Z by (vm_compute; reflexivity). lia.
Defined.
