(* ===== verification/HttpServer.v ===== *)
(** What the server guarantees over a sequence of requests: introspection and
    revocation, the revocation list's bound, and the outcome counters.

    Here a request is served whole before the next one.  HttpConc has requests
    that run at the same time, and FileRace processes that share the file-backed
    store. *)

From S2P Require Import Prelude RustStr Json Url Core Replay Jose JoseSigners Verify Config Dpop.
From S2P Require Import HttpForms HttpState HttpToken HttpToy HttpExchange.
From Stdlib Require Import Ascii.

#[local] Arguments token : simpl never.
#[local] Arguments introspect : simpl never.
#[local] Arguments revoke : simpl never.
#[local] Arguments u64_add : simpl never.
#[local] Arguments Z.of_nat : simpl never.
#[local] Arguments Z.pow : simpl never.
#[local] Arguments Z.modulo : simpl never.

(** * Requests *)

(** The requests that reach a handler with state. *)
Inductive Request : Type :=
| ReqToken (headers : HeaderMap) (body : string)
| ReqIntrospect (headers : HeaderMap) (body : string)
| ReqRevoke (headers : HeaderMap) (body : string)
| ReqMetrics.

Section Server.
Context {Sg St : Type} `{JoseSigner Sg} `{ReplayStore St} `{HttpLib} `{UrlLib} `{Features} `{Base64}
  `{Jwt} `{OpenSsl} `{DpopLib} `{JsonReader} `{Sha256}
  `{FromJson CompactJwsHeader} `{FromJson SubjectTokenClaims} `{FromJson AssertionClaims}
  `{FromJson MintedClaims}.

Definition serve (state : HttpState Sg) (req : Request) (w : World St) : World St :=
  match req with
  | ReqToken headers body => (token headers state body w).2
  | ReqIntrospect headers body => (introspect headers state body w).2
  | ReqRevoke headers body => (revoke headers state body w).2
  | ReqMetrics => w
  end.

Fixpoint serve_all (state : HttpState Sg) (reqs : list Request) (w : World St) : World St :=
  match reqs with
  | [] => w
  | req :: reqs' => serve_all state reqs' (serve state req w)
  end.

(** The outcomes of the token requests among them. *)
Fixpoint token_outcomes (state : HttpState Sg) (reqs : list Request) (w : World St) : list bool :=
  match reqs with
  | [] => []
  | req :: reqs' =>
      match req with
      | ReqToken headers body => [is_ok (token headers state body w).1]
      | _ => []
      end ++ token_outcomes state reqs' (serve state req w)
  end.

(** The answer to a token that is not live. *)
Definition inactive : Value := json_object [("active", VBool false)].

(** What makes an access token one of this server, apart from its times. *)
Definition issued_here (state : HttpState Sg) (v : VerifiedJws MintedClaims) : Prop :=
  v_typ v = Some "at+jwt" /\ mc_iss (v_claims v) = our_issuer (config state) /\
  is_Some (target_policy_get (mc_aud (v_claims v)) (target_policy (config state))) /\
  trim (mc_sub (v_claims v)) <> "" /\ trim (mc_client_id (v_claims v)) <> "" /\
  trim (mc_scope (v_claims v)) <> "".

(** The clock does not go back from here on. *)
Definition clock_ok (w : World St) : Prop :=
  forall i j, w_reads w <= i <= j -> (reading w i <= reading w j)%Z.

(** The size of the revocation list. *)
Definition revoked_count (w : World St) : Z := map_len (m_value (w_revocations w)).

(** * Lemmas *)

Lemma opt_is_none_false {A} (o : option A) : opt_is_none o = false -> is_Some o.
Proof. destruct o; [eauto|done]. Qed.

(** A token is live when it was issued here and is inside its times. *)
Definition live (state : HttpState Sg) (v : VerifiedJws MintedClaims) (now : Z) : Prop :=
  issued_here state v /\ (now < mc_exp (v_claims v))%Z /\
  (mc_iat (v_claims v) <= i64_add now (cfg_clock_skew_leeway (config state)))%Z.

Lemma verified_token_cases (state : HttpState Sg) t now chk (w : World St) v :
  verify_claims_against_jwks_with_header t (published_jwks state) = Ok v ->
  (~ live state v now /\ verified_sts_access_token state t now chk w = (None, w)) \/
  (live state v now /\ verified_sts_access_token state t now chk w =
     if chk then
       let '(revoked, r) := is_revoked_or_unavailable t now (w_revocations w) in
       (if revoked then None else Some (v_claims v), set_revocations r w)
     else (Some (v_claims v), w)).
Proof.
  intros Hv. unfold verified_sts_access_token, live, issued_here. rewrite Hv.
  destruct (bool_decide (v_typ v = _)) eqn:Q1; simpl; bool_hyps; [|left; naive_solver].
  destruct (bool_decide (mc_iss _ = _)) eqn:Q2; simpl; bool_hyps; [|left; naive_solver].
  destruct (target_policy_get _ _) eqn:Q3; simpl; [|left; split; [|done]; intros ((_ & _ & [? ?] & _) & _); done].
  destruct (is_empty (trim (mc_sub _))) eqn:Q4; simpl;
    [apply is_empty_true in Q4; left; naive_solver|apply is_empty_false in Q4].
  destruct (is_empty (trim (mc_client_id _))) eqn:Q5; simpl;
    [apply is_empty_true in Q5; left; naive_solver|apply is_empty_false in Q5].
  destruct (is_empty (trim (mc_scope _))) eqn:Q6; simpl;
    [apply is_empty_true in Q6; left; naive_solver|apply is_empty_false in Q6].
  destruct (Z.leb_spec (mc_exp (v_claims v)) now); simpl; [left; split; [lia|done]|].
  destruct (Z.ltb_spec (i64_add now (cfg_clock_skew_leeway (config state))) (mc_iat (v_claims v))); simpl;
    [left; split; [lia|done]|].
  right. split; [|done]. split_and!; eauto.
Qed.

Lemma verified_token_none (state : HttpState Sg) t now chk (w : World St) e :
  verify_claims_against_jwks_with_header (T := MintedClaims) t (published_jwks state) = Err e ->
  verified_sts_access_token state t now chk w = (None, w).
Proof. intros He. unfold verified_sts_access_token. by rewrite He. Qed.

Lemma unix_now_run (w : World St) r w' :
  unix_now w = (r, w') -> r = Ok (reading w (w_reads w)) /\ w_reads w' = Datatypes.S (w_reads w).
Proof. by intros [= <- <-]. Qed.

Lemma reading_same (w w1 : World St) n : outside_replay w w1 -> reading w1 n = reading w n.
Proof. intros Ho. unfold reading. by rewrite (or_time _ _ Ho). Qed.

(** What the two online endpoints do before they look at the token: the form,
    the client, its assertion's single use, and an instant [n]. *)
Record online_checked (state : HttpState Sg) (headers : HeaderMap) (body endpoint : string)
    (w : World St) (t : string) (cc : AssertionClaims) (n : nat) (w1 : World St) : Prop := {
  oc_form : exists form, parse_online_token_form headers body = Ok form /\
    required_online_token form (max_token_len (config state)) = Ok t /\
    exists wa, authenticate_online_client state form endpoint w = (Ok cc, wa);
  oc_recorded : exists m, m < n /\ recorded (reading w m) [as_exp cc] w w1;
  oc_frame : outside_replay w w1;
  oc_instant : w_reads w <= n < w_reads w1
}.

(** The common part of the two handlers, whatever follows. *)
Lemma online_prefix {A} headers (state : HttpState Sg) body endpoint (k : string -> Z -> Http A)
    (w : World St) r w' :
  (do? form <- parse_online_token_form headers body in
   do? token <- required_online_token form (max_token_len (config state)) in
   do! claims <- authenticate_online_client state form endpoint in
   do! now <- unix_now in
   do! _ <- record_client_assertion_replay claims now in
   do! now2 <- unix_now in
   k token now2) w = (r, w') ->
  (outside_replay w w' /\ exists e, r = Err e) \/
  exists t cc n w1, online_checked state headers body endpoint w t cc n w1 /\
    k t (reading w n) w1 = (r, w').
Proof.
  intros Hr.
  do 6 (apply eff_bind_cases in Hr as [(e & Hm & ->)|(? & ? & ? & Hr)];
    [left; split; [track (@outside_replay); chain|by eexists]|]).
  repeat match goal with Hx : eff_lift _ _ = (Ok _, _) |- _ => apply eff_lift_ok in Hx as [? ->] end.
  match goal with u : () |- _ => destruct u end. right.
  match goal with
  | Ha : authenticate_online_client _ ?form _ w = (Ok ?cc, ?wa), N1 : unix_now ?wa = (_, ?wb),
    Hc : record_client_assertion_replay ?cc _ ?wb = (_, ?wc), N2 : unix_now ?wc = (_, ?wd) |- _ =>
      assert (S1 : same_stores w wa) by exact (frame_run same_stores _ _ _ _ Ha);
      assert (S2 : same_stores wa wb) by exact (frame_run same_stores _ _ _ _ N1);
      assert (S3 : outside_replay wb wc) by exact (frame_run outside_replay _ _ _ _ Hc);
      assert (S4 : same_stores wc wd) by exact (frame_run same_stores _ _ _ _ N2);
      assert (S12 : same_stores w wb) by (by etrans);
      assert (Oa : outside_replay w wc) by (etrans; [by apply frame_quiet|exact S3]);
      assert (Od : outside_replay w wd) by (etrans; [exact Oa|by apply frame_quiet]);
      pose proof Hc as Hrec;
      apply record_client_ok in Hrec as (calls & Hcalls & Hall);
      apply unix_now_ok in N1 as [E1 R1], N2 as [E2 R2];
      eexists _; exists cc, (w_reads wc), wd
  end.
  rewrite <- (reading_same _ _ _ Oa). subst. split; [|exact Hr]. split.
  - eauto 10.
  - eexists. split; [|exists calls; split; [by rewrite <- (same_replay _ _ S12), (same_replay _ _ S4)|]].
    2: { eapply Forall_impl; [exact Hall|]. intros c [-> Hin]. split; [|done].
         unfold reading. by rewrite (same_time _ _ S1). }
    destruct S3. lia.
  - done.
  - destruct Oa, S4. lia.
Qed.

Lemma introspect_cases headers (state : HttpState Sg) body (w : World St) r w' :
  introspect headers state body w = (r, w') ->
  (outside_replay w w' /\ exists e, r = Err e) \/
  exists t cc n w1 v, online_checked state headers body (introspection_endpoint state) w t cc n w1 /\
    introspection_response_for_token state t (reading w n) w1 = (Ok v, w') /\ r = Ok (token_headers, v).
Proof.
  intros [|(t & cc & n & w1 & Hc & Hk)]%online_prefix; [by left|right].
  apply eff_bind_cases in Hk as [(e & Hm & _)|(v & w2 & Hv & Hk)].
  - unfold introspection_response_for_token in Hm. by destruct (verified_sts_access_token _ _ _ _ _).
  - injection Hk as <- <-. eauto 10.
Qed.

Lemma revoke_cases headers (state : HttpState Sg) body (w : World St) r w' :
  revoke headers state body w = (r, w') ->
  (outside_replay w w' /\ exists e, r = Err e) \/
  exists t cc n w1, online_checked state headers body (revocation_endpoint state) w t cc n w1 /\
    match (verified_sts_access_token state t (reading w n) false w1).1 with
    | None => w' = w1 /\ is_ok r = true
    | Some c => exists m w2 r', outside_replay w1 w2 /\ n < m < w_reads w2 /\
        revoke_in_world t (mc_exp c) (reading w m) (max_seen_jti (config state)) w2 = (r', w') /\
        is_ok r = is_ok r'
    end.
Proof.
  intros [|(t & cc & n & w1 & Hc & Hk)]%online_prefix; [by left|right].
  exists t, cc, n, w1. split; [done|]. destruct Hc as [_ _ Ho Hn].
  apply eff_bind_cases in Hk as [(e & Hm & _)|(o & w2 & Hv & Hk)];
    [by destruct (verified_sts_access_token _ _ _ _ _)|].
  assert (w2 = w1 /\ (verified_sts_access_token state t (reading w n) false w1).1 = o) as [-> ->].
  { destruct (verify_claims_against_jwks_with_header (T := MintedClaims) t (published_jwks state)) as [v|e] eqn:Hj.
    - destruct (verified_token_cases state t (reading w n) false w1 v Hj) as [[_ He]|[_ He]];
        rewrite He in Hv |- *; by injection Hv as <- <-.
    - rewrite (verified_token_none _ _ _ _ _ _ Hj) in Hv |- *. by injection Hv as <- <-. }
  destruct o as [c|].
  - apply eff_bind_cases in Hk as [(e & Hm & ->)|([] & w3 & Hm & Hk)];
      apply eff_bind_cases in Hm as [(? & [=] & _)|(? & w4 & Hn2 & Hm)];
      destruct (frame_run same_stores _ _ _ _ Hn2); apply unix_now_ok in Hn2 as [-> Hrd];
      exists (w_reads w1), w4; rewrite <- (reading_same _ _ _ Ho); eexists.
    + split_and!; [|lia|lia|exact Hm|done]. split; congruence || lia.
    + injection Hk as <- <-. split_and!; [|lia|lia|exact Hm|done]. split; congruence || lia.
  - apply eff_bind_cases in Hk as [(e & [=] & _)|([] & w3 & [= <-] & Hk)]. by injection Hk as <- <-.
Qed.

#[export] Instance frame_introspection (state : HttpState Sg) t now :
  Frame (S := St) same_counts (introspection_response_for_token state t now).
Proof.
  intros w. unfold introspection_response_for_token, verified_sts_access_token. repeat case_match; simplify_eq/=; by split.
Qed.

#[export] Instance frame_verified (state : HttpState Sg) t now :
  Frame (S := St) (E := HttpError) same_counts
    (fun w => let '(c, w') := verified_sts_access_token state t now false w in (Ok c, w')).
Proof. intros w. unfold verified_sts_access_token. repeat case_match; simplify_eq/=; by split. Qed.

#[export] Instance frame_revoke_in_world t e now max : Frame (S := St) same_counts (revoke_in_world t e now max).
Proof. intros w. unfold revoke_in_world. destruct (revoke_token _ _ _ _ _). by split. Qed.

#[export] Instance frame_introspect headers (state : HttpState Sg) body :
  Frame (S := St) same_counts (introspect headers state body).
Proof. unfold introspect. apply _. Qed.

#[export] Instance frame_revoke headers (state : HttpState Sg) body :
  Frame (S := St) same_counts (revoke headers state body).
Proof. unfold revoke. apply _. Qed.

Lemma token_frame headers (state : HttpState Sg) body (w : World St) r w' :
  token headers state body w = (r, w') ->
  w_revocations w' = w_revocations w /\ w_time w' = w_time w /\ w_reads w <= w_reads w' /\
  exchanges_minted (w_metrics w') =
    (if is_ok r then u64_add (exchanges_minted (w_metrics w)) 1 else exchanges_minted (w_metrics w)) /\
  exchanges_denied (w_metrics w') =
    (if is_ok r then exchanges_denied (w_metrics w) else u64_add (exchanges_denied (w_metrics w)) 1).
Proof.
  unfold token. destruct (token_inner _ _ _ _) as [r1 w1] eqn:Hr. intros [= <- <-].
  destruct (frame_run outside_replay _ _ _ _ Hr) as [Hv Hm Hd Ht Hrd]. simpl. rewrite <- Hm, <- Hd.
  destruct r1; by split_and!.
Qed.

(** The clock and the outcome counters over one request. *)
Lemma serve_clock (state : HttpState Sg) req (w : World St) :
  w_time (serve state req w) = w_time w /\ w_reads w <= w_reads (serve state req w).
Proof.
  destruct req as [h b|h b|h b|]; cbn [serve]; [| | |done].
  - destruct (token h state b w) eqn:Ht. apply token_frame in Ht. naive_solver.
  - split; apply (frame_introspect h state b w).
  - split; apply (frame_revoke h state b w).
Qed.

Lemma clock_ok_mono (w w' : World St) :
  w_time w' = w_time w -> w_reads w <= w_reads w' -> clock_ok w -> clock_ok w'.
Proof. unfold clock_ok, reading. intros -> Hr Hc i j Hij. apply Hc. lia. Qed.

(** ** Revocation *)

(** Two texts that SHA-256 does not tell apart. *)
Definition collision : Prop := exists x y : string, x <> y /\ sha256 x = sha256 y.

Lemma revocation_key_inj t t' : revocation_key t = revocation_key t' -> t = t' \/ collision.
Proof.
  intros Hk%hex_lower_inj. destruct (decide (t = t')); [by left|right].
  do 2 eexists. split; [|exact Hk]. intros He. by apply str_app_inj_l, str_app_inj_l in He.
Qed.

(** A token is on the list until it expires, or the list cannot be read. *)
Definition revoked_until (t : string) (exp : Z) (w : World St) : Prop :=
  m_poisoned (w_revocations w) = true \/ m_value (w_revocations w) !! revocation_key t = Some exp \/
  forall n, w_reads w <= n -> (exp <= reading w n)%Z.

Lemma lookup_sweep_revoked m now k :
  sweep_revoked m now !! k =
  match m !! k with Some e => if (now <=? e)%Z then Some e else None | None => None end.
Proof. apply (lookup_sweep m now k). Qed.

(** Replacing the list by one that drops only expired entries keeps the token
    on it. *)
Lemma revoked_until_step t exp (w w' : World St) now m :
  w_time w' = w_time w -> w_reads w <= w_reads w' ->
  ((exp < now)%Z -> forall n, w_reads w <= n -> (exp <= reading w n)%Z) ->
  w_revocations w' = mutex_new m ->
  ((now <= exp)%Z -> m_value (w_revocations w) !! revocation_key t = Some exp -> m !! revocation_key t = Some exp) ->
  m_poisoned (w_revocations w) = false -> revoked_until t exp w -> revoked_until t exp w'.
Proof.
  unfold revoked_until, reading. intros Ht Hr Hnow Hm Hk Hp [Hx|[Hx|Hx]]; [congruence| |].
  - destruct (Z.le_gt_cases now exp) as [Hle|Hlt].
    + right; left. rewrite Hm. by apply Hk.
    + do 2 right. rewrite Ht. intros n Hn. apply Hnow; [lia|lia].
  - do 2 right. rewrite Ht. intros n Hn. apply Hx. lia.
Qed.

Lemma revoked_until_same t exp (w w' : World St) :
  w_time w' = w_time w -> w_reads w <= w_reads w' -> w_revocations w' = w_revocations w ->
  revoked_until t exp w -> revoked_until t exp w'.
Proof.
  unfold revoked_until, reading. intros -> Hr -> [?|[?|Hx]]; auto. do 2 right. intros n Hn. apply Hx. lia.
Qed.

(** Asking whether some token is revoked, at a past instant, loses nothing. *)
Lemma query_keeps t exp t' now (w : World St) :
  ((exp < now)%Z -> forall n, w_reads w <= n -> (exp <= reading w n)%Z) ->
  revoked_until t exp w ->
  revoked_until t exp (set_revocations (is_revoked_or_unavailable t' now (w_revocations w)).2 w).
Proof.
  intros Hnow Hr. unfold is_revoked_or_unavailable, lock.
  destruct (m_poisoned (w_revocations w)) eqn:Hp; [by eapply revoked_until_same|].
  eapply (revoked_until_step t exp w _ now); try done. simpl. intros Hle Hk.
  rewrite lookup_sweep_revoked, Hk. by rewrite (proj2 (Z.leb_le _ _)).
Qed.

(** Revoking some token loses nothing but to a collision. *)
Lemma revoke_keeps t exp t' exp' now max (w w' : World St) r :
  ((exp < now)%Z -> forall n, w_reads w <= n -> (exp <= reading w n)%Z) ->
  (t' = t -> exp' = exp) ->
  revoke_in_world t' exp' now max w = (r, w') ->
  revoked_until t exp w -> revoked_until t exp w' \/ collision.
Proof.
  intros Hnow Hsame Hrun Hr. unfold revoke_in_world, revoke_token, lock in Hrun.
  destruct (m_poisoned (w_revocations w)) eqn:Hp; [injection Hrun as <- <-; left; by eapply revoked_until_same|].
  destruct (decide (revocation_key t' = revocation_key t)) as [Hk|Hk].
  - destruct (revocation_key_inj _ _ Hk) as [->|]; [left|by right]. rewrite Hsame in Hrun by done.
    destruct (_ && _)%bool; injection Hrun as <- <-; eapply (revoked_until_step t exp w _ now); try done; simpl.
    + intros Hle Hl. rewrite lookup_sweep_revoked, Hl. by rewrite (proj2 (Z.leb_le _ _)).
    + intros _ _. apply lookup_insert_eq.
  - left. destruct (_ && _)%bool; injection Hrun as <- <-; eapply (revoked_until_step t exp w _ now); try done; simpl;
      intros Hle Hl; rewrite ?lookup_insert_ne by done; rewrite lookup_sweep_revoked, Hl;
      by rewrite (proj2 (Z.leb_le _ _)).
Qed.

(** After a successful revocation the token is on the list. *)
Lemma revoke_records t exp now max (w w' : World St) :
  revoke_in_world t exp now max w = (Ok tt, w') ->
  m_value (w_revocations w') !! revocation_key t = Some exp.
Proof.
  unfold revoke_in_world, revoke_token, lock. destruct (m_poisoned _); [done|].
  destruct (_ && _)%bool; intros Hx; simplify_eq/=. apply lookup_insert_eq.
Qed.

Lemma verified_some (state : HttpState Sg) t now chk (w : World St) c :
  (verified_sts_access_token state t now chk w).1 = Some c ->
  exists v, verify_claims_against_jwks_with_header t (published_jwks state) = Ok v /\
    v_claims v = c /\ live state v now /\
    (chk = true -> (is_revoked_or_unavailable t now (w_revocations w)).1 = false).
Proof.
  intros Hc.
  destruct (verify_claims_against_jwks_with_header (T := MintedClaims) t (published_jwks state)) as [v|e] eqn:Hj.
  - exists v. destruct (verified_token_cases state t now chk w v Hj) as [[_ He]|[Hl He]]; rewrite He in Hc; [done|].
    destruct chk; [|simplify_eq/=; by split_and!].
    destruct (is_revoked_or_unavailable _ _ _) as [[] r]; simplify_eq/=. by split_and!.
  - by rewrite (verified_token_none _ _ _ _ _ _ Hj) in Hc.
Qed.

Lemma introspection_world (state : HttpState Sg) t now (w : World St) r w' :
  introspection_response_for_token state t now w = (r, w') ->
  w' = w \/ w' = set_revocations (is_revoked_or_unavailable t now (w_revocations w)).2 w.
Proof.
  unfold introspection_response_for_token.
  destruct (verify_claims_against_jwks_with_header (T := MintedClaims) t (published_jwks state)) as [v|e] eqn:Hj.
  - destruct (verified_token_cases state t now true w v Hj) as [[_ ->]|[_ ->]]; [by intros [= _ <-]; left|].
    destruct (is_revoked_or_unavailable _ _ _). intros [= _ <-]. by right.
  - rewrite (verified_token_none _ _ _ _ _ _ Hj). intros [= _ <-]. by left.
Qed.

(** A past instant bounds all later ones. *)
Lemma past_instant (w w1 : World St) n exp :
  clock_ok w -> outside_replay w w1 -> w_reads w <= n < w_reads w1 ->
  (exp < reading w n)%Z -> forall m, w_reads w1 <= m -> (exp <= reading w1 m)%Z.
Proof.
  intros Hc Ho Hn Hlt m Hm. rewrite (reading_same _ _ _ Ho). specialize (Hc n m ltac:(lia)). lia.
Qed.

Lemma outside_keeps t exp (w w' : World St) :
  outside_replay w w' -> revoked_until t exp w -> revoked_until t exp w'.
Proof. intros []. by apply revoked_until_same. Qed.

(** One request leaves a revoked token on the list. *)
Lemma serve_keeps (state : HttpState Sg) req (w : World St) t v :
  verify_claims_against_jwks_with_header t (published_jwks state) = Ok v -> clock_ok w ->
  revoked_until t (mc_exp (v_claims v)) w ->
  revoked_until t (mc_exp (v_claims v)) (serve state req w) \/ collision.
Proof.
  intros Hj Hc Hr. destruct req as [h b|h b|h b|]; cbn [serve]; [| | |by left].
  - left. destruct (token h state b w) eqn:Ht. apply token_frame in Ht as (? & ? & ? & _).
    by eapply revoked_until_same.
  - left. destruct (introspect h state b w) as [r w'] eqn:Hi. simpl.
    apply introspect_cases in Hi as [[Ho _]|(t' & cc & n & w1 & b' & [_ _ Ho Hn] & Hi & _)];
      [by eapply outside_keeps|].
    pose proof (outside_keeps _ _ _ _ Ho Hr).
    apply introspection_world in Hi as [->| ->]; [done|]. apply query_keeps; [|done].
    intros Hlt. by eapply past_instant.
  - destruct (revoke h state b w) as [r w'] eqn:Hi. simpl.
    apply revoke_cases in Hi as [[Ho _]|(t' & cc & n & w1 & [_ _ Ho Hn] & Hi)]; [left; by eapply outside_keeps|].
    destruct (verified_sts_access_token state t' _ false w1).1 as [c|] eqn:Hv; [|destruct Hi as [-> _]; left; by eapply outside_keeps].
    destruct Hi as (m & w2 & r' & Ho12 & Hm & Hrun & _).
    assert (Ho2 : outside_replay w w2) by by etrans.
    apply verified_some in Hv as (v' & Hj' & <- & _).
    eapply revoke_keeps; [| |exact Hrun|by eapply outside_keeps].
    + intros Hlt. eapply past_instant; try done. destruct Ho. lia.
    + intros ->. congruence.
Qed.

Lemma serve_all_keeps (state : HttpState Sg) reqs (w : World St) t v :
  verify_claims_against_jwks_with_header t (published_jwks state) = Ok v -> clock_ok w ->
  revoked_until t (mc_exp (v_claims v)) w ->
  (clock_ok (serve_all state reqs w) /\ revoked_until t (mc_exp (v_claims v)) (serve_all state reqs w))
  \/ collision.
Proof.
  intros Hj. revert w. induction reqs as [|req reqs IH]; intros w Hc Hr; [by left|]. simpl.
  destruct (serve_keeps state req w t v Hj Hc Hr) as [Hr'|]; [|by right].
  destruct (serve_clock state req w) as [Ht Hrd]. apply IH; [|done]. by eapply clock_ok_mono.
Qed.

Lemma serve_all_clock (state : HttpState Sg) reqs (w : World St) :
  w_time (serve_all state reqs w) = w_time w /\ w_reads w <= w_reads (serve_all state reqs w).
Proof.
  revert w. induction reqs as [|req reqs IH]; intros w; simpl; [done|].
  destruct (IH (serve state req w)), (serve_clock state req w). split; [congruence|lia].
Qed.

(** The token that an online endpoint looks at is the one of the form. *)
Lemma online_token (state : HttpState Sg) h b form t tx endpoint cc n (w w1 : World St) :
  parse_online_token_form h b = Ok form -> of_token form = Some t ->
  online_checked state h b endpoint w tx cc n w1 -> tx = t.
Proof.
  intros Hf Ht [(f & Hf' & Hreq & _) _ _ _]. unfold required_online_token in Hreq. ok_inv. congruence.
Qed.

(** A successful revocation of a live token puts it on the list. *)
Lemma revoke_effect h (state : HttpState Sg) b (w w1 : World St) resp form t :
  revoke h state b w = (Ok resp, w1) ->
  parse_online_token_form h b = Ok form -> of_token form = Some t ->
  exists n, w_reads w <= n < w_reads w1 /\ w_time w1 = w_time w /\ forall v,
    verify_claims_against_jwks_with_header t (published_jwks state) = Ok v -> live state v (reading w n) ->
    revoked_until t (mc_exp (v_claims v)) w1.
Proof.
  intros Hrev Hf Ht. destruct (frame_run same_counts _ _ _ _ Hrev) as [_ _ Htime _].
  apply revoke_cases in Hrev as [[_ (e & ?)]|(t1 & cc & n & wa & Hoc & Hrev)]; [done|].
  rewrite (online_token _ _ _ _ _ _ _ _ _ _ _ Hf Ht Hoc) in Hrev. destruct Hoc as [_ _ Ho Hn].
  exists n. destruct (verified_sts_access_token state t (reading w n) false wa).1 as [c|] eqn:Hc.
  - destruct Hrev as (m & w2 & r' & [] & Hm & Hrun & Hr). destruct r' as [[]|]; [|done].
    pose proof (revoke_records _ _ _ _ _ _ Hrun) as Hheld.
    unfold revoke_in_world in Hrun. destruct (revoke_token _ _ _ _ _). injection Hrun as _ <-. simpl in *.
    split_and!; [lia|lia|done|]. intros v Hj _. right; left. simpl.
    apply verified_some in Hc as (v' & Hj' & <- & _). congruence.
  - destruct Hrev as [-> _]. split_and!; [lia|lia|done|]. intros v Hj Hl.
    destruct (verified_token_cases state t (reading w n) false wa v Hj) as [[? _]|[_ He]]; [done|].
    by rewrite He in Hc.
Qed.

(** What a successful introspection says. *)
Lemma introspect_effect h (state : HttpState Sg) b (w w1 : World St) out form t :
  introspect h state b w = (Ok out, w1) ->
  parse_online_token_form h b = Ok form -> of_token form = Some t ->
  exists n w0, outside_replay w w0 /\ w_reads w <= n < w_reads w0 /\ out.1 = token_headers /\
    (out.2 = inactive \/ exists v,
       verify_claims_against_jwks_with_header t (published_jwks state) = Ok v /\
       live state v (reading w n) /\
       (is_revoked_or_unavailable t (reading w n) (w_revocations w)).1 = false /\
       out.2 = introspection_body (v_claims v)).
Proof.
  intros Hint Hf Ht.
  apply introspect_cases in Hint as [[_ (e & ?)]|(t1 & cc & n & w0 & b' & Hoc & Hi & Hout)]; [done|].
  injection Hout as ->. rewrite (online_token _ _ _ _ _ _ _ _ _ _ _ Hf Ht Hoc) in Hi.
  destruct Hoc as [_ _ Ho Hn]. exists n, w0. split_and!; try done; [lia|lia|].
  unfold introspection_response_for_token in Hi.
  destruct (verified_sts_access_token state t (reading w n) true w0) as [[c|] wj] eqn:Hv;
    injection Hi as <- _; [right|by left].
  assert (Hv1 : (verified_sts_access_token state t (reading w n) true w0).1 = Some c) by by rewrite Hv.
  apply verified_some in Hv1 as (v & Hj & <- & Hl & Hr). exists v. rewrite <- (or_revocations _ _ Ho). auto.
Qed.

(** A token on the list that has not expired is found there. *)
Lemma revoked_found t exp (w w0 : World St) n :
  revoked_until t exp w -> outside_replay w w0 -> w_reads w <= n < w_reads w0 ->
  (reading w n < exp)%Z -> (is_revoked_or_unavailable t (reading w n) (w_revocations w)).1 = true.
Proof.
  intros Hr Ho Hn Hlt. unfold is_revoked_or_unavailable, lock.
  destruct (m_poisoned (w_revocations w)) eqn:Hp; [done|]. simpl.
  destruct Hr as [Hr|[Hr|Hr]]; [congruence| |specialize (Hr n ltac:(lia)); lia].
  rewrite lookup_sweep_revoked, Hr. by rewrite (proj2 (Z.leb_le _ _)) by lia.
Qed.

(** ** Bounds and counters *)

Definition revocations_ok (state : HttpState Sg) (r : RevocationState) : Prop :=
  (map_len (m_value r) <= Z.max 0 (max_seen_jti (config state)))%Z.

Lemma sweep_revoked_len m now : (map_len (sweep_revoked m now) <= map_len m)%Z.
Proof. unfold map_len. apply Nat2Z.inj_le, (sweep_size m now). Qed.

Lemma query_bounded (state : HttpState Sg) t now r :
  revocations_ok state r -> revocations_ok state (is_revoked_or_unavailable t now r).2.
Proof.
  unfold revocations_ok, is_revoked_or_unavailable. destruct (lock r) as [m|] eqn:Hl; [|done]. simpl.
  unfold lock in Hl. destruct (m_poisoned r); [done|]. injection Hl as <-.
  pose proof (sweep_revoked_len (m_value r) now). lia.
Qed.

Lemma revoke_bounded (state : HttpState Sg) t exp now (w w' : World St) r :
  revoke_in_world t exp now (max_seen_jti (config state)) w = (r, w') ->
  revocations_ok state (w_revocations w) -> revocations_ok state (w_revocations w').
Proof.
  unfold revoke_in_world, revoke_token, lock, revocations_ok.
  destruct (m_poisoned (w_revocations w)); [by intros [= _ <-]|].
  pose proof (sweep_revoked_len (m_value (w_revocations w)) now).
  destruct (opt_is_none _ && _)%bool eqn:Hfull; intros [= _ <-]; simpl; [lia|].
  unfold map_len in *. rewrite map_size_insert.
  destruct (sweep_revoked _ _ !! _) eqn:Hl; simpl in *; [lia|].
  apply Z.leb_gt in Hfull. lia.
Qed.

Lemma serve_bounded (state : HttpState Sg) req (w : World St) :
  revocations_ok state (w_revocations w) -> revocations_ok state (w_revocations (serve state req w)).
Proof.
  intros Hb. destruct req as [h b|h b|h b|]; cbn [serve]; [| | |done].
  - destruct (token h state b w) eqn:Ht. simpl. by apply token_frame in Ht as (-> & _).
  - destruct (introspect h state b w) as [r w'] eqn:Hi. simpl.
    apply introspect_cases in Hi as [[[-> _ _ _ _] _]|(t & cc & n & w1 & b' & [_ _ [Hr _ _ _ _] _] & Hi & _)]; [done|].
    apply introspection_world in Hi as [->| ->]; simpl; rewrite Hr; [done|by apply query_bounded].
  - destruct (revoke h state b w) as [r w'] eqn:Hi. simpl.
    apply revoke_cases in Hi as [[[-> _ _ _ _] _]|(t & cc & n & w1 & [_ _ [Hr _ _ _ _] _] & Hi)]; [done|].
    destruct (verified_sts_access_token state t _ false w1).1 as [c|];
      [destruct Hi as (m & w2 & r' & [Hr2 _ _ _ _] & _ & Hrun & _)|destruct Hi as [-> _]; by rewrite Hr].
    eapply revoke_bounded; [exact Hrun|]. by rewrite Hr2, Hr.
Qed.

(** One request and the outcome counters. *)
Lemma serve_counts (state : HttpState Sg) req (w : World St) :
  let bump (b : bool) o z := match o with Some b' => if Bool.eqb b b' then u64_add z 1 else z | None => z end in
  let o := match req with ReqToken h b => Some (is_ok (token h state b w).1) | _ => None end in
  exchanges_minted (w_metrics (serve state req w)) = bump true o (exchanges_minted (w_metrics w)) /\
  exchanges_denied (w_metrics (serve state req w)) = bump false o (exchanges_denied (w_metrics w)).
Proof.
  destruct req as [h b|h b|h b|]; cbn [serve]; [| | |done].
  - destruct (token h state b w) as [r w'] eqn:Ht. simpl.
    apply token_frame in Ht as (_ & _ & _ & -> & ->). by destruct (is_ok r).
  - split; apply (frame_introspect h state b w).
  - split; apply (frame_revoke h state b w).
Qed.

End Server.

(** * Properties *)

Section Properties.
Context {Sg St : Type} `{JoseSigner Sg} `{ReplayStore St} `{HttpLib} `{UrlLib} `{Features} `{Base64}
  `{Jwt} `{OpenSsl} `{DpopLib} `{JsonReader} `{Sha256}
  `{FromJson CompactJwsHeader} `{FromJson SubjectTokenClaims} `{FromJson AssertionClaims}
  `{FromJson MintedClaims}.

(** C8: revocation is final: after a revocation request for a token has
    succeeded, no later introspection request, whatever the server is asked in
    between, is told that the token is active, on a clock that does not go back
    and for a token whose [iat] was not in the future; or else SHA-256 has a
    collision. *)
Theorem revoked_stays_inactive (state : HttpState Sg) (h : HeaderMap) (b : string) (t : string)
    (form : OnlineTokenForm) (resp : HttpResponse) (w w1 : World St) (reqs : list Request)
    (h2 : HeaderMap) (b2 : string) (form2 : OnlineTokenForm) (out : HeaderMap * Value) (w3 : World St) :
  clock_ok w ->
  (forall (v : VerifiedJws MintedClaims) n,
     verify_claims_against_jwks_with_header t (published_jwks state) = Ok v -> w_reads w <= n ->
     (mc_iat (v_claims v) <= i64_add (reading w n) (cfg_clock_skew_leeway (config state)))%Z) ->
  revoke h state b w = (Ok resp, w1) ->
  parse_online_token_form h b = Ok form -> of_token form = Some t ->
  parse_online_token_form h2 b2 = Ok form2 -> of_token form2 = Some t ->
  introspect h2 state b2 (serve_all state reqs w1) = (Ok out, w3) ->
  out.2 = inactive \/ collision.
Proof.
  intros Hc Hiat Hrev F1 T1 F2 T2 Hint.
  destruct (revoke_effect _ _ _ _ _ _ _ _ Hrev F1 T1) as (n & Hn & Ht & Heff).
  destruct (introspect_effect _ _ _ _ _ _ _ _ Hint F2 T2) as (m & w0 & Ho & Hm & _ & [|(v & Hj & Hl & Hnr & _)]);
    [by left|].
  destruct (serve_all_clock state reqs w1) as [Ht2 Hr2].
  assert (Hle : (reading w n <= reading (serve_all state reqs w1) m)%Z).
  { replace (reading (serve_all state reqs w1) m) with (reading w m) by (unfold reading; by rewrite Ht2, Ht).
    apply Hc. lia. }
  destruct Hl as (Hhere & Hexp & _).
  assert (Hheld : revoked_until t (mc_exp (v_claims v)) w1).
  { apply Heff; [done|]. split; [done|]. split; [lia|]. apply Hiat; [done|lia]. }
  assert (Hc1 : clock_ok w1) by (eapply clock_ok_mono; [exact Ht|lia|exact Hc]).
  destruct (serve_all_keeps state reqs w1 t v Hj Hc1 Hheld) as [[_ Hr]|]; [|by right].
  rewrite (revoked_found _ _ _ _ _ Hr Ho Hm Hexp) in Hnr. discriminate Hnr.
Qed.

(** introspection tells the truth to an authenticated client: it reports a
    token as active only when the token verifies under the server's own keys,
    was issued here for a target still in the policy, is inside its times at an
    instant of the request, and is not revoked; what it reports are that
    token's claims.  The client's assertion is recorded first. *)
Theorem introspection_sound (state : HttpState Sg) (h : HeaderMap) (b : string)
    (form : OnlineTokenForm) (t : string) (out : HeaderMap * Value) (w w1 : World St) :
  introspect h state b w = (Ok out, w1) ->
  parse_online_token_form h b = Ok form -> of_token form = Some t ->
  (exists cc wa n w0, authenticate_online_client state form (introspection_endpoint state) w = (Ok cc, wa) /\
     recorded (reading w n) [as_exp cc] w w0 /\ w_replay w1 = w_replay w0) /\
  exists n, w_reads w <= n /\
    (out.2 = inactive \/ exists v,
       verify_claims_against_jwks_with_header t (published_jwks state) = Ok v /\
       live state v (reading w n) /\
       (is_revoked_or_unavailable t (reading w n) (w_revocations w)).1 = false /\
       out.2 = introspection_body (v_claims v)).
Proof.
  intros Hint Hf Ht. split.
  - apply introspect_cases in Hint as [[_ (e & ?)]|(t1 & cc & n & w0 & b' & Hoc & Hi & _)]; [done|].
    destruct Hoc as [(f & Hf' & _ & wa & Ha) (m & _ & Hrec) _ _].
    exists cc, wa, m, w0. split_and!; [congruence|done|].
    by apply introspection_world in Hi as [->| ->].
  - destruct (introspect_effect _ _ _ _ _ _ _ _ Hint Hf Ht) as (n & w0 & _ & Hn & _ & Hout).
    exists n. split; [lia|done].
Qed.

(** the revocation list never outgrows its bound, whatever requests are
    served. *)
Theorem revocations_bounded (state : HttpState Sg) (reqs : list Request) (w : World St) :
  (revoked_count w <= Z.max 0 (max_seen_jti (config state)))%Z ->
  (revoked_count (serve_all state reqs w) <= Z.max 0 (max_seen_jti (config state)))%Z.
Proof.
  revert w. induction reqs as [|req reqs IH]; intros w Hb; [done|]. simpl. apply IH.
  by apply serve_bounded.
Qed.

(** the outcome counters count the token requests: over any sequence of
    requests the minted counter advances by the successful ones and the denied
    counter by the others (64-bit counters wrap). *)
Theorem outcomes_counted (state : HttpState Sg) (reqs : list Request) (w : World St) :
  let outcomes := token_outcomes state reqs w in
  let count b := Z.of_nat (length (List.filter (Bool.eqb b) outcomes)) in
  (0 <= exchanges_minted (w_metrics w) < 2 ^ 64)%Z -> (0 <= exchanges_denied (w_metrics w) < 2 ^ 64)%Z ->
  exchanges_minted (w_metrics (serve_all state reqs w))
    = ((exchanges_minted (w_metrics w) + count true) mod 2 ^ 64)%Z /\
  exchanges_denied (w_metrics (serve_all state reqs w))
    = ((exchanges_denied (w_metrics w) + count false) mod 2 ^ 64)%Z.
Proof.
  revert w. induction reqs as [|req reqs IH]; intros w; cbv zeta; intros Hm Hd; simpl.
  { by rewrite !Z.add_0_r, !Z.mod_small. }
  destruct (serve_counts state req w) as [Em Ed].
  specialize (IH (serve state req w)). cbv zeta in IH. rewrite Em, Ed in IH.
  assert (Hr : forall z, (0 <= u64_add z 1 < 2 ^ 64)%Z) by (intros z; apply Z.mod_pos_bound; lia).
  assert (Hstep : forall z n, ((u64_add z 1 + Z.of_nat n) mod 2 ^ 64 = (z + Z.of_nat (S n)) mod 2 ^ 64)%Z).
  { intros z n. unfold u64_add. rewrite Zplus_mod_idemp_l. f_equal. lia. }
  destruct req as [h b|h b|h b|]; cbn [app] in *; try by apply IH.
  destruct (is_ok (token h state b w).1); cbn [app List.filter Bool.eqb length] in *; rewrite <- Hstep; by apply IH.
Qed.

End Properties.

(** * Examples *)

Definition toy_online (assertion : string) : OnlineTokenForm :=
  match parse_online_token_form toy_headers (online_body assertion) with
  | Ok f => f
  | Err _ => default_online_form
  end.

Lemma toy_minted_verified (v : VerifiedJws MintedClaims) :
  verify_claims_against_jwks_with_header "t.t.t" (published_jwks toy_state) = Ok v ->
  v_claims v = toy_minted 1100 1400.
Proof. intros Hv. vm_compute in Hv. by injection Hv as <-. Qed.

Lemma introspection_sound_witness :
  exists out : HeaderMap * Value,
    (introspect toy_headers toy_state (online_body "c.c.c") (toy_world 1200)).1 = Ok out /\
    out.2 <> inactive /\ exists v : VerifiedJws MintedClaims, live toy_state v 1200.
Proof.
  destruct (introspect toy_headers toy_state (online_body "c.c.c") (toy_world 1200)) as [[out|e] w1] eqn:Hrun.
  - exists out. split; [reflexivity|].
    assert (Hout : out.2 <> inactive).
    { assert (Hr : (introspect toy_headers toy_state (online_body "c.c.c") (toy_world 1200)).1 = Ok out)
        by (rewrite Hrun; reflexivity).
      vm_compute in Hr. injection Hr as <-. vm_compute. discriminate. }
    split; [exact Hout|].
    destruct (introspection_sound toy_state toy_headers (online_body "c.c.c") (toy_online "c.c.c") "t.t.t" out
                (toy_world 1200) w1 Hrun) as [_ (n & _ & [Hi|(v & _ & Hl & _)])].
    + vm_compute. reflexivity.
    + vm_compute. reflexivity.
    + destruct (Hout Hi).
    + exists v. exact Hl.
  - assert (Hr : is_ok (introspect toy_headers toy_state (online_body "c.c.c") (toy_world 1200)).1 = true)
      by (vm_compute; reflexivity).
    rewrite Hrun in Hr. discriminate Hr.
Defined.

Lemma revoked_stays_inactive_witness :
  let w1 := (revoke toy_headers toy_state (online_body "c.c.c") (toy_world 1200)).2 in
  let w2 := serve_all toy_state [ReqToken toy_headers actor_body; ReqMetrics] w1 in
  exists out : HeaderMap * Value, (introspect toy_headers toy_state (online_body "d.d.d") w2).1 = Ok out /\
    (out.2 = inactive \/ collision).
Proof.
  intros w1 w2.
  destruct (introspect toy_headers toy_state (online_body "d.d.d") w2) as [[out|e] w3] eqn:Hrun.
  - exists out. split; [reflexivity|].
    eapply (revoked_stays_inactive toy_state toy_headers (online_body "c.c.c") "t.t.t" (toy_online "c.c.c")
              (mkHttpResponse 200 token_headers None) (toy_world 1200) w1 _ toy_headers (online_body "d.d.d")
              (toy_online "d.d.d") out w3).
    + intros i j _. reflexivity.
    + intros v n Hv _. rewrite (toy_minted_verified v Hv). vm_compute. discriminate.
    + rewrite (surjective_pairing (revoke _ _ _ _)). apply (f_equal2 pair); [vm_compute; reflexivity|reflexivity].
    + vm_compute. reflexivity.
    + vm_compute. reflexivity.
    + vm_compute. reflexivity.
    + vm_compute. reflexivity.
    + exact Hrun.
  - assert (Hr : is_ok (introspect toy_headers toy_state (online_body "d.d.d") w2).1 = true)
      by (vm_compute; reflexivity).
    rewrite Hrun in Hr. discriminate Hr.
Defined.

Lemma revocations_bounded_witness :
  (revoked_count (serve_all toy_state [ReqRevoke toy_headers (online_body "c.c.c")] (toy_world 1200)) <= 1000)%Z.
Proof.
  apply (revocations_bounded toy_state [ReqRevoke toy_headers (online_body "c.c.c")] (toy_world 1200)).
  vm_compute. discriminate.
Defined.

Lemma outcomes_counted_witness :
  exchanges_minted (w_metrics (serve_all toy_state
    [ReqToken toy_headers actor_body; ReqToken toy_headers actor_body] (toy_world 1200))) = 1%Z.
Proof.
  destruct (outcomes_counted toy_state [ReqToken toy_headers actor_body; ReqToken toy_headers actor_body]
              (toy_world 1200)) as [Hm _].
  - vm_compute. split; [discriminate|reflexivity].
  - vm_compute. split; [discriminate|reflexivity].
  - rewrite Hm. vm_compute. reflexivity.
Defined.
