(* ===== verification/HttpOnline.v ===== *)
(** Exactly when the introspection and the revocation endpoint answer, with
    what, and what a revocation leaves on the list: the counterpart, for a
    clock that stands at one instant, of [HttpGranted].

    Both handlers do the same with their caller; [online] is that part, and the
    rest of each handler its argument. *)

From S2P Require Import Prelude RustStr Json Url Core Replay Jose JoseSigners Verify Config Dpop.
From S2P Require Import HttpForms HttpState HttpToken HttpToy HttpExchange HttpGranted HttpServer.
From Stdlib Require Import Ascii.

Section Online.
Context {Sg St : Type} `{JoseSigner Sg} `{ReplayStore St} `{HttpLib} `{UrlLib} `{Features} `{Base64}
  `{Jwt} `{OpenSsl} `{DpopLib} `{JsonReader} `{Sha256}
  `{FromJson CompactJwsHeader} `{FromJson SubjectTokenClaims} `{FromJson AssertionClaims}
  `{FromJson MintedClaims}.
Context (state : HttpState Sg) (now : Z).

(** * The caller *)

(** The request that an online form stands for where clients are verified. *)
Definition online_exchange_request (form : OnlineTokenForm) : ExchangeRequest :=
  let d := default_exchange_request in
  mkExchangeRequest (grant_type d) (subject_token d) (subject_token_type d) (actor_token d) (actor_token_type d)
    (audience d) (resource d) (scope d) (requested_token_type d)
    (of_client_id form) (of_client_assertion form) (of_client_assertion_type form).

(** A client that may ask [endpoint] does ask about a token. *)
Record asks (endpoint : string) (headers : HeaderMap) (body token : string) (c : AssertionClaims) : Prop := {
  as_form : exists form, parse_online_token_form headers body = Ok form /\
    required_online_token form (max_token_len (config state)) = Ok token /\
    has_client_auth (online_exchange_request form) = true /\
    client_accepted state now (online_exchange_request form) endpoint c
}.

(** Its single use recorded, the store is [s']. *)
Definition spends (c : AssertionClaims) (s s' : St) : Prop := record_keys now (client_keys c) s = Some s'.

Lemma asks_fun endpoint headers body t t' c c' :
  asks endpoint headers body t c -> asks endpoint headers body t' c' -> t = t' /\ c = c'.
Proof.
  intros [(f & Hf & Ht & _ & [_ (a & Ha & [(v & Hv & Hc & _) _ _ _ _ _ _]) _ _ _])].
  intros [(f' & Hf' & Ht' & _ & [_ (a' & Ha' & [(v' & Hv' & Hc' & _) _ _ _ _ _ _]) _ _ _])].
  assert (f' = f) as -> by congruence. assert (a' = a) as -> by congruence. split; congruence.
Qed.

#[local] Instance decides_online form endpoint :
  Decides (St := St) now (authenticate_online_client state form endpoint) (fun c =>
    has_client_auth (online_exchange_request form) = true /\
    client_accepted state now (online_exchange_request form) endpoint c).
Proof.
  intros w Hw. change (authenticate_online_client state form endpoint) with
    (if negb (has_client_auth (online_exchange_request form))
     then eff_err (A := AssertionClaims) (invalid_client "client_assertion required")
     else verify_client_assertion (St := St) state (online_exchange_request form) endpoint).
  destruct (has_client_auth _); cbn [negb].
  - destruct (decides_client state now (online_exchange_request form) endpoint w Hw) as [Hn Ha].
    split; [done|]. intros c. rewrite Ha. naive_solver.
  - destruct (decides_err (St := St) now (A := AssertionClaims) (invalid_client "client_assertion required") w Hw) as [Hn Ha].
    split; [done|]. intros c. rewrite Ha. naive_solver.
Qed.

(** What both handlers do before they look at the token. *)
Definition online {A} (endpoint : string) (headers : HeaderMap) (body : string) (rest : string -> Z -> Http (St := St) A)
    : Http A :=
  do? form <- parse_online_token_form headers body in
  do? token <- required_online_token form (max_token_len (config state)) in
  do! claims <- authenticate_online_client state form endpoint in
  do! n <- unix_now in
  do! _ <- record_client_assertion_replay claims n in
  do! n2 <- unix_now in
  rest token n2.

Lemma unix_now_steady (w : World St) : steady now w -> unix_now w = (Ok now, later 1 w).
Proof.
  intros Hw. unfold unix_now, now_unix, later. cbn. rewrite Nat.add_1_r. specialize (Hw (w_reads w) (le_n _)).
  unfold reading in Hw. by rewrite Hw.
Qed.

(** [online] comes to its [rest] exactly for a client that asks and whose
    assertion the store takes. *)
Lemma online_run {A} endpoint headers body (rest : string -> Z -> Http A) (w : World St) :
  steady now w -> exists n, forall a w',
  online endpoint headers body rest w = (Ok a, w') <->
  exists t c s, asks endpoint headers body t c /\ spends c (store (w_replay w)) s /\
    rest t now (later 1 (set_replay (mkReplayPolicy s) (later n w))) = (Ok a, w').
Proof.
  intros Hw. unfold online, eff_bind, eff_lift.
  destruct (parse_online_token_form headers body) as [form|e] eqn:Hf.
  2: { exists 0. intros a w'. split; [done|]. intros (t & c & s & [(f & Hf' & _)] & _). congruence. }
  destruct (required_online_token form (max_token_len (config state))) as [t|e] eqn:Ht.
  2: { exists 0. intros a w'. split; [done|]. intros (t & c & s & [(f & Hf' & Ht' & _)] & _). congruence. }
  destruct (decides_online form endpoint w Hw) as [[k Hk] Hc].
  destruct (authenticate_online_client state form endpoint w) as [[c|e] w1]; cbn in Hk, Hc; subst w1.
  2: { exists 0. intros a w'. split; [done|]. intros (t' & c & s & [(f & Hf' & _ & Ha)] & _).
       replace f with form in Ha by congruence. by apply Hc in Ha. }
  exists (k + 1). intros a w'. pose proof (proj1 (Hc c) eq_refl) as [Hh Hca]. assert (Ha : asks endpoint headers body t c).
  { split. exists form. split_and!; [done|done|exact Hh|exact Hca]. }
  assert (Hj : is_ok (client_assertion_jti c) = true) by apply Hca.
  rewrite unix_now_steady by by apply steady_later. rewrite later_later.
  pose proof (records_client now c Hj (later (k + 1) w)) as Hr. cbn [w_replay later] in Hr. unfold spends.
  destruct (record_keys now (client_keys c) (store (w_replay w))) as [s|] eqn:Hs.
  - rewrite Hr, unix_now_steady by by apply steady_set_replay, steady_later. split.
    + intros Hx. by exists t, c, s.
    + intros (t' & c' & s' & Ha' & Hs' & Hx). destruct (asks_fun _ _ _ _ _ _ _ Ha Ha') as [<- <-]. by replace s' with s in Hx by congruence.
  - destruct (record_client_assertion_replay c now _) as [[u|e] w1]; [done|]. split; [done|].
    intros (t' & c' & s' & Ha' & Hs' & _). destruct (asks_fun _ _ _ _ _ _ _ Ha Ha') as [<- <-]. congruence.
Qed.

(** * The token *)

(** A token that verifies under the published keys and is live. *)
Definition live_token (t : string) (v : VerifiedJws MintedClaims) : Prop :=
  verify_claims_against_jwks_with_header t (published_jwks state) = Ok v /\ live state v now.

(** The list can be read and does not hold the token as one yet to expire. *)
Definition unrevoked (t : string) (revs : RevocationState) : Prop :=
  m_poisoned revs = false /\ forall e, m_value revs !! revocation_key t = Some e -> (e < now)%Z.

(** What introspection reports. *)
Inductive reports (t : string) (revs : RevocationState) : Value -> Prop :=
| reports_active v : live_token t v -> unrevoked t revs -> reports t revs (introspection_body (v_claims v))
| reports_inactive : (forall v, live_token t v -> ~ unrevoked t revs) -> reports t revs inactive.

(** What a revocation leaves on the list: it forgets what has expired and adds
    a live token, for which it needs room. *)
Inductive relists (t : string) (revs : RevocationState) : RevocationState -> Prop :=
| relists_nothing : (forall v, ~ live_token t v) -> relists t revs revs
| relists_live v : live_token t v -> m_poisoned revs = false ->
    is_Some (sweep_revoked (m_value revs) now !! revocation_key t) \/
      (map_len (sweep_revoked (m_value revs) now) < max_seen_jti (config state))%Z ->
    relists t revs (mutex_new (<[revocation_key t := mc_exp (v_claims v)]> (sweep_revoked (m_value revs) now))).

Lemma is_revoked_spec t (revs : RevocationState) :
  (is_revoked_or_unavailable t now revs).1 = false <-> unrevoked t revs.
Proof.
  unfold is_revoked_or_unavailable, unrevoked, lock. destruct (m_poisoned revs); cbn; [naive_solver|].
  rewrite lookup_sweep_revoked. destruct (m_value revs !! revocation_key t) as [e|]; cbn; [|naive_solver].
  destruct (Z.leb_spec now e); cbn; (split; [intros Hr|intros [_ Hx]; try done]).
  - done.
  - specialize (Hx e eq_refl). lia.
  - split; [done|]. by intros ? [= <-].
Qed.

(** Either a token is live, and [verified_sts_access_token] finds it, or not. *)
Lemma live_cases t chk (w : World St) :
  (exists v, live_token t v /\ verified_sts_access_token state t now chk w =
     if chk then
       let '(revoked, r) := is_revoked_or_unavailable t now (w_revocations w) in
       (if revoked then None else Some (v_claims v), set_revocations r w)
     else (Some (v_claims v), w)) \/
  ((forall v, ~ live_token t v) /\ verified_sts_access_token state t now chk w = (None, w)).
Proof.
  destruct (verify_claims_against_jwks_with_header t (published_jwks state)) as [v|e] eqn:Hv.
  - destruct (verified_token_cases state t now chk w v Hv) as [[Hl ->]|[Hl ->]]; [right|left; by exists v].
    split; [|done]. intros v' [Hv' Hl']. by replace v' with v in Hl' by congruence.
  - right. split; [|by apply (verified_token_none _ _ _ _ _ e)]. intros v [Hv' _]. congruence.
Qed.

Lemma reports_response t (w : World St) body :
  (introspection_response_for_token state t now w).1 = Ok body <-> reports t (w_revocations w) body.
Proof.
  unfold introspection_response_for_token. pose proof (is_revoked_spec t (w_revocations w)) as Hu.
  destruct (live_cases t true w) as [(v & Hl & ->)|[Hn ->]].
  - destruct (is_revoked_or_unavailable _ _ _) as [[] r]; cbn in Hu |- *.
    + assert (Hr : ~ unrevoked t (w_revocations w)) by (by intros ?%Hu).
      split; [intros [= <-]; by apply reports_inactive|]. intros [v' _ Hx|_]; [by destruct Hr|done].
    + assert (Hr : unrevoked t (w_revocations w)) by by apply Hu.
      split; [intros [= <-]; by apply reports_active|]. intros [v' [Hv' _] _|Hx]; [|by destruct (Hx v Hl)].
      destruct Hl as [Hv _]. by replace v' with v by congruence.
  - cbn. split; [intros [= <-]; apply reports_inactive; intros v Hl; by destruct (Hn v)|].
    intros [v Hl _|_]; [by destruct (Hn v)|done].
Qed.

(** The part of [revoke] that looks at the token. *)
Definition revoke_rest (t : string) (n : Z) : Http HttpResponse :=
  do! token_claims <- (fun w : World St => let '(c, w') := verified_sts_access_token state t n false w in (Ok c, w')) in
  do! _ <- match token_claims with
           | None => eff_ret tt
           | Some token_claims =>
               do! now3 <- unix_now in
               revoke_in_world t (mc_exp token_claims) now3 (max_seen_jti (config state))
           end in
  eff_ret (mkHttpResponse 200 token_headers None).

Lemma revoke_token_spec t v (revs revs' : RevocationState) : live_token t v ->
  revoke_token t (mc_exp (v_claims v)) now (max_seen_jti (config state)) revs = (Ok tt, revs') <-> relists t revs revs'.
Proof.
  intros Hl. unfold revoke_token, lock. destruct (m_poisoned revs) eqn:Hp.
  { split; [done|]. intros [Hn|v' _ Hp' _]; [by destruct (Hn v)|congruence]. }
  destruct (sweep_revoked (m_value revs) now !! revocation_key t) as [e|] eqn:Hk; cbn.
  - split.
    + intros [= <-]. apply relists_live; [done|done|]. left. by rewrite Hk.
    + intros [Hn|v' [Hv' _] _ _]; [by destruct (Hn v)|]. destruct Hl as [Hv _]. by replace v' with v by congruence.
  - destruct (Z.leb_spec (max_seen_jti (config state)) (map_len (sweep_revoked (m_value revs) now))) as [Hle|Hlt].
    + split; [done|]. intros [Hn|v' _ _ [[x Hx]|Hlt]]; [by destruct (Hn v)|congruence|lia].
    + split.
      * intros [= <-]. apply relists_live; [done|done|]. by right.
      * intros [Hn|v' [Hv' _] _ _]; [by destruct (Hn v)|]. destruct Hl as [Hv _]. by replace v' with v by congruence.
Qed.

Lemma relists_rest t (w : World St) resp revs' : steady now w ->
  (exists w', revoke_rest t now w = (Ok resp, w') /\ w_revocations w' = revs') <->
  resp = mkHttpResponse 200 token_headers None /\ relists t (w_revocations w) revs'.
Proof.
  intros Hw. unfold revoke_rest, eff_bind at 1. destruct (live_cases t false w) as [(v & Hl & ->)|[Hn ->]]; cbn [fst snd].
  - rewrite <- (revoke_token_spec t v _ _ Hl). unfold eff_bind. rewrite (unix_now_steady w Hw). unfold revoke_in_world.
    change (w_revocations (later 1 w)) with (w_revocations w).
    destruct (revoke_token _ _ _ _ _) as [[[]|e] revs1]; cbn; [|naive_solver].
    split; [by intros (w' & [= <- <-] & <-)|]. intros [-> [= <-]]. eauto.
  - unfold eff_bind, eff_ret. split.
    + intros (w' & [= <- <-] & <-). split; [done|]. by apply relists_nothing.
    + intros [-> [_|v Hl _ _]]; [eauto|by destruct (Hn v)].
Qed.

Lemma introspect_online headers body : introspect headers state body =
  online (introspection_endpoint state) headers body (fun t n =>
    do! response <- introspection_response_for_token state t n in
    eff_ret (token_headers, response)) :> Http (St := St) _.
Proof. reflexivity. Qed.
Lemma revoke_online headers body :
  revoke headers state body = online (revocation_endpoint state) headers body revoke_rest :> Http (St := St) _.
Proof. reflexivity. Qed.

Lemma introspect_reports headers body (w : World St) out : steady now w ->
  (introspect headers state body w).1 = Ok out <->
  out.1 = token_headers /\ exists t c, asks (introspection_endpoint state) headers body t c /\
    is_Some (record_keys now (client_keys c) (store (w_replay w))) /\ reports t (w_revocations w) out.2.
Proof.
  intros Hw. rewrite introspect_online. destruct (online_run (introspection_endpoint state) headers body (fun t n =>
    do! response <- introspection_response_for_token state t n in eff_ret (token_headers, response)) w Hw) as [n Hn].
  destruct (online _ _ _ _ w) as [r w1]. cbn [fst]. split.
  - intros ->. destruct (proj1 (Hn out w1) eq_refl) as (t & c & s & Ha & Hs & Hr). unfold eff_bind in Hr.
    destruct (introspection_response_for_token _ _ _ _) as [[b|e] w2] eqn:Hi; [|done]. injection Hr as <- _.
    split; [done|]. exists t, c. split_and!; [done|by exists s|]. apply (f_equal fst) in Hi. by apply reports_response in Hi.
  - intros [Ho (t & c & Ha & [s Hs] & Hr)]. destruct out as [hs b]. cbn in Ho, Hr. subst hs.
    set (w2 := later 1 (set_replay (mkReplayPolicy s) (later n w))).
    apply (reports_response t w2) in Hr. destruct (introspection_response_for_token state t now w2) as [r' w3] eqn:Hi.
    cbn in Hr. subst r'. assert (Hx : (r, w1) = (Ok (token_headers, b), w3)).
    { apply Hn. exists t, c, s. split_and!; [done|done|]. unfold eff_bind. fold w2. by rewrite Hi. }
    by injection Hx.
Qed.

Lemma revoke_relists headers body (w : World St) resp revs' : steady now w ->
  (exists w', revoke headers state body w = (Ok resp, w') /\ w_revocations w' = revs') <->
  resp = mkHttpResponse 200 token_headers None /\ exists t c, asks (revocation_endpoint state) headers body t c /\
    is_Some (record_keys now (client_keys c) (store (w_replay w))) /\ relists t (w_revocations w) revs'.
Proof.
  intros Hw. rewrite revoke_online. destruct (online_run (revocation_endpoint state) headers body revoke_rest w Hw) as [n Hn].
  assert (Hs2 : forall s, steady now (later 1 (set_replay (mkReplayPolicy s) (later n w)))).
  { intros s. by apply steady_later, steady_set_replay, steady_later. }
  split.
  - intros (w' & (t & c & s & Ha & Hs & Hr)%Hn & Hw').
    destruct (proj1 (relists_rest t _ resp revs' (Hs2 s))) as [Hresp Hrel]; [by exists w'|].
    split; [done|]. exists t, c. split_and!; [done|by exists s|done].
  - intros [-> (t & c & Ha & [s Hs] & Hr)].
    destruct (proj2 (relists_rest t _ (mkHttpResponse 200 token_headers None) revs' (Hs2 s))) as (w' & Hr' & Hw'); [done|].
    exists w'. split; [|done]. apply Hn. by exists t, c, s.
Qed.
End Online.

(** Who may ask depends on the configuration and the clients' keys only. *)
Lemma asks_same {Sg} `{JoseSigner Sg} `{HttpLib} `{UrlLib} `{Features} `{Base64} `{Jwt} `{OpenSsl} `{Sha256}
    `{FromJson CompactJwsHeader} `{FromJson AssertionClaims} (state state' : HttpState Sg)
    now endpoint headers body t c :
  config state' = config state -> client_jwks state' = client_jwks state ->
  asks state now endpoint headers body t c -> asks state' now endpoint headers body t c.
Proof.
  destruct state, state'. cbn. intros -> -> [(f & Hf & Ht & Hh & [Hp (a & Ha & [? ? ? ? ? ? ?]) Hk Hn Hj])].
  split. exists f. split_and!; [exact Hf|exact Ht|exact Hh|]. split; [exact Hp| |exact Hk|exact Hn|exact Hj].
  exists a. split; [exact Ha|]. by split.
Qed.

(** * Properties *)

Section Properties.
Context {Sg St : Type} `{JoseSigner Sg} `{ReplayStore St} `{HttpLib} `{UrlLib} `{Features} `{Base64}
  `{Jwt} `{OpenSsl} `{DpopLib} `{JsonReader} `{Sha256}
  `{FromJson CompactJwsHeader} `{FromJson SubjectTokenClaims} `{FromJson AssertionClaims}
  `{FromJson MintedClaims}.

(** C9: on a clock that stands at [now] introspection answers when and only when
    the form is well formed and names a token of acceptable length, a known
    client is authenticated for this endpoint by an assertion that the replay
    store takes; and then it reports the claims of a token that verifies under
    the published keys, was issued here, is inside its times and is not on a
    readable revocation list, and of every other token the same [active: false]. *)
Theorem introspection_answered_exactly (headers : HeaderMap) (state : HttpState Sg) (body : string) (now : Z)
    (w : World St) (out : HeaderMap * Value) :
  steady now w ->
  (introspect headers state body w).1 = Ok out <->
  out.1 = token_headers /\ exists t c, asks state now (introspection_endpoint state) headers body t c /\
    is_Some (record_keys now (client_keys c) (store (w_replay w))) /\
    reports state now t (w_revocations w) out.2.
Proof. apply introspect_reports. Qed.

(** C10: on a clock that stands at [now] a revocation succeeds when and only when
    the form is well formed, a known client is authenticated for this endpoint
    by an assertion that the replay store takes and, where the token is a live
    one of this server, the list can be read and has the token or room for it
    beside what has not expired; the answer is the same for every token, and
    the list has then gained exactly the live token, with its expiry, and lost
    exactly what has expired (nothing at all for a token that is not live). *)
Theorem revocation_listed_exactly (headers : HeaderMap) (state : HttpState Sg) (body : string) (now : Z)
    (w : World St) (resp : HttpResponse) (revs : RevocationState) :
  steady now w ->
  (exists w', revoke headers state body w = (Ok resp, w') /\ w_revocations w' = revs) <->
  resp = mkHttpResponse 200 token_headers None /\
  exists t c, asks state now (revocation_endpoint state) headers body t c /\
    is_Some (record_keys now (client_keys c) (store (w_replay w))) /\
    relists state now t (w_revocations w) revs.
Proof. apply revoke_relists. Qed.
End Properties.

(** * Examples *)

Definition listed (revs : gmap string Z) : World InMemoryReplayStore :=
  set_revocations (mutex_new revs) (toy_world 1200).

Lemma listed_steady revs : steady 1200 (listed revs).
Proof. intros n _. reflexivity. Qed.

Lemma toy_live : live_token toy_state 1200 "t.t.t" (mkVerifiedJws (toy_minted 1100 1400) "RS256" "k1" (Some "at+jwt")).
Proof.
  split; [vm_compute; reflexivity|]. unfold live, issued_here. vm_compute.
  split_and!; try discriminate; try reflexivity. eexists. reflexivity.
Qed.

(** The token of the example form, before and after it has been listed. *)
Lemma introspection_answered_exactly_witness :
  (introspect toy_headers toy_state (online_body "c.c.c") (listed ∅)).1
    = Ok (token_headers, introspection_body (toy_minted 1100 1400)) /\
  (introspect toy_headers toy_state (online_body "c.c.c") (listed {[revocation_key "t.t.t" := 1400%Z]})).1
    = Ok (token_headers, inactive).
Proof.
  assert (Hrun : (introspect toy_headers toy_state (online_body "c.c.c") (listed ∅)).1
    = Ok (token_headers, introspection_body (toy_minted 1100 1400))) by (vm_compute; reflexivity).
  split; [exact Hrun|].
  apply (introspection_answered_exactly toy_headers toy_state (online_body "c.c.c") 1200 (listed ∅) _ (listed_steady ∅)) in Hrun.
  destruct Hrun as (Hh & t & c & Ha & Hr & _). destruct Ha as [(form & Hf & Ht & Hb)].
  assert (t = "t.t.t") as -> by (vm_compute in Hf; injection Hf as <-; vm_compute in Ht; injection Ht as <-; reflexivity).
  apply (introspection_answered_exactly toy_headers toy_state (online_body "c.c.c") 1200
           (listed {[revocation_key "t.t.t" := 1400%Z]}) (token_headers, inactive) (listed_steady _)).
  split; [reflexivity|]. exists "t.t.t", c. split; [split; exists form; split; [exact Hf|split; [exact Ht|exact Hb]]|].
  split; [exact Hr|]. apply reports_inactive. intros v _ [_ Hu]. specialize (Hu 1400%Z).
  assert (Hx : (1400 < 1200)%Z) by (apply Hu; vm_compute; reflexivity). discriminate Hx.
Defined.

(** A list as long as it may be takes no other token. *)
Fixpoint fill (n : nat) : gmap string Z :=
  match n with O => ∅ | Datatypes.S n => <[String.String "#"%char (pretty n) := 2000%Z]> (fill n) end.

Lemma revocation_listed_exactly_witness :
  (exists w', revoke toy_headers toy_state (online_body "c.c.c") (listed ∅) = (Ok (mkHttpResponse 200 token_headers None), w') /\
     w_revocations w' = mutex_new {[revocation_key "t.t.t" := 1400%Z]}) /\
  forall resp w', revoke toy_headers toy_state (online_body "c.c.c") (listed (fill 1000)) <> (Ok resp, w').
Proof.
  assert (Hrun : exists w',
    revoke toy_headers toy_state (online_body "c.c.c") (listed ∅) = (Ok (mkHttpResponse 200 token_headers None), w') /\
    w_revocations w' = mutex_new {[revocation_key "t.t.t" := 1400%Z]}).
  { eexists. split; [apply surjective_pairing|vm_compute; reflexivity]. }
  split; [exact Hrun|]. intros resp w' Hfull.
  destruct (proj1 (revocation_listed_exactly toy_headers toy_state (online_body "c.c.c") 1200 (listed (fill 1000)) resp
    (w_revocations w') (listed_steady _)) (ex_intro _ w' (conj Hfull eq_refl))) as (_ & t & c & [(form & Hf & Ht & _)] & _ & Hl).
  assert (t = "t.t.t") as -> by (vm_compute in Hf; injection Hf as <-; vm_compute in Ht; injection Ht as <-; reflexivity).
  destruct Hl as [Hn|v _ _ [Hk|Hk]].
  - exact (Hn _ toy_live).
  - vm_compute in Hk. destruct Hk as [e He]. discriminate He.
  - vm_compute in Hk. discriminate Hk.
Defined.
