(* ===== verification/HttpTyped.v ===== *)
(** The server's state keeps its types.

    The counters of the source are [u64]s and its maps sit behind mutexes.  The
    model keeps the counters as integers, so that each is in its range after any
    requests, that no lock is left poisoned and that the revocation list stays
    within its bound is a theorem. *)

From S2P Require Import Prelude RustStr Json Url Core Replay Jose JoseSigners Verify Config Dpop.
From S2P Require Import HttpForms HttpState HttpToken HttpToy HttpExchange HttpServer.

(** * Specification *)

Definition is_u64 (z : Z) : Prop := (0 <= z < 2 ^ 64)%Z.

Definition typed_counts {K} `{Countable K} (m : Mutex (gmap K Z)) : Prop :=
  m_poisoned m = false /\ map_Forall (fun _ n => is_u64 n) (m_value m).

Record metrics_typed (m : MetricsState) : Prop := {
  mt_minted : is_u64 (exchanges_minted m);
  mt_denied : is_u64 (exchanges_denied m);
  mt_denials : typed_counts (denials m);
  mt_algs : typed_counts (signing_algs m)
}.

Record world_typed {Sg St} (state : HttpState Sg) (w : World St) : Prop := {
  wt_metrics : metrics_typed (w_metrics w);
  wt_revocations_lock : m_poisoned (w_revocations w) = false;
  wt_revocations : (revoked_count w <= Z.max 0 (max_seen_jti (config state)))%Z
}.

(** * Lemmas *)

Lemma u64_add_typed a b : is_u64 (u64_add a b).
Proof. unfold is_u64, u64_add. apply Z.mod_pos_bound. lia. Qed.

Lemma count_entry_typed {K} `{Countable K} (key : K) m : typed_counts m -> typed_counts (count_entry key m).
Proof.
  intros [Hp Hm]. unfold count_entry, lock. rewrite Hp. split; [done|]. cbn.
  by apply map_Forall_insert_2; [apply u64_add_typed|].
Qed.

Lemma record_exchange_typed {T} (r : result HttpError T) m : metrics_typed m -> metrics_typed (record_exchange r m).
Proof.
  intros [H1 H2 H3 H4]. destruct r as [t|e]; split; cbn; try done; try apply u64_add_typed.
  destruct (he_error e); [by apply count_entry_typed|done].
Qed.

Lemma record_signing_typed d m : metrics_typed m -> metrics_typed (record_signing d m).
Proof. intros [H1 H2 H3 H4]. split; cbn; try done. by apply count_entry_typed. Qed.

Lemma default_metrics_typed : metrics_typed default_metrics.
Proof. split; [by split|by split|..]; (split; [done|apply map_Forall_empty]). Qed.

(** The part of the world's type that a step of a handler keeps. *)
Definition keeps_type {S} (w w' : World S) : Prop :=
  (metrics_typed (w_metrics w) -> metrics_typed (w_metrics w')) /\
  (m_poisoned (w_revocations w) = false -> m_poisoned (w_revocations w') = false).

#[export] Instance keeps_type_frame {S} : IsFrame (@keeps_type S).
Proof.
  split; [split; [done|]; intros x y z [? ?] [? ?]; split; auto|].
  intros w w' [_ Hr Hm _ _]. split; congruence.
Qed.

Section Handlers.
Context {Sg St : Type} `{JoseSigner Sg} `{ReplayStore St} `{HttpLib} `{UrlLib} `{Features} `{Base64}
  `{Jwt} `{OpenSsl} `{DpopLib} `{JsonReader} `{Sha256}
  `{FromJson CompactJwsHeader} `{FromJson SubjectTokenClaims} `{FromJson AssertionClaims}
  `{FromJson MintedClaims}.

#[export] Instance typed_replay_check f k e n : Frame (S := St) keeps_type (replay_check f k e n).
Proof. intros w. unfold replay_check. by destruct (policy_check_and_record _ _ _ _). Qed.
#[export] Instance typed_record_client claims now : Frame (S := St) keeps_type (record_client_assertion_replay claims now).
Proof. unfold record_client_assertion_replay. apply _. Qed.
#[export] Instance typed_record_dpop binding now : Frame (S := St) keeps_type (record_dpop_replay binding now).
Proof. unfold record_dpop_replay. apply _. Qed.
#[export] Instance typed_when_some {A} (o : option A) (f : A -> Http unit) :
  (forall a, Frame (S := St) keeps_type (f a)) -> Frame keeps_type (when_some o f).
Proof. unfold when_some. apply _. Qed.
#[export] Instance typed_signing_metric d : Frame (S := St) keeps_type (record_signing_metric d).
Proof. intros w. split; [apply record_signing_typed|done]. Qed.
#[export] Instance typed_mint (state : HttpState Sg) ex now exp client act decision :
  Frame (S := St) keeps_type (mint state ex now exp client act decision).
Proof. unfold mint. apply _. Qed.
#[export] Instance typed_delegation (state : HttpState Sg) request ex :
  Frame (S := St) keeps_type (exchange_delegation state request ex).
Proof. unfold exchange_delegation. apply _. Qed.
#[export] Instance typed_impersonation (state : HttpState Sg) request ex :
  Frame (S := St) keeps_type (exchange_impersonation state request ex).
Proof. unfold exchange_impersonation. apply _. Qed.
#[export] Instance typed_token_inner headers (state : HttpState Sg) body :
  Frame (S := St) keeps_type (token_inner headers state body).
Proof. unfold token_inner. apply _. Qed.

#[export] Instance typed_token headers (state : HttpState Sg) body : Frame (S := St) keeps_type (token headers state body).
Proof.
  intros w. unfold token. destruct (typed_token_inner headers state body w) as [Hm Hr].
  destruct (token_inner headers state body w) as [r w1]. cbn in *. split; [|done].
  intros Hw. by apply record_exchange_typed, Hm.
Qed.

Lemma lock_free {A} (m : Mutex A) : m_poisoned m = false -> lock m = Some (m_value m).
Proof. unfold lock. by intros ->. Qed.

Lemma verified_token_typed (state : HttpState Sg) t now chk (w : World St) :
  keeps_type w (verified_sts_access_token state t now chk w).2.
Proof.
  unfold verified_sts_access_token.
  assert (Hq : keeps_type w (set_revocations (is_revoked_or_unavailable t now (w_revocations w)).2 w)).
  { split; [done|]. cbn. unfold is_revoked_or_unavailable. intros Hp. by rewrite (lock_free _ Hp). }
  destruct (is_revoked_or_unavailable t now (w_revocations w)) as [b r]. cbn [snd] in Hq.
  repeat case_match; done.
Qed.

#[export] Instance typed_introspection (state : HttpState Sg) t now :
  Frame (S := St) keeps_type (introspection_response_for_token state t now).
Proof.
  intros w. unfold introspection_response_for_token.
  pose proof (verified_token_typed state t now true w). by destruct (verified_sts_access_token _ _ _ _ _).
Qed.

#[export] Instance typed_revoke_in_world t e now max : Frame (S := St) keeps_type (revoke_in_world t e now max).
Proof.
  intros w. unfold revoke_in_world, revoke_token. destruct (m_poisoned (w_revocations w)) eqn:Hp.
  - unfold lock. rewrite Hp. done.
  - rewrite (lock_free _ Hp). by destruct (_ && _)%bool.
Qed.

#[export] Instance typed_introspect headers (state : HttpState Sg) body :
  Frame (S := St) keeps_type (introspect headers state body).
Proof. unfold introspect. apply _. Qed.

#[export] Instance typed_revoke headers (state : HttpState Sg) body : Frame (S := St) keeps_type (revoke headers state body).
Proof.
  assert (Hv : forall t now, Frame (S := St) (E := HttpError) keeps_type
    (fun w => let '(c, w') := verified_sts_access_token state t now false w in (Ok c, w'))).
  { intros t now w. pose proof (verified_token_typed state t now false w).
    by destruct (verified_sts_access_token _ _ _ _ _). }
  unfold revoke. apply _.
Qed.

Lemma serve_typed (state : HttpState Sg) req (w : World St) : world_typed state w -> world_typed state (serve state req w).
Proof.
  intros [Hm Hp Hr]. pose proof (serve_bounded state req w Hr) as Hb.
  assert (Hk : keeps_type w (serve state req w)).
  { destruct req as [h b|h b|h b|]; cbn [serve]; [apply typed_token|apply typed_introspect|apply typed_revoke|done]. }
  destruct Hk as [Hk1 Hk2]. split; auto.
Qed.
End Handlers.

(** * Properties *)

Section Properties.
Context {Sg St : Type} `{JoseSigner Sg} `{ReplayStore St} `{HttpLib} `{UrlLib} `{Features} `{Base64}
  `{Jwt} `{OpenSsl} `{DpopLib} `{JsonReader} `{Sha256}
  `{FromJson CompactJwsHeader} `{FromJson SubjectTokenClaims} `{FromJson AssertionClaims}
  `{FromJson MintedClaims}.

(** Whatever requests the server serves, its state keeps its types: every
    counter is a [u64], also those kept per denial and per algorithm, no lock is
    left poisoned, and the revocation list stays within its bound. *)
Theorem world_well_typed (state : HttpState Sg) (reqs : list Request) (w : World St) :
  world_typed state w -> world_typed state (serve_all state reqs w).
Proof.
  revert w. induction reqs as [|req reqs IH]; intros w Hw; [done|]. cbn [serve_all]. by apply IH, serve_typed.
Qed.

End Properties.

Lemma world_well_typed_witness :
  world_typed toy_state (serve_all toy_state
    [ReqToken toy_headers actor_body; ReqRevoke toy_headers (online_body "c.c.c"); ReqMetrics] (toy_world 1200)).
Proof.
  apply (world_well_typed toy_state
    [ReqToken toy_headers actor_body; ReqRevoke toy_headers (online_body "c.c.c"); ReqMetrics] (toy_world 1200)).
  split; [exact default_metrics_typed|reflexivity|vm_compute; discriminate].
Defined.
