(* ===== verification/Conc.v ===== *)
(** Threads that share a world.

    A handler of the server is a computation [Eff] on the whole world.  Here it
    is taken apart into its atomic actions, so that several handlers can run at
    once: an action is what the code does under one lock, one atomic
    instruction, or one reading of the clock or of the random source.  The
    class [Steps] does the taking apart by the structure of the computation and
    carries the proof that the actions, run alone, are the computation. *)

From S2P Require Import Prelude.

(** * Programs *)

Inductive Prog (W A : Type) : Type :=
| Return (a : A)
| Atomic {X : Type} (f : W -> X * W) (k : X -> Prog W A).
Arguments Return {W A} a.
Arguments Atomic {W A X} f k.

Fixpoint prog_bind {W A B} (p : Prog W A) (f : A -> Prog W B) : Prog W B :=
  match p with
  | Return a => f a
  | Atomic g k => Atomic g (fun x => prog_bind (k x) f)
  end.

(** [prog_bind] that stops at an error. *)
Definition prog_try {W E A B} (p : Prog W (result E A)) (f : A -> Prog W (result E B)) : Prog W (result E B) :=
  prog_bind p (fun r => match r with Ok a => f a | Err e => Return (Err e) end).

(** The run of a program that no other disturbs. *)
Fixpoint alone {W A} (p : Prog W A) (w : W) : A * W :=
  match p with
  | Return a => (a, w)
  | Atomic f k => let '(x, w') := f w in alone (k x) w'
  end.

(** The number of actions of that run. *)
Fixpoint actions {W A} (p : Prog W A) (w : W) : nat :=
  match p with
  | Return _ => 0
  | Atomic f k => let '(x, w') := f w in S (actions (k x) w')
  end.

(** A computation taken apart. *)
Class Steps {W E A} (m : Eff W E A) : Type := {
  steps : Prog W (result E A);
  steps_alone w : alone steps w = m w
}.
Arguments steps {W E A} m {_}.
Arguments steps_alone {W E A} m {_} w.

(** * Threads *)

(** A thread serves a request; it is what is left of its program. *)
Record Conf (R W A : Type) : Type := mkConf { c_world : W; c_threads : list (R * Prog W A) }.
Arguments mkConf {R W A} c_world c_threads.
Arguments c_world {R W A} _.
Arguments c_threads {R W A} _.

(** A schedule says when a request arrives and whose turn it is. *)
Inductive Event (R : Type) : Type :=
| Arrive (req : R)
| Turn (i : nat).
Arguments Arrive {R} req.
Arguments Turn {R} i.

Section Exec.
Context {R W A : Type} (serve : R -> Prog W A).

(** A thread that has returned does nothing in its turn. *)
Definition happen (e : Event R) (c : Conf R W A) : Conf R W A :=
  match e with
  | Arrive req => mkConf (c_world c) (c_threads c ++ [(req, serve req)])
  | Turn i =>
      match c_threads c !! i with
      | Some (req, Atomic f k) =>
          let '(x, w') := f (c_world c) in mkConf w' (<[i := (req, k x)]> (c_threads c))
      | _ => c
      end
  end.

Fixpoint exec (sched : list (Event R)) (c : Conf R W A) : Conf R W A :=
  match sched with
  | [] => c
  | e :: sched' => exec sched' (happen e c)
  end.
End Exec.

(** Thread [i] served [req] and returned [a]. *)
Definition returned {R W A} (c : Conf R W A) (i : nat) (req : R) (a : A) : Prop :=
  c_threads c !! i = Some (req, Return a).

(** * A logic of threads *)

(** What one thread needs: from a world that suits its ghost state [g] each of
    its actions is a move to a new ghost state, and where it returns [Q] holds.
    The others may change the world between its actions in any way that leaves
    it suitable. *)
Fixpoint guards {W G A} (I : G -> W -> Prop) (M : G -> W -> G -> W -> Prop) (Q : G -> A -> Prop)
    (g : G) (p : Prog W A) : Prop :=
  match p with
  | Return a => Q g a
  | Atomic f k => forall w, I g w ->
      exists g', M g w g' (f w).2 /\ guards I M Q g' (k (f w).1)
  end.

(** What a program returns whatever happens in the world. *)
Fixpoint returns {W A} (Q : A -> Prop) (p : Prog W A) : Prop :=
  match p with
  | Return a => Q a
  | Atomic f k => forall w, returns Q (k (f w).1)
  end.

(** * Lemmas *)

Lemma alone_bind {W A B} (p : Prog W A) (f : A -> Prog W B) w :
  alone (prog_bind p f) w = let '(a, w') := alone p w in alone (f a) w'.
Proof. revert w. induction p as [a|X g k IH]; intros w; [done|]. cbn. destruct (g w) as [x w']. apply IH. Qed.

Lemma alone_try {W E A B} (p : Prog W (result E A)) (f : A -> Prog W (result E B)) w :
  alone (prog_try p f) w =
  match alone p w with (Ok a, w') => alone (f a) w' | (Err e, w') => (Err e, w') end.
Proof. unfold prog_try. rewrite alone_bind. by destruct (alone p w) as [[a|e] w']. Qed.

(** ** Computations taken apart *)

#[export] Instance steps_ret {W E A} (a : A) : Steps (W := W) (E := E) (eff_ret a) :=
  {| steps := Return (Ok a); steps_alone _ := eq_refl |}.
#[export] Instance steps_err {W E A} (e : E) : Steps (W := W) (A := A) (eff_err e) :=
  {| steps := Return (Err e); steps_alone _ := eq_refl |}.
#[export] Instance steps_lift {W E A} (r : result E A) : Steps (W := W) (eff_lift r) :=
  {| steps := Return r; steps_alone _ := eq_refl |}.

#[export] Instance steps_bind {W E A B} (m : Eff W E A) (f : A -> Eff W E B)
  (Hm : Steps m) (Hf : forall a, Steps (f a)) : Steps (eff_bind m f).
Proof.
  refine {| steps := prog_try (steps m) (fun a => steps (f a)) |}.
  abstract (intros w; rewrite alone_try, steps_alone; unfold eff_bind;
            destruct (m w) as [[a|e] w']; [apply steps_alone|done]).
Defined.

#[export] Instance steps_map_err {W E F A} (g : E -> F) (m : Eff W E A) (Hm : Steps m) : Steps (eff_map_err g m).
Proof.
  refine {| steps := prog_bind (steps m) (fun r => Return (map_err g r)) |}.
  abstract (intros w; rewrite alone_bind, steps_alone; unfold eff_map_err; by destruct (m w)).
Defined.

#[export] Instance steps_if {W E A} (b : bool) (m1 m2 : Eff W E A) (H1 : Steps m1) (H2 : Steps m2) :
  Steps (if b then m1 else m2).
Proof.
  refine {| steps := if b then steps m1 else steps m2 |}.
  abstract (by destruct b; apply steps_alone).
Defined.

#[export] Instance steps_option {W E A B} (o : option B) (f : B -> Eff W E A) (m : Eff W E A)
  (Hf : forall b, Steps (f b)) (Hm : Steps m) : Steps (match o with Some b => f b | None => m end).
Proof.
  refine {| steps := match o with Some b => steps (f b) | None => steps m end |}.
  abstract (by destruct o; apply steps_alone).
Defined.

(** One action. *)
Definition steps_atomic {W E A} (m : Eff W E A) : Steps m.
Proof.
  refine {| steps := Atomic m Return |}.
  abstract (intros w; cbn; by destruct (m w)).
Defined.

(** ** Schedules *)

Section Schedules.
Context {R W A : Type} (serve : R -> Prog W A).

Lemma exec_app s1 s2 c : exec serve (s1 ++ s2) c = exec serve s2 (exec serve s1 c).
Proof. revert c. induction s1 as [|e s1 IH]; intros c; [done|]. apply IH. Qed.

(** A thread that is given all turns ends as if it were alone. *)
Lemma exec_alone (p : Prog W A) w req ts :
  exec serve (replicate (actions p w) (Turn (length ts))) (mkConf w (ts ++ [(req, p)]))
  = mkConf (alone p w).2 (ts ++ [(req, Return (alone p w).1)]).
Proof.
  revert w. induction p as [a|X f k IH]; intros w; [done|]. cbn [actions alone].
  destruct (f w) as [x w'] eqn:Hf. cbn [replicate exec happen c_threads c_world].
  rewrite list_lookup_middle by done. rewrite Hf.
  replace (length ts) with (length ts + 0) at 2 by lia. rewrite insert_app_r. cbn. apply IH.
Qed.

Lemma happen_length e (c : Conf R W A) : length (c_threads c) <= length (c_threads (happen serve e c)).
Proof.
  destruct e as [req|i]; cbn; [rewrite length_app; lia|].
  destruct (c_threads c !! i) as [[req [a|X f k]]|]; [done| |done].
  destruct (f _). cbn. by rewrite length_insert.
Qed.

Lemma exec_length sched (c : Conf R W A) : length (c_threads c) <= length (c_threads (exec serve sched c)).
Proof.
  revert c. induction sched as [|e sched IH]; intros c; cbn; [done|].
  etrans; [apply (happen_length e)|apply IH].
Qed.

(** What a thread has returned stays. *)
Lemma returned_stays sched c i req a : returned c i req a -> returned (exec serve sched c) i req a.
Proof.
  unfold returned. revert c. induction sched as [|e sched IH]; intros c Hi; [done|]. cbn. apply IH.
  destruct e as [req'|j]; cbn.
  - by apply lookup_app_l_Some.
  - destruct (c_threads c !! j) as [[req' [a'|X f k]]|] eqn:Hj; [done| |done].
    destruct (f _). cbn. rewrite list_lookup_insert_ne; [done|]. congruence.
Qed.
End Schedules.

(** ** Guarded threads *)

Section Guards.
Context {W G A : Type} (I : G -> W -> Prop) (M : G -> W -> G -> W -> Prop).

Lemma guards_mono (Q Q' : G -> A -> Prop) g p :
  guards I M Q g p -> (forall g a, Q g a -> Q' g a) -> guards I M Q' g p.
Proof.
  intros Hp Hq. revert g Hp. induction p as [a|X f k IH]; intros g Hp; cbn in *; [auto|].
  intros w Hw. destruct (Hp w Hw) as (g' & Hm & Hk). exists g'. auto.
Qed.

Lemma guards_returns (Q : G -> A -> Prop) (P : A -> Prop) g p :
  guards I M Q g p -> returns P p -> guards I M (fun g a => Q g a /\ P a) g p.
Proof.
  revert g. induction p as [a|X f k IH]; intros g Hp Hr; cbn in *; [done|].
  intros w Hw. destruct (Hp w Hw) as (g' & Hm & Hk). exists g'. auto.
Qed.

Lemma guards_bind {B} (Q : G -> B -> Prop) g (p : Prog W A) (f : A -> Prog W B) :
  guards I M (fun g a => guards I M Q g (f a)) g p -> guards I M Q g (prog_bind p f).
Proof.
  revert g. induction p as [a|X h k IH]; intros g Hp; cbn in *; [done|].
  intros w Hw. destruct (Hp w Hw) as (g' & Hm & Hk). exists g'. auto.
Qed.
End Guards.

Lemma guards_try {W G E A B} I M (Q : G -> result E B -> Prop) g (p : Prog W (result E A)) f :
  guards I M (fun g r => match r with Ok a => guards I M Q g (f a) | Err e => Q g (Err e) end) g p ->
  guards I M Q g (prog_try p f).
Proof. intros Hp. apply guards_bind. eapply guards_mono; [exact Hp|]. by intros g' [a|e]. Qed.

Lemma returns_mono {W A} (Q Q' : A -> Prop) (p : Prog W A) : returns Q p -> (forall a, Q a -> Q' a) -> returns Q' p.
Proof. induction p as [a|X f k IH]; cbn; auto. Qed.

Lemma returns_bind {W A B} (Q : B -> Prop) (p : Prog W A) f :
  returns (fun a => returns Q (f a)) p -> returns Q (prog_bind p f).
Proof. induction p as [a|X h k IH]; cbn; auto. Qed.

Lemma returns_try {W E A B} (Q : result E B -> Prop) (p : Prog W (result E A)) f :
  returns (fun r => match r with Ok a => returns Q (f a) | Err e => Q (Err e) end) p -> returns Q (prog_try p f).
Proof. intros Hp. apply returns_bind. eapply returns_mono; [exact Hp|]. by intros [a|e]. Qed.

(** A computation that is guarded from [g] on; where it succeeds, [Q] holds. *)
Definition Guarded {W E G A} (I : G -> W -> Prop) (M : G -> W -> G -> W -> Prop) (g : G) (Q : G -> A -> Prop)
    (m : Eff W E A) `{!Steps m} : Prop :=
  guards I M (fun g r => match r with Ok a => Q g a | Err _ => True end) g (steps m).

Section Guarded.
Context {W E G : Type} (I : G -> W -> Prop) (M : G -> W -> G -> W -> Prop).
#[local] Notation Gd := (Guarded (W := W) (E := E) I M).

Lemma guarded_ret {A} g (Q : G -> A -> Prop) a : Q g a -> Gd g Q (eff_ret a).
Proof. done. Qed.
Lemma guarded_lift {A B} g (Q : G -> B -> Prop) r (f : A -> Eff W E B) `{!forall a, Steps (f a)} :
  (forall a, r = Ok a -> Gd g Q (f a)) -> Gd g Q (eff_bind (eff_lift r) f).
Proof. intros Hf. destruct r as [a|e]; [by apply Hf|done]. Qed.
Lemma guarded_bind {A B} g (Q : G -> B -> Prop) (m : Eff W E A) (f : A -> Eff W E B)
  `{!Steps m} `{!forall a, Steps (f a)} :
  Gd g (fun g a => Gd g Q (f a)) m -> Gd g Q (eff_bind m f).
Proof. intros Hm. apply guards_try. eapply guards_mono; [exact Hm|]. by intros g' [a|e]. Qed.
Lemma guarded_mono {A} g (Q Q' : G -> A -> Prop) (m : Eff W E A) `{!Steps m} :
  Gd g Q m -> (forall g a, Q g a -> Q' g a) -> Gd g Q' m.
Proof. intros Hm Hq. eapply guards_mono; [exact Hm|]. intros g' [a|e]; auto. Qed.
End Guarded.

(** The rule for the whole pool: the ghost states of all threads satisfy [J]
    with the world, a move of one keeps it, and a thread that arrives finds a
    ghost state to start from. *)
Section Pool.
Context {R W G A : Type} (serve : R -> Prog W A).
Context (I : G -> W -> Prop) (M : G -> W -> G -> W -> Prop) (Q : R -> G -> A -> Prop).
Context (J : list G -> W -> Prop) (start : R -> G).
Context (suits : forall gs w i g, J gs w -> gs !! i = Some g -> I g w).
Context (moves : forall gs w i g g' w', J gs w -> gs !! i = Some g -> M g w g' w' -> J (<[i := g']> gs) w').
Context (arrives : forall gs w req, J gs w -> J (gs ++ [start req]) w).
Context (begins : forall req, guards I M (Q req) (start req) (serve req)).

Definition guarded_by (gs : list G) (ts : list (R * Prog W A)) : Prop :=
  Forall2 (fun g t => guards I M (Q t.1) g t.2) gs ts.

Lemma pool_happen e c gs :
  J gs (c_world c) -> guarded_by gs (c_threads c) ->
  exists gs', J gs' (c_world (happen serve e c)) /\ guarded_by gs' (c_threads (happen serve e c)).
Proof.
  intros Hj Hg. destruct e as [req|i]; cbn.
  { exists (gs ++ [start req]). split; [by apply arrives|]. apply Forall2_app; [done|]. repeat constructor. apply begins. }
  destruct (c_threads c !! i) as [[req [a|X f k]]|] eqn:Hi; [by exists gs| |by exists gs].
  destruct (Forall2_lookup_r _ _ _ _ _ Hg Hi) as (g & Hgi & Hp). cbn [fst snd guards] in Hp.
  destruct (Hp _ (suits _ _ _ _ Hj Hgi)) as (g' & Hm & Hk).
  destruct (f (c_world c)) as [x w'] eqn:Hf. cbn in *. exists (<[i := g']> gs). split; [by eapply moves|].
  apply Forall2_insert; done.
Qed.

Lemma pool_exec sched c gs :
  J gs (c_world c) -> guarded_by gs (c_threads c) ->
  exists gs', J gs' (c_world (exec serve sched c)) /\ guarded_by gs' (c_threads (exec serve sched c)).
Proof.
  revert c gs. induction sched as [|e sched IH]; intros c gs Hj Hg; [by exists gs|]. cbn [exec].
  destruct (pool_happen e c gs Hj Hg) as (gs1 & Hj1 & Hg1). by apply (IH _ gs1).
Qed.
End Pool.

(** ** Actions inside a relation *)

(** Every action of a program moves inside [R], from whatever world. *)
Fixpoint acts {W A} (R : relation W) (p : Prog W A) : Prop :=
  match p with
  | Return _ => True
  | Atomic f k => forall w, R w (f w).2 /\ acts R (k (f w).1)
  end.

(** The same for a computation that is taken apart. *)
Class Acts {W E A} (R : relation W) (m : Eff W E A) `{!Steps m} : Prop := acts_steps : acts R (steps m).

Lemma acts_bind {W A B} R (p : Prog W A) (f : A -> Prog W B) :
  acts R p -> (forall a, acts R (f a)) -> acts R (prog_bind p f).
Proof.
  intros Hp Hf. induction p as [a|X g k IH]; cbn in *; [auto|]. intros w. destruct (Hp w). auto.
Qed.

Section Acts.
Context {W : Type} (R : relation W).

#[export] Instance acts_ret {E A} (a : A) : Acts (E := E) R (eff_ret a).
Proof. done. Qed.
#[export] Instance acts_err {E A} (e : E) : Acts (A := A) R (eff_err e).
Proof. done. Qed.
#[export] Instance acts_lift {E A} (r : result E A) : Acts R (eff_lift r).
Proof. done. Qed.
#[export] Instance acts_try {E A B} (m : Eff W E A) (f : A -> Eff W E B) `{!Steps m} `{!forall a, Steps (f a)} :
  Acts R m -> (forall a, Acts R (f a)) -> Acts R (eff_bind m f).
Proof. intros Hm Hf. apply acts_bind; [exact Hm|]. intros [a|e]; [apply Hf|done]. Qed.
#[export] Instance acts_map_err {E F A} (g : E -> F) (m : Eff W E A) `{!Steps m} : Acts R m -> Acts R (eff_map_err g m).
Proof. intros Hm. by apply acts_bind. Qed.
#[export] Instance acts_if {E A} (b : bool) (m1 m2 : Eff W E A) `{!Steps m1} `{!Steps m2} :
  Acts R m1 -> Acts R m2 -> Acts R (if b then m1 else m2).
Proof. by destruct b. Qed.
#[export] Instance acts_option {E A B} (o : option B) (f : B -> Eff W E A) (m : Eff W E A)
  `{!forall b, Steps (f b)} `{!Steps m} :
  (forall b, Acts R (f b)) -> Acts R m -> Acts R (match o with Some b => f b | None => m end).
Proof. destruct o; [intros Hf _; apply Hf|done]. Qed.
Lemma acts_atomic {E A} (m : Eff W E A) : (forall w, R w (m w).2) -> acts R (Atomic m Return).
Proof. by intros Hm w. Qed.
End Acts.

Lemma acts_mono {W A} (R R' : relation W) (p : Prog W A) : (forall w w', R w w' -> R' w w') -> acts R p -> acts R' p.
Proof. intros Hr. induction p as [a|X f k IH]; cbn; [done|]. intros Hp w. destruct (Hp w). auto. Qed.

Lemma guards_acts {W G A} (R : relation W) I M (Q : G -> A -> Prop) g (p : Prog W A) :
  acts R p -> (forall w w', R w w' -> M g w g w') -> (forall a, Q g a) -> guards I M Q g p.
Proof.
  intros Hp Hm Hq. induction p as [a|X f k IH]; cbn; [done|]. intros w _. destruct (Hp w). exists g. auto.
Qed.

(** Programs whose actions all keep [I] keep it in every schedule. *)
Lemma acts_exec {R W A} (serve : R -> Prog W A) (I : W -> Prop) sched (c : Conf R W A) :
  (forall req, acts (fun w w' => I w -> I w') (serve req)) ->
  Forall (fun t => acts (fun w w' => I w -> I w') t.2) (c_threads c) -> I (c_world c) ->
  I (c_world (exec serve sched c)).
Proof.
  intros Hserve. revert c. induction sched as [|e sched IH]; intros c Hc Hw; [done|]. cbn [exec].
  destruct e as [req|i]; cbn.
  { apply IH; [|done]. apply Forall_app. split; [done|]. apply Forall_singleton, Hserve. }
  destruct (c_threads c !! i) as [[req [a|X f k]]|] eqn:Hi; [by apply IH| |by apply IH].
  pose proof (Forall_lookup_1 _ _ _ _ Hc Hi) as Hp. cbn in Hp. destruct (Hp (c_world c)) as [Hf Hk]; clear Hp.
  destruct (f (c_world c)) as [x w']. cbn in *. apply IH; cbn; [|by apply Hf]. by apply Forall_insert.
Qed.

(** ** Results that do not depend on the world *)

(** Where [m] succeeds its result satisfies [P], whatever the others do. *)
Class Yields {W E A} (P : A -> Prop) (m : Eff W E A) `{!Steps m} : Prop :=
  yields_steps : returns (fun r => forall a, r = Ok a -> P a) (steps m).

Section Yields.
Context {W E : Type}.

Lemma yields_any {A} (m : Eff W E A) `{!Steps m} : Yields (fun _ => True) m.
Proof. unfold Yields. generalize (steps m). intros p. induction p as [r|X f k IH]; cbn; auto. Qed.
Lemma yields_ret {A} (P : A -> Prop) (a : A) : P a -> Yields (W := W) (E := E) P (eff_ret a).
Proof. by intros Hp x [= <-]. Qed.
Lemma yields_err {A} (P : A -> Prop) (e : E) : Yields (W := W) P (eff_err e).
Proof. done. Qed.
Lemma yields_bind {A B} (P : B -> Prop) (Q : A -> Prop) (m : Eff W E A) (f : A -> Eff W E B)
  `{!Steps m} `{!forall a, Steps (f a)} : Yields Q m -> (forall a, Q a -> Yields P (f a)) -> Yields P (eff_bind m f).
Proof. intros Hm Hf. apply returns_try. eapply returns_mono; [exact Hm|]. intros [a|e] Hq; [by apply Hf, Hq|done]. Qed.
Lemma yields_then {A B} (P : B -> Prop) (m : Eff W E A) (f : A -> Eff W E B)
  `{!Steps m} `{!forall a, Steps (f a)} : (forall a, Yields P (f a)) -> Yields P (eff_bind m f).
Proof. intros Hf. eapply yields_bind; [apply yields_any|]. intros a _. apply Hf. Qed.
Lemma yields_lift {A B} (P : B -> Prop) (r : result E A) (f : A -> Eff W E B) `{!forall a, Steps (f a)} :
  (forall a, r = Ok a -> Yields P (f a)) -> Yields P (eff_bind (eff_lift r) f).
Proof. intros Hf. destruct r as [a|e]; [by apply Hf|done]. Qed.
Lemma yields_if {A} (P : A -> Prop) (b : bool) (m1 m2 : Eff W E A) `{!Steps m1} `{!Steps m2} :
  (b = true -> Yields P m1) -> (b = false -> Yields P m2) -> Yields P (if b then m1 else m2).
Proof. destruct b; auto. Qed.
Lemma yields_map_err {F A} (P : A -> Prop) (g : E -> F) (m : Eff W E A) `{!Steps m} : Yields P m -> Yields P (eff_map_err g m).
Proof. intros Hm. apply returns_bind. eapply returns_mono; [exact Hm|]. intros [a|e] Hp; cbn; [|done].
  intros x [= <-]. by apply Hp.
Qed.
End Yields.

(** Actions inside a relation that changes nothing for the thread. *)
Lemma quiet_guards {W G A} (R : relation W) I M (p : Prog W A) (P : A -> Prop) (Q : G -> A -> Prop) g :
  (forall w w', I g w -> R w w' -> M g w g w') ->
  acts R p -> returns P p -> (forall a, P a -> Q g a) -> guards I M Q g p.
Proof.
  intros Hm Hp Hr Hq. induction p as [a|X f k IH]; cbn in *; [auto|]. intros w Hw. destruct (Hp w) as [Hf Hk].
  exists g. auto.
Qed.

Lemma guarded_quiet {W E G A} (R : relation W) I M g (P : A -> Prop) (Q : G -> A -> Prop) (m : Eff W E A) `{!Steps m} :
  (forall w w', I g w -> R w w' -> M g w g w') ->
  Acts R m -> Yields P m -> (forall a, P a -> Q g a) -> Guarded I M g Q m.
Proof.
  intros Hr Hm Hy Hq. eapply quiet_guards; [exact Hr|exact Hm|exact Hy|]. intros [a|e] Ha; [by apply Hq, Ha|done].
Qed.

Lemma returns_any {W A} (p : Prog W A) : returns (fun _ => True) p.
Proof. induction p; cbn; auto. Qed.

(** Follow a computation to what it yields. *)
Ltac yields :=
  repeat first [apply yields_err | apply yields_lift; intros ? ? | apply yields_then; intros ?
               | apply yields_if; intros ? | apply yields_map_err | apply yields_ret].
