(* ===== verification/HttpConc.v ===== *)
(** The handlers of the server as threads.

    Axum runs the handlers of several requests at once.  They share the replay
    store, the revocation list and the metrics, and take turns at the clock and
    the random source.  Here each handler of [HttpToken] is taken apart into its
    atomic actions: a call on the replay store or on the revocation list (each
    holds its lock throughout), an update of a counter or of a map of counters,
    one reading of the clock, one draw of random bytes.  A request served alone
    is what [HttpServer.serve] makes of it, and every order of whole requests is
    one of the schedules.

    The in-memory replay store is one such action.  The calls of the file-backed
    store interleave below that level; [FileRace] has them. *)

From S2P Require Import Prelude RustStr Json Url Core Replay Jose JoseSigners Verify Config Dpop.
From S2P Require Import HttpForms HttpState HttpToken HttpExchange HttpServer Conc.

(** * Answers *)

Inductive Answer : Type :=
| AToken (r : result HttpError (HeaderMap * TokenResponse))
| AIntrospect (r : result HttpError (HeaderMap * Value))
| ARevoke (r : result HttpError HttpResponse)
| AMetrics (r : HeaderMap * string).

Definition token_answer (a : Answer) : option (result HttpError (HeaderMap * TokenResponse)) :=
  match a with AToken r => Some r | _ => None end.

(** * Handlers taken apart *)

Section Handlers.
Context {Sg St : Type} `{JoseSigner Sg} `{ReplayStore St} `{HttpLib} `{UrlLib} `{Features} `{Base64}
  `{Jwt} `{OpenSsl} `{DpopLib} `{JsonReader} `{Sha256}
  `{FromJson CompactJwsHeader} `{FromJson SubjectTokenClaims} `{FromJson AssertionClaims}
  `{FromJson MintedClaims}.

(** ** Atomic actions *)

#[export] Instance steps_now {E} : Steps (W := World St) (E := E) now_unix := steps_atomic _.
#[export] Instance steps_new_jti : Steps (W := World St) new_jti := steps_atomic _.
#[export] Instance steps_replay_check f k e n : Steps (W := World St) (replay_check f k e n) := steps_atomic _.
#[export] Instance steps_signing_metric d : Steps (W := World St) (record_signing_metric d) := steps_atomic _.
#[export] Instance steps_revoke_in_world t e n m : Steps (W := World St) (revoke_in_world t e n m) := steps_atomic _.
#[export] Instance steps_introspection (state : HttpState Sg) t n :
  Steps (W := World St) (introspection_response_for_token state t n) := steps_atomic _.
#[export] Instance steps_verified (state : HttpState Sg) t n :
  Steps (W := World St) (E := HttpError)
    (fun w => let '(c, w') := verified_sts_access_token state t n false w in (Ok c, w')) := steps_atomic _.

(** ** Handlers *)

#[export] Instance steps_mode {E A} (o : EffectiveExchangeMode) (m1 m2 : Eff (World St) E A)
  (Hs1 : Steps m1) (Hs2 : Steps m2) : Steps (match o with MDelegation => m1 | MImpersonation => m2 end).
Proof.
  refine {| steps := match o with MDelegation => steps m1 | MImpersonation => steps m2 end |}.
  abstract (by destruct o; apply steps_alone).
Defined.

#[export] Instance steps_unix_now : Steps (W := World St) unix_now.
Proof. unfold unix_now. apply _. Defined.
#[export] Instance steps_time_window exp nbf leeway : Steps (W := World St) (validate_time_window exp nbf leeway).
Proof. unfold validate_time_window. apply _. Defined.
#[export] Instance steps_lifetime claims ttl leeway :
  Steps (W := World St) (validate_assertion_lifetime claims ttl leeway).
Proof. unfold validate_assertion_lifetime. apply _. Defined.
#[export] Instance steps_assertion t jwks algs o :
  Steps (W := World St) (verify_assertion_with_allowed_algs t jwks algs o).
Proof. unfold verify_assertion_with_allowed_algs. apply _. Defined.
#[export] Instance steps_subject t jwks iss auds leeway :
  Steps (W := World St) (verify_subject_token t jwks iss auds leeway).
Proof. unfold verify_subject_token. apply _. Defined.
#[export] Instance steps_client (state : HttpState Sg) request endpoint :
  Steps (W := World St) (verify_client_assertion state request endpoint).
Proof. unfold verify_client_assertion. apply _. Defined.
#[export] Instance steps_authenticate (state : HttpState Sg) request mode :
  Steps (W := World St) (authenticate_client_if_present state request mode).
Proof. unfold authenticate_client_if_present. apply _. Defined.
#[export] Instance steps_online (state : HttpState Sg) form endpoint :
  Steps (W := World St) (authenticate_online_client state form endpoint).
Proof. unfold authenticate_online_client. apply _. Defined.
#[export] Instance steps_actor (state : HttpState Sg) t subject :
  Steps (W := World St) (verify_actor_token state t subject).
Proof. unfold verify_actor_token. apply _. Defined.
#[export] Instance steps_record_client claims now : Steps (W := World St) (record_client_assertion_replay claims now).
Proof. unfold record_client_assertion_replay. apply _. Defined.
#[export] Instance steps_record_dpop binding now : Steps (W := World St) (record_dpop_replay binding now).
Proof. unfold record_dpop_replay. apply _. Defined.
#[export] Instance steps_when_some {A} (o : option A) (f : A -> Http unit) (Hf : forall a, Steps (W := World St) (f a)) :
  Steps (when_some o f).
Proof. unfold when_some. apply _. Defined.
#[export] Instance steps_mint (state : HttpState Sg) ex now exp client act decision :
  Steps (W := World St) (mint state ex now exp client act decision).
Proof. unfold mint. apply _. Defined.
#[export] Instance steps_delegation (state : HttpState Sg) request ex :
  Steps (W := World St) (exchange_delegation state request ex).
Proof. unfold exchange_delegation. apply _. Defined.
#[export] Instance steps_impersonation (state : HttpState Sg) request ex :
  Steps (W := World St) (exchange_impersonation state request ex).
Proof. unfold exchange_impersonation. apply _. Defined.
#[export] Instance steps_token_inner headers (state : HttpState Sg) body :
  Steps (W := World St) (token_inner headers state body).
Proof. unfold token_inner. apply _. Defined.
#[export] Instance steps_introspect headers (state : HttpState Sg) body :
  Steps (W := World St) (introspect headers state body).
Proof. unfold introspect. apply _. Defined.
#[export] Instance steps_revoke headers (state : HttpState Sg) body : Steps (W := World St) (revoke headers state body).
Proof. unfold revoke. apply _. Defined.

(** ** Counting *)

Definition count_minted : World St -> unit * World St := fun w =>
  let m := w_metrics w in
  (tt, set_metrics (mkMetrics (u64_add (exchanges_minted m) 1) (exchanges_denied m) (denials m) (signing_algs m)) w).
Definition count_denied : World St -> unit * World St := fun w =>
  let m := w_metrics w in
  (tt, set_metrics (mkMetrics (exchanges_minted m) (u64_add (exchanges_denied m) 1) (denials m) (signing_algs m)) w).
Definition count_denial (error : string) : World St -> unit * World St := fun w =>
  let m := w_metrics w in
  (tt, set_metrics (mkMetrics (exchanges_minted m) (exchanges_denied m) (count_entry error (denials m))
                      (signing_algs m)) w).

(** [MetricsState::record_exchange]: a counter, and for a denial a map behind
    its lock. *)
Definition record_exchange_steps {A} (r : result HttpError A) : Prog (World St) (result HttpError A) :=
  match r with
  | Ok _ => Atomic count_minted (fun _ => Return r)
  | Err err =>
      Atomic count_denied (fun _ =>
        match he_error err with
        | Some error => Atomic (count_denial error) (fun _ => Return r)
        | None => Return r
        end)
  end.

#[export] Instance steps_token headers (state : HttpState Sg) body : Steps (W := World St) (token headers state body).
Proof.
  refine {| steps := prog_bind (steps (token_inner headers state body)) record_exchange_steps |}.
  abstract (intros w; rewrite alone_bind, steps_alone; unfold token; destruct (token_inner headers state body w) as [r w'];
            destruct r as [a|err]; [done|]; cbn; by destruct (he_error err)).
Defined.

(** [MetricsState::render] reads one after the other. *)
Definition metrics_steps : Prog (World St) (HeaderMap * string) :=
  Atomic (fun w => (policy_cache_size (w_replay w), w)) (fun size =>
  Atomic (fun w => (exchanges_minted (w_metrics w), w)) (fun minted =>
  Atomic (fun w => (exchanges_denied (w_metrics w), w)) (fun denied =>
  Atomic (fun w => (denials (w_metrics w), w)) (fun denials =>
  Atomic (fun w => (signing_algs (w_metrics w), w)) (fun algs =>
  Return (header_insert "pragma" "no-cache" (header_insert "cache-control" "no-store"
            (header_insert "x-content-type-options" "nosniff"
               (header_insert "content-type" "text/plain; version=0.0.4; charset=utf-8" []))),
          metrics_render (mkMetrics minted denied denials algs) size)))))).

(** ** Requests *)

Definition serve_thread (state : HttpState Sg) (req : Request) : Prog (World St) Answer :=
  match req with
  | ReqToken headers body => prog_bind (steps (token headers state body)) (fun r => Return (AToken r))
  | ReqIntrospect headers body => prog_bind (steps (introspect headers state body)) (fun r => Return (AIntrospect r))
  | ReqRevoke headers body => prog_bind (steps (revoke headers state body)) (fun r => Return (ARevoke r))
  | ReqMetrics => prog_bind metrics_steps (fun r => Return (AMetrics r))
  end.

(** What a request is answered when it is served alone. *)
Definition answer (state : HttpState Sg) (req : Request) (w : World St) : Answer :=
  match req with
  | ReqToken headers body => AToken (token headers state body w).1
  | ReqIntrospect headers body => AIntrospect (introspect headers state body w).1
  | ReqRevoke headers body => ARevoke (revoke headers state body w).1
  | ReqMetrics => AMetrics (metrics_handler w)
  end.

(** The answers of requests served one after the other. *)
Fixpoint answers (state : HttpState Sg) (reqs : list Request) (w : World St) : list (Request * Prog (World St) Answer) :=
  match reqs with
  | [] => []
  | req :: reqs' => (req, Return (answer state req w)) :: answers state reqs' (serve state req w)
  end.

Definition server (state : HttpState Sg) : list (Event Request) -> Conf Request (World St) Answer ->
    Conf Request (World St) Answer := exec (serve_thread state).

(** The server before any request. *)
Definition listening (w : World St) : Conf Request (World St) Answer := mkConf w [].

(** * Lemmas *)

Lemma serve_thread_alone (state : HttpState Sg) req (w : World St) :
  alone (serve_thread state req) w = (answer state req w, serve state req w).
Proof.
  destruct req as [h b|h b|h b|]; cbn [serve_thread answer serve]; [| | |by destruct w as [? ? ? ? ? ? []]];
    rewrite alone_bind, steps_alone;
    match goal with |- context [let '(_, _) := ?m in _] => by destruct m end.
Qed.

(** * Properties *)

(** The sequential server is the concurrent one under the schedules that
    serve each request whole: every order of requests, with the same answers and
    the same state after them, is reached by a schedule. *)
Theorem sequential_schedules (state : HttpState Sg) (reqs : list Request) (w : World St) :
  exists sched, server state sched (listening w) = mkConf (serve_all state reqs w) (answers state reqs w).
Proof.
  enough (Hgen : forall ts, exists sched,
    server state sched (mkConf w ts) = mkConf (serve_all state reqs w) (ts ++ answers state reqs w)) by apply (Hgen []).
  unfold server. revert w. induction reqs as [|req reqs IH]; intros w ts.
  { exists []. cbn. by rewrite app_nil_r. }
  cbn [serve_all answers]. destruct (IH (serve state req w) (ts ++ [(req, Return (answer state req w))])) as [sched Hs].
  exists (Arrive req :: replicate (actions (serve_thread state req) w) (Turn (length ts)) ++ sched).
  cbn [exec happen c_world c_threads]. rewrite exec_app, exec_alone, serve_thread_alone. cbn [fst snd].
  rewrite Hs. by rewrite <- app_assoc.
Qed.

End Handlers.
