(* ===== verification/HttpThreads.v ===== *)
(** What the server guarantees when requests are served at the same time: in
    every schedule of the handlers' actions the state keeps its types and the
    outcomes are counted.  The lemmas on handlers here serve [ThreadReplay] and
    [ThreadRevoke] too. *)

From S2P Require Import Prelude RustStr Json Url Core Replay Jose JoseSigners Verify Config Dpop.
From S2P Require Import HttpForms HttpState HttpToken HttpToy HttpExchange HttpServer HttpTyped Conc HttpConc.
From Stdlib Require Import Ascii.

(** * Actions inside a frame *)

Section HandlerActs.
Context {Sg St : Type} `{JoseSigner Sg} `{ReplayStore St} `{HttpLib} `{UrlLib} `{Features} `{Base64}
  `{Jwt} `{OpenSsl} `{DpopLib} `{JsonReader} `{Sha256}
  `{FromJson CompactJwsHeader} `{FromJson SubjectTokenClaims} `{FromJson AssertionClaims}
  `{FromJson MintedClaims}.
Context (R : relation (World St)) `{!IsFrame R}.

#[export] Instance acts_mode {E A} (o : EffectiveExchangeMode) (m1 m2 : Eff (World St) E A) `{!Steps m1} `{!Steps m2} :
  Acts R m1 -> Acts R m2 -> Acts R (match o with MDelegation => m1 | MImpersonation => m2 end).
Proof. destruct o; by intros. Qed.

#[export] Instance acts_now {E} : Acts (W := World St) (E := E) R now_unix.
Proof. apply acts_atomic. apply (frame_now R). Qed.
#[export] Instance acts_unix_now : Acts (W := World St) R unix_now.
Proof. apply acts_now. Qed.
#[export] Instance acts_new_jti : Acts (W := World St) R new_jti.
Proof. apply acts_atomic. apply (frame_new_jti R). Qed.
#[export] Instance acts_time_window exp nbf leeway : Acts (W := World St) R (validate_time_window exp nbf leeway).
Proof. unfold validate_time_window, steps_time_window. apply _. Qed.
#[export] Instance acts_lifetime claims ttl leeway : Acts (W := World St) R (validate_assertion_lifetime claims ttl leeway).
Proof. unfold validate_assertion_lifetime, steps_lifetime. apply _. Qed.
#[export] Instance acts_assertion t jwks algs o : Acts (W := World St) R (verify_assertion_with_allowed_algs t jwks algs o).
Proof. unfold verify_assertion_with_allowed_algs, steps_assertion. apply _. Qed.
#[export] Instance acts_subject t jwks iss auds leeway :
  Acts (W := World St) R (verify_subject_token t jwks iss auds leeway).
Proof. unfold verify_subject_token, steps_subject. apply _. Qed.
#[export] Instance acts_client (state : HttpState Sg) request endpoint :
  Acts (W := World St) R (verify_client_assertion state request endpoint).
Proof. unfold verify_client_assertion, steps_client. apply _. Qed.
#[export] Instance acts_authenticate (state : HttpState Sg) request mode :
  Acts (W := World St) R (authenticate_client_if_present state request mode).
Proof. unfold authenticate_client_if_present, steps_authenticate. apply _. Qed.
#[export] Instance acts_online (state : HttpState Sg) form endpoint :
  Acts (W := World St) R (authenticate_online_client state form endpoint).
Proof. unfold authenticate_online_client, steps_online. apply _. Qed.
#[export] Instance acts_actor (state : HttpState Sg) t subject :
  Acts (W := World St) R (verify_actor_token state t subject).
Proof. unfold verify_actor_token, steps_actor. apply _. Qed.

(** What the handlers do to the stores stays inside [R]. *)
Section Stores.
Context (state : HttpState Sg).
Context (replay_inside : forall f k e n, Frame (S := St) R (replay_check f k e n)).
Context (signing_inside : forall d, Frame (S := St) R (record_signing_metric d)).
Context (list_inside : forall t e n, Frame (S := St) R (revoke_in_world t e n (max_seen_jti (config state)))).
Context (looks_inside : forall t n, Frame (S := St) R (introspection_response_for_token state t n)).
Context (checks_inside : forall t n, Frame (S := St) (E := HttpError) R
  (fun w => let '(c, w') := verified_sts_access_token state t n false w in (Ok c, w'))).
Context (counts_inside : forall w, R w (count_minted w).2 /\ R w (count_denied w).2 /\ forall e, R w (count_denial e w).2).

#[local] Instance acts_replay_check f k e n : Acts (W := World St) R (replay_check f k e n).
Proof. apply acts_atomic, replay_inside. Qed.
#[local] Instance acts_signing_metric d : Acts (W := World St) R (record_signing_metric d).
Proof. apply acts_atomic, signing_inside. Qed.
#[local] Instance acts_revoke_in_world t e n : Acts (W := World St) R (revoke_in_world t e n (max_seen_jti (config state))).
Proof. apply acts_atomic, list_inside. Qed.
#[local] Instance acts_introspection t n :
  Acts (W := World St) R (introspection_response_for_token state t n).
Proof. apply acts_atomic, looks_inside. Qed.
#[local] Instance acts_verified t n :
  Acts (W := World St) (E := HttpError) R
    (fun w => let '(c, w') := verified_sts_access_token state t n false w in (Ok c, w')).
Proof. apply acts_atomic, checks_inside. Qed.
#[local] Instance acts_record_client claims now : Acts (W := World St) R (record_client_assertion_replay claims now).
Proof. unfold record_client_assertion_replay, steps_record_client. apply _. Qed.
#[local] Instance acts_record_dpop binding now : Acts (W := World St) R (record_dpop_replay binding now).
Proof. unfold record_dpop_replay, steps_record_dpop. apply _. Qed.
#[local] Instance acts_when_some {A} (o : option A) (f : A -> Http unit) `{!forall a, Steps (W := World St) (f a)} :
  (forall a, Acts R (f a)) -> Acts R (when_some o f).
Proof. unfold when_some, steps_when_some. apply _. Qed.
#[local] Instance acts_mint ex now exp client act decision :
  Acts (W := World St) R (mint state ex now exp client act decision).
Proof. unfold mint, steps_mint. apply _. Qed.
#[local] Instance acts_delegation request ex :
  Acts (W := World St) R (exchange_delegation state request ex).
Proof. unfold exchange_delegation, steps_delegation. apply _. Qed.
#[local] Instance acts_impersonation request ex :
  Acts (W := World St) R (exchange_impersonation state request ex).
Proof. unfold exchange_impersonation, steps_impersonation. apply _. Qed.
#[local] Instance acts_token_inner headers body :
  Acts (W := World St) R (token_inner headers state body).
Proof. unfold token_inner, steps_token_inner. apply _. Qed.
#[local] Instance acts_introspect headers body :
  Acts (W := World St) R (introspect headers state body).
Proof. unfold introspect, steps_introspect. apply _. Qed.
#[local] Instance acts_revoke headers body : Acts (W := World St) R (revoke headers state body).
Proof. unfold revoke, steps_revoke. apply _. Qed.

Lemma acts_record_exchange {A} (r : result HttpError A) : acts R (record_exchange_steps r).
Proof.
  destruct r as [a|e]; intros w; (split; [apply counts_inside|]); [done|].
  destruct (he_error e); [|done]. intros w1. by split; [apply counts_inside|].
Qed.

Lemma acts_serve_thread req : acts R (serve_thread state req).
Proof.
  assert (Hq : forall w, R w w) by reflexivity.
  destruct req as [h b|h b|h b|]; cbn [serve_thread]; apply acts_bind; try done.
  - apply acts_bind; [apply acts_token_inner|apply acts_record_exchange].
  - apply acts_introspect.
  - apply acts_revoke.
Qed.
End Stores.
End HandlerActs.

(** * Types *)

Section Types.
Context {Sg St : Type} `{JoseSigner Sg} `{ReplayStore St} `{HttpLib} `{UrlLib} `{Features} `{Base64}
  `{Jwt} `{OpenSsl} `{DpopLib} `{JsonReader} `{Sha256}
  `{FromJson CompactJwsHeader} `{FromJson SubjectTokenClaims} `{FromJson AssertionClaims}
  `{FromJson MintedClaims}.
Context (state : HttpState Sg).

(** One action and the state's types. *)
Definition typed_step (w w' : World St) : Prop :=
  keeps_type w w' /\ (revocations_ok state (w_revocations w) -> revocations_ok state (w_revocations w')).

#[local] Instance typed_step_frame : IsFrame typed_step.
Proof.
  split.
  - split; [by intros w|]. intros x y z [K1 R1] [K2 R2]. split; [by etrans|auto].
  - intros w w' Hs. split; [by apply frame_quiet|]. by rewrite (same_revocations _ _ Hs).
Qed.

Lemma typed_outside (w w' : World St) : keeps_type w w' -> w_revocations w' = w_revocations w -> typed_step w w'.
Proof. intros Hk Hr. split; [done|]. by rewrite Hr. Qed.

Lemma typed_step_list t e n : Frame (S := St) typed_step (revoke_in_world t e n (max_seen_jti (config state))).
Proof.
  intros w. split; [apply typed_revoke_in_world|]. destruct (revoke_in_world _ _ _ _ w) as [r w'] eqn:Hr.
  by apply (revoke_bounded _ _ _ _ _ _ _ Hr).
Qed.

Lemma typed_step_looks t n : Frame (S := St) typed_step (introspection_response_for_token state t n).
Proof.
  intros w. split; [apply typed_introspection|].
  destruct (introspection_response_for_token state t n w) as [r w'] eqn:Hi.
  apply introspection_world in Hi as [->| ->]; [done|]. by apply query_bounded.
Qed.

Lemma thread_typed req : acts typed_step (serve_thread state req).
Proof.
  apply (acts_serve_thread typed_step).
  - intros f k e n w. apply typed_outside; [apply typed_replay_check|]. apply (frame_replay_check f k e n w).
  - intros d w. apply typed_outside; [apply typed_signing_metric|done].
  - apply typed_step_list.
  - apply typed_step_looks.
  - intros t n w. pose proof (verified_token_typed state t n false w) as Hk.
    destruct (verified_sts_access_token state t n false w) as [c w'] eqn:Hv. cbn in *. split; [done|].
    unfold verified_sts_access_token in Hv. repeat case_match; by simplify_eq/=.
  - intros w. split_and!; [| |intros e]; (apply typed_outside; [|done]; split; [|done]; intros [H1' H2' H3' H4']; split; cbn; try done;
      first [apply u64_add_typed|by apply count_entry_typed]).
Qed.
Lemma typed_step_typed (w w' : World St) : typed_step w w' -> world_typed state w -> world_typed state w'.
Proof. intros [[Hm Hl] Hr] [? ? ?]. split; [auto|auto|by apply Hr]. Qed.
End Types.

(** * Counting *)

Section Counting.
Context {Sg St : Type} `{JoseSigner Sg} `{ReplayStore St} `{HttpLib} `{UrlLib} `{Features} `{Base64}
  `{Jwt} `{OpenSsl} `{DpopLib} `{JsonReader} `{Sha256}
  `{FromJson CompactJwsHeader} `{FromJson SubjectTokenClaims} `{FromJson AssertionClaims}
  `{FromJson MintedClaims}.
Context (state : HttpState Sg) (minted0 denied0 : Z).

(** The ghost state of a thread is the outcome that it has counted. *)
Definition counts (b : bool) (gs : list (option bool)) : Z :=
  Z.of_nat (length (List.filter (fun g => bool_decide (g = Some b)) gs)).

Definition counters (w : World St) : Z * Z := (exchanges_minted (w_metrics w), exchanges_denied (w_metrics w)).

Definition counted (gs : list (option bool)) (w : World St) : Prop :=
  counters w = ((minted0 + counts true gs) mod 2 ^ 64, (denied0 + counts false gs) mod 2 ^ 64)%Z.

Definition count_move (g : option bool) (w : World St) (g' : option bool) (w' : World St) : Prop :=
  match g' with
  | None => g = None /\ counters w' = counters w
  | Some true => (g = Some true /\ counters w' = counters w) \/
      (g = None /\ counters w' = (u64_add (counters w).1 1, (counters w).2))
  | Some false => (g = Some false /\ counters w' = counters w) \/
      (g = None /\ counters w' = ((counters w).1, u64_add (counters w).2 1))
  end.

Definition counts_outcome (req : Request) (g : option bool) (a : Answer) : Prop :=
  g = option_map is_ok (token_answer a).

Lemma counts_insert b gs i g g' :
  gs !! i = Some g -> counts b (<[i := g']> gs) =
  (counts b gs - (if bool_decide (g = Some b) then 1 else 0) + (if bool_decide (g' = Some b) then 1 else 0))%Z.
Proof.
  unfold counts. revert i. induction gs as [|h gs IH]; intros [|i] Hi; try done.
  - injection Hi as ->. change (<[0:=g']> (g :: gs)) with (g' :: gs). cbn [List.filter].
    do 2 destruct (bool_decide _); cbn [length]; lia.
  - change (<[S i:=g']> (h :: gs)) with (h :: <[i:=g']> gs). cbn [List.filter]. specialize (IH i Hi).
    destruct (bool_decide (h = _)); cbn [length]; lia.
Qed.

Lemma counts_app b gs g : counts b (gs ++ [g]) = (counts b gs + (if bool_decide (g = Some b) then 1 else 0))%Z.
Proof. unfold counts. rewrite List.filter_app, length_app. cbn [List.filter]. case_bool_decide; cbn [length]; lia. Qed.

Lemma counted_move gs w i g g' w' :
  counted gs w -> gs !! i = Some g -> count_move g w g' w' -> counted (<[i := g']> gs) w'.
Proof.
  unfold counted, count_move. intros Hc Hi Hm. rewrite !(counts_insert _ _ _ _ _ Hi).
  assert (Hadd : forall z n, u64_add ((z + n) mod 2 ^ 64) 1 = ((z + (n - 0 + 1)) mod 2 ^ 64)%Z).
  { intros z n. unfold u64_add. rewrite Zplus_mod_idemp_l. f_equal. lia. }
  assert (Hsame : forall z n (k : Z), ((z + n) mod 2 ^ 64 = (z + (n - k + k)) mod 2 ^ 64)%Z).
  { intros z n k. f_equal. lia. }
  destruct g' as [[]|]; [destruct Hm as [[-> ->]|[-> ->]]|destruct Hm as [[-> ->]|[-> ->]]|destruct Hm as [-> ->]];
    rewrite Hc; cbn [fst snd]; repeat case_bool_decide; simplify_eq; by rewrite ?Hadd, <- ?Hsame.
Qed.

Lemma same_counts_counters (w w' : World St) : same_counts w w' -> counters w' = counters w.
Proof. intros []. unfold counters. congruence. Qed.

Lemma thread_counts req :
  guards (fun _ _ => True) count_move (counts_outcome req) None (serve_thread state req).
Proof.
  assert (Hq : forall w w' : World St, same_counts w w' -> count_move None w None w').
  { intros w w' Hs. split; [done|]. by apply same_counts_counters. }
  destruct req as [h b|h b|h b|]; cbn [serve_thread].
  - apply guards_bind. cbn [steps steps_token]. apply guards_bind.
    eapply (guards_acts same_counts); [|exact Hq|].
    { apply (acts_token_inner same_counts state); apply _. }
    intros [a|e] w _; cbn.
    + exists (Some true). split; [by right|done].
    + exists (Some false). split; [by right|]. destruct (he_error e); [|done]. intros w1 _. exists (Some false).
      split; [by left|done].
  - apply guards_bind. eapply (guards_acts same_counts); [|exact Hq|done].
    apply (acts_introspect same_counts state); apply _.
  - apply guards_bind. eapply (guards_acts same_counts); [|exact Hq|done].
    apply (acts_revoke same_counts state); apply _.
  - cbn. do 5 (intros ? _; exists None; split; [by split|]). done.
Qed.
End Counting.

(** * Results that do not depend on the schedule *)

Section Results.
Context {Sg St : Type} `{JoseSigner Sg} `{ReplayStore St} `{HttpLib} `{UrlLib} `{Features} `{Base64}
  `{Jwt} `{OpenSsl} `{DpopLib} `{JsonReader} `{Sha256}
  `{FromJson CompactJwsHeader} `{FromJson SubjectTokenClaims} `{FromJson AssertionClaims}
  `{FromJson MintedClaims}.

Lemma assertion_yields t jwks algs o :
  Yields (W := World St) (fun c => exists v, verify_claims_against_jwks_with_allowed_algs t jwks algs = Ok v
    /\ v_claims v = c) (verify_assertion_with_allowed_algs t jwks algs o).
Proof.
  unfold verify_assertion_with_allowed_algs, steps_assertion. yields.
  match goal with Hx : map_err _ _ = Ok _ |- _ => apply map_err_ok in Hx end. eauto.
Qed.

Lemma actor_yields (state : HttpState Sg) t subject :
  Yields (W := World St) (fun c => exists v, verify_claims_against_jwks_with_allowed_algs t (actor_jwks state)
    (inbound_assertion_algs (config state)) = Ok v /\ v_claims v = c) (verify_actor_token state t subject).
Proof. unfold verify_actor_token, steps_actor. apply yields_map_err, assertion_yields. Qed.

Lemma client_yields (state : HttpState Sg) request endpoint :
  Yields (W := World St) (fun c => exists t v, client_assertion request = Some t /\
    verify_claims_against_jwks_with_allowed_algs t (client_jwks state)
      (inbound_assertion_algs (config state)) = Ok v /\ v_claims v = c) (verify_client_assertion state request endpoint).
Proof.
  unfold verify_client_assertion, steps_client. do 2 (apply yields_lift; intros ? _).
  apply yields_lift. intros t Ht. assert (Hc : client_assertion request = Some t) by (by destruct (client_assertion request); simplify_eq/=).
  eapply yields_bind; [apply yields_map_err, assertion_yields|]. intros c (v & Hv & He). yields. eauto.
Qed.
End Results.

(** * Properties *)

Section Properties.
Context {Sg St : Type} `{JoseSigner Sg} `{ReplayStore St} `{HttpLib} `{UrlLib} `{Features} `{Base64}
  `{Jwt} `{OpenSsl} `{DpopLib} `{JsonReader} `{Sha256}
  `{FromJson CompactJwsHeader} `{FromJson SubjectTokenClaims} `{FromJson AssertionClaims}
  `{FromJson MintedClaims}.

(** C19: the server's state keeps its types while requests run at the same time:
    after every schedule, also one that stops in the middle of handlers, every
    counter is a [u64], no lock is left poisoned, and the revocation list is
    within its bound. *)
Theorem concurrent_world_typed (state : HttpState Sg) (w : World St) (sched : list (Event Request)) :
  world_typed state w -> world_typed state (c_world (server state sched (listening w))).
Proof.
  intros Hw. apply (acts_exec (serve_thread state) (world_typed state)); [|constructor|exact Hw]. intros req.
  apply (acts_mono (typed_step state)); [|apply thread_typed]. intros x y Hs. by apply typed_step_typed.
Qed.

(** The answered token requests with this outcome. *)
Definition outcomes (b : bool) (c : Conf Request (World St) Answer) : Z :=
  Z.of_nat (length (List.filter (fun t : Request * Prog (World St) Answer =>
    match t.2 with
    | Return a => bool_decide (option_map is_ok (token_answer a) = Some b)
    | Atomic _ _ => false
    end) (c_threads c))).

(** C22: no outcome is lost or counted twice while requests run at the same
    time: once every thread has answered, the minted counter has grown by the
    number of exchanges that succeeded and the denied counter by the number of
    those that did not (the counters wrap at 64 bits). *)
Theorem concurrent_outcomes_counted (state : HttpState Sg) (w : World St) (sched : list (Event Request)) :
  let c := server state sched (listening w) in
  let m := w_metrics w in
  (0 <= exchanges_minted m < 2 ^ 64)%Z -> (0 <= exchanges_denied m < 2 ^ 64)%Z ->
  Forall (fun t => exists a, t.2 = Return a) (c_threads c) ->
  exchanges_minted (w_metrics (c_world c)) = ((exchanges_minted m + outcomes true c) mod 2 ^ 64)%Z /\
  exchanges_denied (w_metrics (c_world c)) = ((exchanges_denied m + outcomes false c) mod 2 ^ 64)%Z.
Proof.
  cbv zeta. intros Hm Hd Hall.
  destruct (pool_exec (serve_thread state) (fun _ _ => True) count_move counts_outcome
              (counted (exchanges_minted (w_metrics w)) (exchanges_denied (w_metrics w))) (fun _ => None))
    with (sched := sched) (c := listening w) (gs := @nil (option bool)) as (gs & Hc & Hg); try done.
  - intros gs w1 i g g' w' Hc Hi Hmv. by eapply counted_move.
  - unfold counted. intros gs w1 _. rewrite !counts_app. cbn. by rewrite !Z.add_0_r.
  - apply thread_counts.
  - unfold counted, counters. cbn. by rewrite !Z.add_0_r, !Z.mod_small.
  - constructor.
  - fold (server state sched (listening w)) in *.
    assert (Hout : forall b, counts b gs = outcomes b (server state sched (listening w))).
    { intros b. unfold counts, outcomes. f_equal. clear Hc. unfold guarded_by in Hg.
      induction Hg as [|g [req p] gs ts Hp Hg IH]; [done|]. apply Forall_cons in Hall as [(a & Ha) Hall].
      cbn in Ha. subst p. cbn in Hp. unfold counts_outcome in Hp. subst g. cbn [List.filter snd].
      destruct (bool_decide _); cbn [length]; by rewrite IH. }
    unfold counted, counters in Hc. rewrite !Hout in Hc. by injection Hc.
Qed.
End Properties.

(** * Examples *)

(** Two exchanges with the same actor token, an introspection and a look at the
    metrics, turn by turn. *)
Definition crowd : list (Event Request) :=
  [Arrive (ReqToken toy_headers actor_body); Arrive (ReqToken toy_headers actor_body);
   Arrive (ReqIntrospect toy_headers (online_body "c.c.c")); Arrive ReqMetrics]
  ++ concat (replicate 9 [Turn 3; Turn 2; Turn 1; Turn 0]).

Lemma concurrent_world_typed_witness : world_typed toy_state (c_world (server toy_state crowd (listening (toy_world 1200)))).
Proof.
  apply (concurrent_world_typed toy_state (toy_world 1200) crowd).
  split; [exact default_metrics_typed|reflexivity|vm_compute; discriminate].
Defined.

Lemma concurrent_outcomes_counted_witness :
  let c := server toy_state crowd (listening (toy_world 1200)) in
  exchanges_minted (w_metrics (c_world c)) = 1%Z /\ exchanges_denied (w_metrics (c_world c)) = 1%Z.
Proof.
  intros c.
  destruct (concurrent_outcomes_counted toy_state (toy_world 1200) crowd) as [Hm Hd].
  - vm_compute. split; [discriminate|reflexivity].
  - vm_compute. split; [discriminate|reflexivity].
  - vm_compute. repeat (constructor; [eexists; reflexivity|]). constructor.
  - split; [etransitivity; [exact Hm|]|etransitivity; [exact Hd|]]; vm_compute; reflexivity.
Defined.
