(* ===== verification/ThreadReplay.v ===== *)
(** A credential is used once, also when requests run at the same time: an actor
    token, a client assertion, a DPoP proof.

    The proof follows one replay key through every schedule.  Each thread keeps
    two ghost values: whether it has recorded the key, and a bound below the
    number of clock readings so far.  While the clock has not passed the key's
    expiry at most one thread has recorded it, because the store holds it for
    that thread. *)

From S2P Require Import Prelude RustStr Json Url Core Replay Jose JoseSigners Verify Config Dpop.
From S2P Require Import HttpForms HttpState HttpToken HttpToy HttpExchange HttpServer HttpTyped Conc HttpConc HttpThreads.
From Stdlib Require Import Ascii.

(** * The part of the world that matters *)

Record replay_alone {S} (w w' : World S) : Prop := {
  ra_replay : w_replay w' = w_replay w;
  ra_time : w_time w' = w_time w;
  ra_reads : w_reads w <= w_reads w'
}.

#[export] Instance replay_alone_frame {S} : IsFrame (@replay_alone S).
Proof.
  split; [split; [done|]; intros x y z [] []; split; first [congruence|lia]|].
  intros w w' []. by split.
Qed.

(** Only [replay_check] touches the replay store. *)
Section Alone.
Context {Sg St : Type} `{JoseSigner Sg} `{ReplayStore St} `{HttpLib} `{UrlLib} `{Features} `{Base64}
  `{Jwt} `{OpenSsl} `{DpopLib} `{JsonReader} `{Sha256}
  `{FromJson CompactJwsHeader} `{FromJson SubjectTokenClaims} `{FromJson AssertionClaims}
  `{FromJson MintedClaims}.
Context (state : HttpState Sg).

#[export] Instance alone_signing d : Frame (S := St) replay_alone (record_signing_metric d).
Proof. intros w. by split. Qed.

#[export] Instance alone_introspection t now : Frame (S := St) replay_alone (introspection_response_for_token state t now).
Proof.
  intros w. destruct (introspection_response_for_token state t now w) as [r w'] eqn:Hi.
  by apply introspection_world in Hi as [->| ->].
Qed.

#[export] Instance alone_revoke t e now max : Frame (S := St) replay_alone (revoke_in_world t e now max).
Proof. intros w. unfold revoke_in_world. destruct (revoke_token _ _ _ _ _). by split. Qed.

#[export] Instance alone_verified t now : Frame (S := St) (E := HttpError) replay_alone
  (fun w => let '(c, w') := verified_sts_access_token state t now false w in (Ok c, w')).
Proof. intros w. unfold verified_sts_access_token. repeat case_match; simplify_eq/=; by split. Qed.

Lemma alone_counts (w : World St) :
  replay_alone w (count_minted w).2 /\ replay_alone w (count_denied w).2 /\ forall e, replay_alone w (count_denial e w).2.
Proof. split_and!; [by split|by split|]. intros e. by split. Qed.

(** A frame holds of every thread when it holds of the calls on the replay store. *)
Lemma acts_outside_replay (R : relation (World St)) `{!IsFrame R} req :
  (forall w w', replay_alone w w' -> R w w') ->
  (forall f k e n, Frame (S := St) R (replay_check f k e n)) -> acts R (serve_thread state req).
Proof.
  intros Ha Hr. apply (acts_serve_thread R); [exact Hr| | | | |]; intros *.
  - intros w. apply Ha, alone_signing.
  - intros w. apply Ha, alone_revoke.
  - intros w. apply Ha, alone_introspection.
  - intros w. apply Ha, alone_verified.
  - destruct (alone_counts w) as (? & ? & Hd). split_and!; [by apply Ha|by apply Ha|]. intros e. apply Ha, Hd.
Qed.
End Alone.

(** * Credentials *)

(** What a request may present once. *)
Inductive Credential : Type :=
| ActorToken (token : string)
| ClientAssertion (token : string)
| DpopProof (proof : string).

Section Credentials.
Context {Sg St : Type} `{JoseSigner Sg} `{ReplayStore St} `{HttpLib} `{UrlLib} `{Features} `{Base64}
  `{Jwt} `{OpenSsl} `{DpopLib} `{JsonReader} `{Sha256}
  `{FromJson CompactJwsHeader} `{FromJson SubjectTokenClaims} `{FromJson AssertionClaims}
  `{FromJson MintedClaims}.
Context (state : HttpState Sg).

(** The key and the expiry under which the endpoints record a credential. *)
Definition recorded_as (c : Credential) (key : string) (exp : Z) : Prop :=
  match c with
  | ActorToken t => exists v jti,
      verify_claims_against_jwks_with_allowed_algs t (actor_jwks state) (inbound_assertion_algs (config state)) = Ok v /\
      as_jti (v_claims v) = Some jti /\
      key = "act:" +:+ as_sub (v_claims v) +:+ ":" +:+ jti /\ exp = as_exp (v_claims v)
  | ClientAssertion t => exists v jti,
      verify_claims_against_jwks_with_allowed_algs t (client_jwks state) (inbound_assertion_algs (config state)) = Ok v /\
      client_assertion_jti (v_claims v) = Ok jti /\
      key = "ca:" +:+ as_sub (v_claims v) +:+ ":" +:+ jti /\ exp = as_exp (v_claims v)
  | DpopProof p => exists now b,
      validate_dpop_proof (mkProofRequest p "POST" (token_endpoint state) now (cfg_clock_skew_leeway (config state)))
        = Ok b /\ key = dpop_replay_key (db_jkt b) (db_jti b) /\ exp = db_replay_expires_at b
  end.

(** The credentials of a request. *)
Definition presents (req : Request) (c : Credential) : Prop :=
  match req with
  | ReqToken headers body =>
      match c with
      | ActorToken t => exists form, parse_token_form headers body = Ok form /\ tf_actor_token form = Some t
      | ClientAssertion t => exists form, parse_token_form headers body = Ok form /\ tf_client_assertion form = Some t
      | DpopProof p => exists raw, header_get_all "dpop" headers = [raw] /\ header_to_str raw = Some p
      end
  | ReqIntrospect headers body | ReqRevoke headers body =>
      match c with
      | ClientAssertion t => exists form, parse_online_token_form headers body = Ok form /\ of_client_assertion form = Some t
      | _ => False
      end
  | ReqMetrics => False
  end.

(** The request was granted. *)
Definition granted_answer (a : Answer) : bool :=
  match a with
  | AToken r => is_ok r
  | AIntrospect r => is_ok r
  | ARevoke r => is_ok r
  | AMetrics _ => true
  end.

(** A credential is always recorded the same way. *)
Lemma recorded_as_fun c k e k' e' : recorded_as c k e -> recorded_as c k' e' -> k = k' /\ e = e'.
Proof.
  destruct c as [t|t|p]; cbn.
  - intros (v & jti & Hv & Hj & -> & ->) (v' & jti' & Hv' & Hj' & -> & ->).
    assert (v' = v) as -> by congruence. assert (jti' = jti) as -> by congruence. done.
  - intros (v & jti & Hv & Hj & -> & ->) (v' & jti' & Hv' & Hj' & -> & ->).
    assert (v' = v) as -> by congruence. assert (jti' = jti) as -> by congruence. done.
  - intros (n & b & Hb & -> & ->) (n' & b' & Hb' & -> & ->).
    apply accepted_content in Hb as (jwk & cl & Hc & -> & Hj & Hi & _ & ->).
    apply accepted_content in Hb' as (jwk' & cl' & Hc' & -> & Hj' & Hi' & _ & ->). cbn in *.
    rewrite Hc in Hc'. injection Hc' as <- <-. rewrite Hj in Hj'. injection Hj' as <-.
    rewrite Hi in Hi'. by injection Hi' as <-.
Qed.
End Credentials.

(** It depends on the configuration and the callers' keys only. *)
Lemma recorded_as_same {Sg} `{JoseSigner Sg} `{UrlLib} `{Features} `{Base64} `{Jwt} `{OpenSsl} `{DpopLib} `{JsonReader}
    `{Sha256} `{FromJson CompactJwsHeader} `{FromJson AssertionClaims} (state state' : HttpState Sg) c k e :
  config state' = config state -> actor_jwks state' = actor_jwks state -> client_jwks state' = client_jwks state ->
  recorded_as state' c k e -> recorded_as state c k e.
Proof. intros Ec Ea El. unfold recorded_as, token_endpoint, base. by rewrite Ec, Ea, El. Qed.

Section Key.
Context {Sg St : Type} `{JoseSigner Sg} `{ReplayStoreLaws St} `{HttpLib} `{UrlLib} `{Features} `{Base64}
  `{Jwt} `{OpenSsl} `{DpopLib} `{JsonReader} `{Sha256}
  `{FromJson CompactJwsHeader} `{FromJson SubjectTokenClaims} `{FromJson AssertionClaims}
  `{FromJson MintedClaims}.
Context (state : HttpState Sg) (w0 : World St) (key : string) (exp : Z).

Definition stored (w : World St) : St := store (w_replay w).

(** The clock has shown an instant after the expiry. *)
Definition past (w : World St) : Prop :=
  exists m, w_reads w0 <= m < w_reads w /\ (exp < reading w0 m)%Z.

(** [b]: this thread has recorded the key; [n]: so many readings at least. *)
Definition Ghost : Type := bool * nat.

Definition suits (g : Ghost) (w : World St) : Prop :=
  w_time w = w_time w0 /\ w_reads w0 <= g.2 <= w_reads w /\ store_ok (stored w).

Record moves (g : Ghost) (w : World St) (g' : Ghost) (w' : World St) : Prop := {
  mv_time : w_time w' = w_time w;
  mv_reads : w_reads w <= w_reads w';
  mv_bound : g.2 <= g'.2 <= w_reads w';
  mv_ok : store_ok (stored w');
  mv_held : held (stored w) key = Some exp -> held (stored w') key = Some exp \/ past w';
  mv_keeps : g.1 = true -> g'.1 = true;
  mv_records : g.1 = false -> g'.1 = true ->
    held (stored w') key = Some exp /\ (held (stored w) key = Some exp -> past w)
}.

(** All threads together. *)
Record keeps (gs : list Ghost) (w : World St) : Prop := {
  kp_time : w_time w = w_time w0;
  kp_reads : w_reads w0 <= w_reads w;
  kp_ok : store_ok (stored w);
  kp_bounds : forall i g, gs !! i = Some g -> w_reads w0 <= g.2 <= w_reads w;
  kp_held : forall i g, gs !! i = Some g -> g.1 = true -> held (stored w) key = Some exp \/ past w;
  kp_one : forall i j g g', i <> j -> gs !! i = Some g -> gs !! j = Some g' -> g.1 = true -> g'.1 = true -> past w
}.

Lemma past_later w w' : w_reads w <= w_reads w' -> past w -> past w'.
Proof. intros Hr (m & Hm & Hlt). exists m. split; [lia|done]. Qed.

Lemma keeps_suits gs w i g : keeps gs w -> gs !! i = Some g -> suits g w.
Proof. intros [] Hi. split; [done|]. split; [eauto|done]. Qed.

Lemma keeps_moves gs w i g g' w' :
  keeps gs w -> gs !! i = Some g -> moves g w g' w' -> keeps (<[i := g']> gs) w'.
Proof.
  intros [Ht Hr Hok Hb Hh H1'] Hi [Mt Mr Mb Mo Mh Mk Mrec].
  assert (Hlen : i < length gs) by by eapply lookup_lt_Some.
  pose proof (Hb i g Hi) as Hbi.
  assert (Hcase : forall j h, <[i := g']> gs !! j = Some h -> (j = i /\ h = g') \/ (j <> i /\ gs !! j = Some h)).
  { intros j h Hj. destruct (decide (j = i)) as [->|].
    - rewrite list_lookup_insert_eq in Hj by done. left. by simplify_eq.
    - rewrite list_lookup_insert_ne in Hj by done. by right. }
  (* a thread other than [i] that has recorded the key *)
  assert (Hother : forall j h, j <> i -> gs !! j = Some h -> h.1 = true -> g'.1 = true -> past w').
  { intros j h Hj Hl Hh1 Hg1. apply (past_later w); [done|]. destruct (g.1) eqn:Hg.
    - by eapply (H1' i j).
    - destruct (Hh j h Hl Hh1) as [Hk|]; [|done]. by apply (proj2 (Mrec eq_refl Hg1)). }
  split; try done; try congruence; try lia.
  - intros j h Hj. destruct (Hcase j h Hj) as [[-> ->]|[_ Hl]]; [lia|]. specialize (Hb j h Hl). lia.
  - intros j h Hj Hh1. destruct (Hcase j h Hj) as [[-> ->]|[_ Hl]].
    + destruct (g.1) eqn:Hg.
      * destruct (Hh i g Hi Hg) as [Hk|]; [by apply Mh|right; by eapply past_later].
      * left. by apply (Mrec eq_refl Hh1).
    + destruct (Hh j h Hl Hh1) as [Hk|]; [by apply Mh|right; by eapply past_later].
  - intros j k h h' Hjk Hj Hk Hh1 Hh2.
    destruct (Hcase j h Hj) as [[-> ->]|[Hji Hlj]], (Hcase k h' Hk) as [[-> ->]|[Hki Hlk]]; [done|eauto|eauto|].
    apply (past_later w); [done|]. by eapply (H1' j k).
Qed.

Lemma keeps_arrives gs w : keeps gs w -> keeps (gs ++ [(false, w_reads w0)]) w.
Proof.
  intros [Ht Hr Hok Hb Hh H1'].
  assert (Hcase : forall i g, (gs ++ [(false, w_reads w0)]) !! i = Some g -> g = (false, w_reads w0) \/ gs !! i = Some g).
  { intros i g [Hi|[_ [_ ->]%list_lookup_singleton_Some]]%lookup_app_Some; eauto. }
  split; try done.
  - intros i g [->|Hi]%Hcase; [cbn; lia|eauto].
  - intros i g [->|Hi]%Hcase; [done|eauto].
  - intros i j g g' Hij [->|Hi]%Hcase [->|Hj]%Hcase; try done. by apply (H1' i j).
Qed.

(** * Threads *)

#[local] Notation Gd := (Guarded suits moves).

Lemma moves_alone g w n w' :
  suits g w -> replay_alone w w' -> g.2 <= n <= w_reads w' -> moves g w (g.1, n) w'.
Proof.
  intros (Ht & Hb & Hok) [Er Et Erd] Hn. unfold stored in *. split; cbn; unfold stored; rewrite ?Er; try done; [by left|].
  intros Hf Ht'. congruence.
Qed.

Lemma alone_moves g w w' : suits g w -> replay_alone w w' -> moves g w g w'.
Proof.
  intros Hw Hf. destruct g as [b n]. apply (moves_alone (b, n)); try done.
  destruct Hw as (_ & Hb & _), Hf. cbn in *. lia.
Qed.

Lemma gd_quiet {A} g (P : A -> Prop) (Q : Ghost -> A -> Prop) (m : Http A) `{!Steps m} :
  Acts replay_alone m -> Yields P m -> (forall a, P a -> Q g a) -> Gd g Q m.
Proof. apply guarded_quiet. apply alone_moves. Qed.

(** A reading of the clock, which later calls on the store may use. *)
Definition read_before (now : Z) (n : nat) : Prop := exists m, w_reads w0 <= m < n /\ now = reading w0 m.

Lemma gd_now {A} (b : bool) n (Q : Ghost -> A -> Prop) (f : Z -> Http A) `{!forall a, Steps (f a)} :
  (forall now n', n <= n' -> read_before now n' -> Gd (b, n') Q (f now)) -> Gd (b, n) Q (eff_bind unix_now f).
Proof.
  intros Hf w Hw. pose proof Hw as (Ht & Hb & _). exists (b, S (w_reads w)). cbn in Hb. split.
  - apply (moves_alone (b, n)); [done|split; cbn; [done|done|lia]|cbn; lia].
  - apply Hf; [cbn; lia|]. exists (w_reads w). split; [lia|]. unfold reading. cbn. by rewrite Ht.
Qed.

(** A call on the store moves every thread on. *)
Lemma check_moves b n w k e now r w' :
  suits (b, n) w -> in_i64 e -> read_before now n -> check_and_record k e now (stored w) = (r, stored w') ->
  w_time w' = w_time w -> w_reads w' = w_reads w -> moves (b, n) w (b, n) w'.
Proof.
  intros (Ht & Hb & Hok) He (m & Hm & ->) Hc Et Er. cbn in *.
  split; cbn; try done; try lia; [by eapply store_ok_step| |congruence].
  intros Hk. destruct (Z.le_gt_cases (reading w0 m) exp) as [Hle|Hlt]; [left; by eapply live_kept|].
  right. exists m. split; [lia|lia].
Qed.

Lemma gd_check b n (Q : Ghost -> unit -> Prop) f k e now :
  in_i64 e -> read_before now n -> Q (b, n) tt -> Gd (b, n) Q (replay_check f k e now).
Proof.
  intros He Hn Hq w Hw. exists (b, n).
  destruct (replay_check f k e now w) as [r w'] eqn:Hr. cbn [fst snd guards].
  apply replay_check_run in Hr as (r0 & s1 & Hc & -> & ->). split; [|by destruct r0 as [[]|]].
  by eapply check_moves.
Qed.

(** The call that records the key. *)
Lemma gd_records b n (Q : Ghost -> unit -> Prop) f now :
  in_i64 exp -> read_before now n -> Q (true, n) tt -> Gd (b, n) Q (replay_check f key exp now).
Proof.
  intros He Hn Hq w Hw.
  destruct (replay_check f key exp now w) as [r w'] eqn:Hr.
  apply replay_check_run in Hr as (r0 & s1 & Hc & -> & ->). destruct r0 as [[]|err].
  - exists (true, n). cbn [fst snd guards map_err]. split; [|done].
    destruct (check_moves b n w key exp now _ (set_replay (mkReplayPolicy s1) w) Hw He Hn Hc eq_refl eq_refl).
    destruct (record_fresh _ _ _ _ _ (proj2 (proj2 Hw)) He Hc) as [Hheld Hfresh].
    split; try done. intros _ _. split; [done|]. intros Hk. specialize (Hfresh _ Hk).
    destruct Hn as (m & Hm & ->). exists m. split; [|done]. destruct Hw as (_ & Hb & _). cbn in Hb. lia.
  - exists (b, n). cbn [fst snd guards map_err]. split; [|done]. by eapply check_moves.
Qed.

(** ** The handlers *)

Lemma gd_mint g (Q : Ghost -> HeaderMap * TokenResponse -> Prop) ex now e client act decision :
  (forall a, Q g a) -> Gd g Q (mint state ex now e client act decision).
Proof.
  intros Hq. apply (gd_quiet _ (fun _ => True)); [|apply yields_any|by intros].
  apply (acts_mint replay_alone state); apply _.
Qed.

Context (decoded_i64 : forall t jwks algs (v : VerifiedJws AssertionClaims),
  verify_claims_against_jwks_with_allowed_algs t jwks algs = Ok v -> in_i64 (as_exp (v_claims v))).

(** This thread has recorded the key if the key is [k] and it stands for [e]. *)
Definition claimed (k : string) (e : Z) (g : Ghost) : Prop := key = k -> exp = e -> g.1 = true.

Definition actor_recorded (c : AssertionClaims) (g : Ghost) : Prop :=
  exists jti, as_jti c = Some jti /\ claimed ("act:" +:+ as_sub c +:+ ":" +:+ jti) (as_exp c) g.
Definition client_recorded (c : AssertionClaims) (g : Ghost) : Prop :=
  exists jti, client_assertion_jti c = Ok jti /\ claimed ("ca:" +:+ as_sub c +:+ ":" +:+ jti) (as_exp c) g.
Definition binding_recorded (b : DpopBinding) (g : Ghost) : Prop :=
  claimed (dpop_replay_key (db_jkt b) (db_jti b)) (db_replay_expires_at b) g.

Lemma client_later c b b' n :
  (b = true -> b' = true) -> client_recorded c (b, n) -> client_recorded c (b', n).
Proof. intros Hb (jti & Hj & Hc). exists jti. split; [done|]. intros Hk He. by apply Hb, (Hc Hk He). Qed.
Lemma claimed_later k e b b' n : (b = true -> b' = true) -> claimed k e (b, n) -> claimed k e (b', n).
Proof. intros Hb Hc Hk He. by apply Hb, (Hc Hk He). Qed.

Lemma gd_claim b n (Q : Ghost -> unit -> Prop) f k e now :
  in_i64 e -> read_before now n ->
  (forall b' : bool, (b = true -> b' = true) -> claimed k e (b', n) -> Q (b', n) tt) ->
  Gd (b, n) Q (replay_check f k e now).
Proof.
  intros He Hn Hq. destruct (decide (key = k /\ exp = e)) as [[<- <-]|Hne].
  - apply gd_records; [done|done|]. by apply Hq.
  - apply gd_check; [done|done|]. apply Hq; [done|]. intros Hk Hx. by destruct Hne.
Qed.

Lemma gd_record_client b n (Q : Ghost -> unit -> Prop) cc now :
  in_i64 (as_exp cc) -> read_before now n ->
  (forall b' : bool, (b = true -> b' = true) -> client_recorded cc (b', n) -> Q (b', n) tt) ->
  Gd (b, n) Q (record_client_assertion_replay cc now).
Proof.
  intros He Hn Hq. unfold record_client_assertion_replay, steps_record_client. apply guarded_lift. intros jti Hj.
  apply gd_claim; [done|done|]. intros b' Hb Hc. apply Hq; [done|]. by exists jti.
Qed.

(** The claims that an exchange records are those of verified assertions. *)
Record recordable (ex : VerifiedExchange) : Prop := {
  rb_client : forall c, ve_client_claims ex = Some c -> in_i64 (as_exp c);
  rb_dpop : forall b, ve_dpop_binding ex = Some b -> in_i64 (db_replay_expires_at b)
}.

(** What a successful exchange has recorded. *)
Record exchange_recorded (request : ExchangeRequest) (ex : VerifiedExchange) (g : Ghost) : Prop := {
  er_actor : forall t, actor_token request = Some t -> exists v,
    verify_claims_against_jwks_with_allowed_algs t (actor_jwks state) (inbound_assertion_algs (config state)) = Ok v /\
    actor_recorded (v_claims v) g;
  er_client : forall c, ve_client_claims ex = Some c -> client_recorded c g;
  er_dpop : forall b, ve_dpop_binding ex = Some b -> binding_recorded b g
}.

(** The recordings at the end of an exchange. *)
Lemma gd_when_client b n (Q : Ghost -> unit -> Prop) ex now :
  recordable ex -> read_before now n ->
  (forall b' : bool, (b = true -> b' = true) ->
    (forall c, ve_client_claims ex = Some c -> client_recorded c (b', n)) -> Q (b', n) tt) ->
  Gd (b, n) Q (when_some (ve_client_claims ex) (fun c => record_client_assertion_replay c now)).
Proof.
  intros [Hc _] Hn Hq. unfold when_some, steps_when_some. destruct (ve_client_claims ex) as [c|] eqn:He.
  - apply gd_record_client; [by apply Hc|done|]. intros b' Hb Hr. apply Hq; [done|]. by intros c' [= <-].
  - by apply guarded_ret, Hq.
Qed.

Lemma gd_when_dpop b n (Q : Ghost -> unit -> Prop) ex now :
  recordable ex -> read_before now n ->
  (forall b' : bool, (b = true -> b' = true) ->
    (forall bd, ve_dpop_binding ex = Some bd -> binding_recorded bd (b', n)) -> Q (b', n) tt) ->
  Gd (b, n) Q (when_some (ve_dpop_binding ex) (fun bd => record_dpop_replay bd now)).
Proof.
  intros [_ Hd] Hn Hq. unfold when_some, steps_when_some. destruct (ve_dpop_binding ex) as [bd|] eqn:He.
  - unfold record_dpop_replay, steps_record_dpop. apply gd_claim; [by apply Hd|done|].
    intros b' Hb Hr. apply Hq; [done|]. by intros c' [= <-].
  - by apply guarded_ret, Hq.
Qed.

Lemma gd_delegation b n request ex :
  recordable ex -> Gd (b, n) (fun g _ => exchange_recorded request ex g) (exchange_delegation state request ex).
Proof.
  intros Hx. unfold exchange_delegation, steps_delegation. apply guarded_lift. intros t Ht. apply guarded_bind.
  eapply gd_quiet; [apply _|apply actor_yields|]. intros ac (v & Hv & <-).
  do 3 (apply guarded_lift; intros ? _). apply gd_now. intros now n' _ Hn. apply guarded_lift. intros prior _.
  apply guarded_lift. intros jti Hj. apply guarded_bind, gd_claim; [by eapply decoded_i64|done|]. intros b1 _ H1'.
  apply guarded_bind, gd_when_client; [done|done|]. intros b2 Hb2 H2'.
  apply guarded_bind, gd_when_dpop; [done|done|]. intros b3 Hb3 H3'.
  apply gd_mint. intros _. split; [|intros c Hc; by eapply client_later, H2'|exact H3'].
  intros t' Ht'. replace t' with t by (destruct (actor_token request); simplify_eq/=; done).
  exists v. split; [done|]. exists jti. split; [|by eapply claimed_later, claimed_later, H1'].
  unfold opt_filter in Hj. by repeat case_match; simplify_eq/=.
Qed.

Lemma gd_impersonation b n request ex :
  recordable ex -> Gd (b, n) (fun g _ => exchange_recorded request ex g) (exchange_impersonation state request ex).
Proof.
  intros Hx. unfold exchange_impersonation, steps_impersonation.
  destruct (actor_token request) as [t|] eqn:Ht; [done|]. cbn [opt_is_some].
  apply guarded_lift. intros cc Hcc. do 2 (apply guarded_lift; intros ? _). apply gd_now. intros now n' _ Hn.
  assert (Hc : ve_client_claims ex = Some cc) by (by destruct (ve_client_claims ex); simplify_eq/=).
  apply guarded_bind, gd_record_client; [by apply Hx|done|]. intros b1 _ H1'.
  apply guarded_bind, gd_when_dpop; [done|done|]. intros b2 Hb2 H2'.
  apply gd_mint. intros _. split; [by rewrite Ht| |exact H2'].
  rewrite Hc. intros c [= <-]. by eapply client_later.
Qed.

(** This thread has recorded the credential, if its key is the one in question. *)
Definition spent (c : Credential) (g : Ghost) : Prop :=
  exists k e, recorded_as state c k e /\ claimed k e g.

(** The client's claims come from the assertion in the request. *)
Definition client_of (assertion : option string) (c : AssertionClaims) : Prop :=
  exists t v, assertion = Some t /\ verify_claims_against_jwks_with_allowed_algs t (client_jwks state)
    (inbound_assertion_algs (config state)) = Ok v /\ v_claims v = c.

Lemma client_spent t a c g : client_of a c -> client_recorded c g -> a = Some t -> spent (ClientAssertion t) g.
Proof.
  intros (t' & v & -> & Hv & <-) (jti & Hj & Hc) [= ->]. do 2 eexists. split; [|exact Hc]. by exists v, jti.
Qed.

Lemma client_of_i64 a c : client_of a c -> in_i64 (as_exp c).
Proof. intros (t & v & _ & Hv & <-). by eapply decoded_i64. Qed.

Lemma authenticate_yields request mode :
  Yields (W := World St) (fun o => (forall c, o = Some c -> client_of (client_assertion request) c) /\
      (forall t, client_assertion request = Some t -> is_Some o))
    (authenticate_client_if_present state request mode).
Proof.
  unfold authenticate_client_if_present, steps_authenticate.
  do 3 (apply yields_if; intros _; [apply yields_err|]). apply yields_if; intros Hp.
  - apply yields_ret. split; [done|]. intros t Ht. unfold has_client_auth in Hp. by rewrite Ht in Hp.
  - eapply yields_bind; [apply client_yields|]. intros c Hc. yields. split; [by intros c' [= <-]|done].
Qed.

(** A granted token request has spent all that it presents. *)
Lemma gd_token_inner headers body b n :
  Gd (b, n) (fun g _ => forall c, presents (ReqToken headers body) c -> spent c g) (token_inner headers state body).
Proof.
  unfold token_inner, steps_token_inner. apply guarded_lift. intros form Hf. apply guarded_lift. intros _ _.
  apply guarded_bind. eapply gd_quiet; [apply _|apply authenticate_yields|]. intros client [Hc Hs].
  apply gd_now. intros now n1 _ _. apply guarded_lift. intros binding Hb. apply guarded_bind.
  eapply gd_quiet; [apply _|apply yields_any|]. intros subject _. do 3 (apply guarded_lift; intros ? _).
  set (ex := mkExchange _ _ _ _ _ _).
  assert (Hx : recordable ex).
  { split; cbn; [intros c Hcc; by eapply client_of_i64, Hc|]. intros bd ->. by eapply dpop_expiry_range. }
  assert (Hex : ve_client_claims ex = client /\ ve_dpop_binding ex = binding) by done.
  clearbody ex. unfold steps_mode.
  destruct (effective_exchange_mode _ _ _);
    (eapply guarded_mono; [by first [apply gd_delegation|apply gd_impersonation]|]);
    intros g r [Ha Hcl Hd] c; (destruct c as [t|t|p]; cbn [presents]).
  1,4: intros (form' & Hf' & Ht); rewrite Hf in Hf'; injection Hf' as <-;
    destruct (Ha t Ht) as (v & Hv & jti & Hj & Hg); do 2 eexists; (split; [|exact Hg]); by exists v, jti.
  1,3: intros (form' & Hf' & Ht); rewrite Hf in Hf'; injection Hf' as <-;
    destruct (Hs t Ht) as [cc Hcc]; eapply client_spent; [by apply Hc|apply Hcl; by destruct Hex as [-> _]|done].
  1,2: intros (raw & Hr & Hp); unfold validate_dpop_header in Hb; rewrite Hr in Hb; cbn in Hb; rewrite Hp in Hb;
    cbn in Hb; apply map_err_ok in Hb; destruct (validate_dpop_proof _) as [bd|] eqn:Hv; [|done];
    injection Hb as <-; do 2 eexists; (split; [by do 2 eexists|]); by apply Hd; destruct Hex as [_ ->].
Qed.

Lemma gd_online (form : OnlineTokenForm) endpoint b n (Q : Ghost -> AssertionClaims -> Prop) :
  (forall cc, client_of (of_client_assertion form) cc -> Q (b, n) cc) ->
  Gd (b, n) Q (authenticate_online_client state form endpoint).
Proof.
  intros Hq. eapply gd_quiet; [apply _| |exact Hq].
  unfold authenticate_online_client, steps_online.
  apply yields_if; intros _; [apply yields_err|exact (client_yields _ _ _)].
Qed.

(** The common part of the two online endpoints, whatever follows quietly. *)
Lemma gd_online_endpoint {A} headers body endpoint b n (k : string -> Z -> Http A) `{!forall t now, Steps (k t now)} :
  (forall t now, Acts replay_alone (k t now)) ->
  Gd (b, n) (fun g _ => forall form t, parse_online_token_form headers body = Ok form ->
      of_client_assertion form = Some t -> spent (ClientAssertion t) g)
    (do? form <- parse_online_token_form headers body in
     do? token <- required_online_token form (max_token_len (config state)) in
     do! claims <- authenticate_online_client state form endpoint in
     do! now <- unix_now in
     do! _ <- record_client_assertion_replay claims now in
     do! now2 <- unix_now in
     k token now2).
Proof.
  intros Hk. apply guarded_lift. intros form Hf. apply guarded_lift. intros t _.
  apply guarded_bind, gd_online. intros cc Hcc. apply gd_now. intros now n1 _ Hn1.
  apply guarded_bind, gd_record_client; [by eapply client_of_i64|done|]. intros b' _ Hr.
  apply guarded_bind. eapply (gd_quiet _ (fun _ => True)); [apply _|apply yields_any|]. intros now2 _.
  eapply (gd_quiet _ (fun _ => True)); [apply Hk|apply yields_any|]. intros a _ form' t' Hf' Ht.
  rewrite Hf in Hf'. injection Hf' as <-. by eapply client_spent.
Qed.

Lemma gd_introspect headers body b n :
  Gd (b, n) (fun g _ => forall c, presents (ReqIntrospect headers body) c -> spent c g) (introspect headers state body).
Proof.
  eapply guarded_mono; [apply gd_online_endpoint|].
  - intros t now. apply acts_try; [|done]. apply acts_atomic, alone_introspection.
  - intros g a Hg [t|t|p]; [done| |done]. intros (form & Hf & Ht). by eapply Hg.
Qed.

Lemma gd_revoke headers body b n :
  Gd (b, n) (fun g _ => forall c, presents (ReqRevoke headers body) c -> spent c g) (revoke headers state body).
Proof.
  eapply guarded_mono; [apply gd_online_endpoint|].
  - intros t now. apply acts_try; [apply acts_atomic, alone_verified|]. intros o.
    apply acts_try; [|done]. apply acts_option; [|done]. intros c. apply acts_try; [apply _|].
    intros now3. apply acts_atomic, alone_revoke.
  - intros g a Hg [t|t|p]; [done| |done]. intros (form & Hf & Ht). by eapply Hg.
Qed.

(** What a thread has done when it returns. *)
Definition spends (req : Request) (g : Ghost) (a : Answer) : Prop :=
  granted_answer a = true -> forall c, presents req c -> spent c g.

Lemma thread_spends req n : guards suits moves (spends req) (false, n) (serve_thread state req).
Proof.
  destruct req as [h b|h b|h b|]; cbn [serve_thread].
  - apply guards_bind. cbn [steps steps_token]. apply guards_bind. eapply guards_mono; [apply gd_token_inner|].
    intros g r Hr. apply (quiet_guards replay_alone _ _ _ (fun r' => r' = r)); [apply alone_moves| | |].
    + apply acts_record_exchange, alone_counts.
    + destruct r as [a|e]; [done|]. cbn. destruct (he_error e); done.
    + intros r' ->. destruct r; [by intros _|by intros ?].
  - apply guards_bind. eapply guards_mono; [apply gd_introspect|]. intros g [a|e] Hg; [by intros _|by intros ?].
  - apply guards_bind. eapply guards_mono; [apply gd_revoke|]. intros g [a|e] Hg; [by intros _|by intros ?].
  - apply (quiet_guards replay_alone _ _ _ (fun _ => True)); [apply alone_moves| |apply returns_any|by intros a _ _ c []].
    apply acts_bind; [|done]. by repeat (intros w; split; [by split|]).
Qed.

(** Every schedule ends in a world that suits the threads it has run, and those
    that ran before. *)
Lemma server_keeps gs0 w sched :
  keeps gs0 w ->
  exists gs, keeps (gs0 ++ gs) (c_world (server state sched (listening w))) /\
    forall i req a, returned (server state sched (listening w)) i req a ->
      exists g, gs !! i = Some g /\ spends req g a.
Proof.
  intros Hk0.
  destruct (pool_exec (serve_thread state) suits moves spends (fun gs => keeps (gs0 ++ gs))
              (fun _ => (false, w_reads w0))) with (sched := sched) (c := listening w) (gs := @nil Ghost)
    as (gs & Hk & Hg).
  - intros gs w1 i g Hk Hi. apply (keeps_suits _ _ (length gs0 + i) g Hk). by rewrite lookup_app_r, Nat.add_sub_swap, Nat.sub_diag by lia.
  - intros gs w1 i g g' w2 Hk Hi. rewrite <- insert_app_r. apply (keeps_moves _ _ _ g); [done|].
    by rewrite lookup_app_r, Nat.add_sub_swap, Nat.sub_diag by lia.
  - intros gs w1 _. rewrite app_assoc. apply keeps_arrives.
  - intros req. apply thread_spends.
  - by rewrite app_nil_r.
  - constructor.
  - exists gs. split; [exact Hk|]. intros i req a Hi.
    destruct (Forall2_lookup_r _ _ _ _ _ Hg Hi) as (g & Hgi & Hp). eauto.
Qed.

(** At the start no thread has run. *)
Lemma keeps_start : store_ok (stored w0) -> keeps [] w0.
Proof. by split. Qed.

(** What one thread has done is kept when the others are forgotten. *)
Lemma keeps_only gs w i g : keeps gs w -> gs !! i = Some g -> keeps [g] w.
Proof.
  intros [] Hi. split; try done.
  - intros j h [_ ->]%list_lookup_singleton_Some. eauto.
  - intros j h [_ ->]%list_lookup_singleton_Some. eauto.
  - intros j k h h' Hjk [-> ->]%list_lookup_singleton_Some [-> _]%list_lookup_singleton_Some. done.
Qed.
End Key.

(** * Properties *)

Section Properties.
Context {Sg St : Type} `{JoseSigner Sg} `{ReplayStoreLaws St} `{HttpLib} `{UrlLib} `{Features} `{Base64}
  `{Jwt} `{OpenSsl} `{DpopLib} `{JsonReader} `{Sha256}
  `{FromJson CompactJwsHeader} `{FromJson SubjectTokenClaims} `{FromJson AssertionClaims}
  `{FromJson MintedClaims}.

(** C3: what a request presents it presents once, also when requests run at the
    same time: in every schedule of the server's threads, if two of them grant
    requests that present the same actor token, the same client assertion (at
    any of the three endpoints) or the same DPoP proof, then the clock has shown
    an instant past the credential's expiry since the start.  The clock may do
    what it likes, and the store is any that satisfies the interface.
    ([decoded_i64]: expiries are decoded as [i64].) *)
Theorem concurrent_single_use (state : HttpState Sg) (w : World St) (sched : list (Event Request)) (i j : nat)
    (req1 req2 : Request) (a1 a2 : Answer) (cred : Credential)
    (decoded_i64 : forall t jwks algs (v : VerifiedJws AssertionClaims),
       verify_claims_against_jwks_with_allowed_algs t jwks algs = Ok v -> in_i64 (as_exp (v_claims v))) :
  let c := server state sched (listening w) in
  store_ok (store (w_replay w)) -> i <> j ->
  returned c i req1 a1 -> granted_answer a1 = true -> presents req1 cred ->
  returned c j req2 a2 -> granted_answer a2 = true -> presents req2 cred ->
  exists key exp m, recorded_as state cred key exp /\
    w_reads w <= m < w_reads (c_world c) /\ (exp < reading w m)%Z.
Proof.
  intros c Hok Hij R1 G1 P1 R2 G2 P2. subst c.
  destruct (server_keeps state w "" 0 decoded_i64 [] w sched (keeps_start _ _ _ Hok)) as (gs0 & _ & Hall0).
  destruct (Hall0 _ _ _ R1) as (g0 & _ & Hg0). destruct (Hg0 G1 _ P1) as (k & e & Hr & _).
  destruct (server_keeps state w k e decoded_i64 [] w sched (keeps_start _ _ _ Hok)) as (gs & Hk & Hall).
  destruct (Hall _ _ _ R1) as (g1 & Hg1 & S1). destruct (Hall _ _ _ R2) as (g2 & Hg2 & S2).
  destruct (S1 G1 _ P1) as (k1 & e1 & Hr1 & K1). destruct (S2 G2 _ P2) as (k2 & e2 & Hr2 & K2).
  destruct (recorded_as_fun _ _ _ _ _ _ Hr Hr1) as [-> ->]. destruct (recorded_as_fun _ _ _ _ _ _ Hr1 Hr2) as [-> ->].
  destruct (kp_one _ _ _ _ _ Hk i j g1 g2 Hij Hg1 Hg2) as (m & Hm & Hlt); [by apply K1|by apply K2|].
  by exists k2, e2, m.
Qed.
End Properties.

(** * Examples *)

Definition spend : Request := ReqToken toy_headers actor_body.
Definition look : Request := ReqIntrospect toy_headers (online_body "c.c.c").

(** Two exchanges with one actor token race; the clock passes the token's expiry
    while they run, and an introspection lets the store forget. *)
Definition racing_world : World InMemoryReplayStore :=
  mkWorld (fun n => Some (if Nat.ltb n 9 then 1200 else 1340)%Z) 0 (fun _ => "random") 0
    (mkReplayPolicy (in_memory_new 8 1)) (mutex_new ∅) default_metrics.
Definition racing : list (Event Request) :=
  [Arrive spend; Arrive spend; Arrive look; Turn 0; Turn 1; Turn 0; Turn 1; Turn 0; Turn 1; Turn 0; Turn 1; Turn 0]
  ++ replicate 8 (Turn 0) ++ replicate 9 (Turn 2) ++ replicate 9 (Turn 1).

Lemma concurrent_single_use_witness :
  let c := server toy_state racing (listening racing_world) in
  returned c 0 spend (AToken (Ok (token_headers, toy_response))) /\
  returned c 1 spend (AToken (Ok (token_headers, toy_response))) /\
  exists m, m < w_reads (c_world c) /\ (1300 < reading racing_world m)%Z.
Proof.
  intros c.
  assert (R1 : returned c 0 spend (AToken (Ok (token_headers, toy_response)))) by (vm_compute; reflexivity).
  assert (R2 : returned c 1 spend (AToken (Ok (token_headers, toy_response)))) by (vm_compute; reflexivity).
  split; [exact R1|]. split; [exact R2|].
  destruct (concurrent_single_use toy_state racing_world racing 0 1 spend spend
              (AToken (Ok (token_headers, toy_response))) (AToken (Ok (token_headers, toy_response))) (ActorToken "a.a.a"))
    as (k & e & m & (v & jti & Hv & _ & _ & He) & Hm & Hlt).
  - intros t jwks algs v Hv. rewrite (toy_assertions t jwks algs v Hv). i64_tac.
  - vm_compute. discriminate.
  - discriminate.
  - exact R1.
  - reflexivity.
  - exists toy_form. split; vm_compute; reflexivity.
  - exact R2.
  - reflexivity.
  - exists toy_form. split; vm_compute; reflexivity.
  - rewrite He, (toy_assertions _ _ _ _ Hv) in Hlt. exists m. split; [apply Hm|exact Hlt].
Defined.
