(* ===== verification/ThreadRevoke.v ===== *)
(** A revoked token is reported as inactive, also when requests run at the same
    time.

    The proof follows one token through every schedule.  Once a thread has put
    it on the revocation list it stays there until some thread's clock reading
    is past its expiry, whoever sweeps the list.  An introspection that begins
    later therefore finds it, unless the clock has shown such an instant. *)

From S2P Require Import Prelude RustStr Json Url Core Replay Jose JoseSigners Verify Config Dpop.
From S2P Require Import HttpForms HttpState HttpToken HttpToy HttpExchange HttpServer HttpTyped Conc HttpConc HttpThreads.
From Stdlib Require Import Ascii.

(** * The part of the world that matters *)

Record list_alone {S} (w w' : World S) : Prop := {
  la_list : w_revocations w' = w_revocations w;
  la_time : w_time w' = w_time w;
  la_reads : w_reads w <= w_reads w'
}.

#[export] Instance list_alone_frame {S} : IsFrame (@list_alone S).
Proof.
  split; [split; [done|]; intros x y z [] []; split; first [congruence|lia]|].
  intros w w' []. by split.
Qed.

Section Token.
Context {Sg St : Type} `{JoseSigner Sg} `{ReplayStore St} `{HttpLib} `{UrlLib} `{Features} `{Base64}
  `{Jwt} `{OpenSsl} `{DpopLib} `{JsonReader} `{Sha256}
  `{FromJson CompactJwsHeader} `{FromJson SubjectTokenClaims} `{FromJson AssertionClaims}
  `{FromJson MintedClaims}.
Context (state : HttpState Sg) (w0 : World St) (t : string) (exp : Z).

(** The token's expiry, and its [iat] is not in the future. *)
Context (expires : forall v : VerifiedJws MintedClaims,
  verify_claims_against_jwks_with_header t (published_jwks state) = Ok v -> mc_exp (v_claims v) = exp).
Context (issued : forall (v : VerifiedJws MintedClaims) n,
  verify_claims_against_jwks_with_header t (published_jwks state) = Ok v -> w_reads w0 <= n ->
  (mc_iat (v_claims v) <= i64_add (reading w0 n) (cfg_clock_skew_leeway (config state)))%Z).

(** Among the first [n] readings one is at the expiry or later. *)
Definition over (n : nat) : Prop := exists m, w_reads w0 <= m < n /\ (exp <= reading w0 m)%Z.

(** The token is of no use to anyone: if it is one of this server, it is on the
    list (or the list cannot be read). *)
Definition listed (w : World St) : Prop :=
  (forall v : VerifiedJws MintedClaims,
    verify_claims_against_jwks_with_header t (published_jwks state) = Ok v -> issued_here state v ->
    m_poisoned (w_revocations w) = true \/ m_value (w_revocations w) !! revocation_key t = Some exp) \/
  over (w_reads w) \/ collision.

(** [true]: the token has been listed before; and so many readings at least. *)
Definition Ghost : Type := bool * nat.

Definition suits (g : Ghost) (w : World St) : Prop :=
  w_time w = w_time w0 /\ w_reads w0 <= g.2 <= w_reads w /\ (g.1 = true -> listed w).

Record moves (g : Ghost) (w : World St) (g' : Ghost) (w' : World St) : Prop := {
  mv_time : w_time w' = w_time w;
  mv_reads : w_reads w <= w_reads w';
  mv_bound : g.2 <= g'.2 <= w_reads w';
  mv_listed : listed w -> listed w';
  mv_lists : g'.1 = true -> g.1 = true \/ listed w';
  mv_keeps : g.1 = true -> g'.1 = true
}.

Record keeps (gs : list Ghost) (w : World St) : Prop := {
  kp_time : w_time w = w_time w0;
  kp_reads : w_reads w0 <= w_reads w;
  kp_bounds : forall i g, gs !! i = Some g -> w_reads w0 <= g.2 <= w_reads w;
  kp_listed : forall i g, gs !! i = Some g -> g.1 = true -> listed w
}.

Lemma listed_suits gs w i g : keeps gs w -> gs !! i = Some g -> suits g w.
Proof. intros [] Hi. split; [done|]. split; eauto. Qed.

Lemma listed_moves gs w i g g' w' :
  keeps gs w -> gs !! i = Some g -> moves g w g' w' -> keeps (<[i := g']> gs) w'.
Proof.
  intros [Ht Hr Hb Hl] Hi [Mt Mr Mb Ml Mn _].
  assert (Hlen : i < length gs) by by eapply lookup_lt_Some.
  pose proof (Hb i g Hi) as Hbi.
  assert (Hcase : forall j h, <[i := g']> gs !! j = Some h -> h = g' \/ gs !! j = Some h).
  { intros j h Hj. destruct (decide (j = i)) as [->|].
    - rewrite list_lookup_insert_eq in Hj by done. left. by simplify_eq.
    - rewrite list_lookup_insert_ne in Hj by done. by right. }
  split; [congruence|lia| |].
  - intros j h [->|Hj]%Hcase; [lia|]. specialize (Hb j h Hj). lia.
  - intros j h [->|Hj]%Hcase Hh; [destruct (Mn Hh); eauto|eauto].
Qed.

Lemma listed_arrives b gs w : (b = true -> listed w) -> keeps gs w -> keeps (gs ++ [(b, w_reads w0)]) w.
Proof.
  intros Hw [Ht Hr Hb Hl].
  assert (Hcase : forall i g, (gs ++ [(b, w_reads w0)]) !! i = Some g -> g = (b, w_reads w0) \/ gs !! i = Some g).
  { intros i g [Hi|[_ [_ ->]%list_lookup_singleton_Some]]%lookup_app_Some; eauto. }
  split; [done|done| |].
  - intros i g [->|Hi]%Hcase; [cbn; lia|eauto].
  - intros i g [->|Hi]%Hcase; [done|eauto].
Qed.

(** * What keeps the token listed *)

Lemma over_later n n' : n <= n' -> over n -> over n'.
Proof. intros Hn (m & Hm & He). exists m. split; [lia|done]. Qed.

(** A reading of the clock. *)
Definition read_before (now : Z) (n : nat) : Prop := exists m, w_reads w0 <= m < n /\ now = reading w0 m.

Lemma over_read now n : read_before now n -> (exp <= now)%Z -> over n.
Proof. intros (m & Hm & ->) He. by exists m. Qed.

Lemma listed_same w w' : list_alone w w' -> listed w -> listed w'.
Proof.
  intros [El Et Er] [Hl|[Ho|Hc]]; [left; by rewrite El|right; left; by eapply over_later|by right; right].
Qed.

Lemma listed_change (w w' : World St) now m :
  w_reads w' = w_reads w -> w_revocations w' = mutex_new m -> read_before now (w_reads w) ->
  m_poisoned (w_revocations w) = false ->
  ((now <= exp)%Z -> m_value (w_revocations w) !! revocation_key t = Some exp -> m !! revocation_key t = Some exp) ->
  listed w -> listed w'.
Proof.
  unfold listed. intros Er El Hn Hp Hm Hl. rewrite Er, El. destruct Hl as [Hl|Hl]; [|by right].
  destruct (Z.le_gt_cases now exp) as [Hle|Hlt]; [|right; left; eapply over_read; [done|lia]].
  left. intros v Hv Hh. right. apply Hm; [done|]. destruct (Hl v Hv Hh); congruence.
Qed.

Lemma sweep_keeps_entry now m :
  (now <= exp)%Z -> m !! revocation_key t = Some exp -> sweep_revoked m now !! revocation_key t = Some exp.
Proof. intros Hle Hk. rewrite lookup_sweep_revoked, Hk. by rewrite (proj2 (Z.leb_le _ _)). Qed.

Lemma listed_query t' now w :
  read_before now (w_reads w) -> listed w ->
  listed (set_revocations (is_revoked_or_unavailable t' now (w_revocations w)).2 w).
Proof.
  intros Hn Hl. unfold is_revoked_or_unavailable, lock.
  destruct (m_poisoned (w_revocations w)) eqn:Hp; [by apply (listed_same w)|].
  eapply (listed_change w _ now); try done. apply sweep_keeps_entry.
Qed.

Lemma listed_revoke t' exp' now max (w w' : World St) r :
  read_before now (w_reads w) -> (t' = t -> exp' = exp) ->
  revoke_in_world t' exp' now max w = (r, w') -> listed w -> listed w'.
Proof.
  intros Hn Hsame Hrun Hl. unfold revoke_in_world, revoke_token, lock in Hrun.
  destruct (m_poisoned (w_revocations w)) eqn:Hp; [injection Hrun as <- <-; by apply (listed_same w)|].
  destruct (decide (revocation_key t' = revocation_key t)) as [Hk|Hk].
  - destruct (revocation_key_inj _ _ Hk) as [->|]; [|by right; right]. rewrite Hsame in Hrun by done.
    destruct (_ && _)%bool; injection Hrun as <- <-; eapply (listed_change w _ now); try done; [apply sweep_keeps_entry|].
    intros _ _. apply lookup_insert_eq.
  - destruct (_ && _)%bool; injection Hrun as <- <-; eapply (listed_change w _ now); try done; [apply sweep_keeps_entry|].
    intros Hle Hx. rewrite lookup_insert_ne by done. by apply sweep_keeps_entry.
Qed.

(** * Threads *)

#[local] Instance alone_replay_check f k e n : Frame (S := St) list_alone (replay_check f k e n).
Proof. intros w. destruct (frame_replay_check f k e n w). by split. Qed.
#[local] Instance alone_signing d : Frame (S := St) list_alone (record_signing_metric d).
Proof. intros w. by split. Qed.

#[local] Notation Gd := (Guarded suits moves).

Lemma list_alone_moves g w w' : suits g w -> list_alone w w' -> moves g w g w'.
Proof.
  intros (Ht & Hb & _) Hf. pose proof Hf as [_ Et Er]. split; [done|done|lia| |by left|done]. by apply listed_same.
Qed.

Lemma td_quiet {A} g (P : A -> Prop) (Q : Ghost -> A -> Prop) (m : Http A) `{!Steps m} :
  Acts list_alone m -> Yields P m -> (forall a, P a -> Q g a) -> Gd g Q m.
Proof. apply guarded_quiet. apply list_alone_moves. Qed.

Lemma td_any {A} g (Q : Ghost -> A -> Prop) (m : Http A) `{!Steps m} :
  Acts list_alone m -> (forall a, Q g a) -> Gd g Q m.
Proof. intros Hm Hq. apply (td_quiet _ (fun _ => True)); [done|apply yields_any|auto]. Qed.

Lemma td_now {A} (b : bool) n (Q : Ghost -> A -> Prop) (f : Z -> Http A) `{!forall a, Steps (f a)} :
  (forall now n', n <= n' -> read_before now n' -> Gd (b, n') Q (f now)) -> Gd (b, n) Q (eff_bind unix_now f).
Proof.
  intros Hf w Hw. pose proof Hw as (Ht & Hb & _). exists (b, S (w_reads w)). cbn in Hb. split.
  - split; cbn; [done|lia|lia| |by left|done]. apply listed_same. split; cbn; [done|done|lia].
  - apply Hf; [cbn; lia|]. exists (w_reads w). split; [lia|]. unfold reading. cbn. by rewrite Ht.
Qed.

Lemma read_later now n n' : n <= n' -> read_before now n -> read_before now n'.
Proof. intros Hn (m & Hm & ->). exists m. split; [lia|done]. Qed.

(** What a look at a listed token says. *)
Lemma listed_inactive now (w : World St) a w' :
  listed w -> introspection_response_for_token state t now w = (Ok a, w') ->
  a = inactive \/ over (w_reads w) \/ collision.
Proof.
  intros [Hl|]; [|by right]. unfold introspection_response_for_token. intros Hi.
  destruct (verified_sts_access_token state t now true w) as [[c|] wj] eqn:Hv; injection Hi as <- _; [|by left].
  assert (Hv1 : (verified_sts_access_token state t now true w).1 = Some c) by by rewrite Hv.
  apply verified_some in Hv1 as (v & Hj & _ & (Hh & Hlt & _) & Hr). exfalso. specialize (Hr eq_refl).
  rewrite (expires v Hj) in Hlt. unfold is_revoked_or_unavailable, lock in Hr.
  destruct (m_poisoned (w_revocations w)) eqn:Hp; [discriminate Hr|]. cbn in Hr.
  destruct (Hl v Hj Hh) as [|Hk]; [congruence|]. rewrite (sweep_keeps_entry now _ ltac:(lia) Hk) in Hr. discriminate Hr.
Qed.

(** One look at the list, for whatever token. *)
Lemma td_looks b n (Q : Ghost -> Value -> Prop) t' now :
  read_before now n ->
  (forall n' a, n <= n' -> (t' = t -> b = true -> a = inactive \/ over n' \/ collision) -> Q (b, n') a) ->
  Gd (b, n) Q (introspection_response_for_token state t' now).
Proof.
  intros Hn Hq w (Ht & Hb & Hl). cbn in Hb, Hl. exists (b, w_reads w).
  assert (Hnw : read_before now (w_reads w)) by (eapply read_later; [|exact Hn]; lia).
  destruct (introspection_response_for_token state t' now w) as [r w'] eqn:Hi. cbn [fst snd guards].
  split.
  - apply introspection_world in Hi as [->| ->]; (split; cbn; [done|lia|lia| |by left|done]); [done|]. by apply listed_query.
  - destruct r as [a|e]; [|done]. apply Hq; [lia|]. intros -> ->. by eapply listed_inactive; [apply Hl|].
Qed.

(** One entry in the list, for whatever token. *)
Lemma td_enters b n (Q : Ghost -> unit -> Prop) t' now (v : VerifiedJws MintedClaims) :
  read_before now n ->
  verify_claims_against_jwks_with_header t' (published_jwks state) = Ok v ->
  (forall b', (t' = t -> b' = true) -> Q (b', n) tt) ->
  Gd (b, n) Q (revoke_in_world t' (mc_exp (v_claims v)) now (max_seen_jti (config state))).
Proof.
  intros Hn Hv Hq w (Ht & Hb & Hl). cbn in Hb, Hl.
  assert (Hnw : read_before now (w_reads w)) by (eapply read_later; [|exact Hn]; lia).
  assert (Hsame : t' = t -> mc_exp (v_claims v) = exp) by (intros ->; by apply expires).
  destruct (revoke_in_world t' (mc_exp (v_claims v)) now _ w) as [r w'] eqn:Hr. cbn [fst snd guards].
  assert (Hf : w_time w' = w_time w /\ w_reads w' = w_reads w).
  { unfold revoke_in_world in Hr. destruct (revoke_token _ _ _ _ _). by injection Hr as _ <-. }
  assert (Hkeep : listed w -> listed w') by (by eapply listed_revoke).
  destruct Hf as [Et Er]. destruct r as [[]|e].
  - exists (b || bool_decide (t' = t), n). split; [split; cbn; [done|lia|lia|done| |by intros ->]|].
    + destruct b; [by left|]. cbn. intros ->%bool_decide_eq_true. right. left. intros v' Hv' _. right.
      apply revoke_records in Hr. by rewrite <- Hsame.
    + apply Hq. intros ->. by rewrite bool_decide_eq_true_2, orb_true_r.
  - exists (b, n). split; [|done]. split; cbn; [done|lia|lia|done|by left|done].
Qed.

(** The check before it: a token that is no longer live needs no entry. *)
Lemma td_checks b n (Q : Ghost -> option MintedClaims -> Prop) t' now :
  read_before now n ->
  (forall b', (t' = t -> b' = true) -> Q (b', n) None) ->
  (forall v : VerifiedJws MintedClaims,
    verify_claims_against_jwks_with_header t' (published_jwks state) = Ok v -> Q (b, n) (Some (v_claims v))) ->
  Guarded (E := HttpError) suits moves (b, n) Q
    (fun w => let '(c, w') := verified_sts_access_token state t' now false w in (Ok c, w')).
Proof.
  intros Hn Hnone Hsome w (Ht & Hb & Hl). cbn in Hb, Hl.
  assert (Hsame : (verified_sts_access_token state t' now false w).2 = w).
  { unfold verified_sts_access_token. by repeat case_match. }
  destruct (verified_sts_access_token state t' now false w) as [c w'] eqn:Hv. cbn in Hsame. subst w'.
  cbn [fst snd guards]. destruct c as [c|].
  - exists (b, n). split; [split; cbn; [done|lia|lia|done|by left|done]|].
    assert (Hv1 : (verified_sts_access_token state t' now false w).1 = Some c) by by rewrite Hv.
    apply verified_some in Hv1 as (v & Hj & <- & _). by apply Hsome.
  - exists (b || bool_decide (t' = t), n). split; [split; cbn; [done|lia|lia|done| |by intros ->]|].
    + destruct b; [by left|]. cbn. intros ->%bool_decide_eq_true. right.
      destruct (Z.le_gt_cases exp now) as [Hle|Hlt]; [right; left; eapply over_read; [eapply read_later; [|exact Hn]; lia|done]|].
      left. intros v Hj Hh. exfalso.
      destruct (verified_token_cases state t now false w v Hj) as [[Hnl _]|[_ He]]; [|by rewrite He in Hv].
      apply Hnl. split; [done|]. rewrite (expires v Hj). split; [done|].
      destruct Hn as (m & Hm & ->). apply issued; [done|lia].
    + apply Hnone. intros ->. by rewrite bool_decide_eq_true_2, orb_true_r.
Qed.

Lemma td_online_prefix {A} headers body endpoint b n (Q : Ghost -> A -> Prop) (k : string -> Z -> Http A)
    `{!forall t now, Steps (k t now)} :
  (forall form t' now n', parse_online_token_form headers body = Ok form -> of_token form = Some t' ->
    read_before now n' -> Gd (b, n') Q (k t' now)) ->
  Gd (b, n) Q
    (do? form <- parse_online_token_form headers body in
     do? token <- required_online_token form (max_token_len (config state)) in
     do! claims <- authenticate_online_client state form endpoint in
     do! now <- unix_now in
     do! _ <- record_client_assertion_replay claims now in
     do! now2 <- unix_now in
     k token now2).
Proof.
  intros Hk. apply guarded_lift. intros form Hf. apply guarded_lift. intros t' Ht.
  apply guarded_bind, td_any; [apply _|]. intros cc. apply guarded_bind, td_any; [apply _|]. intros now.
  apply guarded_bind, td_any; [apply (acts_record_client list_alone); apply _|]. intros _. apply td_now. intros now2 n' _ Hn.
  eapply Hk; [done| |done]. unfold required_online_token in Ht. by ok_inv.
Qed.

(** What the answer to a request means for the token. *)
Definition means (req : Request) (g : Ghost) (a : Answer) : Prop :=
  match req, a with
  | ReqRevoke headers body, ARevoke (Ok _) => forall form, parse_online_token_form headers body = Ok form ->
      of_token form = Some t -> g.1 = true
  | ReqIntrospect headers body, AIntrospect (Ok out) => forall form, parse_online_token_form headers body = Ok form ->
      of_token form = Some t -> g.1 = true -> out.2 = inactive \/ over g.2 \/ collision
  | _, _ => True
  end.

Lemma thread_means req b n : guards suits moves (means req) (b, n) (serve_thread state req).
Proof.
  destruct req as [h bd|h bd|h bd|]; cbn [serve_thread].
  - apply (quiet_guards list_alone _ _ _ (fun _ => True)); [apply list_alone_moves| |apply returns_any|done].
    apply acts_bind; [|done]. apply acts_bind; [apply (acts_token_inner list_alone state); apply _|].
    apply acts_record_exchange. intros w. split_and!; [by split|by split|]. intros e. by split.
  - apply guards_bind. eapply guards_mono with (Q := fun g r => match r with Ok a => means (ReqIntrospect h bd) g (AIntrospect (Ok a)) | Err _ => True end);
      [|by intros g [a|e]].
    apply td_online_prefix. intros form t' now n' Hf Ht Hn. apply guarded_bind, td_looks; [done|].
    intros n2 a Hn2 Ha. apply guarded_ret. intros form' Hf' Ht' Hb. cbn. cbn in Hb. apply Ha; [congruence|done].
  - apply guards_bind. eapply guards_mono with (Q := fun g r => match r with Ok a => means (ReqRevoke h bd) g (ARevoke (Ok a)) | Err _ => True end);
      [|by intros g [a|e]].
    apply td_online_prefix. intros form t' now n' Hf Ht Hn.
    assert (Hend : forall b' n2 a, (t' = t -> b' = true) -> means (ReqRevoke h bd) (b', n2) (ARevoke (Ok a))).
    { intros b' n2 a Hb form' Hf' Ht'. apply Hb. congruence. }
    apply guarded_bind, td_checks; [done| |].
    + intros b' Hb. exact (Hend _ _ _ Hb).
    + intros v Hv. apply guarded_bind. apply td_now. intros now3 n3 _ Hn3. eapply td_enters; [done|done|].
      intros b' Hb. exact (Hend _ _ _ Hb).
  - apply (quiet_guards list_alone _ _ _ (fun _ => True)); [apply list_alone_moves| |apply returns_any|done].
    apply acts_bind; [|done]. by repeat (intros w; split; [by split|]).
Qed.

(** Before the revocation is known. *)
Lemma server_lists sched :
  exists gs, keeps gs (c_world (server state sched (listening w0))) /\
    guarded_by suits moves means gs (c_threads (server state sched (listening w0))).
Proof.
  apply (pool_exec (serve_thread state) suits moves means keeps (fun _ => (false, w_reads w0)) listed_suits listed_moves)
    with (gs := []).
  - intros gs w req Hk. by apply listed_arrives.
  - intros req. apply thread_means.
  - split; try done.
  - constructor.
Qed.

(** Threads from [from] on began with the token on the list. *)
Record keeps_on (from : nat) (gs : list Ghost) (w : World St) : Prop := {
  ko_keeps : keeps gs w;
  ko_listed : listed w;
  ko_length : from <= length gs;
  ko_later : forall i g, from <= i -> gs !! i = Some g -> g.1 = true
}.

Lemma listed_on_moves from gs w i g g' w' :
  keeps_on from gs w -> gs !! i = Some g -> moves g w g' w' -> keeps_on from (<[i := g']> gs) w'.
Proof.
  intros [Hk Hl Hn Ha] Hi Hm. split; [by eapply listed_moves|by apply Hm|by rewrite length_insert|].
  intros j h Hj Hh. destruct (decide (j = i)) as [->|].
  - rewrite list_lookup_insert_eq in Hh by by eapply lookup_lt_Some. injection Hh as <-. eapply mv_keeps; [done|eauto].
  - rewrite list_lookup_insert_ne in Hh by done. eauto.
Qed.

Lemma server_lists_on from sched c gs :
  keeps_on from gs (c_world c) -> guarded_by suits moves means gs (c_threads c) ->
  exists gs', keeps_on from gs' (c_world (server state sched c)) /\
    guarded_by suits moves means gs' (c_threads (server state sched c)).
Proof.
  apply (pool_exec (serve_thread state) suits moves means (keeps_on from) (fun _ => (true, w_reads w0))).
  - intros gs1 w i g [Hk _ _ _]. by apply listed_suits.
  - apply listed_on_moves.
  - intros gs1 w req [Hk Hl Hn Ha]. split; [by apply listed_arrives|done|rewrite length_app; lia|].
    intros i g Hi [Hg|[_ [_ <-]%list_lookup_singleton_Some]]%lookup_app_Some; eauto.
  - intros req. apply thread_means.
Qed.

(** An introspection that arrives after the answer to the revocation. *)
Lemma revoked_then s1 s2 i j h b resp form h2 b2 form2 out :
  let c1 := server state s1 (listening w0) in
  let c2 := server state s2 c1 in
  returned c1 i (ReqRevoke h b) (ARevoke (Ok resp)) ->
  parse_online_token_form h b = Ok form -> of_token form = Some t ->
  length (c_threads c1) <= j ->
  returned c2 j (ReqIntrospect h2 b2) (AIntrospect (Ok out)) ->
  parse_online_token_form h2 b2 = Ok form2 -> of_token form2 = Some t ->
  out.2 = inactive \/ over (w_reads (c_world c2)) \/ collision.
Proof.
  cbv zeta. intros R1 F1 T1 Hj R2 F2 T2. destruct (server_lists s1) as (gs & Hk & Hg).
  destruct (Forall2_lookup_r _ _ _ _ _ Hg R1) as (g & Hgi & Hp). cbn in Hp. specialize (Hp _ F1 T1).
  pose proof (Forall2_length _ _ _ Hg) as Hlen.
  assert (Hon : keeps_on (length gs) gs (c_world (server state s1 (listening w0)))).
  { split; [done|by eapply kp_listed|done|]. intros k h' Hle Hl. apply lookup_lt_Some, Nat.lt_nge in Hl. by destruct Hl. }
  destruct (server_lists_on (length gs) s2 _ gs Hon Hg) as (gs2 & [Hk2 _ _ Ha] & Hg2).
  destruct (Forall2_lookup_r _ _ _ _ _ Hg2 R2) as (g2 & Hgj & Hp2). cbn in Hp2.
  destruct (Hp2 _ F2 T2) as [?|[Ho|?]]; [eapply Ha; [|exact Hgj]; lia|by left| |by right; right].
  right. left. eapply over_later; [|exact Ho]. apply (kp_bounds _ _ Hk2 j g2 Hgj).
Qed.
End Token.

(** * Properties *)

Section Properties.
Context {Sg St : Type} `{JoseSigner Sg} `{ReplayStore St} `{HttpLib} `{UrlLib} `{Features} `{Base64}
  `{Jwt} `{OpenSsl} `{DpopLib} `{JsonReader} `{Sha256}
  `{FromJson CompactJwsHeader} `{FromJson SubjectTokenClaims} `{FromJson AssertionClaims}
  `{FromJson MintedClaims}.

(** C5: revocation is final also when requests run at the same time: once a
    thread has answered a revocation of the token with success ([c1]), every
    introspection of it that arrives later answers, in whatever schedule, that
    the token is inactive; or the clock has shown an instant at which the token
    has expired, or SHA-256 has a collision.  (A token whose [iat] is in the
    future is not live yet and cannot be revoked: the second hypothesis.) *)
Theorem concurrent_revocation (state : HttpState Sg) (w : World St) (s1 s2 : list (Event Request)) (i j : nat)
    (t : string) (h h2 : HeaderMap) (b b2 : string) (form form2 : OnlineTokenForm) (resp : HttpResponse)
    (out : HeaderMap * Value) :
  let c1 := server state s1 (listening w) in
  let c2 := server state s2 c1 in
  (forall (v : VerifiedJws MintedClaims) n,
     verify_claims_against_jwks_with_header t (published_jwks state) = Ok v -> w_reads w <= n ->
     (mc_iat (v_claims v) <= i64_add (reading w n) (cfg_clock_skew_leeway (config state)))%Z) ->
  returned c1 i (ReqRevoke h b) (ARevoke (Ok resp)) ->
  parse_online_token_form h b = Ok form -> of_token form = Some t ->
  length (c_threads c1) <= j ->
  returned c2 j (ReqIntrospect h2 b2) (AIntrospect (Ok out)) ->
  parse_online_token_form h2 b2 = Ok form2 -> of_token form2 = Some t ->
  out.2 = inactive \/ collision \/
  exists (v : VerifiedJws MintedClaims) m,
    verify_claims_against_jwks_with_header t (published_jwks state) = Ok v /\
    w_reads w <= m < w_reads (c_world c2) /\ (mc_exp (v_claims v) <= reading w m)%Z.
Proof.
  cbv zeta. intros Hiat R1 F1 T1 Hj R2 F2 T2.
  assert (Hcase : (exists v : VerifiedJws MintedClaims, verify_claims_against_jwks_with_header t (published_jwks state) = Ok v) \/
    forall v : VerifiedJws MintedClaims, verify_claims_against_jwks_with_header t (published_jwks state) <> Ok v).
  { destruct (verify_claims_against_jwks_with_header t (published_jwks state)) as [v|e]; [left; eauto|by right]. }
  destruct Hcase as [[v Hv]|Hnone].
  - destruct (revoked_then state w t (mc_exp (v_claims v))) with (2 := Hiat) (3 := R1) (6 := Hj) (7 := R2)
      (form := form) (form2 := form2) as [?|[(m & Hm & He)|?]]; try done; [intros; congruence|by left| |by right; left].
    right; right. by exists v, m.
  - destruct (revoked_then state w t (2 ^ 63)) with (2 := Hiat) (3 := R1) (6 := Hj) (7 := R2) (form := form) (form2 := form2)
      as [?|[(m & _ & He)|?]]; try done; [by intros v Hv; destruct (Hnone v)|by left| |by right; left].
    exfalso. unfold reading in He. destruct (w_time w m); [|lia]. pose proof (wrap64_range z) as Hz.
    unfold in_i64, i64_max in Hz. lia.
Qed.
End Properties.

(** * Examples *)

(** A revocation and an introspection of the same token run turn by turn; when
    the revocation has been answered a second introspection arrives. *)
Definition revoking : list (Event Request) :=
  [Arrive (ReqRevoke toy_headers (online_body "c.c.c")); Arrive (ReqIntrospect toy_headers (online_body "d.d.d"))]
  ++ concat (replicate 7 [Turn 1; Turn 0]).
Definition looking : list (Event Request) :=
  Arrive (ReqIntrospect toy_headers (online_body "e.e.e")) :: concat (replicate 6 [Turn 1; Turn 2]).

Definition last_introspection (c : Conf Request (World InMemoryReplayStore) Answer) : option (HeaderMap * Value) :=
  match c_threads c !! 2 with
  | Some (_, Return (AIntrospect (Ok out))) => Some out
  | _ => None
  end.

Lemma concurrent_revocation_witness :
  let c1 := server toy_state revoking (listening (toy_world 1200)) in
  let c2 := server toy_state looking c1 in
  exists out, last_introspection c2 = Some out /\ (out.2 = inactive \/ collision).
Proof.
  intros c1 c2.
  assert (Hc : is_Some (last_introspection c2)) by (vm_compute; eauto).
  destruct (last_introspection c2) as [out|] eqn:Hl; [|destruct Hc as [? [=]]]. exists out. split; [reflexivity|].
  assert (Hr : returned c2 2 (ReqIntrospect toy_headers (online_body "e.e.e")) (AIntrospect (Ok out))).
  { vm_compute in Hl. injection Hl as <-. vm_compute. reflexivity. }
  destruct (concurrent_revocation toy_state (toy_world 1200) revoking looking 0 2 "t.t.t" toy_headers toy_headers
              (online_body "c.c.c") (online_body "e.e.e") (toy_online "c.c.c") (toy_online "e.e.e")
              (mkHttpResponse 200 token_headers None) out) as [Hi|[Hi|(v & m & Hv & _ & Hlt)]].
  - intros v n Hv _. rewrite (toy_minted_verified v Hv). vm_compute. discriminate.
  - vm_compute. reflexivity.
  - vm_compute. reflexivity.
  - vm_compute. reflexivity.
  - vm_compute. lia.
  - exact Hr.
  - vm_compute. reflexivity.
  - vm_compute. reflexivity.
  - left. exact Hi.
  - right. exact Hi.
  - exfalso. rewrite (toy_minted_verified v Hv) in Hlt. vm_compute in Hlt. apply Hlt. reflexivity.
Defined.

(** * A revoked token reported as active *)

Module LateSweep.
(** A second token of the server, which lives longer. *)
#[local] Instance two_tokens : FromJson MintedClaims := fun bytes =>
  if bool_decide (bytes = "t.t.t") then Ok (toy_minted 1100 1400)
  else if bool_decide (bytes = "u.u.u") then Ok (toy_minted 1100 1500) else Err "not a token of this server".

Definition body (token assertion : string) : string :=
  "token=" +:+ token +:+ "&client_assertion=" +:+ assertion +:+ "&client_assertion_type=" +:+ CLIENT_ASSERTION_TYPE.

(** The clock passes the first token's expiry between two readings. *)
Definition world : World InMemoryReplayStore :=
  mkWorld (fun n => Some (if Nat.ltb n 8 then 1200 else if Nat.ltb n 9 then 1399 else 1401)%Z) 0 (fun _ => "random") 0
    (mkReplayPolicy (in_memory_new 8 4)) (mutex_new ∅) default_metrics.

Definition revoking : list (Event Request) :=
  Arrive (ReqRevoke toy_headers (body "t.t.t" "c.c.c")) :: replicate 7 (Turn 0).
Definition asking : list (Event Request) :=
  [Arrive (ReqIntrospect toy_headers (body "t.t.t" "d.d.d")); Arrive (ReqIntrospect toy_headers (body "u.u.u" "e.e.e"))]
  ++ replicate 3 (Turn 1) ++ replicate 3 (Turn 2) ++ [Turn 1; Turn 2; Turn 2; Turn 1].

(** the clause on the clock in [concurrent_revocation] is needed, on a clock
    that never goes back: an introspection reads the clock before it takes the
    list's lock, so that a request that reads it later can sweep the entry away
    in between; the first one then answers, after the token's expiry, that the
    revoked token is active. *)
Theorem revoked_token_reported_active :
  let c1 := server toy_state revoking (listening world) in
  let c2 := server toy_state asking c1 in
  (forall n m, n <= m -> (reading world n <= reading world m)%Z) /\
  (exists resp, returned c1 0 (ReqRevoke toy_headers (body "t.t.t" "c.c.c")) (ARevoke (Ok resp))) /\
  length (c_threads c1) <= 1 /\
  exists out, returned c2 1 (ReqIntrospect toy_headers (body "t.t.t" "d.d.d")) (AIntrospect (Ok out)) /\
    out.2 = introspection_body (toy_minted 1100 1400).
Proof.
  cbv zeta. split_and!.
  - intros n m Hnm. unfold reading, world. cbn [w_time].
    destruct (Nat.ltb_spec n 8), (Nat.ltb_spec n 9), (Nat.ltb_spec m 8), (Nat.ltb_spec m 9); first [lia|by vm_compute].
  - eexists. vm_compute. reflexivity.
  - vm_compute. lia.
  - eexists. split; vm_compute; reflexivity.
Qed.
End LateSweep.
