(* ===== verification/HttpGates.v ===== *)
(** The decisions of the token endpoint that need no state: request parameters,
    the [may_act] and [act] claims, the signing policy, and the escaping of
    metric labels. *)

From S2P Require Import Prelude RustStr Json Core Replay Jose JoseSigners Verify Config Dpop.
From S2P Require Import HttpForms HttpState HttpToken HttpToy.
From Stdlib Require Import Ascii.

(** * Specifications *)

(** What a JSON value says as an [act] claim: a subject that is not empty, an
    issuer if it is a string, and the nested claim, all the way down. *)
Inductive act_reads : Value -> ActClaim -> Prop :=
| act_reads_object obj sub act :
    map_get "sub" obj = Some (VString sub) -> sub <> "" ->
    act_reads_nested (map_get "act" obj) act ->
    act_reads (VObject obj) (mkActClaim sub (map_get "iss" obj ≫= as_str) act)
with act_reads_nested : option Value -> option ActClaim -> Prop :=
| act_reads_none : act_reads_nested None None
| act_reads_some v a : act_reads v a -> act_reads_nested (Some v) (Some a).

(** A quoted label value read back: up to the first quote without a backslash,
    with the value and what follows the quote. *)
Fixpoint parse_label (s : string) : option (string * string) :=
  match s with
  | EmptyString => None
  | String a r =>
      if bool_decide (a = ascii_of_N 34) then Some (EmptyString, r)
      else if bool_decide (a = ascii_of_N 92) then
        match r with
        | EmptyString => None
        | String b r' =>
            let c := if bool_decide (b = "n"%char) then ascii_of_N 10 else b in
            option_map (fun p => (String c p.1, p.2)) (parse_label r')
        end
      else option_map (fun p => (String a p.1, p.2)) (parse_label r)
  end.

(** * Lemmas *)

(** The loop over the members is [Map::get]. *)
Lemma act_claim_eq v depth :
  act_claim_from_value_at_depth v depth =
  if (10 <? depth)%Z then Err (invalid_request "act delegation chain too deep")
  else match v with
  | VObject obj =>
      let? sub := ok_or (opt_filter (fun value => negb (is_empty value)) (map_get "sub" obj ≫= as_str))
        (invalid_request "malformed prior act claim") in
      let? act := opt_traverse (fun value => act_claim_from_value_at_depth value (depth + 1))
                    (map_get "act" obj) in
      Ok (mkActClaim sub (map_get "iss" obj ≫= as_str) act)
  | _ => Err (invalid_request "malformed prior act claim")
  end.
Proof.
  destruct v as [| | | | |obj]; try reflexivity. cbn [act_claim_from_value_at_depth].
  destruct (10 <? depth)%Z; [done|]. destruct (ok_or _ _) as [sub|e]; [|done]. cbn [res_bind].
  f_equal. induction obj as [|[k v] obj IH]; [done|]. cbn [map_get].
  by case_bool_decide.
Qed.

Lemma act_claim_spec k v depth a :
  (Z.of_nat k = 11 - depth)%Z ->
  act_claim_from_value_at_depth v depth = Ok a <-> act_reads v a /\ (length (act_chain a) <= k).
Proof.
  revert v depth a. induction k as [|k IH]; intros v depth a Hk; rewrite act_claim_eq.
  - rewrite (proj2 (Z.ltb_lt 10 depth)) by lia. split; [done|]. intros [_ Hd]. destruct a as [? ? []]; simpl in Hd; lia.
  - rewrite (proj2 (Z.ltb_ge 10 depth)) by lia. split.
    + intros Hv. destruct v as [| | | | |obj]; try discriminate Hv. ok_inv.
      match goal with Hs : _ ≫= as_str = Some _ |- _ => apply bind_Some in Hs as (vs & Hs & Hstr) end.
      destruct vs; simplify_eq/=. bool_hyps.
      destruct (map_get "act" obj) as [inner|] eqn:Hact; simpl in *; ok_inv.
      * match goal with Hi : act_claim_from_value_at_depth _ _ = Ok _ |- _ => apply IH in Hi as [? ?]; [|lia] end.
        split; [|simpl; lia]. constructor; [done|by apply is_empty_false|]. rewrite Hact. by constructor.
      * split; [|simpl; lia]. constructor; [done|by apply is_empty_false|]. rewrite Hact. constructor.
    + intros [Hr Hd]. inversion Hr as [obj sub act Hsub Hne Hn]; subst. rewrite Hsub. simpl.
      apply is_empty_false in Hne. rewrite Hne. simpl.
      inversion Hn as [Ha|inner a' Ha' Ha]; subst; simpl; [done|]. simpl in Hd.
      rewrite (proj2 (IH inner (depth + 1)%Z a' ltac:(lia))); [done|]. split; [done|lia].
Qed.

Lemma replace_char_app c b s t : replace_char c b (s +:+ t) = replace_char c b s +:+ replace_char c b t.
Proof. induction s as [|a s IH]; [done|]. rewrite app_cons. simpl. by rewrite IH, str_app_assoc. Qed.

(** What one character becomes. *)
Definition escape_char (a : ascii) : string :=
  if bool_decide (a = ascii_of_N 92) then "\\"
  else if bool_decide (a = ascii_of_N 34) then "\" +:+ dquote
  else if bool_decide (a = ascii_of_N 10) then "\n"
  else str1 a.

Lemma escape_cons a s :
  escape_prometheus_label (String a s) = escape_char a +:+ escape_prometheus_label s.
Proof.
  unfold escape_prometheus_label. change (String a s) with (str1 a +:+ s). rewrite !replace_char_app.
  f_equal. unfold escape_char.
  destruct (decide (a = ascii_of_N 92)) as [->|H92]; [reflexivity|].
  rewrite (bool_decide_eq_false_2 (a = ascii_of_N 92)) by done.
  assert (Hs : forall c by_ x, x <> c -> replace_char c by_ (str1 x) = str1 x).
  { intros c by_ x Hx. simpl. by rewrite bool_decide_eq_false_2. }
  rewrite (Hs (ascii_of_N 92)) by done.
  destruct (decide (a = ascii_of_N 34)) as [->|H34]; [reflexivity|].
  rewrite (bool_decide_eq_false_2 (a = ascii_of_N 34)), (Hs (ascii_of_N 34)) by done.
  destruct (decide (a = ascii_of_N 10)) as [->|H10]; [reflexivity|].
  by rewrite (bool_decide_eq_false_2 (a = ascii_of_N 10)), Hs by done.
Qed.

Lemma contains_char_str_app c s t : contains_char c (s +:+ t) = (contains_char c s || contains_char c t)%bool.
Proof. induction s as [|a s IH]; [done|]. rewrite app_cons. simpl. rewrite IH. by case_bool_decide. Qed.

Lemma parse_escaped a t :
  parse_label (escape_char a +:+ t) = option_map (fun p => (String a p.1, p.2)) (parse_label t).
Proof.
  unfold escape_char. destruct (decide (a = ascii_of_N 92)) as [->|H92]; [reflexivity|].
  rewrite (bool_decide_eq_false_2 (a = ascii_of_N 92)) by done.
  destruct (decide (a = ascii_of_N 34)) as [->|H34]; [reflexivity|].
  rewrite (bool_decide_eq_false_2 (a = ascii_of_N 34)) by done.
  destruct (decide (a = ascii_of_N 10)) as [->|H10]; [reflexivity|].
  rewrite (bool_decide_eq_false_2 (a = ascii_of_N 10)) by done.
  change (str1 a +:+ t) with (String a t). cbn [parse_label].
  by rewrite (bool_decide_eq_false_2 (a = ascii_of_N 34)), (bool_decide_eq_false_2 (a = ascii_of_N 92)) by done.
Qed.

Lemma escape_no_newline a : contains_char (ascii_of_N 10) (escape_char a) = false.
Proof.
  unfold escape_char. repeat case_bool_decide; try reflexivity. simpl. by rewrite bool_decide_eq_false_2.
Qed.

(** What is printed for a chain reads as that chain. *)
Lemma act_fields_read n a :
  length (act_chain a) <= n -> (forall sub, sub ∈ act_chain a -> sub <> "") ->
  act_reads (VObject (act_claim_fields a)) a.
Proof.
  revert a. induction n as [|n IH]; intros [sub iss act] Hn Hs; [simpl in Hn; lia|].
  assert (Hsub : sub <> "") by (apply Hs; left).
  replace (mkActClaim sub iss act) with
    (mkActClaim sub (map_get "iss" (act_claim_fields (mkActClaim sub iss act)) ≫= as_str) act) at 2
    by (by destruct iss, act).
  constructor; [done|done|].
  destruct act as [inner|].
  - replace (map_get "act" _) with (Some (VObject (act_claim_fields inner))) by (by destruct iss).
    constructor. apply IH; [simpl in Hn; lia|]. intros x Hx. apply Hs. by right.
  - replace (map_get "act" _) with (@None Value) by (by destruct iss). constructor.
Qed.

(** A guard and a sequence of checks succeed when all parts do. *)
Lemma guard_ok {E A} (b : bool) (e : E) (k : result E A) a :
  (if b then Err e else k) = Ok a <-> b = false /\ k = Ok a.
Proof. destruct b; naive_solver. Qed.

Lemma check_ok {E A} (m : result E unit) (k : result E A) a :
  res_bind m (fun _ => k) = Ok a <-> m = Ok tt /\ k = Ok a.
Proof. destruct m as [[]|]; naive_solver. Qed.

Lemma some_bounded (o : option string) max :
  is_some_and (fun value => max <? byte_len value)%Z o = false <->
  forall x, o = Some x -> (byte_len x <= max)%Z.
Proof. destruct o as [y|]; simpl; [rewrite Z.ltb_ge; naive_solver|naive_solver]. Qed.

Lemma some_allowed (p : string -> bool) (o : option string) :
  is_some_and (fun value => negb (p value)) o = false <-> forall x, o = Some x -> p x = true.
Proof. destruct o as [y|]; simpl; [rewrite negb_false_iff; naive_solver|naive_solver]. Qed.

Lemma checks_ok {E A} (p : A -> bool) (e : A -> E) l :
  (let? _ := try_map (fun a => if p a then Err (e a) else Ok tt) l in Ok tt) = Ok tt <->
  forall a, a ∈ l -> p a = false.
Proof.
  induction l as [|a l IH]; simpl; [set_solver|].
  transitivity (p a = false /\ forall a', a' ∈ l -> p a' = false); [|set_solver].
  rewrite <- IH. destruct (p a); simpl; [naive_solver|]. destruct (try_map _ l); naive_solver.
Qed.

Lemma supported_type_ne t : is_supported_input_token_type t = true -> t <> "".
Proof. intros Ht ->. discriminate Ht. Qed.

Lemma check_actor_token_spec r max :
  check_actor_token r max = Ok tt <->
  forall x, actor_token r = Some x -> x <> "" /\ (byte_len x <= max)%Z /\
    exists t, actor_token_type r = Some t /\ t <> "".
Proof.
  unfold check_actor_token. destruct (actor_token r) as [x|]; [|naive_solver].
  rewrite !guard_ok, !is_empty_false, Z.ltb_ge.
  split.
  - intros (Hx & Hl & Ht & _) y [= <-]. split_and!; [done|done|].
    destruct (actor_token_type r) as [t|]; [by exists t|done].
  - intros Hy. destruct (Hy x eq_refl) as (Hx & Hl & t & -> & Ht). by split_and!.
Qed.

Section Gates.
Context {Sg : Type} `{JoseSigner Sg}.

(** the exchange parameters are accepted exactly when the grant type is
    token exchange, a subject token of a supported type is present, an actor
    token comes with its type and not without, only access tokens are asked
    for, and no value exceeds the configured length. *)
Theorem request_params_spec (r : ExchangeRequest) (max : Z) :
  let fits o := forall x, o = Some x -> (byte_len x <= max)%Z in
  validate_request_params r max = Ok tt <->
  grant_type r = TOKEN_EXCHANGE_GRANT_TYPE /\
  subject_token r <> "" /\ (byte_len (subject_token r) <= max)%Z /\
  subject_token_type r ∈ [ACCESS_TOKEN_TYPE; JWT_TOKEN_TYPE] /\
  (forall x, actor_token r = Some x -> x <> "") /\ fits (actor_token r) /\
  (is_Some (actor_token r) <-> is_Some (actor_token_type r)) /\
  (forall x, actor_token_type r = Some x -> x ∈ [ACCESS_TOKEN_TYPE; JWT_TOKEN_TYPE]) /\
  (forall x, requested_token_type r = Some x -> x = ACCESS_TOKEN_TYPE) /\
  fits (scope r) /\ fits (audience r) /\ fits (resource r) /\ fits (client_assertion r).
Proof.
  cbv zeta. unfold validate_request_params.
  rewrite !guard_ok, !check_ok, !guard_ok, check_actor_token_spec, !some_allowed, orb_false_iff, negb_false_iff,
    !is_empty_false, Z.ltb_ge, bool_decide_eq_true, negb_false_iff, checks_ok, <- !some_bounded.
  assert (Hin : forall t, is_supported_input_token_type t = true <-> t ∈ [ACCESS_TOKEN_TYPE; JWT_TOKEN_TYPE])
    by (intros t; apply bool_decide_eq_true).
  assert (Hout : forall t, is_supported_requested_token_type t = true <-> t = ACCESS_TOKEN_TYPE)
    by (intros t; apply bool_decide_eq_true).
  split.
  - intros (Hg & Hgt & (Hs & Hst) & Hl & Ha & Hpair & Hty & Haty & Hrt & Hrest).
    split_and!; try done.
    + by apply Hin.
    + intros x Hx. by apply Ha.
    + apply some_bounded. intros x Hx. by apply Ha.
    + destruct (actor_token r) as [x|], (actor_token_type r) as [t|]; try done.
      destruct (Ha x eq_refl) as (_ & _ & ? & [=] & _).
    + intros x Hx. by apply Hin, Haty.
    + intros x Hx. by apply Hout, Hrt.
    + by apply (Hrest ("scope", scope r)); left.
    + by apply (Hrest ("audience", audience r)); right; left.
    + by apply (Hrest ("resource", resource r)); right; right; left.
    + by apply (Hrest ("client_assertion", client_assertion r)); do 3 right; left.
  - intros (Hgt & Hs & Hl & Hty & Hne & Hal & Hpair & Haty & Hrt & Hsc & Hau & Hre & Hca).
    split_and!; try done.
    + by rewrite Hgt.
    + by apply supported_type_ne, Hin.
    + intros x Hx. split; [by apply Hne|]. split; [by apply (proj1 (some_bounded _ _) Hal)|].
      destruct (proj1 Hpair ltac:(eauto)) as [t Ht]. exists t. split; [done|].
      by apply supported_type_ne, Hin, Haty.
    + destruct (actor_token r), (actor_token_type r); try done. by destruct (proj2 Hpair ltac:(eauto)).
    + by apply Hin.
    + intros x Hx. by apply Hin, Haty.
    + intros x Hx. by apply Hout, Hrt.
    + intros a Ha. repeat (apply elem_of_cons in Ha as [->|Ha]; [done|]). by apply not_elem_of_nil in Ha.
Qed.

(** [may_act] restricts who may act: an absent claim admits every permitted
    actor, a present one exactly the actor it names, with the issuer it names
    if it names one; an empty or malformed claim admits nobody. *)
Theorem may_act_spec (subject : SubjectTokenClaims) (actor : AssertionClaims) :
  gate_may_act subject actor = Ok tt <->
  forall v, st_may_act subject = Some v ->
    exists m, v = VObject m /\ map_get "sub" m = Some (VString (as_sub actor)) /\
      forall i, map_get "iss" m = Some i -> i = VString (as_iss actor).
Proof.
  assert (Hstr : forall v x, as_str v = Some x <-> v = VString x) by (intros []; naive_solver).
  unfold gate_may_act. destruct (st_may_act subject) as [v|]; [|naive_solver].
  destruct v as [| | | | |m]; simpl; try naive_solver. case_bool_decide as Hlen.
  { split; [done|]. intros Hv. destruct (Hv _ eq_refl) as (m' & [= <-] & Hsub & _).
    destruct m; [discriminate Hsub|discriminate Hlen]. }
  case_bool_decide as Hsub; simpl.
  - apply bind_Some in Hsub as (x & Hx & Hxs%Hstr). subst x.
    destruct (map_get "iss" m) as [i|] eqn:Hm; simpl.
    2: { split; [|done]. intros _ v [= <-]. exists m. split_and!; [done|done|congruence]. }
    case_bool_decide as Hi; simpl.
    { apply Hstr in Hi. split; [|done]. intros _ v [= <-]. exists m. split_and!; [done|done|congruence]. }
    split; [done|]. intros Hv. destruct (Hv _ eq_refl) as (m' & [= <-] & _ & Hiss).
    destruct Hi. apply Hstr. by apply Hiss.
  - split; [done|]. intros Hv. destruct (Hv _ eq_refl) as (m' & [= <-] & Hm & _). by rewrite Hm in Hsub.
Qed.

(** a prior [act] claim is accepted exactly when it reads as a chain of at
    most ten actors, each with a subject, and the chain returned is the one the
    claim holds. *)
Theorem act_claim_reads (v : Value) (a : ActClaim) :
  act_claim_from_value v = Ok a <-> act_reads v a /\ length (act_chain a) <= 10.
Proof. by apply act_claim_spec. Qed.

(** a chain that this server minted can be presented again: what is printed
    for a chain of at most ten named actors reads back as that chain. *)
Theorem act_chain_roundtrip (a : ActClaim) :
  (forall sub, sub ∈ act_chain a -> sub <> "") -> length (act_chain a) <= 10 ->
  act_claim_from_value (VObject (act_claim_fields a)) = Ok a.
Proof. intros Hs Hn. apply (act_claim_spec 10); [done|]. split; [by eapply act_fields_read|done]. Qed.

(** C26: no silent downgrade: a token for a target is signed exactly when the
    target is configured, accepts the signer's algorithm (where it lists any),
    is not in need of a post-quantum algorithm that the signer lacks, and, where
    post-quantum signing is preferred, the signer's algorithm is one of the
    preferred ones or the operator allows the fallback; and the decision says
    so whenever it is a fallback. *)
Theorem signing_no_silent_downgrade (state : HttpState Sg) (target : string) (d : SigningDecision) :
  let alg := signer_alg (signer state) in
  signing_decision_for_target state target = Ok d <->
  (exists policy, target_policy_get target (target_policy (config state)) = Some policy /\
     (accepted_token_signing_algs policy = ∅ \/ alg ∈ accepted_token_signing_algs policy) /\
     (pqc_required policy = true -> is_pqc_jws_alg alg = true)) /\
  (pqc_preferred (config state) = true ->
     if is_pqc_jws_alg alg then alg ∈ pqc_preferred_algs (config state)
     else allow_non_pqc (config state) = true) /\
  d = (if (pqc_preferred (config state) && negb (is_pqc_jws_alg alg))%bool
       then mkDecision alg true (Some "pqc_signer_not_selected")
       else mkDecision alg false None).
Proof.
  cbv zeta. unfold signing_decision_for_target.
  destruct (target_policy_get target (target_policy (config state))) as [policy|]; simpl;
    [|split; [done|by intros ((? & ? & _) & _)]].
  set (alg := signer_alg (signer state)).
  assert (Hacc : (negb (bool_decide (accepted_token_signing_algs policy = ∅))
      && negb (bool_decide (alg ∈ accepted_token_signing_algs policy)))%bool = false <->
    accepted_token_signing_algs policy = ∅ \/ alg ∈ accepted_token_signing_algs policy).
  { rewrite andb_false_iff, !negb_false_iff, !bool_decide_eq_true. done. }
  destruct (negb _ && negb _)%bool.
  { split; [done|]. intros ((p & [= <-] & Ha & _) & _). by apply Hacc in Ha. }
  assert (Hex : forall P, (exists p, Some policy = Some p /\
      (accepted_token_signing_algs p = ∅ \/ alg ∈ accepted_token_signing_algs p) /\ P p) <-> P policy)
    by (intros P; split; [by intros (p & [= <-] & _ & ?)|intros; exists policy; split_and!; try done; by apply Hacc]).
  rewrite (Hex (fun p => pqc_required p = true -> is_pqc_jws_alg alg = true)).
  destruct (is_pqc_jws_alg alg), (pqc_required policy), (pqc_preferred (config state)),
    (allow_non_pqc (config state)); simpl; try case_bool_decide; simpl; naive_solver.
Qed.

(** a label value cannot break a metrics line: escaped and quoted, any
    string is read back whole, whatever follows, and it holds no line break. *)
Theorem metrics_label_roundtrip (s rest : string) :
  parse_label (escape_prometheus_label s +:+ dquote +:+ rest) = Some (s, rest) /\
  contains_char (ascii_of_N 10) (escape_prometheus_label s) = false.
Proof.
  induction s as [|a s [IH1 IH2]]; [done|]. rewrite escape_cons, str_app_assoc. split.
  - by rewrite parse_escaped, IH1.
  - by rewrite contains_char_str_app, escape_no_newline, IH2.
Qed.
End Gates.

(** the OpenAPI document that is served is the built-in one with nothing
    changed but the version in its [info], which is this build's; a minimal one
    takes its place when the built-in text is not JSON. *)
Theorem openapi_served `{JsonText} (curated version : string) :
  let served := (openapi_handler curated version).2 in
  match json_from_str curated with
  | Ok (VObject members) =>
      match map_get "info" members with
      | Some (VObject info) => exists members' info', served = VObject members' /\
          map_get "info" members' = Some (VObject info') /\ map_get "version" info' = Some (VString version) /\
          (forall k, k <> "info" -> map_get k members' = map_get k members) /\
          (forall k, k <> "version" -> map_get k info' = map_get k info)
      | _ => served = VObject members
      end
  | Ok document => served = document
  | Err _ => served = json_object [("openapi", VString "3.1.0");
      ("info", json_object [("title", VString "sts-delegate-rs"); ("version", VString version)]); ("paths", VObject [])]
  end.
Proof.
  unfold openapi_handler. destruct (json_from_str curated) as [[]|e]; try done.
  destruct (map_get "info" o) as [[]|] eqn:Hi; cbn [snd]; rewrite ?Hi; try done.
  do 2 eexists. split; [done|]. split; [by rewrite map_get_insert, bool_decide_eq_true_2|].
  split; [by rewrite map_get_insert, bool_decide_eq_true_2|]. split;
    intros k Hk; by rewrite map_get_insert, bool_decide_eq_false_2.
Qed.

Lemma act_chain_roundtrip_witness :
  let a := mkActClaim "agent-b" None (Some (mkActClaim "agent-a" (Some "https://a") None)) in
  act_claim_from_value (VObject (act_claim_fields a)) = Ok a.
Proof.
  intros a. apply (act_chain_roundtrip a).
  - intros sub Hs. repeat (apply elem_of_cons in Hs as [->|Hs]; [discriminate|]). apply not_elem_of_nil in Hs. destruct Hs.
  - vm_compute. repeat constructor.
Defined.
