(* ===== verification/HttpBootstrap.v ===== *)
(** crates/sts-http, start-up: the signer, the published and trusted key sets,
    the replay backend and the bind address, each loaded from a validated
    configuration.

    Start-up reads files and may fetch the identity provider's keys; files are
    read through [BootFs], which does not change meanwhile. *)

From S2P Require Import Prelude RustStr Json Url NetAddr Core Replay FileReplay Jose JoseSigners Verify Config.
From S2P Require Import Dpop HttpForms HttpState.
From Stdlib Require Import Ascii.

(** The file system: the permission bits of a path ([None] when [metadata]
    fails), its text, and the directory a replay store is opened on. *)
Class BootFs : Type := {
  file_mode : string -> option Z;
  fs_read_to_string : string -> result string string;
  dir_at : string -> Dir
}.

(** [serde_json::from_value::<PublicJwk>]. *)
Class JwkReader : Type := jwk_from_value : Value -> result string PublicJwk.

(** * Errors *)

Inductive BootstrapError : Type :=
| BConfig (e : ConfigError)
| BJose (e : JoseError)
| BVerify (e : VerifyError)
| BReplay (e : ReplayError)
| BIo (path message : string)
| BInvalidJwks (label message : string)
| BInvalidBind (message : string).

(** [impl Display for BootstrapError]. *)
Definition bootstrap_error_display (e : BootstrapError) : string :=
  match e with
  | BConfig err => "config error: " +:+ config_error_display err
  | BJose err => "JOSE error: " +:+ jose_error_display err
  | BVerify err => "verification error: " +:+ verify_error_display err
  | BReplay err => "replay error: " +:+ replay_error_display err
  | BIo path message => "IO error for " +:+ path +:+ ": " +:+ message
  | BInvalidJwks label message => "invalid " +:+ label +:+ ": " +:+ message
  | BInvalidBind message => "invalid bind address: " +:+ message
  end.

Definition PRIVATE_JWK_MEMBERS : list string := ["d"; "p"; "q"; "dp"; "dq"; "qi"; "oth"; "k"; "priv"].

(** * Files *)

(** [{:o}] of a mode: octal digits without leading zeros. *)
Fixpoint octal_digits (fuel : nat) (n : Z) : string :=
  match fuel with
  | O => ""
  | S fuel' =>
      (if (n <? 8)%Z then "" else octal_digits fuel' (Z.shiftr n 3)) +:+ str1 (hex_digit (Z.land n 7))
  end.

Section Files.
Context `{BootFs}.

Definition check_file_mode (path label : string) (allow_insecure_writable : bool)
    : result BootstrapError unit :=
  match file_mode path with
  | None => Ok tt
  | Some mode =>
      let mode := Z.land mode 511 in
      if (negb (Z.land mode 18 =? 0)%Z && negb allow_insecure_writable)%bool then
        Err (BIo path (label +:+ " is group/world-writable (mode " +:+ octal_digits 3 mode
               +:+ "); chmod 600 or set the explicit insecure override"))
      else Ok tt
  end.

Definition read_checked_file (path label : string) (allow_insecure_writable : bool)
    : result BootstrapError string :=
  let? _ := check_file_mode path label allow_insecure_writable in
  map_err (BIo path) (fs_read_to_string path).

End Files.

(** * Public key sets *)

Section Keys.
Context `{BootFs} `{JsonText} `{JwkReader} `{Features} `{Base64}.

(** One key of a key set. *)
Definition normalize_public_jwk (label : string) (key : Value) : result BootstrapError PublicJwk :=
  let? object := ok_or (as_object key) (BInvalidJwks label "key entries must be objects") in
  let private_found := List.filter (fun member => map_contains_key member object) PRIVATE_JWK_MEMBERS in
  if negb (bool_decide (private_found = [])) then
    Err (BInvalidJwks label ("key contains private JWK member(s) " +:+ join "," private_found
           +:+ "; public JWKS files must not contain private material"))
  else
  let? jwk := map_err (fun err => BInvalidJwks label ("invalid public JWK: " +:+ err)) (jwk_from_value key) in
  let? _ := map_err BJose (validate_public_jwk jwk) in
  if bool_decide (jwk_kty jwk = "RSA") then
    let? bits := map_err BJose (rsa_public_key_bits_from_jwk jwk) in
    if (bits <? 2048)%Z then Err (BInvalidJwks label "RSA public keys must be at least 2048 bits")
    else Ok jwk
  else Ok jwk.

Definition normalize_public_jwks_value (value : Value) (label : string)
    : result BootstrapError JwksDocument :=
  let? keys :=
    match value with
    | VObject object =>
        let '(keys, object) := map_remove "keys" object in
        match keys with
        | Some (VArray keys) => Ok keys
        | Some _ => Err (BInvalidJwks label "keys must be an array")
        | None => Ok [VObject object]
        end
    | _ => Err (BInvalidJwks label "JWKS must be an object")
    end in
  if bool_decide (keys = []) then Err (BInvalidJwks label "no public keys found")
  else
  let? public_keys := try_map (normalize_public_jwk label) keys in
  Ok (mkJwksDocument public_keys).

Definition load_public_jwks_file (path label : string) (allow_insecure_writable : bool)
    : result BootstrapError JwksDocument :=
  let? raw := read_checked_file path label allow_insecure_writable in
  let? value := map_err (fun err => BInvalidJwks label ("file is not valid JSON: " +:+ err))
    (json_from_str raw) in
  normalize_public_jwks_value value label.

(** The loop that adds the extra keys after the signer's own. *)
Definition add_extra_keys (published extra : list PublicJwk) : list PublicJwk :=
  fold_left (fun published key =>
    if existsb (fun existing => bool_decide (jwk_kid existing = jwk_kid key)) published then published
    else published ++ [key]) extra published.

Definition published_jwks_of {Sg} `{JoseSigner Sg} (config : RuntimeConfig) (signer : Sg)
    : result BootstrapError JwksDocument :=
  let published := public_jwks signer in
  match obo_sts_extra_jwks_file config with
  | None => Ok published
  | Some extra_file =>
      let? extra := load_public_jwks_file extra_file "extra STS JWKS" (allow_insecure_jwks config) in
      Ok (mkJwksDocument (add_extra_keys (jwks_keys published) (jwks_keys extra)))
  end.

End Keys.

(** * The signer *)

Section Signer.
Context `{BootFs} `{JsonText} `{JwkReader} `{Features} `{Base64} `{SerdeJson} `{Asn1} `{AwsLc} `{Sha256} `{Jwt}
  `{OpenSsl} `{FromJson CompactJwsHeader} `{FromJson MintedClaims} `{FromJson PrivateRsaJwk}
  `{FromJson PrivateAkpJwk}.

(** [Arc<dyn JoseSigner>], over the signers that start-up builds. *)
Inductive AnySigner : Type :=
| RsaFile (s : RsaJoseSigner)
| ExternalRsa (s : ExternalRs256JoseSigner)
| MlDsaFile (s : MlDsaJoseSigner).

#[export] Instance any_signer : JoseSigner AnySigner := {
  signer_alg s := match s with
    | RsaFile s => signer_alg s | ExternalRsa s => signer_alg s | MlDsaFile s => signer_alg s end;
  sign_claims s := match s with
    | RsaFile s => sign_claims s | ExternalRsa s => sign_claims s | MlDsaFile s => sign_claims s end;
  public_jwks s := match s with
    | RsaFile s => public_jwks s | ExternalRsa s => public_jwks s | MlDsaFile s => public_jwks s end;
  verify_claims s := match s with
    | RsaFile s => verify_claims s | ExternalRsa s => verify_claims s | MlDsaFile s => verify_claims s end
}.

Definition load_pqc_signer (selection : BackendSelection) (raw fallback_kid : string)
    : result BootstrapError AnySigner :=
  if pqc_openssl then
    if starts_with "-----BEGIN" (trim_start raw) then
      Err (BJose (mkJoseError InvalidKey
                    "ML-DSA signing requires an RFC 9964 AKP private JWK seed, not PEM"))
    else map_err BJose (res_map MlDsaFile (mldsa_from_private_jwk_for_backend selection raw fallback_kid))
  else
    let? _ := map_err BJose (resolve_backend selection) in
    Err (BJose (mkJoseError UnsupportedAlgorithm "PQC signing backend is not available in this build")).

Definition load_file_signer (config : RuntimeConfig) : result BootstrapError AnySigner :=
  let? raw := read_checked_file (obo_sts_key_file config) "STS signing key" (allow_insecure_key_file config) in
  let selection := backend_selection_parse (sts_signing_alg config) in
  match selection with
  | RequestedPqc _ => load_pqc_signer selection raw (our_kid config)
  | Classical =>
      map_err BJose (res_map RsaFile
        (if starts_with "-----BEGIN" (trim_start raw)
         then rsa_from_pkcs1_pem_for_backend selection raw (our_kid config)
         else rsa_from_private_jwk_for_backend selection raw (our_kid config)))
  end.

Definition bootstrap_claims : MintedClaims :=
  minted_claims_new "bootstrap-self-check" "bootstrap-subject" "bootstrap-audience" "bootstrap.scope" 1 2
    "bootstrap-jti" "bootstrap-actor".

Definition verify_external_signer_at_bootstrap {Sg} `{JoseSigner Sg} (signer : Sg)
    : result BootstrapError unit :=
  let? token := map_err BJose (sign_claims signer bootstrap_claims) in
  let? _ := map_err BJose (verify_claims signer token) in
  Ok tt.

Definition load_mock_external_signer (config : RuntimeConfig) : result BootstrapError AnySigner :=
  let selection := backend_selection_parse (sts_signing_alg config) in
  if negb (bool_decide (selection = Classical)) then
    Err (BJose (mkJoseError UnsupportedAlgorithm
                  "mock-external signing provider currently supports RS256 only"))
  else
  let? public_jwks_file := ok_or (sts_signing_public_jwks_file config)
    (BConfig (mkConfigError MissingEnv (Some "STS_SIGNING_PUBLIC_JWKS_FILE")
       "set STS_SIGNING_PUBLIC_JWKS_FILE when STS_SIGNING_PROVIDER=mock-external")) in
  let? mock_key_file := ok_or (mock_external_signer_key_file config)
    (BConfig (mkConfigError MissingEnv (Some "STS_MOCK_EXTERNAL_SIGNER_KEY_FILE")
       "set STS_MOCK_EXTERNAL_SIGNER_KEY_FILE when STS_SIGNING_PROVIDER=mock-external")) in
  let? public_jwks := load_public_jwks_file public_jwks_file "STS signing public JWKS"
    (allow_insecure_jwks config) in
  let? public_jwk := ok_or (find_jwk (our_kid config) public_jwks)
    (BInvalidJwks "STS signing public JWKS"
       ("no public key found for configured kid " +:+ our_kid config)) in
  let? raw := read_checked_file mock_key_file "mock external signing key" (allow_insecure_key_file config) in
  let? provider := map_err BJose (mock_rs256_from_private_jwk_for_backend selection raw) in
  let? signer := map_err BJose (external_rs256_new (our_kid config) public_jwk (mock_sign_rs256 provider)) in
  let? _ := verify_external_signer_at_bootstrap signer in
  Ok (ExternalRsa signer).

Definition load_signer (config : RuntimeConfig) : result BootstrapError AnySigner :=
  let provider := sts_signing_provider config in
  if (bool_decide (provider = "") || bool_decide (provider = "file"))%bool then load_file_signer config
  else if bool_decide (provider = "mock-external") then load_mock_external_signer config
  else Err (BJose (mkJoseError UnsupportedAlgorithm
                     ("unsupported STS signing provider " +:+ debug_str provider))).

Definition validate_pqc_inbound_assertion_backend (alg : string) : result BootstrapError unit :=
  if pqc_openssl then Ok tt
  else Err (BJose (mkJoseError UnsupportedAlgorithm
                     ("PQC inbound assertion verification backend is not available for " +:+ alg))).

Definition validate_inbound_assertion_algorithms (config : RuntimeConfig) : result BootstrapError unit :=
  let? _ := try_map (fun alg =>
    if is_pqc_jws_alg alg then validate_pqc_inbound_assertion_backend alg else Ok tt)
    (inbound_assertion_algs config) in
  Ok tt.

End Signer.

(** * The replay backend *)

(** [ReplayPolicy] over either store. *)
Inductive AnyStore : Type :=
| MemoryStore (s : InMemoryReplayStore)
| FileStore (s : FileReplayStore).

#[export] Instance any_store `{Sha256} : ReplayStore AnyStore := {
  check_and_record jti exp now s :=
    match s with
    | MemoryStore m => let '(r, m') := check_and_record jti exp now m in (r, MemoryStore m')
    | FileStore f => let '(r, f') := check_and_record jti exp now f in (r, FileStore f')
    end;
  cache_size s := match s with MemoryStore m => cache_size m | FileStore f => cache_size f end
}.

Definition build_replay_policy `{BootFs} (config : RuntimeConfig)
    : result BootstrapError (ReplayPolicy AnyStore) :=
  match replay_backend config with
  | Memory => Ok (mkReplayPolicy (MemoryStore (in_memory_new (max_seen_jti config) 256)))
  | File dir =>
      res_map (fun s => mkReplayPolicy (FileStore s))
        (map_err BReplay (file_store_new (dir_at dir) (max_seen_jti config) 256))
  end.

(** * The server's state *)

Section State.
Context `{BootFs} `{JsonText} `{JwkReader} `{Features} `{Base64} `{SerdeJson} `{Asn1} `{AwsLc} `{Sha256} `{Jwt}
  `{OpenSsl} `{UrlLib} `{FromJson CompactJwsHeader} `{FromJson MintedClaims} `{FromJson PrivateRsaJwk}
  `{FromJson PrivateAkpJwk} `{FromJson DiscoveryDocument} `{FromJson JwksDocument}
  {W : Type} `{HasHttp W}.

Definition load_subject_jwks (config : RuntimeConfig) : Eff W BootstrapError JwksDocument :=
  match idp_jwks_file config with
  | Some file => eff_lift (load_public_jwks_file file "IdP JWKS" (allow_insecure_jwks config))
  | None => eff_map_err BVerify (resolve_idp_jwks (idp_issuer config) (idp_jwks_uri config))
  end.

Definition build_state_from_config (config : RuntimeConfig)
    : Eff W BootstrapError (HttpState AnySigner * Shared AnyStore) :=
  do? _ <- validate_inbound_assertion_algorithms config in
  do? signer <- load_signer config in
  do? published <- published_jwks_of config signer in
  do! subject <- load_subject_jwks config in
  do? actor <- load_public_jwks_file (actor_jwks_file config) "actor JWKS" (allow_insecure_actor_jwks config) in
  do? client <- load_public_jwks_file (client_jwks_file config) "client JWKS"
                  (allow_insecure_client_jwks config) in
  do? replay <- build_replay_policy config in
  eff_ret (http_state_with_published config signer published subject actor client replay).

Definition parse_bind_addr (config : RuntimeConfig) : result BootstrapError SocketAddr :=
  let? addr := map_err (fun err =>
      BInvalidBind ("STS_HTTP_ADDR must be host:port, got " +:+ debug_str (http_addr config) +:+ ": " +:+ err))
    (parse_socket_addr (http_addr config)) in
  if (starts_with "http://" (our_issuer config) && negb (ip_is_loopback (sa_ip addr))
      && negb (allow_insecure_http_bind config))%bool then
    Err (BInvalidBind "refusing non-loopback plaintext bind for http issuer; use https issuer or set ALLOW_INSECURE_HTTP_BIND=true")
  else Ok addr.

Context `{FileReader}.

(** [build_state_from_source]. *)
Definition build_state_from_source (source : ConfigSource)
    : Eff W BootstrapError (HttpState AnySigner * Shared AnyStore) :=
  do? config <- map_err BConfig (from_source source) in
  build_state_from_config config.

Definition bootstrap_check_from_source (source : ConfigSource) : Eff W BootstrapError unit :=
  do? config <- map_err BConfig (from_source source) in
  do? _ <- parse_bind_addr config in
  do! _ <- build_state_from_config config in
  eff_ret tt.

End State.

(** * Specifications *)

(** A file may be trusted: it is not writable by group or others, or the
    operator has said so. *)
Definition file_trusted `{BootFs} (path : string) (override : bool) : Prop :=
  override = true \/ forall mode, file_mode path = Some mode ->
    Z.testbit mode 1 = false /\ Z.testbit mode 4 = false.

(** A JSON value is a public key and nothing more. *)
Definition public_key_of `{JwkReader} `{Base64} (key : Value) (jwk : PublicJwk) : Prop :=
  exists object, key = VObject object /\
    (forall member, member ∈ PRIVATE_JWK_MEMBERS -> map_get member object = None) /\
    jwk_from_value key = Ok jwk /\ validate_public_jwk jwk = Ok tt /\
    (jwk_kty jwk = "RSA" -> exists bits, rsa_public_key_bits_from_jwk jwk = Ok bits /\ (2048 <= bits)%Z).

(** The keys of a set: those of its [keys] member, or the one key it is. *)
Definition keys_of (v : Value) (keys : list Value) : Prop :=
  exists object, v = VObject object /\
    match map_get "keys" object with
    | Some k => k = VArray keys
    | None => keys = [v]
    end.

(** The keys of [doc] are those that the file at [path] holds, and the file may
    be trusted. *)
Definition file_keys `{BootFs} `{JsonText} `{JwkReader} `{Base64} (path : string) (override : bool)
    (doc : JwksDocument) : Prop :=
  file_trusted path override /\
  exists raw value keys, fs_read_to_string path = Ok raw /\ json_from_str raw = Ok value /\
    keys_of value keys /\ keys <> [] /\ Forall2 public_key_of keys (jwks_keys doc).

(** The signer is made from the key that the configuration names: the text of
    the signing key file, or for the mock provider that of its own key file
    together with the configured key of the public file. *)
Definition signing_key `{BootFs} `{JsonText} `{JwkReader} `{Features} `{Base64} `{SerdeJson} `{Asn1} `{AwsLc} `{Sha256}
    `{Jwt} `{OpenSsl} `{FromJson CompactJwsHeader} `{FromJson MintedClaims} `{FromJson PrivateRsaJwk}
    `{FromJson PrivateAkpJwk} (config : RuntimeConfig) (s : AnySigner) : Prop :=
  let selection := backend_selection_parse (sts_signing_alg config) in
  if bool_decide (sts_signing_provider config ∈ [""; "file"]) then
    file_trusted (obo_sts_key_file config) (allow_insecure_key_file config) /\
    exists raw, fs_read_to_string (obo_sts_key_file config) = Ok raw /\
      match selection with
      | Classical => exists r, s = RsaFile r /\
          (if starts_with "-----BEGIN" (trim_start raw)
           then rsa_from_pkcs1_pem raw (our_kid config) else rsa_from_private_jwk raw (our_kid config)) = Ok r
      | RequestedPqc _ => exists m, s = MlDsaFile m /\
          mldsa_from_private_jwk_for_backend selection raw (our_kid config) = Ok m
      end
  else
    exists public_file key_file doc jwk raw key r,
      sts_signing_provider config = "mock-external" /\
      sts_signing_public_jwks_file config = Some public_file /\ file_keys public_file (allow_insecure_jwks config) doc /\
      find_jwk (our_kid config) doc = Some jwk /\
      mock_external_signer_key_file config = Some key_file /\
      file_trusted key_file (allow_insecure_key_file config) /\ fs_read_to_string key_file = Ok raw /\
      mock_rs256_from_private_jwk_for_backend selection raw = Ok key /\
      external_rs256_new (our_kid config) jwk (mock_sign_rs256 key) = Ok r /\ s = ExternalRsa r.

(** The store that the configuration asks for, empty or on its directory. *)
Definition configured_store `{BootFs} (config : RuntimeConfig) (s : AnyStore) : Prop :=
  match replay_backend config, s with
  | Memory, MemoryStore m => m = in_memory_new (max_seen_jti config) 256
  | File dir, FileStore f => file_store_new (dir_at dir) (max_seen_jti config) 256 = Ok f
  | _, _ => False
  end.

(** * Lemmas *)

Lemma map_remove_spec k o :
  (map_remove k o).1 = map_get k o /\ (map_get k o = None -> (map_remove k o).2 = o).
Proof.
  induction o as [|[k' v] o [IH1 IH2]]; simpl; [done|]. case_bool_decide; [done|].
  destruct (map_remove k o) as [r o']; simpl in *. split; [done|]. intros Hn. by rewrite IH2.
Qed.

Lemma land_zero_bit a b n : Z.land a b = 0%Z -> Z.testbit b n = true -> Z.testbit a n = false.
Proof.
  intros Hl Hb. assert (Hz : Z.testbit (Z.land a b) n = false) by (rewrite Hl; apply Z.bits_0).
  rewrite Z.land_spec, Hb, andb_true_r in Hz. done.
Qed.

Lemma check_file_mode_ok `{BootFs} path label override u :
  check_file_mode path label override = Ok u -> file_trusted path override.
Proof.
  unfold check_file_mode, file_trusted. destruct (file_mode path) as [mode|]; [|right; done].
  destruct override; [by left|]. rewrite andb_true_r. intros Hc. ok_inv. right. intros m [= <-].
  bool_hyps. match goal with Hx : (_ =? 0)%Z = true |- _ => apply Z.eqb_eq in Hx; rename Hx into Hz end.
  rewrite <- Z.land_assoc in Hz. split; by apply (land_zero_bit _ _ _ Hz).
Qed.

Lemma read_checked_ok `{BootFs} path label override raw :
  read_checked_file path label override = Ok raw ->
  file_trusted path override /\ fs_read_to_string path = Ok raw.
Proof. unfold read_checked_file. intros Hr. ok_inv. split; [by eapply check_file_mode_ok|done]. Qed.

Lemma as_object_Some v o : as_object v = Some o -> v = VObject o.
Proof. by destruct v; intros [= <-]. Qed.

Section KeyLemmas.
Context `{BootFs} `{JsonText} `{JwkReader} `{Features} `{Base64}.

Lemma normalize_public_jwk_spec label key jwk :
  normalize_public_jwk label key = Ok jwk <-> public_key_of key jwk.
Proof.
  assert (Hpriv : forall object : Map,
    List.filter (fun member => map_contains_key member object) PRIVATE_JWK_MEMBERS = [] <->
    forall member, member ∈ PRIVATE_JWK_MEMBERS -> map_get member object = None).
  { intros object. split.
    - intros Hf member Hm. destruct (map_get member object) eqn:Hg; [|done].
      assert (Hin : In member []) by (rewrite <- Hf; apply filter_In; split;
        [by apply list_elem_of_In|unfold map_contains_key; by rewrite Hg]). destruct Hin.
    - intros Hf. destruct (List.filter _ _) as [|m l] eqn:Hm; [done|].
      assert (Hin : In m (m :: l)) by by left. rewrite <- Hm in Hin.
      apply filter_In in Hin as [Hin Hc]. apply list_elem_of_In, Hf in Hin.
      unfold map_contains_key in Hc. by rewrite Hin in Hc. }
  unfold normalize_public_jwk, public_key_of. split.
  - intros Hn. ok_inv. bool_hyps.
    match goal with Hx : as_object _ = Some _ |- _ => apply as_object_Some in Hx as -> end.
    match goal with u : () |- _ => destruct u end. case_bool_decide as Hk.
    + ok_inv. bool_hyps. eexists. split_and!; [done|by apply Hpriv|done|done|]. intros _. eauto.
    + simplify_eq. eexists. split_and!; [done|by apply Hpriv|done|done|done].
  - intros (object & -> & Hp & -> & Hv & Hb). simpl.
    rewrite bool_decide_eq_true_2 by by apply Hpriv. simpl. rewrite Hv. simpl.
    case_bool_decide as Hk; [|done]. destruct (Hb Hk) as (bits & -> & Hl). simpl.
    by rewrite (proj2 (Z.ltb_ge _ _)).
Qed.

Lemma normalize_keys_spec v label doc :
  normalize_public_jwks_value v label = Ok doc <->
  exists keys, keys_of v keys /\ keys <> [] /\ Forall2 public_key_of keys (jwks_keys doc).
Proof.
  assert (Hmap : forall keys jwks, try_map (normalize_public_jwk label) keys = Ok jwks <->
    Forall2 public_key_of keys jwks).
  { intros keys jwks. rewrite try_map_ok.
    split; intros Hf; (eapply Forall2_impl; [exact Hf|]); intros k j; apply normalize_public_jwk_spec. }
  assert (Hrest : forall keys : list Value,
    (if bool_decide (keys = []) then Err (BInvalidJwks label "no public keys found")
     else let? public_keys := try_map (normalize_public_jwk label) keys in Ok (mkJwksDocument public_keys)) = Ok doc
    <-> keys <> [] /\ Forall2 public_key_of keys (jwks_keys doc)).
  { intros keys. case_bool_decide as Hk; [naive_solver|]. rewrite <- Hmap. destruct doc as [ks]. simpl. split.
    - intros Hr. ok_inv. done.
    - intros [_ ->]. done. }
  unfold normalize_public_jwks_value, keys_of. destruct v as [| | | | |object];
    try (split; [discriminate|intros (? & (? & Hv & _) & _); discriminate Hv]).
  destruct (map_remove_spec "keys" object) as [Hg Hn].
  destruct (map_remove "keys" object) as [k o']. simpl in Hg, Hn. subst k.
  destruct (map_get "keys" object) as [k|] eqn:Hk.
  - destruct k as [| | | |keys|]; cbn [res_bind];
      try (split; [done|intros (? & (? & [= <-] & Hx) & _); rewrite Hk in Hx; discriminate Hx]).
    rewrite Hrest. split.
    + intros ?. exists keys. split; [|done]. exists object. by rewrite Hk.
    + intros (keys' & (? & [= <-] & Hx) & ?). rewrite Hk in Hx. by injection Hx as <-.
  - rewrite (Hn eq_refl). cbn [res_bind]. rewrite Hrest. split.
    + intros ?. exists [VObject object]. split; [|done]. exists object. by rewrite Hk.
    + intros (keys & (? & [= <-] & Hx) & ?). rewrite Hk in Hx. by subst.
Qed.

Lemma file_loaded path label override doc :
  load_public_jwks_file path label override = Ok doc -> file_keys path override doc.
Proof.
  unfold load_public_jwks_file. intros Hl. ok_inv.
  match goal with Hr : read_checked_file _ _ _ = Ok _ |- _ => apply read_checked_ok in Hr as [? Hraw] end.
  match goal with Hn : normalize_public_jwks_value _ _ = Ok _ |- _ =>
    apply normalize_keys_spec in Hn as (keys & ? & ? & ?) end. split; [done|]. by do 3 eexists.
Qed.
End KeyLemmas.

(** * The start-up signer and store keep their interfaces' promises *)

Section Laws.
Context `{BootFs} `{JsonText} `{JwkReader} `{Features} `{Base64Laws} `{SerdeJson} `{Asn1} `{AwsLcLaws} `{Sha256}
  `{Jwt} `{OpenSsl} `{FromJson CompactJwsHeader} `{FromJson MintedClaims} `{FromJson PrivateRsaJwk}
  `{FromJson PrivateAkpJwk}.

#[export] Instance any_signer_laws : JoseSignerLaws AnySigner.
Proof.
  refine {| signer_ok s := match s with
    | RsaFile s => signer_ok s | ExternalRsa s => signer_ok s | MlDsaFile s => signer_ok s end |}.
  - intros [s|s|s] Hs; exact (published_key s Hs).
  - intros [s|s|s] token c Hs Hv; exact (verify_own s token c Hs Hv).
Defined.

(** A signer whose key is in a file takes back what it signs.  (Nothing is
    promised of a signer whose key is elsewhere.) *)
#[export] Instance any_signer_roundtrip `{!JwtLaws} `{!OpenSslLaws} `{!HeaderLaws} `{!ClaimsLaws} :
  JoseSignerRoundtrip AnySigner.
Proof.
  refine {| verifiable s := match s with
    | RsaFile s => verifiable s | ExternalRsa s => False | MlDsaFile s => verifiable s end |}.
  intros [s|s|s] c token jwk jwks Hs; [| |]; first [done|exact (signed_verifies s c token jwk jwks Hs)].
Defined.

#[export] Instance any_store_laws : ReplayStoreLaws AnyStore.
Proof.
  refine {| store_ok s := match s with MemoryStore m => store_ok m | FileStore f => store_ok f end;
            held s k := match s with MemoryStore m => held m k | FileStore f => held f k end |}.
  - intros [m|f] jti exp now r s' Hs Hx; cbn [check_and_record any_store];
      destruct (check_and_record jti exp now _) as [r1 s1] eqn:Hc; intros [= <- <-];
      exact (store_ok_step _ _ _ _ _ _ Hs Hx Hc).
  - intros [m|f] jti exp now s' Hs Hx; cbn [check_and_record any_store];
      destruct (check_and_record jti exp now _) as [r1 s1] eqn:Hc; intros [= -> <-];
      exact (record_fresh _ _ _ _ _ Hs Hx Hc).
  - intros [m|f] jti exp now r s' k e Hs Hx; cbn [check_and_record any_store];
      destruct (check_and_record jti exp now _) as [r1 s1] eqn:Hc; intros [= <- <-];
      exact (live_kept _ _ _ _ _ _ _ _ Hs Hx Hc).
Defined.

Lemma rsa_pem_constructed pem kid s : rsa_from_pkcs1_pem pem kid = Ok s -> @signer_ok RsaJoseSigner _ _ _ _ s.
Proof. unfold rsa_from_pkcs1_pem. intros Hs. ok_inv. by eapply rsa_constructed. Qed.

Lemma rsa_jwk_constructed jwk kid s : rsa_from_private_jwk jwk kid = Ok s -> @signer_ok RsaJoseSigner _ _ _ _ s.
Proof. unfold rsa_from_private_jwk, jose_err. intros Hs. ok_inv. by eapply rsa_constructed. Qed.

(** Whatever the provider, the loaded signer publishes a valid key of its own,
    and comes from key material that may be trusted. *)
Lemma load_signer_ok config s : load_signer config = Ok s -> signer_ok s.
Proof.
  unfold load_signer. destruct (_ || _)%bool; [|case_bool_decide; [|done]].
  - unfold load_file_signer. intros Hs. ok_inv.
    destruct (backend_selection_parse (sts_signing_alg config)) as [|req].
    + ok_inv. destruct (starts_with _ _); apply res_bind_ok in Hs as (u & _ & Hs);
        [by eapply rsa_pem_constructed|by eapply rsa_jwk_constructed].
    + unfold load_pqc_signer in Hs. destruct pqc_openssl; ok_inv. by eapply mldsa_constructed.
  - unfold load_mock_external_signer. intros Hs. ok_inv. by eapply external_rs256_constructed.
Qed.

Lemma load_file_verifiable `{!JwtLaws} `{!OpenSslLaws} `{!HeaderLaws} `{!ClaimsLaws} config s :
  load_signer config = Ok s -> sts_signing_provider config ∈ [""; "file"] -> verifiable s.
Proof.
  intros Hl Hp. assert (Hs : load_file_signer config = Ok s).
  { unfold load_signer in Hl. apply elem_of_cons in Hp as [E|[E|[]%elem_of_nil]%elem_of_cons]; rewrite E in Hl; exact Hl. }
  unfold load_file_signer in Hs. ok_inv. destruct (backend_selection_parse (sts_signing_alg config)) as [|req].
  - ok_inv. destruct (starts_with _ _); apply res_bind_ok in Hs as (u & _ & Hs).
    + unfold rsa_from_pkcs1_pem in Hs. ok_inv. cbn. eauto.
    + unfold rsa_from_private_jwk, jose_err in Hs. ok_inv. cbn. eauto.
  - unfold load_pqc_signer in Hs. destruct pqc_openssl; ok_inv. cbn. eauto.
Qed.

Lemma signer_loaded config s : load_signer config = Ok s -> signing_key config s.
Proof.
  unfold load_signer, signing_key. rewrite <- bool_decide_or. intros Hs.
  assert (Hprov : sts_signing_provider config ∈ [""; "file"] <->
    sts_signing_provider config = "" \/ sts_signing_provider config = "file") by set_solver.
  rewrite (bool_decide_ext _ _ Hprov). case_bool_decide; [|case_bool_decide as Hm; [|done]].
  - unfold load_file_signer in Hs. ok_inv.
    match goal with Hr : read_checked_file _ _ _ = Ok ?raw |- _ => apply read_checked_ok in Hr as [Htrust Hraw] end.
    split; [done|]. eexists. split; [exact Hraw|]. destruct (backend_selection_parse (sts_signing_alg config)) as [|req].
    + ok_inv. eexists. split; [done|]. destruct (starts_with _ _); apply res_bind_ok in Hs as (u & _ & Hs); exact Hs.
    + unfold load_pqc_signer in Hs. destruct pqc_openssl; ok_inv. by eexists.
  - unfold load_mock_external_signer in Hs. ok_inv.
    match goal with Hr : read_checked_file _ _ _ = Ok ?raw |- _ => apply read_checked_ok in Hr as [Htrust Hraw] end.
    do 7 eexists. split_and!; try done. by eapply file_loaded.
Qed.

Lemma store_loaded config r : build_replay_policy config = Ok r -> configured_store config (store r).
Proof. unfold build_replay_policy, configured_store. destruct (replay_backend config); intros Hr; by ok_inv. Qed.

Lemma algorithms_verifiable config u alg :
  validate_inbound_assertion_algorithms config = Ok u -> alg ∈ inbound_assertion_algs config ->
  is_pqc_jws_alg alg = true -> pqc_openssl = true.
Proof.
  unfold validate_inbound_assertion_algorithms. intros Hv Hin Hp. ok_inv.
  match goal with Hm : try_map _ _ = Ok _ |- _ => apply try_map_ok in Hm end.
  apply list_elem_of_lookup in Hin as [i Hi].
  match goal with Hm : Forall2 _ _ _ |- _ => destruct (Forall2_lookup_l _ _ _ _ _ Hm Hi) as (x & _ & Hu) end.
  rewrite Hp in Hu. unfold validate_pqc_inbound_assertion_backend in Hu. by destruct pqc_openssl.
Qed.

Lemma store_new_ok config r : build_replay_policy config = Ok r -> store_ok (store r).
Proof.
  unfold build_replay_policy. destruct (replay_backend config); intros Hr; ok_inv; [|done].
  simpl. unfold in_memory_ok, map_len. simpl. rewrite map_size_empty. lia.
Qed.
End Laws.

(** Adding the extra keys keeps the first ones and repeats no key id. *)
Lemma add_extra_spec published extra :
  NoDup (map jwk_kid published) ->
  NoDup (map jwk_kid (add_extra_keys published extra)) /\
  exists more, add_extra_keys published extra = published ++ more /\ forall k, k ∈ more -> k ∈ extra.
Proof.
  unfold add_extra_keys. revert published. induction extra as [|key extra IH]; intros published Hn; simpl.
  - split; [done|]. exists []. rewrite app_nil_r. split; [done|]. by intros k ?%not_elem_of_nil.
  - destruct (existsb _ published) eqn:He.
    + destruct (IH published Hn) as [H1 (more & Hm1 & Hm)]. split; [exact H1|]. exists more. split; [exact Hm1|].
      intros k Hk. right. by apply Hm.
    + destruct (IH (published ++ [key])) as [H1 (more & Hm1 & Hm)].
      { rewrite map_app. apply NoDup_app. split; [done|]. split; [|apply NoDup_singleton].
        intros kid Hkid Hk. apply list_elem_of_singleton in Hk as ->.
        apply list_elem_of_fmap in Hkid as (k & Hkk & Hk).
        pose proof (proj1 (existsb_false_elem _ _) He k Hk) as Hf. by rewrite Hkk, bool_decide_eq_true_2 in Hf. }
      split; [exact H1|]. exists (key :: more). rewrite Hm1, <- app_assoc. split; [done|].
      intros k [->|Hk]%elem_of_cons; [left|right; by apply Hm].
Qed.

Lemma find_jwk_cons kid jwk keys : jwk_kid jwk = kid -> find_jwk kid (mkJwksDocument (jwk :: keys)) = Some jwk.
Proof. intros Hk. unfold find_jwk. simpl. by rewrite bool_decide_eq_true_2. Qed.

Section Published.
Context `{BootFs} `{JsonText} `{JwkReader} `{Features} `{Base64Laws} `{FromJson CompactJwsHeader}.

(** The published set has the signer's own key under its id, and no id twice. *)
Lemma published_own {Sg} `{JoseSignerLaws Sg} (config : RuntimeConfig) (signer : Sg)
    (doc : JwksDocument) :
  signer_ok signer -> published_jwks_of config signer = Ok doc ->
  NoDup (map jwk_kid (jwks_keys doc)) /\
  exists own, public_jwks signer = mkJwksDocument [own] /\ validate_public_jwk own = Ok tt /\
    find_jwk (jwk_kid own) doc = Some own.
Proof.
  intros Hs Hp. destruct (published_key signer Hs) as (own & Hown & Hv & _).
  unfold published_jwks_of in Hp. rewrite Hown in Hp.
  destruct (obo_sts_extra_jwks_file config) as [file|]; ok_inv.
  - match goal with |- context [add_extra_keys _ ?extra] =>
      destruct (add_extra_spec [own] extra) as [Hn (more & Hm & _)]; [apply NoDup_singleton|] end.
    simpl in *. split; [done|]. exists own. split_and!; [done|done|]. rewrite Hm. by apply find_jwk_cons.
  - split; [apply NoDup_singleton|]. exists own. split_and!; [done|done|]. by apply find_jwk_cons.
Qed.
End Published.

(** * Properties *)

Section Properties.
Context `{BootFs} `{JsonText} `{JwkReader} `{Features} `{Base64Laws} `{SerdeJson} `{Asn1} `{AwsLcLaws} `{Sha256}
  `{Jwt} `{OpenSsl} `{UrlLib} `{FromJson CompactJwsHeader} `{FromJson MintedClaims} `{FromJson PrivateRsaJwk}
  `{FromJson PrivateAkpJwk} `{FromJson DiscoveryDocument} `{FromJson JwksDocument} {W : Type} `{HasHttp W}.

(** C32: a key set is accepted exactly when it is an object whose [keys] member
    is a non-empty list (or that is itself a key) of public keys: each an
    object without any private member, which reads and validates as a public
    JWK, and has at least 2048 bits if it is an RSA key.  The set returned
    holds those keys in order. *)
Theorem public_jwks_exact (v : Value) (label : string) (doc : JwksDocument) :
  normalize_public_jwks_value v label = Ok doc <->
  exists keys, keys_of v keys /\ keys <> [] /\ Forall2 public_key_of keys (jwks_keys doc).
Proof. apply normalize_keys_spec. Qed.

(** the extra keys never shadow the signing key: in the published set no
    key id occurs twice, and the key found under the signer's key id is the
    signer's own. *)
Theorem published_kids_unique {Sg} `{JoseSignerLaws Sg} (config : RuntimeConfig) (signer : Sg)
    (doc : JwksDocument) :
  signer_ok signer -> published_jwks_of config signer = Ok doc ->
  NoDup (map jwk_kid (jwks_keys doc)) /\
  exists own, public_jwks signer = mkJwksDocument [own] /\ validate_public_jwk own = Ok tt /\
    find_jwk (jwk_kid own) doc = Some own.
Proof. apply published_own. Qed.

(** C27: a server starts only from inputs that may be trusted, and each part of
    its state comes from the input that the configuration names for it: the
    actor and client key sets are the public keys of their own files, which
    others cannot write (or the operator has waived that), the identity
    provider's those of its file or of the pinned download; the signer is made
    from the key in the signing key file, protected likewise, and keeps the
    signer interface's promises; the published set is its key and the keys of
    the extra file; the replay store is the configured one and keeps the
    store's promises, nothing is revoked and nothing counted; and every inbound
    algorithm is one this build can verify. *)
Theorem bootstrap_sound (config : RuntimeConfig) (state : HttpState AnySigner) (shared : Shared AnyStore) (w w' : W) :
  build_state_from_config config w = (Ok (state, shared), w') ->
  HttpState.config state = config /\
  file_keys (actor_jwks_file config) (allow_insecure_actor_jwks config) (actor_jwks state) /\
  file_keys (client_jwks_file config) (allow_insecure_client_jwks config) (client_jwks state) /\
  match idp_jwks_file config with
  | Some file => file_keys file (allow_insecure_jwks config) (subject_jwks state)
  | None => resolve_idp_jwks (idp_issuer config) (idp_jwks_uri config) w = (Ok (subject_jwks state), w')
  end /\
  signer_ok (signer state) /\ signing_key config (signer state) /\
  match obo_sts_extra_jwks_file config with
  | Some file => exists extra, file_keys file (allow_insecure_jwks config) extra /\
      published_jwks state =
        mkJwksDocument (add_extra_keys (jwks_keys (public_jwks (signer state))) (jwks_keys extra))
  | None => published_jwks state = public_jwks (signer state)
  end /\
  store_ok (store (sh_replay shared)) /\ configured_store config (store (sh_replay shared)) /\
  sh_revocations shared = mutex_new ∅ /\ sh_metrics shared = default_metrics /\
  (forall alg, alg ∈ inbound_assertion_algs config -> is_pqc_jws_alg alg = true -> pqc_openssl = true).
Proof.
  unfold build_state_from_config. intros Hb. ok_inv.
  simpl. split_and!; try done.
  - by eapply file_loaded.
  - by eapply file_loaded.
  - unfold load_subject_jwks in *. destruct (idp_jwks_file config); ok_inv; [by eapply file_loaded|done].
  - by eapply load_signer_ok.
  - by apply signer_loaded.
  - unfold published_jwks_of in *. destruct (obo_sts_extra_jwks_file config); ok_inv; [|done].
    eexists. split; [by eapply file_loaded|done].
  - by eapply store_new_ok.
  - by apply store_loaded.
  - intros alg. by eapply algorithms_verifiable.
Qed.

(** a bind address is accepted exactly when it parses and does not expose a
    plaintext server: with an [http] issuer it must be a loopback address unless
    the operator has waived that. *)
Theorem bind_refuses_plaintext (config : RuntimeConfig) (addr : SocketAddr) :
  parse_bind_addr config = Ok addr <->
  parse_socket_addr (http_addr config) = Ok addr /\
  (starts_with "http://" (our_issuer config) = true ->
   ip_is_loopback (sa_ip addr) = true \/ allow_insecure_http_bind config = true).
Proof.
  unfold parse_bind_addr. destruct (parse_socket_addr (http_addr config)) as [a|e]; cbn [map_err res_bind];
    [|split; [discriminate|intros [? _]; discriminate]].
  destruct (starts_with "http://" (our_issuer config)), (ip_is_loopback (sa_ip a)) eqn:Hl,
    (allow_insecure_http_bind config); cbn [andb negb]; split.
  all: try (intros Hx; injection Hx as <-; split; [reflexivity|intros Hf; first [discriminate Hf|by left|by right]]).
  all: try (intros [Hx _]; injection Hx as <-; reflexivity).
  - intros Hx. discriminate Hx.
  - intros [Hx Hs]. injection Hx as <-. destruct (Hs eq_refl); congruence.
Qed.
End Properties.

(** A server that starts: an RSA key in PEM, one trusted key, protected files. *)
Module BootToy.
#[local] Instance features : Features := true.
#[local] Instance sha : Sha256 := fun x => x.
#[local] Instance url : UrlLib := ToyUrl.lib.
#[local] Instance text : JsonText := fun _ => Ok (VObject []).
#[local] Instance reader : FileReader := fun _ => None.
#[local] Instance base64 : Base64 := SignerToy.base64.
#[local] Instance base64_laws : Base64Laws := SignerToy.base64_laws.
#[local] Instance serde : SerdeJson := SignerToy.serde.
#[local] Instance header_json : FromJson CompactJwsHeader := SignerToy.header_json.
#[local] Instance claims_json : FromJson MintedClaims := SignerToy.claims_json.
#[local] Instance akp_json : FromJson PrivateAkpJwk := SignerToy.akp_json.
#[local] Instance rsa_json : FromJson PrivateRsaJwk := SignerToy.rsa_json.
#[local] Instance discovery_json : FromJson DiscoveryDocument := fun _ => Err "no discovery".
#[local] Instance jwks_json : FromJson JwksDocument := fun _ => Err "no keys".
#[local] Instance jwt : Jwt := Toy.jwt.
#[local] Instance asn1 : Asn1 := SignerToy.asn1.
#[local] Instance openssl : OpenSsl := SignerToy.openssl.
#[local] Instance awslc : AwsLc := SignerToy.awslc.
#[local] Instance awslc_laws : AwsLcLaws := SignerToy.awslc_laws.
#[local] Instance http : HasHttp unit :=
  {| http_get _ w := (Err "offline", w); status_text := to_string |}.
Fixpoint zero_pairs (n : nat) : string :=
  match n with O => "" | S n => "00" +:+ zero_pairs n end.
#[local] Instance keys : JwkReader := fun _ =>
  Ok (mkPublicJwk "RSA" "k1" "sig" "RS256" (Some ("ff" +:+ zero_pairs 255)) (Some "03") None).
#[local] Instance fs : BootFs := {|
  file_mode _ := Some 384%Z;
  fs_read_to_string path := Ok (if bool_decide (path = "key.pem") then "-----BEGIN" else "{}");
  dir_at _ := healthy_dir ∅
|}.

Definition env : ConfigSource :=
  <["STS_SIGNING_ALG" := "classical"]> (<["OBO_STS_KEY_FILE" := "key.pem"]>
    (<["IDP_JWKS_FILE" := "idp.json"]> (<["OBO_STS_EXTRA_JWKS_FILE" := "extra.json"]> ConfigToy.env))).

Definition build (source : ConfigSource) : result BootstrapError (HttpState AnySigner * Shared AnyStore) :=
  (build_state_from_source source tt).1.

Lemma starts : is_ok (build env) = true.
Proof. vm_compute. reflexivity. Qed.

Lemma bootstrap_sound_witness :
  exists config (state : HttpState AnySigner), from_source env = Ok config /\ signer_ok (signer state) /\
    file_trusted (actor_jwks_file config) (allow_insecure_actor_jwks config).
Proof.
  pose proof starts as Hs. unfold build, build_state_from_source in Hs.
  destruct (from_source env) as [config|e]; [|discriminate Hs].
  change (is_ok (build_state_from_config config tt).1 = true) in Hs.
  destruct (build_state_from_config config tt) as [[[state replay]|e] w'] eqn:Hb; [|discriminate Hs].
  destruct (bootstrap_sound config state replay tt w' Hb) as (_ & Hf & _ & _ & Hok & _).
  exists config, state. split; [reflexivity|]. split; [exact Hok|exact (proj1 Hf)].
Defined.

Definition publish (source : ConfigSource) : result BootstrapError (RuntimeConfig * AnySigner * JwksDocument) :=
  let? config := map_err BConfig (from_source source) in
  let? signer := load_signer config in
  let? doc := published_jwks_of config signer in
  Ok (config, signer, doc).

Lemma publish_ok source config signer doc :
  publish source = Ok (config, signer, doc) ->
  load_signer config = Ok signer /\ published_jwks_of config signer = Ok doc.
Proof. unfold publish. intros Hp. by ok_inv. Qed.

Lemma publishes : is_ok (publish env) = true.
Proof. vm_compute. reflexivity. Qed.

Lemma published_kids_unique_witness :
  exists signer doc, option_map snd (res_ok (publish env)) = Some doc /\
    exists own, public_jwks signer = mkJwksDocument [own] /\ find_jwk (jwk_kid own) doc = Some own.
Proof.
  pose proof publishes as Hs.
  destruct (publish env) as [[[config signer] doc]|e] eqn:Hp; [|discriminate Hs].
  destruct (publish_ok env config signer doc Hp) as [Hl Hd].
  destruct (published_kids_unique config signer doc (load_signer_ok config signer Hl) Hd) as [_ (own & Ho & _ & Hf)].
  exists signer, doc. split; [reflexivity|]. exists own. exact (conj Ho Hf).
Defined.
End BootToy.
