(* ===== verification/ThreadRestart.v ===== *)
(** A credential is used once, also when the server stops and starts again
    between its uses, as long as it records on disk; a revocation is forgotten.

    A server lives several lives.  Each starts as [build_state_from_config]
    does, on the directory that the one before has left behind, and ends at any
    point of its schedule, also inside handlers. *)

From S2P Require Import Prelude RustStr Json Url Core Replay FileReplay Jose JoseSigners Verify Config Dpop.
From S2P Require Import HttpForms HttpState HttpToken HttpToy HttpExchange HttpGranted HttpServer HttpOnline HttpTyped.
From S2P Require Import Conc HttpConc HttpThreads ThreadReplay HttpBootstrap.
From Stdlib Require Import Ascii.

(** * Lives of a server *)

(** What a store leaves behind when the process ends. *)
Definition on_disk (s : AnyStore) : gmap string Entry :=
  match s with
  | MemoryStore _ => ∅
  | FileStore f => entries (f_dir f)
  end.

(** A file is the same in two file systems. *)
Definition same_file (fs fs' : BootFs) (path : string) : Prop :=
  @file_mode fs' path = @file_mode fs path /\ @fs_read_to_string fs' path = @fs_read_to_string fs path.

(** One life: the files it finds, the state it builds, the world it starts in
    and the events until it ends. *)
Record Life `{Jwt} `{OpenSsl} : Type := mkLife {
  l_files : BootFs;
  l_state : HttpState AnySigner;
  l_start : World AnyStore;
  l_events : list (Event Request)
}.
Arguments mkLife {_ _}.

Section Lives.
Context `{JsonText} `{JwkReader} `{Features} `{Base64Laws} `{SerdeJson} `{Asn1} `{AwsLcLaws} `{Sha256} `{Jwt}
  `{OpenSsl} `{UrlLib} `{HttpLib} `{DpopLib} `{JsonReader} `{FromJson CompactJwsHeader} `{FromJson MintedClaims}
  `{FromJson PrivateRsaJwk} `{FromJson PrivateAkpJwk} `{FromJson DiscoveryDocument} `{FromJson JwksDocument}
  `{FromJson SubjectTokenClaims} `{FromJson AssertionClaims} {W : Type} `{HasHttp W}.
Context (config : RuntimeConfig).

Definition ended (l : Life) : Conf Request (World AnyStore) Answer :=
  server (l_state l) (l_events l) (listening (l_start l)).

Definition started (l : Life) : Prop :=
  let files := l_files l in
  exists network network' : W,
    build_state_from_config config network = (Ok (l_state l, shared_of (l_start l)), network').

(** The next life: the replay directory holds at least what the last one left,
    the clock goes on, and the keys of the callers are the same.  The other
    files, the signing key among them, may have changed. *)
Record restarted (l l' : Life) : Prop := {
  re_started : started l';
  re_dir : forall dir, replay_backend config = File dir ->
    on_disk (store (w_replay (c_world (ended l)))) ⊆ entries (@dir_at (l_files l') dir);
  re_time : w_time (l_start l') = w_time (c_world (ended l));
  re_reads : w_reads (c_world (ended l)) <= w_reads (l_start l');
  re_actors : same_file (l_files l) (l_files l') (actor_jwks_file config);
  re_clients : same_file (l_files l) (l_files l') (client_jwks_file config)
}.

(** * Lemmas *)

(** What start-up reads of the callers' keys and of the replay directory. *)
Definition finds (files : BootFs) (actors clients : JwksDocument) (replay : ReplayPolicy AnyStore) : Prop :=
  load_public_jwks_file (actor_jwks_file config) "actor JWKS" (allow_insecure_actor_jwks config) = Ok actors /\
  load_public_jwks_file (client_jwks_file config) "client JWKS" (allow_insecure_client_jwks config) = Ok clients /\
  build_replay_policy config = Ok replay.

Lemma started_finds l : started l ->
  HttpState.config (l_state l) = config /\
  finds (l_files l) (actor_jwks (l_state l)) (client_jwks (l_state l)) (w_replay (l_start l)) /\
  w_revocations (l_start l) = mutex_new ∅.
Proof.
  intros (h & h' & Hb). unfold build_state_from_config in Hb. ok_inv.
  repeat match goal with Hs : _ = _ (l_state l) |- _ => rewrite <- Hs | Hs : _ = l_state l |- _ => rewrite <- Hs
    | Hs : _ = w_replay _ |- _ => rewrite <- Hs end. done.
Qed.

Lemma same_file_loads fs fs' path label override :
  same_file fs fs' path ->
  (let _ := fs in load_public_jwks_file path label override) =
  (let _ := fs' in load_public_jwks_file path label override).
Proof. intros [Hm Hr]. cbv zeta. unfold load_public_jwks_file, read_checked_file, check_file_mode. by rewrite Hm, Hr. Qed.

(** The callers' keys are the same in the next life. *)
Lemma restarted_keys l l' :
  started l -> restarted l l' ->
  actor_jwks (l_state l') = actor_jwks (l_state l) /\ client_jwks (l_state l') = client_jwks (l_state l).
Proof.
  intros (_ & (Ha & Hc & _) & _)%started_finds [(_ & (Ha' & Hc' & _) & _)%started_finds _ _ _ Sa Sc].
  pose proof (same_file_loads _ _ _ "actor JWKS" (allow_insecure_actor_jwks config) Sa) as Ea.
  pose proof (same_file_loads _ _ _ "client JWKS" (allow_insecure_client_jwks config) Sc) as Ec.
  cbv zeta in Ea, Ec. split; congruence.
Qed.

(** ** The store stays on disk *)

Definition is_file (s : AnyStore) : Prop := exists f, s = FileStore f.

Definition stays_file (w w' : World AnyStore) : Prop := is_file (stored w) -> is_file (stored w').

#[local] Instance stays_file_frame : IsFrame stays_file.
Proof.
  split; [split; [by intros w Hw|]; intros x y z Hxy Hyz Hx; by apply Hyz, Hxy|].
  intros w w' Hs. unfold stays_file, stored. by rewrite (same_replay _ _ Hs).
Qed.




(** ** A record is kept through the lives *)

Section Kept.
Context (w0 : World AnyStore) (key : string) (exp : Z) (dir : string).
Context (on_file : replay_backend config = File dir).
Context (decoded_i64 : forall t jwks algs (v : VerifiedJws AssertionClaims),
  verify_claims_against_jwks_with_allowed_algs t jwks algs = Ok v -> in_i64 (as_exp (v_claims v))).


End Kept.
End Lives.

(** * Properties *)

Section Properties.
Context `{JsonText} `{JwkReader} `{Features} `{Base64Laws} `{SerdeJson} `{Asn1} `{AwsLcLaws} `{Sha256} `{Jwt}
  `{OpenSsl} `{UrlLib} `{HttpLib} `{DpopLib} `{JsonReader} `{FromJson CompactJwsHeader} `{FromJson MintedClaims}
  `{FromJson PrivateRsaJwk} `{FromJson PrivateAkpJwk} `{FromJson DiscoveryDocument} `{FromJson JwksDocument}
  `{FromJson SubjectTokenClaims} `{FromJson AssertionClaims} {W : Type} `{HasHttp W}.


(** C11: a restart forgets the revocations: the list is in the memory of the
    process, whatever the replay store is.  A token that is still live and that
    the server, when it ended, reported as inactive because it was on the list
    is reported as active, with its claims, by the same server once it has
    started again with its keys, to the same client (whose assertion both
    stores take). *)
Theorem restart_forgets_revocations (config : RuntimeConfig) (l l' : Life) (now : Z) (headers : HeaderMap)
    (body t : string) (c : AssertionClaims) (v : VerifiedJws MintedClaims) (e : Z) :
  started config l -> restarted config l l' ->
  published_jwks (l_state l') = published_jwks (l_state l) ->
  steady now (c_world (ended l)) -> live_token (l_state l) now t v ->
  m_value (w_revocations (c_world (ended l))) !! revocation_key t = Some e -> (now <= e)%Z ->
  asks (l_state l) now (introspection_endpoint (l_state l)) headers body t c ->
  is_Some (record_keys now (client_keys c) (store (w_replay (c_world (ended l))))) ->
  is_Some (record_keys now (client_keys c) (store (w_replay (l_start l')))) ->
  (introspect headers (l_state l) body (c_world (ended l))).1 = Ok (token_headers, inactive) /\
  (introspect headers (l_state l') body (l_start l')).1 = Ok (token_headers, introspection_body (v_claims v)).
Proof.
  intros Hs Hr Hpub Hw Hl Hk He Ha Hk1 Hk2.
  destruct (restarted_keys _ _ _ Hs Hr) as [_ Hc]. destruct (started_finds _ _ Hs) as [Hc1 _].
  destruct (started_finds _ _ (re_started _ _ _ Hr)) as (Hc2 & _ & Hempty).
  assert (Hcfg : HttpState.config (l_state l') = HttpState.config (l_state l)) by congruence.
  split.
  - apply (introspect_reports (l_state l) now headers body _ _ Hw). split; [done|]. exists t, c.
    split_and!; [exact Ha|exact Hk1|]. apply reports_inactive. intros v' _ [_ Hu]. specialize (Hu e Hk). lia.
  - apply (introspect_reports (l_state l') now headers body).
    + intros n Hn. pose proof (re_reads _ _ _ Hr). unfold reading. rewrite (re_time _ _ _ Hr). apply Hw. lia.
    + split; [done|]. exists t, c. split_and!; [|exact Hk2|].
      * replace (introspection_endpoint (l_state l')) with (introspection_endpoint (l_state l))
          by (unfold introspection_endpoint, base; by rewrite Hcfg).
        by apply (asks_same (l_state l)).
      * cbn. apply reports_active.
        -- destruct Hl as [Hv Hl]. split; [by rewrite Hpub|]. unfold live, issued_here in *. by rewrite Hcfg.
        -- rewrite Hempty. split; [done|]. intros e' He'. cbn in He'. by rewrite lookup_empty in He'.
Qed.
End Properties.

(** A server that starts twice, with the clock between the two just past the
    expiry of the assertion that its client shows again. *)
Module RestartToy.
#[local] Instance text : JsonText := BootToy.text.
#[local] Instance keys : JwkReader := BootToy.keys.
#[local] Instance base64 : Base64 := SignerToy.base64.
#[local] Instance base64_laws : Base64Laws := SignerToy.base64_laws.
#[local] Instance serde : SerdeJson := SignerToy.serde.
#[local] Instance asn1 : Asn1 := SignerToy.asn1.
#[local] Instance awslc : AwsLc := SignerToy.awslc.
#[local] Instance awslc_laws : AwsLcLaws := SignerToy.awslc_laws.
#[local] Instance rsa_json : FromJson PrivateRsaJwk := SignerToy.rsa_json.
#[local] Instance akp_json : FromJson PrivateAkpJwk := SignerToy.akp_json.
#[local] Instance discovery_json : FromJson DiscoveryDocument := BootToy.discovery_json.
#[local] Instance jwks_json : FromJson JwksDocument := BootToy.jwks_json.
#[local] Instance network : HasHttp unit := BootToy.http.
#[local] Instance minted_json : FromJson MintedClaims := fun bytes =>
  if bool_decide (bytes = "ab.ab.ab") then Ok (toy_minted 1100 1400) else Err "not a token of this server".

Definition files (replay : gmap string Entry) : BootFs := {|
  file_mode := @file_mode BootToy.fs;
  fs_read_to_string := @fs_read_to_string BootToy.fs;
  dir_at _ := healthy_dir replay
|}.

Definition config : RuntimeConfig :=
  mkConfig "https://idp.example" {["api"]} "https://sts.example" "k1" "/secrets" "key.pem" (Some "/idp") None "/actors"
    "/clients" None {["k1"]} "k1" {["k1"]} Both Auto ∅ {["https://api.example" := toy_target]} "classical" true true
    ["ML-DSA-65"] false true ["RS256"] "file" None None 60 300 300 600 1000 (File "/replay") 8192 false true false
    false false false false None None "127.0.0.1:8080" true false "info" false.

Definition start (replay : gmap string Entry) : result BootstrapError (HttpState AnySigner * Shared AnyStore) :=
  let _ := files replay in (build_state_from_config config tt).1.

(** The clock jumps over the expiry at the fourth reading. *)
Definition clock (n : nat) : option Z := Some (if Nat.ltb n 3 then 1200 else 1340)%Z.

Definition look_again : Request := ReqIntrospect toy_headers (online_body "cc.cc.cc").
Definition events : list (Event Request) := Arrive look_again :: replicate 20 (Turn 0).

Definition life (clock : nat -> option Z) (events : list (Event Request)) (replay : gmap string Entry) (reads : nat) : option Life :=
  match start replay with
  | Ok (state, shared) =>
      Some (mkLife (files replay) state
              (mkWorld clock reads (fun _ => "random") 0 (sh_replay shared) (sh_revocations shared) (sh_metrics shared)) events)
  | Err _ => None
  end.

Definition left_by (l : option Life) : gmap string Entry :=
  match l with Some l => on_disk (store (w_replay (c_world (ended l)))) | None => ∅ end.


Lemma life_started clock events replay reads l :
  life clock events replay reads = Some l ->
  started (W := unit) config l /\ l_files l = files replay /\ w_time (l_start l) = clock /\ w_reads (l_start l) = reads.
Proof.
  unfold life, start. destruct (build_state_from_config config tt) as [[[state []]|e] []] eqn:Hb; [|done].
  intros [= <-]. split; [|done]. exists tt, tt. exact Hb.
Qed.


Definition inactive_body : Value := VObject [("active", VBool false)].
Definition inactive : Answer :=
  AIntrospect (Ok ([("x-content-type-options", "nosniff"); ("cache-control", "no-store"); ("pragma", "no-cache")],
                   VObject [("active", VBool false)])).


(** A server that takes a revocation and starts again. *)
Definition still (n : nat) : option Z := Some 1200%Z.
Definition about_token (assertion : string) : string :=
  "token=ab.ab.ab&client_assertion=" +:+ assertion +:+ "&client_assertion_type=" +:+ CLIENT_ASSERTION_TYPE.
Definition revocation : Request := ReqRevoke toy_headers (about_token "cc.cc.cc").
Definition asking : string := about_token "dd.dd.dd".
Definition before : option Life := life still (Arrive revocation :: replicate 30 (Turn 0)) ∅ 0.
Definition after : option Life := life still [] (left_by before) 40.

Definition listed_token : VerifiedJws MintedClaims := mkVerifiedJws (toy_minted 1100 1400) "RS256" "k1" (Some "at+jwt").
Definition done_200 : Answer := ARevoke (Ok (mkHttpResponse 200 token_headers None)).
Definition told (l : Life) (w : World AnyStore) : result HttpError (HeaderMap * Value) :=
  (introspect toy_headers (l_state l) asking w).1.

(** The token that both lives sign for. *)
Definition verified (l : Life) : result JoseError (VerifiedJws MintedClaims) :=
  verify_claims_against_jwks_with_header "ab.ab.ab" (published_jwks (l_state l)).

Lemma before_ends :
  option_map (fun l => (c_threads (ended l) !! 0, w_reads (c_world (ended l)),
    m_value (w_revocations (c_world (ended l))) !! revocation_key "ab.ab.ab", (verified l, told l (c_world (ended l))))) before
  = Some (Some (revocation, Return done_200), 4, Some 1400%Z, (Ok listed_token, Ok (token_headers, inactive_body))).
Proof. vm_compute. reflexivity. Qed.
Lemma after_starts :
  option_map (fun l => (published_jwks (l_state l), told l (l_start l))) after
  = match before with
    | Some l => Some (published_jwks (l_state l), Ok (token_headers, introspection_body (toy_minted 1100 1400)))
    | None => None
    end.
Proof. vm_compute. reflexivity. Qed.

Lemma after_restarted l l' : before = Some l -> after = Some l' -> restarted (W := unit) config l l'.
Proof.
  intros Eb Ea. destruct (life_started _ _ _ _ _ Eb) as (_ & F1 & T1 & _), (life_started _ _ _ _ _ Ea) as (S2 & F2 & T2 & N2).
  assert (Hend : option_map (fun l => (w_time (c_world (ended l)), w_reads (c_world (ended l)))) before = Some (still, 4))
    by (vm_compute; reflexivity).
  rewrite Eb in Hend. injection Hend as Ht Hn. split.
  - exact S2.
  - intros dir _. rewrite F2. cbn. unfold left_by. by rewrite Eb.
  - by rewrite Ht.
  - rewrite Hn, N2. lia.
  - by rewrite F1, F2.
  - by rewrite F1, F2.
Qed.

Lemma restart_forgets_revocations_witness :
  exists l l', returned (ended l) 0 revocation done_200 /\ restarted (W := unit) config l l' /\
    told l (c_world (ended l)) = Ok (token_headers, HttpServer.inactive) /\
    told l' (l_start l') = Ok (token_headers, introspection_body (v_claims listed_token)).
Proof.
  pose proof before_ends as Eb. pose proof after_starts as Ea.
  destruct before as [l|] eqn:E1; [|discriminate Eb]. destruct after as [l'|] eqn:E2; [|discriminate Ea].
  injection Eb as Hret Hn Hk Hv Hi. injection Ea as Hpub Hi'.
  pose proof (after_restarted _ _ E1 E2) as Hr. destruct (life_started _ _ _ _ _ E1) as (Hs & _ & Ht & _).
  assert (Hsteady : steady 1200 (c_world (ended l))).
  { intros n _. unfold reading. rewrite <- (re_time _ _ _ Hr). destruct (life_started _ _ _ _ _ E2) as (_ & _ & -> & _). reflexivity. }
  assert (Hsteady' : steady 1200 (l_start l')).
  { intros n _. unfold reading. destruct (life_started _ _ _ _ _ E2) as (_ & _ & -> & _). reflexivity. }
  destruct (proj1 (introspect_reports _ _ _ _ _ _ Hsteady) Hi) as (_ & t & c & Ha & Hc & _).
  destruct (proj1 (introspect_reports _ _ _ _ _ _ Hsteady') Hi') as (_ & t' & c' & Ha' & Hc' & _).
  destruct (started_finds _ _ Hs) as [Hc1 _]. destruct (started_finds _ _ (re_started _ _ _ Hr)) as [Hc2 _].
  destruct (restarted_keys _ _ _ Hs Hr) as [_ Hcl].
  assert (Hend : introspection_endpoint (l_state l') = introspection_endpoint (l_state l))
    by (unfold introspection_endpoint, base; rewrite Hc1, Hc2; reflexivity).
  rewrite Hend in Ha'.
  apply (asks_same (l_state l') (l_state l)) in Ha'; [|by rewrite Hc1, Hc2|by rewrite Hcl].
  destruct (asks_fun _ _ _ _ _ _ _ _ _ Ha Ha') as [<- <-].
  assert (t = "ab.ab.ab") as ->.
  { destruct Ha as [(form & Hf & Hq & _)]. rewrite Hc1 in Hq.
    vm_compute in Hf. injection Hf as <-. vm_compute in Hq. injection Hq as <-. reflexivity. }
  exists l, l'. split; [exact Hret|]. split; [exact Hr|]. unfold told.
  apply (restart_forgets_revocations (W := unit) config l l' 1200 toy_headers asking "ab.ab.ab" c listed_token 1400).
  - exact Hs.
  - exact Hr.
  - exact Hpub.
  - exact Hsteady.
  - split; [exact Hv|]. unfold live, issued_here. rewrite Hc1. vm_compute.
    split_and!; try discriminate; try reflexivity. eexists. reflexivity.
  - exact Hk.
  - lia.
  - exact Ha.
  - exact Hc.
  - exact Hc'.
Defined.
End RestartToy.
