(* ===== verification/HttpLifecycle.v ===== *)
(** A token through the server that minted it: introspection takes back what
    the token endpoint has signed.

    The two handlers meet through the signer's interface
    [JoseSigners.JoseSignerRoundtrip] and the published key set. *)

From S2P Require Import Prelude RustStr Json Url Core Replay Jose JoseSigners Verify Config Dpop.
From S2P Require Import HttpForms HttpState HttpToken HttpToy HttpExchange HttpServer HttpBootstrap.
From Stdlib Require Import Ascii.

Section Lifecycle.
Context {Sg St : Type} `{JoseSignerRoundtrip Sg} `{ReplayStore St} `{HttpLib} `{UrlLib} `{DpopLib} `{JsonReader}
  `{Sha256} `{FromJson SubjectTokenClaims} `{FromJson AssertionClaims}.
Context (state : HttpState Sg).

(** ** What the token endpoint has signed *)

Lemma minted_evidence headers body (w : World St) h resp w' :
  token headers state body w = (Ok (h, resp), w') ->
  exists request ex now until jti who act,
    exchange_verified state headers request w ex /\ who ∈ actor_ids (config state) ∪ client_ids (config state) /\
    sign_claims (signer state) (minted_payload state ex now
      (minted_exp now (scoped_token_ttl (config state)) (st_exp (ve_subject_claims ex)) until) jti who act)
    = Ok (tr_access_token resp).
Proof.
  intros Ht. unfold token in Ht. destruct (token_inner headers state body w) as [r w0] eqn:Hr. injection Ht as -> _.
  apply token_inner_cases in Hr as [(_ & e & ?)|(form & ex & w1 & _ & _ & Hx & _ & Hr)]; [done|].
  destruct (effective_exchange_mode _ _ _).
  - apply delegation_ok in Hr as (t & ac & wa & d & now & w2 & prior & jti & s1 & w3 & _ & _ & Ha & _ & _ & _ & _ & _ & _ & _ & _ & _ & Hm).
    apply mint_ok in Hm as (_ & _ & j & token & Hs & ->). do 7 eexists. split; [exact Hx|]. split; [|exact Hs].
    by apply elem_of_union_l.
  - apply impersonation_ok in Hr as (cc & d & now & w2 & w3 & _ & Hc & _ & _ & _ & _ & w4 & _ & Hm).
    apply mint_ok in Hm as (_ & _ & j & token & Hs & ->). do 7 eexists. split; [exact Hx|]. split; [|exact Hs].
    destruct (xv_client _ _ _ _ _ Hx _ Hc) as (wa & wb & _ & Hv). by apply elem_of_union_r, (verify_client_ok _ _ _ _ _ _ Hv).
Qed.

(** What was signed is a token of this server. *)
Lemma payload_issued_here headers request (w : World St) ex now exp jti who act v :
  exchange_verified state headers request w ex -> trim who <> "" ->
  v_claims v = minted_payload state ex now exp jti who act -> v_typ v = Some "at+jwt" -> issued_here state v.
Proof.
  intros [_ [_ Hsub] _ (policy & subject & Hp & _ & Hne & _) _ _] Hw Hc Ht. unfold issued_here. rewrite Hc. cbn.
  split_and!; [done|done|by eexists|done|done|]. intros Hb. apply Hne. by apply blank_no_tokens.
Qed.

(** ** Introspection of a token that verifies *)

(** A token whose key is not on the list is not revoked. *)
Lemma not_on_list t now (r : RevocationState) :
  m_poisoned r = false -> m_value r !! revocation_key t = None -> (is_revoked_or_unavailable t now r).1 = false.
Proof.
  intros Hp Hn. unfold is_revoked_or_unavailable, lock. rewrite Hp. cbn. unfold sweep_revoked.
  by rewrite map_lookup_filter, Hn.
Qed.

(** The times of a token at an instant. *)
Definition in_time (c : MintedClaims) (now : Z) : bool :=
  negb ((mc_exp c <=? now)%Z || (i64_add now (cfg_clock_skew_leeway (config state)) <? mc_iat c)%Z).

Lemma response_in_time t now (w : World St) v :
  verify_claims_against_jwks_with_header t (published_jwks state) = Ok v -> issued_here state v ->
  m_poisoned (w_revocations w) = false -> m_value (w_revocations w) !! revocation_key t = None ->
  (introspection_response_for_token state t now w).1 =
    Ok (if in_time (v_claims v) now then introspection_body (v_claims v) else inactive).
Proof.
  intros Hv Hh Hp Hn. unfold introspection_response_for_token.
  destruct (verified_token_cases state t now true w v Hv) as [[Hl ->]|[(_ & He & Hi) ->]].
  - cbn. replace (in_time (v_claims v) now) with false; [done|]. symmetry. unfold in_time. apply negb_false_iff, orb_true_iff.
    destruct (Z.leb_spec (mc_exp (v_claims v)) now); [by left|right]. apply Z.ltb_lt. apply Z.nle_gt. intros Hi. by apply Hl.
  - pose proof (not_on_list t now _ Hp Hn) as Hr. destruct (is_revoked_or_unavailable _ _ _) as [b r]. cbn in Hr. subst b. cbn.
    unfold in_time. by rewrite (proj2 (Z.leb_gt _ _) He), (proj2 (Z.ltb_ge _ _) Hi).
Qed.

(** ** Properties *)

(** C7: the server takes back what it has minted: a token that the token endpoint
    has answered with is reported, to an authenticated client and while it is
    not on the revocation list, as active with the very claims that were signed,
    at every instant of its lifetime; before ([iat] beyond the leeway) and after
    it ([exp] reached) as inactive.  This holds for every signer that keeps the
    round-trip interface and whose key is found in the published set, and every
    configuration that loads. *)
Theorem minted_token_active (own : PublicJwk) (headers headers2 : HeaderMap) (body body2 : string) (w w' w2 w2' : World St)
    (h : HeaderMap) (resp : TokenResponse) (form : OnlineTokenForm) (out : HeaderMap * Value) :
  verifiable (signer state) -> public_jwks (signer state) = mkJwksDocument [own] ->
  find_jwk (jwk_kid own) (published_jwks state) = Some own -> config_ok (config state) ->
  token headers state body w = (Ok (h, resp), w') ->
  introspect headers2 state body2 w2 = (Ok out, w2') ->
  parse_online_token_form headers2 body2 = Ok form -> of_token form = Some (tr_access_token resp) ->
  m_poisoned (w_revocations w2) = false ->
  m_value (w_revocations w2) !! revocation_key (tr_access_token resp) = None ->
  exists c n, sign_claims (signer state) c = Ok (tr_access_token resp) /\ w_reads w2 <= n < w_reads w2' /\
    out.2 = if in_time c (reading w2 n) then introspection_body c else inactive.
Proof.
  intros Hok Hown Hfind Hcfg Hmint Hint Hf Ht Hp Hn.
  destruct (minted_evidence _ _ _ _ _ _ Hmint) as (request & ex & now & until & jti & who & act & Hx & Hw & Hs).
  destruct (signed_verifies _ _ _ _ _ Hok Hs Hown Hfind) as (v & Hv & Hc & Hty).
  pose proof (payload_issued_here _ _ _ _ _ _ _ _ _ v Hx (ok_ids _ Hcfg _ Hw) Hc Hty) as Hh.
  apply introspect_cases in Hint as [[_ (e & ?)]|(t1 & cc & n & w1 & b' & Hoc & Hi & Hout)]; [done|].
  injection Hout as ->. rewrite (online_token _ _ _ _ _ _ _ _ _ _ _ Hf Ht Hoc) in Hi. destruct Hoc as [_ _ Ho Hr].
  exists (v_claims v), n. split; [by rewrite Hc|]. rewrite <- (or_revocations _ _ Ho) in Hp, Hn.
  pose proof (response_in_time _ (reading w2 n) w1 v Hv Hh Hp Hn) as Hb. rewrite Hi in Hb. injection Hb as ->.
  split; [|done]. split; [lia|]. apply introspection_world in Hi as [->| ->]; cbn; lia.
Qed.
End Lifecycle.

(** What start-up guarantees of the signer, where its key is in a file. *)
Section StartUp.
Context `{BootFs} `{JsonText} `{JwkReader} `{Features} `{Base64Laws} `{SerdeJson} `{Asn1} `{AwsLcLaws} `{Sha256}
  `{Jwt} `{OpenSsl} `{UrlLib} `{FromJson CompactJwsHeader} `{FromJson MintedClaims} `{FromJson PrivateRsaJwk}
  `{FromJson PrivateAkpJwk} `{FromJson DiscoveryDocument} `{FromJson JwksDocument} {W : Type} `{HasHttp W}.
Context `{!JwtLaws} `{!OpenSslLaws} `{!HeaderLaws} `{!ClaimsLaws}.

(** a server that starts on a key in a file takes back what it signs: its signer
    keeps the round-trip interface, and the signer's key is the one found under
    its id in the published set. *)
Theorem start_up_takes_back (config : RuntimeConfig) (state : HttpState AnySigner) (shared : Shared AnyStore)
    (w w' : W) :
  build_state_from_config config w = (Ok (state, shared), w') -> sts_signing_provider config ∈ [""; "file"] ->
  verifiable (signer state) /\
  exists own, public_jwks (signer state) = mkJwksDocument [own] /\ find_jwk (jwk_kid own) (published_jwks state) = Some own.
Proof.
  unfold build_state_from_config. intros Hb Hp. ok_inv. cbn.
  match goal with Hl : load_signer _ = Ok _ |- _ => split; [by eapply load_file_verifiable|]; apply load_signer_ok in Hl;
    destruct (published_own _ _ _ Hl ltac:(eassumption)) as (_ & own & ? & _ & ?) end. by exists own.
Qed.
End StartUp.

(** * Examples *)

(** A server whose signer knows one set of claims, and its codec. *)
Module LifecycleToy.
Definition signed : MintedClaims :=
  mkMintedClaims "https://sts.example" "u" "https://api.example" "read" 1200 1300 "random" "k1" None None None None [].
Definition fields (c : MintedClaims) :=
  (mc_iss c, mc_sub c, mc_aud c, mc_scope c, mc_iat c, mc_exp c, (mc_jti c, mc_client_id c, mc_cnf_jkt c),
   (mc_auth_time c, mc_acr c, mc_amr c)).
Definition is_signed (c : MintedClaims) : bool :=
  match mc_act c with None => bool_decide (fields c = fields signed) | Some _ => false end.

Lemma is_signed_eq c : is_signed c = true -> c = signed.
Proof.
  unfold is_signed. destruct c as [iss sub aud scope iat exp jti client act cnf time acr amr]. cbn [mc_act].
  destruct act; [done|]. intros Hf%bool_decide_eq_true. unfold fields in Hf. cbn in Hf. by simplify_eq.
Qed.

#[local] Instance claims_json : FromJson MintedClaims := fun bytes =>
  if bool_decide (bytes = "t.t.t") then Ok signed else Err "not a token of this server".
#[local] Instance signer : JoseSigner unit := {|
  signer_alg _ := "RS256";
  sign_claims _ c := if is_signed c then Ok "t.t.t" else Err (mkJoseError InvalidClaims "unknown claims");
  public_jwks _ := toy_jwks;
  verify_claims _ _ := Ok signed
|}.
#[local] Instance signer_roundtrip : JoseSignerRoundtrip unit.
Proof.
  refine {| verifiable _ := True |}. intros [] c token jwk jwks _ Hs [= <-] Hf. cbn in Hs.
  destruct (is_signed c) eqn:Hc; [|done]. apply is_signed_eq in Hc as ->. injection Hs as <-.
  exists (mkVerifiedJws signed "RS256" "k1" (Some "at+jwt")). split; [|done].
  unfold verify_claims_against_jwks_with_header, verify_claims_against_jwks_inner. cbn in Hf |- *.
  change (decode_compact_jws_header "t.t.t")
    with (Ok (E := JoseError) (mkCompactJwsHeader "RS256" (Some "k1") (Some "at+jwt"))). cbn [res_bind ok_or h_kid].
  rewrite Hf. vm_compute. reflexivity.
Defined.

Lemma toy_config_ok : config_ok toy_config.
Proof.
  split; try (by vm_compute; split; discriminate); try (vm_compute; discriminate).
  - split; [i64_tac|vm_compute; discriminate].
  - split; [i64_tac|vm_compute; discriminate].
  - cbn. intros id [->%elem_of_singleton| ->%elem_of_singleton]%elem_of_union; done.
  - cbn. split_and!; [done|apply NoDup_singleton|]. repeat constructor.
Qed.

#[local] Notation minted := (token toy_headers toy_state client_body (toy_world 1200)).
Definition ask : string := online_body "d.d.d".
#[local] Notation asked := (introspect toy_headers toy_state ask minted.2).

Lemma minted_run : minted = (Ok (token_headers, toy_response), minted.2).
Proof. rewrite (surjective_pairing minted) at 1. f_equal; vm_compute; reflexivity. Qed.
Lemma asked_run : asked = (Ok (token_headers, introspection_body signed), asked.2).
Proof. rewrite (surjective_pairing asked) at 1. f_equal; vm_compute; reflexivity. Qed.

Definition ask_form : OnlineTokenForm :=
  match parse_online_token_form toy_headers ask with Ok f => f | Err _ => default_online_form end.

Lemma minted_token_active_witness :
  minted.1 = Ok (token_headers, toy_response) /\ asked.1 = Ok (token_headers, introspection_body signed) /\
  exists c n, sign_claims (HttpState.signer toy_state) c = Ok "t.t.t" /\
    introspection_body signed = if in_time toy_state c (reading minted.2 n) then introspection_body c else inactive.
Proof.
  split; [vm_compute; reflexivity|]. split; [vm_compute; reflexivity|].
  destruct (minted_token_active toy_state Toy.rsa_jwk toy_headers toy_headers client_body ask (toy_world 1200) minted.2
              minted.2 asked.2 token_headers toy_response ask_form (token_headers, introspection_body signed))
    as (c & n & Hs & _ & Hout).
  - exact I.
  - reflexivity.
  - reflexivity.
  - exact toy_config_ok.
  - exact minted_run.
  - exact asked_run.
  - vm_compute. reflexivity.
  - vm_compute. reflexivity.
  - vm_compute. reflexivity.
  - vm_compute. reflexivity.
  - exists c, n. split; [exact Hs|exact Hout].
Defined.
End LifecycleToy.
