(* ===== verification/CliIo.v ===== *)
(** crates/sts-cli: the system calls that the commands make.

    A command is a program over system calls, a tree whose branches are the
    answers.  What a call does to the files, and how it may fail, is [sys]; one
    run follows one stream of outcomes, and several processes interleave call by
    call.  A crash is a run that stops early, so a statement about every state
    on the way covers crashes. *)

From S2P Require Import Prelude RustStr.
From Stdlib Require Import Ascii.

(** * Calls *)

(** [std::io::Error]: whether its kind is [NotFound], and its text. *)
Record IoError : Type := mkIoError { io_not_found : bool; io_text : string }.

Record File : Type := mkFile { f_content : string; f_mode : Z }.

(** The regular files; directories are not kept, and two names are two files. *)
Notation Fs := (gmap string File).

(** A response: its status and, when it could be read, its text. *)
Record HttpReply : Type := mkHttpReply { reply_status : Z; reply_text : result string string }.

Inductive Sys : Type -> Type :=
| ReadToString (path : string) : Sys (result IoError string)
| CreateDirAll (path : string) : Sys (result IoError unit)
| OpenNew (path : string) (mode : Z) : Sys (result IoError unit)
| WriteSync (path text : string) : Sys (result IoError unit)
| SetMode (path : string) (mode : Z) : Sys (result IoError unit)
| Rename (from to : string) : Sys (result IoError unit)
| RemoveFile (path : string) : Sys (result IoError unit)
| SyncDir (path : string) : Sys (result IoError unit)
| PathExists (path : string) : Sys bool
| SinceEpoch : Sys (result string Z)
| ProcessId : Sys Z
| RandomBytes : Sys (result string string)
| OsRngBytes : Sys string
| HttpSend (post : bool) (url : string) (headers : list (string * string)) (body : string)
    : Sys (result string HttpReply).

(** What the environment decides in one call: whether it fails, how much of a
    failing write reached the file, the clock in nanoseconds, and so on.
    [OsRngBytes] draws from a source that panics when it fails; a panic ends the
    run like a crash. *)
Record Outcome : Type := mkOutcome {
  o_fault : option string;
  o_written : nat;
  o_umask : Z;
  o_clock : result string Z;
  o_pid : Z;
  o_random : result string string;
  o_rng : string;
  o_reply : result string HttpReply
}.

Definition not_found : IoError := mkIoError true "No such file or directory (os error 2)".
Definition already_exists : IoError := mkIoError false "File exists (os error 17)".

Definition unless_fault {X} (o : Outcome) (fs : Fs) (x : result IoError X * Fs) : result IoError X * Fs :=
  match o_fault o with Some e => (Err (mkIoError false e), fs) | None => x end.

(** One system call.  [OpenNew] is [O_CREAT | O_EXCL]; [WriteSync] writes to a
    file just opened, under the name it was opened with, and syncs it. *)
Definition sys {X} (c : Sys X) (o : Outcome) (fs : Fs) : X * Fs :=
  match c in Sys X return X * Fs with
  | ReadToString p =>
      unless_fault o fs (match fs !! p with Some f => (Ok (f_content f), fs) | None => (Err not_found, fs) end)
  | CreateDirAll _ => unless_fault o fs (Ok tt, fs)
  | OpenNew p mode =>
      unless_fault o fs
        (match fs !! p with
         | Some _ => (Err already_exists, fs)
         | None => (Ok tt, <[p := mkFile "" (Z.land mode (Z.lnot (o_umask o)))]> fs)
         end)
  | WriteSync p text =>
      let put content := match fs !! p with
                         | Some f => <[p := mkFile content (f_mode f)]> fs
                         | None => fs
                         end in
      match o_fault o with
      | Some e => (Err (mkIoError false e), put (String.substring 0 (o_written o) text))
      | None => (Ok tt, put text)
      end
  | SetMode p mode =>
      unless_fault o fs
        (match fs !! p with
         | Some f => (Ok tt, <[p := mkFile (f_content f) mode]> fs)
         | None => (Err not_found, fs)
         end)
  | Rename p q =>
      unless_fault o fs
        (match fs !! p with
         | Some f => (Ok tt, <[q := f]> (delete p fs))
         | None => (Err not_found, fs)
         end)
  | RemoveFile p =>
      unless_fault o fs
        (match fs !! p with Some _ => (Ok tt, delete p fs) | None => (Err not_found, fs) end)
  | SyncDir _ => unless_fault o fs (Ok tt, fs)
  | PathExists p => (match o_fault o with Some _ => false | None => opt_is_some (fs !! p) end, fs)
  | SinceEpoch => (o_clock o, fs)
  | ProcessId => (o_pid o, fs)
  | RandomBytes => (o_random o, fs)
  | OsRngBytes => (o_rng o, fs)
  | HttpSend _ _ _ _ => (o_reply o, fs)
  end.

(** * Programs *)

Inductive Io (A : Type) : Type :=
| Ret (a : A)
| Call {X : Type} (c : Sys X) (k : X -> Io A).
Arguments Ret {A} a.
Arguments Call {A X} c k.

Fixpoint io_bind {A B} (m : Io A) (f : A -> Io B) : Io B :=
  match m with
  | Ret a => f a
  | Call c k => Call c (fun x => io_bind (k x) f)
  end.

Definition io_call {X} (c : Sys X) : Io X := Call c Ret.

(** [?] on a program that returns a [Result]. *)
Definition io_try {E A B} (m : Io (result E A)) (f : A -> Io (result E B)) : Io (result E B) :=
  io_bind m (fun r => match r with Ok a => f a | Err e => Ret (Err e) end).

Definition io_map_err {E F A} (f : E -> F) (m : Io (result E A)) : Io (result F A) :=
  io_bind m (fun r => Ret (map_err f r)).

Notation "'run!' x '<-' c 'in' k" := (io_bind c (fun x => k))
  (at level 10, x pattern, c at level 200, k at level 200) : rust_scope.
Notation "'try!' x '<-' c 'in' k" := (io_try c (fun x => k))
  (at level 10, x pattern, c at level 200, k at level 200) : rust_scope.
Notation "'try?' x '<-' c 'in' k" := (io_try (Ret c) (fun x => k))
  (at level 10, x pattern, c at level 200, k at level 200) : rust_scope.

(** A run from the [n]-th outcome on. *)
Fixpoint run {A} (m : Io A) (outs : nat -> Outcome) (n : nat) (fs : Fs) : A * Fs :=
  match m with
  | Ret a => (a, fs)
  | Call c k => let '(x, fs') := sys c (outs n) fs in run (k x) outs (S n) fs'
  end.

(** The states of the files during a run; a crash leaves one of them. *)
Fixpoint states {A} (m : Io A) (outs : nat -> Outcome) (n : nat) (fs : Fs) : list Fs :=
  fs :: match m with
        | Ret _ => []
        | Call c k => let '(x, fs') := sys c (outs n) fs in states (k x) outs (S n) fs'
        end.

(** A request that a run has sent, and what came back. *)
Record Sent : Type := mkSent {
  sent_post : bool;
  sent_url : string;
  sent_headers : list (string * string);
  sent_body : string;
  sent_reply : result string HttpReply
}.

Definition sent {X} (c : Sys X) (o : Outcome) : list Sent :=
  match c with
  | HttpSend post url headers body => [mkSent post url headers body (o_reply o)]
  | _ => []
  end.

(** The requests of a run, in their order. *)
Fixpoint sends {A} (m : Io A) (outs : nat -> Outcome) (n : nat) (fs : Fs) : list Sent :=
  match m with
  | Ret _ => []
  | Call c k => let '(x, fs') := sys c (outs n) fs in sent c (outs n) ++ sends (k x) outs (S n) fs'
  end.

(** * Paths *)

(** The pieces of a path between its slashes, without the empty and ["."]
    pieces at the end: [Path::components] passes over them. *)
Fixpoint trim_pieces (l : list string) : list string :=
  match l with
  | [] => []
  | [x] => [x]
  | x :: rest =>
      match trim_pieces rest with
      | [y] => if (is_empty y || bool_decide (y = "."))%bool then [x] else [x; y]
      | rest' => x :: rest'
      end
  end.

Definition path_pieces (path : string) : list string := trim_pieces (split_char "/"%char path).

(** [Path::parent] on Unix. *)
Definition path_parent (path : string) : option string :=
  let pieces := path_pieces path in
  match pieces with
  | [] => None
  | [x] => if is_empty x then None else Some ""
  | _ =>
      match trim_pieces (removelast pieces) with
      | [x] => Some (if is_empty x then "/" else x)
      | rest => Some (join "/" rest)
      end
  end.

(** [Path::file_name]. *)
Definition path_file_name (path : string) : option string :=
  match last (path_pieces path) with
  | Some x => if bool_decide (x ∈ [""; "."; ".."]) then None else Some x
  | None => None
  end.

Example parent_plain : path_parent "secrets//key.json" = Some "secrets".
Proof. reflexivity. Qed.
Example parent_root : path_parent "/key.json" = Some "/".
Proof. reflexivity. Qed.
Example parent_bare : path_parent "key.json" = Some "".
Proof. reflexivity. Qed.
Example parent_dot : path_parent "./a/./b/." = Some "./a".
Proof. reflexivity. Qed.
Example parent_none : (path_parent "", path_parent "//") = (None, None).
Proof. reflexivity. Qed.
Example name_trailing : (path_file_name "a/b/", path_file_name "a/..") = (Some "b", None).
Proof. reflexivity. Qed.

(** * Several processes *)

Record Pool (A : Type) : Type := mkPool { pool_fs : Fs; pool_procs : list (Io A) }.
Arguments mkPool {A}.
Arguments pool_fs {A}.
Arguments pool_procs {A}.

(** One call of one process, with an outcome that [ok] admits. *)
Inductive pool_step {A} (ok : Outcome -> Prop) : Pool A -> Pool A -> Prop :=
| pool_call s i X (c : Sys X) k o :
    pool_procs s !! i = Some (Call c k) -> ok o ->
    pool_step ok s (mkPool (sys c o (pool_fs s)).2 (<[i := k (sys c o (pool_fs s)).1]> (pool_procs s))).

(** * Reasoning about one process *)

(** With the outcomes that [ok] admits, [I] holds of every state of the files on
    the way and [Q] of the result. *)
Fixpoint always {A} (ok : Outcome -> Prop) (I : Fs -> Prop) (Q : A -> Fs -> Prop) (m : Io A) (fs : Fs) : Prop :=
  I fs /\
  match m with
  | Ret a => Q a fs
  | Call c k => forall o, ok o -> always ok I Q (k (sys c o fs).1) (sys c o fs).2
  end.

Definition any_outcome (o : Outcome) : Prop := True.

Section Always.
Context {ok : Outcome -> Prop} {I : Fs -> Prop}.

Lemma always_now {A} (Q : A -> Fs -> Prop) m fs : always ok I Q m fs -> I fs.
Proof. destruct m; simpl; by intros []. Qed.

Lemma always_ret {A} (Q : A -> Fs -> Prop) a fs : I fs -> Q a fs -> always ok I Q (Ret a) fs.
Proof. by split. Qed.

Lemma always_mono {A} (Q Q' : A -> Fs -> Prop) m fs :
  (forall a fs, I fs -> Q a fs -> Q' a fs) -> always ok I Q m fs -> always ok I Q' m fs.
Proof.
  intros HQ. revert fs. induction m as [a|X c k IH]; simpl; intros fs [Hi Hm]; split; auto.
Qed.

Lemma always_bind {A B} (Q : B -> Fs -> Prop) (m : Io A) (f : A -> Io B) fs :
  always ok I (fun a fs' => always ok I Q (f a) fs') m fs -> always ok I Q (io_bind m f) fs.
Proof.
  revert fs. induction m as [a|X c k IH]; simpl; intros fs; [by intros []|].
  intros [Hi Hm]. split; auto.
Qed.

Lemma always_try {E A B} (Q : result E B -> Fs -> Prop) (m : Io (result E A)) (f : A -> Io (result E B)) fs :
  always ok I (fun r fs' => match r with Ok a => always ok I Q (f a) fs' | Err e => Q (Err e) fs' end) m fs ->
  always ok I Q (io_try m f) fs.
Proof.
  intros Hm. apply always_bind. eapply always_mono; [|exact Hm].
  intros [a|e] fs' Hi Hq; simpl; auto.
Qed.

Lemma always_call {X} (Q : X -> Fs -> Prop) (c : Sys X) fs :
  I fs -> (forall o, ok o -> I (sys c o fs).2 /\ Q (sys c o fs).1 (sys c o fs).2) ->
  always ok I Q (io_call c) fs.
Proof. intros Hi Hc. split; [done|]. intros o Ho. by apply Hc. Qed.

Lemma always_run {A} (Q : A -> Fs -> Prop) m outs n fs :
  (forall j, ok (outs j)) -> always ok I Q m fs -> Q (run m outs n fs).1 (run m outs n fs).2.
Proof.
  intros Hok. revert n fs. induction m as [a|X c k IH]; simpl; intros n fs [Hi Hm]; [done|].
  specialize (Hm (outs n) (Hok n)). destruct (sys c (outs n) fs) as [x fs']. by apply IH.
Qed.

Lemma always_states {A} (Q : A -> Fs -> Prop) m outs n fs :
  (forall j, ok (outs j)) -> always ok I Q m fs -> Forall I (states m outs n fs).
Proof.
  intros Hok. revert n fs. induction m as [a|X c k IH]; simpl; intros n fs [Hi Hm]; [by repeat constructor|].
  constructor; [done|]. specialize (Hm (outs n) (Hok n)). destruct (sys c (outs n) fs) as [x fs']. by apply IH.
Qed.
End Always.

(** * A lock *)

(** A process that respects the lock file [lock].  Outside ([None]) its calls
    leave the files alone, up to the one that creates the lock; inside
    ([Some fs], the files as they are) each of its calls keeps [I], and it goes
    outside again with a last call that may take the lock away. *)
Fixpoint respects (lock : string) (ok : Outcome -> Prop) (I : Fs -> Prop) {A} (at_ : option Fs) (m : Io A) : Prop :=
  match m with
  | Ret _ => True
  | Call c k =>
      match at_ with
      | None => forall o fs, ok o -> I fs ->
          (sys c o fs).2 = fs /\ respects lock ok I None (k (sys c o fs).1)
          \/ fs !! lock = None /\ I (sys c o fs).2 /\ is_Some ((sys c o fs).2 !! lock) /\
             respects lock ok I (Some (sys c o fs).2) (k (sys c o fs).1)
      | Some fs => forall o, ok o ->
          I (sys c o fs).2 /\
          (is_Some ((sys c o fs).2 !! lock) /\ respects lock ok I (Some (sys c o fs).2) (k (sys c o fs).1)
           \/ respects lock ok I None (k (sys c o fs).1))
      end
  end.

(** At most one process is inside, and then the lock is there. *)
Definition guarded {A} (lock : string) (ok : Outcome -> Prop) (I : Fs -> Prop) (s : Pool A) : Prop :=
  I (pool_fs s) /\
  exists inside : option nat,
    (is_Some inside -> is_Some (pool_fs s !! lock)) /\
    forall i m, pool_procs s !! i = Some m ->
      respects lock ok I (if decide (inside = Some i) then Some (pool_fs s) else None) m.

Lemma guarded_step {A} lock ok I (s s' : Pool A) :
  guarded lock ok I s -> pool_step ok s s' -> guarded lock ok I s'.
Proof.
  intros (Hi & inside & Hlock & Hall) Hstep. destruct Hstep as [s i X c k o Hm Ho].
  pose proof (Hall i _ Hm) as Hr. unfold guarded. cbn [pool_fs pool_procs].
  assert (Hother : forall fs' inside', (forall j, j <> i -> inside' = Some j -> inside = Some j /\ fs' = pool_fs s) ->
            (forall j, j <> i -> inside = Some j -> inside' = Some j) ->
            respects lock ok I (if decide (inside' = Some i) then Some fs' else None) (k (sys c o (pool_fs s)).1) ->
            forall j m, <[i := k (sys c o (pool_fs s)).1]> (pool_procs s) !! j = Some m ->
              respects lock ok I (if decide (inside' = Some j) then Some fs' else None) m).
  { intros fs' inside' H1 H2 Hk j m Hj. apply list_lookup_insert_Some in Hj as [(<- & <- & _)|[Hne Hj]]; [done|].
    specialize (Hall j m Hj). destruct (decide (inside' = Some j)) as [Hin|Hout].
    - destruct (H1 j ltac:(congruence) Hin) as [Hin' ->]. by rewrite decide_True in Hall.
    - rewrite decide_False in Hall; [done|]. intros Hin. apply Hout, H2; congruence. }
  destruct (decide (inside = Some i)) as [->|Hout].
  - destruct (Hr o Ho) as [Hi' [[Hl Hk]|Hk]]; (split; [done|]).
    + exists (Some i). split; [done|]. apply Hother; [congruence|congruence|]. by rewrite decide_True.
    + exists None. split; [by intros []|]. apply Hother; [congruence|congruence|done].
  - destruct (Hr o (pool_fs s) Ho Hi) as [[Heq Hk]|(Hfree & Hi' & Hl & Hk)].
    + rewrite Heq. split; [done|]. exists inside. split; [done|].
      apply Hother; [done|done|]. by rewrite decide_False.
    + assert (inside = None) as ->.
      { destruct inside; [|done]. destruct (Hlock ltac:(done)) as [? ?]. congruence. }
      split; [done|]. exists (Some i). split; [done|]. apply Hother; [congruence|congruence|]. by rewrite decide_True.
Qed.

Lemma guarded_reachable {A} lock ok I (s s' : Pool A) :
  guarded lock ok I s -> rtc (pool_step ok) s s' -> I (pool_fs s').
Proof.
  intros Hg Hr. assert (guarded lock ok I s') as [Hi _]; [|done].
  induction Hr as [s|s1 s2 s3 Hs _ IH]; [done|]. eauto using guarded_step.
Qed.

Lemma guarded_start {A} lock ok I fs (procs : list (Io A)) :
  I fs -> Forall (respects lock ok I None) procs -> guarded lock ok I (mkPool fs procs).
Proof.
  intros Hi Hp. split; [done|]. exists None. split; [by intros []|].
  intros i m Hm. cbn. by eapply Forall_lookup_1 in Hp.
Qed.

(** What a process does inside, followed by its last call. *)
Lemma respects_inside {A B} lock ok I (Q : A -> Fs -> Prop) (m : Io A) (f : A -> Io B) fs :
  always ok (fun fs => I fs /\ is_Some (fs !! lock)) Q m fs ->
  (forall a fs, I fs -> is_Some (fs !! lock) -> Q a fs -> respects lock ok I (Some fs) (f a)) ->
  respects lock ok I (Some fs) (io_bind m f).
Proof.
  intros Hm Hf. revert fs Hm. induction m as [a|X c k IH]; intros fs [[Hi Hl] Hm]; cbn [io_bind]; [by apply Hf|].
  intros o Ho. specialize (Hm o Ho). pose proof (always_now _ _ _ Hm) as [Hi' Hl']. eauto.
Qed.

(** A run of one process of a pool, while the others wait. *)
Lemma run_in_pool {A} ok (m : Io A) outs n fs procs i :
  (forall j, ok (outs j)) -> procs !! i = Some m ->
  rtc (pool_step ok) (mkPool fs procs) (mkPool (run m outs n fs).2 (<[i := Ret (run m outs n fs).1]> procs)).
Proof.
  intros Hok. revert n fs procs. induction m as [a|X c k IH]; intros n fs procs Hi.
  - cbn [run fst snd]. rewrite list_insert_id by done. apply rtc_refl.
  - pose proof (pool_call ok (mkPool fs procs) i X c k (outs n) Hi (Hok n)) as Hstep.
    cbn [run pool_fs pool_procs] in *. destruct (sys c (outs n) fs) as [x fs']. cbn [fst snd] in Hstep.
    eapply rtc_l; [exact Hstep|]. set (r := run (k x) outs (S n) fs'). rewrite <- (list_insert_insert_eq procs i (Ret r.1) (k x)).
    apply IH. apply list_lookup_insert_eq. by eapply lookup_lt_Some.
Qed.

(** A run of one process is a run of the pool that holds it alone. *)
Lemma run_reachable {A} ok (m : Io A) outs n fs :
  (forall j, ok (outs j)) ->
  rtc (pool_step ok) (mkPool fs [m]) (mkPool (run m outs n fs).2 [Ret (run m outs n fs).1]).
Proof. intros Hok. exact (run_in_pool ok m outs n fs [m] 0 Hok eq_refl). Qed.

(** * Reasoning about what a process sends *)

Lemma run_bind {A B} (m : Io A) (f : A -> Io B) outs n fs : exists n',
  run (io_bind m f) outs n fs = run (f (run m outs n fs).1) outs n' (run m outs n fs).2 /\
  sends (io_bind m f) outs n fs = sends m outs n fs ++ sends (f (run m outs n fs).1) outs n' (run m outs n fs).2.
Proof.
  revert n fs. induction m as [a|X c k IH]; intros n fs; [by exists n|]. cbn [io_bind run sends].
  destruct (sys c (outs n) fs) as [x fs']. destruct (IH x (S n) fs') as (n' & Hr & Hs). exists n'.
  split; [exact Hr|]. by rewrite Hs, app_assoc.
Qed.

(** Whatever its calls meet, [m] leaves the files [fs] as they are, and [Q] holds
    of its result and of the requests that it has sent. *)
Definition tells {A} (fs : Fs) (m : Io A) (Q : A -> list Sent -> Prop) : Prop :=
  forall outs n, (run m outs n fs).2 = fs /\ Q (run m outs n fs).1 (sends m outs n fs).

Section Tells.
Context {fs : Fs}.

Lemma tells_ret {A} (a : A) (Q : A -> list Sent -> Prop) : Q a [] -> tells fs (Ret a) Q.
Proof. intros Hq outs n. by split. Qed.

Lemma tells_mono {A} (m : Io A) (Q Q' : A -> list Sent -> Prop) :
  tells fs m Q -> (forall a log, Q a log -> Q' a log) -> tells fs m Q'.
Proof. intros Hm HQ outs n. destruct (Hm outs n). auto. Qed.

Lemma tells_bind {A B} (m : Io A) (f : A -> Io B) (P : A -> list Sent -> Prop) (Q : B -> list Sent -> Prop) :
  tells fs m P -> (forall a log, P a log -> tells fs (f a) (fun b log' => Q b (log ++ log'))) ->
  tells fs (io_bind m f) Q.
Proof.
  intros Hm Hf outs n. destruct (run_bind m f outs n fs) as (n' & -> & ->).
  destruct (Hm outs n) as [Hfs HP]. rewrite Hfs. exact (Hf _ _ HP outs n').
Qed.

Lemma tells_call {X} (c : Sys X) (Q : X -> list Sent -> Prop) :
  (forall o, (sys c o fs).2 = fs /\ Q (sys c o fs).1 (sent c o)) -> tells fs (io_call c) Q.
Proof.
  intros Hc outs n. destruct (Hc (outs n)) as [Hfs Hq]. cbn. destruct (sys c (outs n) fs) as [x fs']. cbn in *.
  by rewrite app_nil_r.
Qed.
(** The same of a program that may fail, when it does not. *)
Definition succeeds {E A} (m : Io (result E A)) (Q : A -> list Sent -> Prop) : Prop :=
  tells fs m (fun r log => forall a, r = Ok a -> Q a log).

Lemma succeeds_ret {E A} (r : result E A) Q : (forall a, r = Ok a -> Q a []) -> succeeds (Ret r) Q.
Proof. intros Hq. by apply tells_ret. Qed.

Lemma succeeds_mono {E A} (m : Io (result E A)) (Q Q' : A -> list Sent -> Prop) :
  succeeds m Q -> (forall a log, Q a log -> Q' a log) -> succeeds m Q'.
Proof. intros Hm HQ. eapply tells_mono; [exact Hm|]. auto. Qed.

Lemma succeeds_bind {E A B} (m : Io A) (f : A -> Io (result E B)) P Q :
  tells fs m P -> (forall a log, P a log -> succeeds (f a) (fun b log' => Q b (log ++ log'))) ->
  succeeds (io_bind m f) Q.
Proof. exact (tells_bind m f P (fun r log => forall b, r = Ok b -> Q b log)). Qed.

Lemma succeeds_try {E A B} (m : Io (result E A)) (f : A -> Io (result E B)) P Q :
  succeeds m P -> (forall a log, P a log -> succeeds (f a) (fun b log' => Q b (log ++ log'))) ->
  succeeds (io_try m f) Q.
Proof.
  intros Hm Hf. eapply succeeds_bind; [exact Hm|]. intros [a|e] log HP; [by apply Hf, HP|by apply succeeds_ret].
Qed.

(** A first part that sends nothing. *)
Lemma succeeds_quiet {E A B} (m : Io (result E A)) (f : A -> Io (result E B)) (P : A -> Prop) Q :
  succeeds m (fun a log => log = [] /\ P a) -> (forall a, P a -> succeeds (f a) Q) -> succeeds (io_try m f) Q.
Proof. intros Hm Hf. eapply succeeds_try; [exact Hm|]. intros a log [-> HP]. by apply Hf. Qed.

Lemma succeeds_pure {E A B} (r : result E A) (f : A -> Io (result E B)) Q :
  (forall a, r = Ok a -> succeeds (f a) Q) -> succeeds (io_try (Ret r) f) Q.
Proof. intros Hf. apply (succeeds_quiet _ _ (fun a => r = Ok a)); [by apply succeeds_ret|exact Hf]. Qed.

Lemma succeeds_map_err {E F A} (g : E -> F) (m : Io (result E A)) Q : succeeds m Q -> succeeds (io_map_err g m) Q.
Proof.
  intros Hm. eapply succeeds_bind; [exact Hm|]. intros r log Hr. apply succeeds_ret.
  intros a Ha. rewrite app_nil_r. apply Hr.
  destruct r as [x|e]; cbn in Ha; [by injection Ha as ->|done].
Qed.

Lemma succeeds_read path :
  succeeds (io_call (ReadToString path)) (fun raw log => log = [] /\ exists f, fs !! path = Some f /\ raw = f_content f).
Proof.
  apply tells_call. intros o. cbn [sys sent]. unfold unless_fault.
  destruct (o_fault o); [done|]. destruct (fs !! path) as [f|]; [|done]. cbn [fst snd]. split; [done|]. intros raw [= <-]. eauto.
Qed.
End Tells.

(** * Reasoning about an undisturbed process *)

(** With the one outcome [o] in all its calls, [m] takes the files [fs] to [fs']
    and returns [a]. *)
Definition calmly {A} (o : Outcome) (m : Io A) (fs : Fs) (a : A) (fs' : Fs) : Prop :=
  forall n, run m (fun _ => o) n fs = (a, fs').

Section Calm.
Context {o : Outcome}.

Lemma calmly_ret {A} (a : A) fs : calmly o (Ret a) fs a fs.
Proof. done. Qed.

Lemma calmly_call {X} (c : Sys X) fs x fs' : sys c o fs = (x, fs') -> calmly o (io_call c) fs x fs'.
Proof. intros Hc n. unfold io_call. cbn [run]. by rewrite Hc. Qed.

Lemma calmly_bind {A B} (m : Io A) (f : A -> Io B) fs a fs1 b fs2 :
  calmly o m fs a fs1 -> calmly o (f a) fs1 b fs2 -> calmly o (io_bind m f) fs b fs2.
Proof.
  intros Hm Hf n. destruct (run_bind m f (fun _ => o) n fs) as (n' & -> & _). rewrite (Hm n). apply Hf.
Qed.

Lemma calmly_try {E A B} (m : Io (result E A)) (f : A -> Io (result E B)) fs a fs1 b fs2 :
  calmly o m fs (Ok a) fs1 -> calmly o (f a) fs1 b fs2 -> calmly o (io_try m f) fs b fs2.
Proof. intros Hm Hf. by eapply calmly_bind. Qed.

Lemma calmly_map_err {E F A} (g : E -> F) (m : Io (result E A)) fs a fs1 :
  calmly o m fs (Ok a) fs1 -> calmly o (io_map_err g m) fs (Ok a) fs1.
Proof. intros Hm. by eapply calmly_bind. Qed.
End Calm.
