(* ===== verification/CliText.v ===== *)
(** crates/sts-cli: what the commands print.  Control characters and secrets are
    taken out of every value that comes from a file or from the network;
    claims are printed by an allowlist, identities by a hash prefix. *)

From S2P Require Import Prelude RustStr Json Replay Jose Config HttpBootstrap.
From Stdlib Require Import Ascii SpecFloat.

Record CliError : Type := mkCliError { cli_code : Z; cli_message : string }.

Definition usage (message : string) : CliError := mkCliError 2 message.
Definition runtime (message : string) : CliError := mkCliError 1 message.

(** [impl Display for CliError]. *)
Definition cli_error_display (e : CliError) : string := cli_message e.

(** [From<BootstrapError> for CliError]. *)
Definition cli_error_of_bootstrap (value : BootstrapError) : CliError :=
  runtime (bootstrap_error_display value).

(** * Sanitizing *)

(** [char::is_ascii_graphic], or a space. *)
Definition printable (a : ascii) : bool :=
  ((32 <=? byte_val a) && (byte_val a <=? 126))%Z%bool.

(** A byte that continues a UTF-8 character. *)
Definition continuation (a : ascii) : bool :=
  ((128 <=? byte_val a) && (byte_val a <=? 191))%Z%bool.

Definition MAX_FIELD_LEN : nat := 120.

(** [value.chars().take(n)], every character that does not print as ['?']. *)
Fixpoint sanitize_chars (n : nat) (value : string) : string :=
  match value with
  | EmptyString => EmptyString
  | String a rest =>
      if continuation a then sanitize_chars n rest
      else match n with
           | O => EmptyString
           | S n' => String (if printable a then a else "?"%char) (sanitize_chars n' rest)
           end
  end.

(** [value.chars().count()]. *)
Fixpoint char_count (value : string) : nat :=
  match value with
  | EmptyString => 0
  | String a rest => if continuation a then char_count rest else S (char_count rest)
  end.

Definition sanitize (value : string) : string :=
  sanitize_chars MAX_FIELD_LEN value
  +:+ (if (MAX_FIELD_LEN <? char_count value)%nat then "..." else "").

(** A path is the text that [Path::display] prints. *)
Definition sanitize_path (path : string) : string := sanitize path.

Definition display_optional (value : option string) : string :=
  match value with Some v => sanitize v | None => "(absent)" end.

(** [str::trim_matches] with a predicate on characters, on ASCII text. *)
Fixpoint trim_start_by (p : ascii -> bool) (s : string) : string :=
  match s with
  | EmptyString => EmptyString
  | String a r => if p a then trim_start_by p r else s
  end.
Fixpoint trim_end_by (p : ascii -> bool) (s : string) : string :=
  match s with
  | EmptyString => EmptyString
  | String a r =>
      let r' := trim_end_by p r in
      if (is_empty r' && p a)%bool then EmptyString else String a r'
  end.

(** [char::is_ascii_alphanumeric], or a character of a compact JWT. *)
Definition jwt_char (a : ascii) : bool :=
  let n := byte_val a in
  ((48 <=? n) && (n <=? 57) || (65 <=? n) && (n <=? 90) || (97 <=? n) && (n <=? 122)
   || (n =? 45) || (n =? 95) || (n =? 46))%Z%bool.

(** [str::matches(c).count()]. *)
Fixpoint count_char (c : ascii) (s : string) : nat :=
  match s with
  | EmptyString => 0
  | String a r => if bool_decide (a = c) then S (count_char c r) else count_char c r
  end.

Definition looks_like_compact_jwt (value : string) : bool :=
  let trimmed := trim_end_by (fun a => negb (jwt_char a)) (trim_start_by (fun a => negb (jwt_char a)) value) in
  ((40 <? byte_len trimmed)%Z && (count_char "."%char trimmed =? 2)%nat)%bool.

Definition sanitize_oauth_text (value : string) : string :=
  join " " (map (fun part => if looks_like_compact_jwt part then "[redacted]" else part)
              (split_whitespace (sanitize value))).

(** [bytes[..8]] in hexadecimal; the digest has 32 bytes. *)
Definition sha256_hex_prefix `{Sha256} (value : string) : string :=
  hex_lower (String.substring 0 8 (sha256 value)).
Definition sha256_bytes_hex_prefix `{Sha256} (value : string) : string :=
  hex_lower (String.substring 0 8 (sha256 value)).

(** * Claims *)

(** [Value::get] of a member. *)
Definition value_get (name : string) (v : Value) : option Value :=
  match v with VObject o => map_get name o | _ => None end.

Definition insert_safe_string_claim (claims : Value) (name : string) (safe : Map) : Map :=
  match value_get name claims ≫= as_str with
  | Some value => map_insert name (VString (sanitize value)) safe
  | None => safe
  end.

Definition insert_safe_audience_claim (claims : Value) (safe : Map) : Map :=
  match value_get "aud" claims with
  | Some (VString value) => map_insert "aud" (VString (sanitize value)) safe
  | Some (VArray values) =>
      map_insert "aud" (VArray (map (fun s => VString (sanitize s)) (omap as_str values))) safe
  | _ => safe
  end.

(** [json!] of an [i64]. *)
Definition number (z : Z) : Value := VNumber (if (0 <=? z)%Z then PosInt z else NegInt z).

(** A member computed from a string. *)
Definition insert_mapped (name : string) (value : option string) (f : string -> string) (safe : Map) : Map :=
  match value with Some v => map_insert name (VString (f v)) safe | None => safe end.

Definition insert_number (name : string) (value : option Z) (safe : Map) : Map :=
  match value with Some z => map_insert name (number z) safe | None => safe end.

Definition safe_claims_summary `{Sha256} (claims : Value) : Value :=
  let str v := v ≫= as_str in
  let safe := insert_safe_string_claim claims "iss" [] in
  let safe := insert_safe_audience_claim claims safe in
  let safe := insert_safe_string_claim claims "scope" safe in
  let safe := insert_safe_string_claim claims "client_id" safe in
  let safe := insert_mapped "sub_sha256_prefix" (str (value_get "sub" claims)) sha256_hex_prefix safe in
  let safe := insert_mapped "jti_sha256_prefix" (str (value_get "jti" claims)) sha256_hex_prefix safe in
  let safe := insert_mapped "act_sub" (str (value_get "act" claims ≫= value_get "sub")) sanitize safe in
  let safe := insert_mapped "cnf_jkt_sha256_prefix" (str (value_get "cnf" claims ≫= value_get "jkt"))
                sha256_hex_prefix safe in
  let safe := insert_number "iat" (value_get "iat" claims ≫= as_i64) safe in
  let safe := insert_number "exp" (value_get "exp" claims ≫= as_i64) safe in
  VObject safe.

(** * Lines *)

(** Display of a JSON number that is not an integer. *)
Class FloatText : Type := f64_display : spec_float -> string.

Section Lines.
Context `{SerdeJson} `{FloatText}.

(** [serde_json::to_string] writes what [to_vec] writes. *)
Definition display_json_scalar (value : Value) : string :=
  match value with
  | VString value => sanitize value
  | VNumber (PosInt n) | VNumber (NegInt n) => to_string n
  | VNumber (Float f) => f64_display f
  | VBool b => if b then "true" else "false"
  | VArray _ | VObject _ =>
      match json_to_vec value with Ok text => sanitize text | Err _ => "(unrenderable)" end
  | VNull => "(absent)"
  end.

Definition member_lines (prefix : string) (names : list string) (o : Map) : string :=
  join "" (omap (fun name => option_map (fun value =>
    prefix +:+ name +:+ "=" +:+ display_json_scalar value +:+ newline) (map_get name o)) names).

Definition claim_names : list string :=
  ["iss"; "aud"; "scope"; "client_id"; "sub_sha256_prefix"; "jti_sha256_prefix"; "act_sub";
   "cnf_jkt_sha256_prefix"; "iat"; "exp"].

Definition claims_lines (safe : Map) : string :=
  match map_get "claims" safe with
  | Some (VObject claims) => member_lines "claims." claim_names claims
  | _ => ""
  end.

Definition render_exchange_map_lines (safe : Map) (raw_access_token : option string) : string :=
  member_lines ""
    ["exchange_status"; "http_status"; "error"; "error_description"; "token_type"; "issued_token_type";
     "scope"; "expires_in"; "access_token_sha256_prefix"; "jwt_signature_verified";
     "jwt_verification_source"; "jwt_header_alg"; "jwt_header_kid"; "jwt_header_typ";
     "dpop_cnf_jkt_matches_holder"; "dpop_holder_jkt_sha256_prefix"] safe
  +:+ claims_lines safe
  +:+ match raw_access_token with
      | Some token => "access_token=" +:+ token +:+ newline
      | None => ""
      end.

Definition render_token_verify_map_lines (safe : Map) : string :=
  member_lines ""
    ["token_verify_status"; "access_token_sha256_prefix"; "jwt_signature_verified";
     "jwt_verification_source"; "jwt_header_alg"; "jwt_header_kid"] safe
  +:+ claims_lines safe.

(** [to_string_pretty(value).unwrap_or_else(..)] and a line break. *)
Definition pretty_line (fallback : string) (value : Value) : string :=
  default fallback (res_ok (json_to_string_pretty value)) +:+ newline.
End Lines.

(** * Canary configuration *)

Definition canary_names : list string :=
  ["CANARY_STS_BASE_URL"; "CANARY_IDP_ISSUER"; "CANARY_EXPECTED_SUBJECT_AUD"; "CANARY_TARGET_AUDIENCE";
   "CANARY_TARGET_SCOPE"; "CANARY_ACTOR_ID"].

Definition render_canary_config_status (present : string -> bool) : string :=
  let missing := List.filter (fun name => negb (present name)) canary_names in
  let missing := missing ++ if (negb (present "CANARY_SUBJECT_TOKEN")
                                && negb (present "CANARY_SUBJECT_TOKEN_FILE"))%bool
                            then ["CANARY_SUBJECT_TOKEN or CANARY_SUBJECT_TOKEN_FILE"] else [] in
  let missing := missing ++ if (negb (present "CANARY_ACTOR_PRIVATE_JWK")
                                && negb (present "CANARY_ACTOR_PRIVATE_JWK_FILE"))%bool
                            then ["CANARY_ACTOR_PRIVATE_JWK or CANARY_ACTOR_PRIVATE_JWK_FILE"] else [] in
  if bool_decide (missing = []) then
    "canary_status=configured" +:+ newline +:+ "network=disabled" +:+ newline
  else "canary_status=not_configured" +:+ newline +:+ "missing=" +:+ join "," missing +:+ newline.

(** The environment is a map; a variable set to the empty string is not there. *)
Definition render_canary_config_status_from_env (env : ConfigSource) : string :=
  render_canary_config_status (fun key => is_some_and (fun value => negb (is_empty value)) (source_get env key)).

(** * Specifications *)

Fixpoint all_chars (p : ascii -> bool) (s : string) : bool :=
  match s with
  | EmptyString => true
  | String a r => (p a && all_chars p r)%bool
  end.

(** A character that prints and is not a space. *)
Definition graphic (a : ascii) : bool := ((33 <=? byte_val a) && (byte_val a <=? 126))%Z%bool.

(** * Lemmas *)

Lemma all_chars_app p s t : all_chars p (s +:+ t) = (all_chars p s && all_chars p t)%bool.
Proof. induction s as [|a s IH]; [done|]. rewrite app_cons. simpl. by rewrite IH, andb_assoc. Qed.

Lemma all_chars_mono (p q : ascii -> bool) s :
  (forall a, p a = true -> q a = true) -> all_chars p s = true -> all_chars q s = true.
Proof.
  intros Hpq. induction s as [|a s IH]; simpl; [done|].
  rewrite !andb_true_iff. intros [? ?]. auto.
Qed.

Lemma sanitize_chars_printable n s : all_chars printable (sanitize_chars n s) = true.
Proof.
  revert n; induction s as [|a s IH]; intros n; simpl; [done|].
  destruct (continuation a); [done|]. destruct n as [|n]; simpl; [done|].
  rewrite IH, andb_true_r. by destruct (printable a) eqn:E.
Qed.

Lemma sanitize_printable s : all_chars printable (sanitize s) = true.
Proof.
  unfold sanitize. rewrite all_chars_app, sanitize_chars_printable. by destruct (_ <? _)%nat.
Qed.

Lemma sanitize_chars_length n s : String.length (sanitize_chars n s) <= n.
Proof.
  revert n; induction s as [|a s IH]; intros n; simpl; [lia|].
  destruct (continuation a); [done|]. destruct n as [|n]; simpl; [lia|]. specialize (IH n). lia.
Qed.

Lemma push_token_chars p cur l :
  all_chars p cur = true -> Forall (fun t => all_chars p t = true) l ->
  Forall (fun t => all_chars p t = true) (push_token cur l).
Proof. intros. unfold push_token. destruct (is_empty cur); [done|]. by constructor. Qed.

Lemma split_ws_from_chars p s : forall skip cur,
  all_chars p cur = true -> all_chars p s = true ->
  Forall (fun t => all_chars p t = true) (split_ws_from skip cur s).
Proof.
  induction s as [|a s IH]; intros skip cur Hc Hs; cbn [split_ws_from].
  - by apply push_token_chars.
  - simpl in Hs. apply andb_true_iff in Hs as [Ha Hs].
    destruct skip as [|k]; [|by apply IH].
    destruct (ws_len (String a s)) as [|k]; [|by apply push_token_chars; [|apply IH]].
    apply IH; [|done]. rewrite all_chars_app, Hc. simpl. by rewrite Ha.
Qed.

Lemma join_chars p sep l :
  all_chars p sep = true -> Forall (fun t => all_chars p t = true) l -> all_chars p (join sep l) = true.
Proof.
  intros Hsep. induction 1 as [|t l Ht Hl IH]; [done|]. destruct l as [|t2 l]; [done|].
  rewrite join_cons2, !all_chars_app, Ht, Hsep. done.
Qed.

Lemma redacted_ok part : token_ok part -> token_ok (if looks_like_compact_jwt part then "[redacted]" else part).
Proof. by destruct (looks_like_compact_jwt part). Qed.

(** Text without white space that is within the bound goes through whole, text
    beyond it is cut. *)
Lemma sanitize_chars_graphic n s :
  all_chars graphic s = true -> sanitize_chars n s = String.substring 0 n s /\ char_count s = String.length s.
Proof.
  revert n; induction s as [|a s IH]; intros n; simpl; [by destruct n|].
  intros [Ha Hs]%andb_true_iff. unfold graphic in Ha. bool_hyps.
  replace (continuation a) with false; cycle 1.
  { symmetry. unfold continuation. apply andb_false_iff. left. apply Z.leb_gt. lia. }
  replace (printable a) with true; cycle 1.
  { symmetry. unfold printable. apply andb_true_iff. split; apply Z.leb_le; lia. }
  destruct (IH (Nat.pred n) Hs) as [IH1 IH2]. split; [|by rewrite IH2].
  destruct n as [|n]; [done|]. simpl in *. by rewrite IH1.
Qed.

Lemma substring_chars p n s : all_chars p s = true -> all_chars p (String.substring 0 n s) = true.
Proof.
  revert n; induction s as [|a s IH]; intros n; simpl; [by destruct n|].
  intros [Ha Hs]%andb_true_iff. destruct n as [|n]; [done|]. simpl. by rewrite Ha, IH.
Qed.

Lemma graphic_no_ws s : all_chars graphic s = true -> any_whitespace s = false.
Proof.
  induction s as [|a s IH]; [done|]. simpl. intros [Ha Hs]%andb_true_iff.
  apply any_ws_cons. split; [|by apply IH]. unfold graphic in Ha. bool_hyps.
  apply ws_len_ascii; [|lia]. unfold ws1. apply orb_false_iff.
  split; [apply andb_false_iff; right; apply Z.leb_gt; lia|apply Z.eqb_neq; lia].
Qed.

Lemma count_char_app c s t : count_char c (s +:+ t) = count_char c s + count_char c t.
Proof. induction s as [|a s IH]; [done|]. rewrite app_cons. simpl. case_bool_decide; lia. Qed.

Lemma trim_start_by_app p s t a r :
  t = String a r -> p a = false -> exists s', trim_start_by p (s +:+ t) = s' +:+ t.
Proof.
  intros -> Hp. induction s as [|b s [s' IH]].
  - exists "". rewrite app_empty_l. simpl. by rewrite Hp.
  - rewrite app_cons. simpl. destruct (p b); [by exists s'|]. by exists (String b s).
Qed.

Lemma trim_end_by_last p s a : p a = false -> trim_end_by p (s +:+ str1 a) = s +:+ str1 a.
Proof.
  intros Hp. induction s as [|b s IH]; simpl.
  - by rewrite Hp.
  - rewrite !app_cons. simpl. rewrite IH. by destruct s.
Qed.

(** Three dots at the end are not the two dots of a compact JWT. *)
Lemma ellipsis_not_jwt s : looks_like_compact_jwt (s +:+ "...") = false.
Proof.
  unfold looks_like_compact_jwt.
  destruct (trim_start_by_app (fun a => negb (jwt_char a)) s "..." "."%char ".." eq_refl eq_refl) as [s' ->].
  change "..." with (".." +:+ str1 "."%char). rewrite <- str_app_assoc, trim_end_by_last by done.
  rewrite !count_char_app. apply andb_false_iff. right. apply Nat.eqb_neq. simpl. lia.
Qed.

(** * Properties *)

(** error text from the network is printed on one line, in printable
    characters, with every word that looks like a compact JWT replaced: the
    words printed are those of the sanitized text, redacted, and none of them
    looks like a compact JWT. *)
Theorem oauth_text_redacted (value : string) :
  let out := sanitize_oauth_text value in
  split_whitespace out
    = map (fun part => if looks_like_compact_jwt part then "[redacted]" else part)
        (split_whitespace (sanitize value)) /\
  Forall (fun part => looks_like_compact_jwt part = false) (split_whitespace out) /\
  all_chars printable out = true /\ (String.length (sanitize value) <= 123)%nat.
Proof.
  assert (Hw : split_whitespace (sanitize_oauth_text value) = map (fun part =>
            if looks_like_compact_jwt part then "[redacted]" else part) (split_whitespace (sanitize value))).
  { unfold sanitize_oauth_text. apply split_join_ws, Forall_map.
    eapply Forall_impl; [apply split_whitespace_ok|]. exact redacted_ok. }
  split_and!; [exact Hw| | |].
  - rewrite Hw. apply Forall_map, Forall_true. intros part.
    destruct (looks_like_compact_jwt part) eqn:E; [done|exact E].
  - apply join_chars; [done|]. apply Forall_map.
    eapply Forall_impl; [apply (split_ws_from_chars printable _ 0 ""); [done|apply sanitize_printable]|].
    intros part Hp. by destruct (looks_like_compact_jwt part).
  - unfold sanitize. rewrite str_length_app. pose proof (sanitize_chars_length MAX_FIELD_LEN value) as Hl.
    unfold MAX_FIELD_LEN in *. destruct (_ <? _)%nat; simpl; lia.
Qed.

(** the redaction does not reach a token longer than the bound: the text is
    cut before it is searched, and the ellipsis at the cut makes what is left
    look unlike a compact JWT, so the first 120 characters are printed. *)
Theorem long_jwt_not_redacted (token : string) :
  all_chars graphic token = true -> (120 < String.length token)%nat ->
  sanitize_oauth_text token = String.substring 0 120 token +:+ "...".
Proof.
  intros Hg Hl. destruct (sanitize_chars_graphic 120 token Hg) as [Hs Hc].
  assert (Hsan : sanitize token = String.substring 0 120 token +:+ "...").
  { unfold sanitize. change MAX_FIELD_LEN with 120. rewrite Hs, Hc.
    by rewrite (proj2 (Nat.ltb_lt _ _) Hl). }
  assert (Hok : token_ok (String.substring 0 120 token +:+ "...")).
  { split; [by intros [_ ?]%str_app_empty|]. apply graphic_no_ws.
    rewrite all_chars_app, substring_chars by done. done. }
  unfold sanitize_oauth_text. rewrite Hsan.
  pose proof (split_join_ws [String.substring 0 120 token +:+ "..."] ltac:(by constructor)) as Hw.
  cbn [join] in Hw. rewrite Hw. cbn [map join]. by rewrite ellipsis_not_jwt.
Qed.

(** A compact JWT as servers mint them. *)
Definition long_jwt : string :=
  "eyJhbGciOiJSUzI1NiIsImtpZCI6Im9iby1zdHMta2V5LTEiLCJ0eXAiOiJhdCtqd3QifQ."
  +:+ "eyJpc3MiOiJodHRwczovL3N0cy5leGFtcGxlIiwic3ViIjoiYWxpY2VAZXhhbXBsZS5jb20ifQ." +:+ "c2lnbmF0dXJl".

Lemma long_jwt_not_redacted_witness :
  looks_like_compact_jwt long_jwt = true /\
  sanitize_oauth_text long_jwt = String.substring 0 120 long_jwt +:+ "...".
Proof.
  split; [vm_compute; reflexivity|].
  apply (long_jwt_not_redacted long_jwt); [vm_compute; reflexivity|].
  apply Nat.ltb_lt. vm_compute. reflexivity.
Defined.
