(* ===== verification/CliKeys.v ===== *)
(** crates/sts-cli: key files.  Inspection of public keys, generation, and
    rotation with an overlap file that keeps the retiring public keys. *)

From S2P Require Import Prelude RustStr Json Url Core Replay Jose JoseSigners Dpop Config HttpBootstrap CliIo CliText.
From Stdlib Require Import Ascii.

(** * Public keys *)

Definition normalize_jwks_value (value : Value) : result CliError (list Map) :=
  let? object := ok_or (as_object value) (usage "JWK input must be a JSON object") in
  let? raw_keys :=
    match map_get "keys" object with
    | Some (VArray keys) => Ok keys
    | Some _ => Err (usage "JWKS keys member must be an array")
    | None => Ok [value]
    end in
  if bool_decide (raw_keys = []) then Err (usage "JWKS contains no keys")
  else try_map (fun key => ok_or (as_object key) (usage "JWK entries must be JSON objects")) raw_keys.

(** [format!("key[{index}] ..")]. *)
Definition key_err {A} (index : nat) (rest : string) : result CliError A :=
  Err (usage ("key[" +:+ to_string (Z.of_nat index) +:+ "] " +:+ rest)).

Definition optional_string (key : Map) (member : string) (index : nat) : result CliError (option string) :=
  match map_get member key with
  | None => Ok None
  | Some (VString s) => Ok (Some s)
  | Some _ => key_err index ("member " +:+ member +:+ " must be a string")
  end.

Definition required_string (key : Map) (member : string) (index : nat) : result CliError string :=
  let? value := optional_string key member index in
  match value with
  | Some s => Ok s
  | None => key_err index ("missing required member " +:+ member)
  end.

Section PublicKeys.
Context `{Base64} `{Sha256}.

Definition decode_base64url_uint (member value : string) (index : nat) : result CliError string :=
  match b64_decode value with
  | Ok bytes => Ok bytes
  | Err _ => key_err index ("member " +:+ member +:+ " is not base64url")
  end.

Definition rsa_modulus_bits_from_key (key : Map) (index : nat) : result CliError Z :=
  let? n := required_string key "n" index in
  let? e := required_string key "e" index in
  let? modulus := decode_base64url_uint "n" n index in
  let? exponent := decode_base64url_uint "e" e index in
  if (is_empty exponent || all_zero exponent)%bool then key_err index "RSA exponent is invalid"
  else if (is_empty modulus || all_zero modulus)%bool then key_err index "RSA modulus is invalid"
  else
    let leading_bits := match modulus with
                        | String b _ => (8 - leading_zeros8 (byte_val b))%Z
                        | EmptyString => 0%Z
                        end in
    Ok ((byte_len modulus - 1) * 8 + leading_bits)%Z.

Definition akp_public_from_key (key : Map) (index : nat) : result CliError string :=
  if (map_contains_key "n" key || map_contains_key "e" key)%bool then
    key_err index "AKP key must not contain RSA n/e members"
  else
  let? alg := required_string key "alg" index in
  match from_jose_alg alg with
  | None => key_err index ("unsupported AKP alg " +:+ alg)
  | Some algorithm =>
      let? public := required_string key "pub" index in
      match b64_decode public with
      | Err _ => key_err index "member pub is not base64url"
      | Ok bytes =>
          if negb (byte_len bytes =? public_key_len algorithm)%Z then
            key_err index ("AKP pub length must be " +:+ to_string (public_key_len algorithm) +:+
                           " bytes for " +:+ jose_alg algorithm)
          else Ok bytes
      end
  end.

(** [serde_json::to_value] of a [PublicJwk] is an object. *)
Definition public_jwk_object (jwk : PublicJwk) : result CliError Map :=
  ok_or (as_object (json_object (public_jwk_fields jwk)))
    (runtime "public JWK did not serialize to an object").

Definition akp_public_bytes (jwk : PublicJwk) : result CliError Z :=
  let? object := public_jwk_object jwk in
  res_map byte_len (akp_public_from_key object 0).

Definition akp_public_sha256_prefix (jwk : PublicJwk) : result CliError string :=
  let? object := public_jwk_object jwk in
  res_map sha256_bytes_hex_prefix (akp_public_from_key object 0).

Record InspectedKey : Type := mkInspectedKey {
  ik_index : nat;
  ik_kid : option string;
  ik_kty : string;
  ik_use : option string;
  ik_alg : option string;
  ik_rsa_modulus_bits : option Z;
  ik_akp_public_bytes : option Z;
  ik_akp_public_sha256_prefix : option string
}.

Definition inspect_public_key (index : nat) (key : Map) : result CliError InspectedKey :=
  if existsb (fun member => bool_decide (member ∈ HttpBootstrap.PRIVATE_JWK_MEMBERS)) (map fst key) then
    key_err index "contains non-public key material; refusing to inspect private or symmetric JWK input"
  else
  let? kty := required_string key "kty" index in
  let? kid := optional_string key "kid" index in
  let? use := optional_string key "use" index in
  let? alg := optional_string key "alg" index in
  let? bits := if bool_decide (kty = "RSA") then res_map Some (rsa_modulus_bits_from_key key index)
               else Ok None in
  let? akp := if bool_decide (kty = "AKP") then res_map Some (akp_public_from_key key index)
              else Ok None in
  Ok (mkInspectedKey index kid kty use alg bits (option_map byte_len akp)
        (option_map sha256_bytes_hex_prefix akp)).

(** A loop with the index: [iter().enumerate()]. *)
Definition try_imap {E A B} (f : nat -> A -> result E B) (l : list A) : result E (list B) :=
  try_map (fun ia => f ia.1 ia.2) (imap pair l).

Definition inspect_public_keys (keys : list Map) : result CliError (list InspectedKey) :=
  try_imap inspect_public_key keys.

Inductive InspectMode : Type := ModeJwks | ModeSingleKey.

Definition render_inspected_key (key : InspectedKey) : string :=
  let line field value :=
    "key[" +:+ to_string (Z.of_nat (ik_index key)) +:+ "]." +:+ field +:+ "=" +:+ value +:+ newline in
  line "kid" (display_optional (ik_kid key))
  +:+ line "kty" (sanitize (ik_kty key))
  +:+ line "use" (display_optional (ik_use key))
  +:+ line "alg" (display_optional (ik_alg key))
  +:+ match ik_rsa_modulus_bits key with
      | Some bits => line "rsa_modulus_bits" (to_string bits) | None => "" end
  +:+ match ik_akp_public_bytes key with
      | Some bytes => line "akp_public_bytes" (to_string bytes) | None => "" end
  +:+ match ik_akp_public_sha256_prefix key with
      | Some prefix => line "akp_public_sha256_prefix" (sanitize prefix) | None => "" end.

Definition render_inspection (keys : list InspectedKey) (mode : InspectMode) : string :=
  match mode with
  | ModeJwks => "jwks_status=public" +:+ newline +:+ "key_count=" +:+ to_string (Z.of_nat (length keys)) +:+ newline
  | ModeSingleKey => "key_status=public" +:+ newline
  end +:+ join "" (map render_inspected_key keys).

Context `{JsonText} `{JwkReader}.

Definition inspect_json (raw : string) (mode : InspectMode) : result CliError string :=
  let? value := map_err (fun err => usage ("invalid JSON: " +:+ err)) (json_from_str raw) in
  let? keys := normalize_jwks_value value in
  match mode with
  | ModeSingleKey =>
      if negb (length keys =? 1)%nat then Err (usage "key inspect requires exactly one public JWK")
      else res_map (fun inspected => render_inspection inspected mode) (inspect_public_keys keys)
  | ModeJwks => res_map (fun inspected => render_inspection inspected mode) (inspect_public_keys keys)
  end.

(** One key of an overlap file. *)
Definition parse_overlap_key (label : string) (index : nat) (key : Map) : result CliError PublicJwk :=
  let at_key rest := usage (label +:+ " key[" +:+ to_string (Z.of_nat index) +:+ "] " +:+ rest) in
  let? jwk := map_err (fun err => at_key ("is not a valid public JWK: " +:+ err))
    (HttpBootstrap.jwk_from_value (VObject key)) in
  if bool_decide (jwk_kty jwk = "RSA") then
    let? bits := map_err (fun err => at_key ("is not a valid RSA public JWK: " +:+ jose_error_display err))
      (rsa_public_key_bits_from_jwk jwk) in
    if (bits <? 2048)%Z then Err (at_key "RSA modulus must be at least 2048 bits") else Ok jwk
  else if bool_decide (jwk_kty jwk = "AKP") then
    let? _ := akp_public_bytes jwk in Ok jwk
  else Err (at_key ("unsupported JWK kty " +:+ jwk_kty jwk)).

Definition parse_public_jwks_document (raw label : string) : result CliError (list PublicJwk) :=
  let? value := map_err (fun err => usage (label +:+ " is invalid JSON: " +:+ err)) (json_from_str raw) in
  let? keys := normalize_jwks_value value in
  let? _ := inspect_public_keys keys in
  try_imap (parse_overlap_key label) keys.

(** One key of a verification key set. *)
Definition parse_exchange_key (label : string) (index : nat) (key : Map) : result CliError PublicJwk :=
  let at_key rest := usage (label +:+ " key[" +:+ to_string (Z.of_nat index) +:+ "] " +:+ rest) in
  let? jwk := map_err (fun err => at_key ("is not a public JWK: " +:+ err))
    (HttpBootstrap.jwk_from_value (VObject key)) in
  if is_empty (jwk_kid jwk) then Err (at_key "missing required member kid") else Ok jwk.

Definition parse_exchange_jwks_document (raw label : string) : result CliError JwksDocument :=
  let? value := map_err (fun err => usage (label +:+ " is invalid JSON: " +:+ err)) (json_from_str raw) in
  let? keys := normalize_jwks_value value in
  let? _ := inspect_public_keys keys in
  res_map mkJwksDocument (try_imap (parse_exchange_key label) keys).

Definition inspect_file (path : string) (mode : InspectMode) : Io (result CliError string) :=
  try! raw <- io_map_err (fun err => runtime ("failed to read " +:+ path +:+ ": " +:+ io_text err))
    (io_call (ReadToString path)) in
  Ret (inspect_json raw mode).

End PublicKeys.
