(* ===== verification/CliRotate.v ===== *)
(** crates/sts-cli: writing key files, and the rotation of signing keys.

    A rotation replaces the private key and keeps the old public key in the
    overlap file, so that tokens signed before still verify.  Every file is
    replaced by renaming a finished temporary file; a lock file keeps rotations
    of one key apart. *)

From S2P Require Import Prelude RustStr Json Url Core Replay Jose JoseSigners Dpop Config HttpBootstrap CliIo CliText CliKeys.
From Stdlib Require Import Ascii.

(** The key pair that aws-lc generates from the random bytes it draws. *)
Class RsaGenerate `{AwsLc} : Type := rsa_key_pair_generate : string -> result string RsaKeyPair.

(** * Writing files *)

(** [fs::create_dir_all] of a path's parent, unless that is empty. *)
Definition create_parent (path what : string) : Io (result CliError unit) :=
  match opt_filter (fun parent => negb (is_empty parent)) (path_parent path) with
  | Some parent =>
      io_map_err (fun err => runtime ("failed to create " +:+ what +:+ " " +:+ parent +:+ ": " +:+ io_text err))
        (io_call (CreateDirAll parent))
  | None => Ret (Ok tt)
  end.

Definition unique_temp_path_for (path : string) : Io string :=
  run! clock <- io_call SinceEpoch in
  let nanos := match clock with Ok n => n | Err _ => 0%Z end in
  let filename := default "sts-key" (path_file_name path) in
  run! pid <- io_call ProcessId in
  Ret (path_join (default "." (path_parent path))
         ("." +:+ filename +:+ "." +:+ to_string pid +:+ "." +:+ to_string nanos +:+ ".tmp")).

(** A failed step takes the temporary file away again. *)
Definition or_remove (tmp_path : string) (step : Io (result IoError unit)) (message : string -> string)
    : Io (result CliError unit) :=
  run! r <- step in
  match r with
  | Ok _ => Ret (Ok tt)
  | Err err =>
      run! _ <- io_call (RemoveFile tmp_path) in
      Ret (Err (runtime (message (io_text err))))
  end.

Definition atomic_write_bytes (path bytes : string) (mode : Z) : Io (result CliError unit) :=
  try! _ <- create_parent path "directory" in
  let parent := default "." (path_parent path) in
  run! tmp_path <- unique_temp_path_for path in
  try! _ <- io_map_err (fun err => runtime ("failed to create temp file " +:+ tmp_path +:+ ": " +:+ io_text err))
    (io_call (OpenNew tmp_path mode)) in
  try! _ <- or_remove tmp_path (io_call (WriteSync tmp_path bytes))
    (fun err => "failed to write temp file " +:+ tmp_path +:+ ": " +:+ err) in
  try! _ <- or_remove tmp_path (io_call (SetMode tmp_path mode))
    (fun err => "failed to set permissions on " +:+ tmp_path +:+ ": " +:+ err) in
  try! _ <- or_remove tmp_path (io_call (Rename tmp_path path))
    (fun err => "failed to replace " +:+ path +:+ " atomically: " +:+ err) in
  run! _ <- io_call (SyncDir parent) in
  Ret (Ok tt).

Definition atomic_write_text (path value : string) (mode : Z) : Io (result CliError unit) :=
  atomic_write_bytes path value mode.

(** The members a [JwksDocument] is written with. *)
Definition jwks_document_value (doc : JwksDocument) : Value :=
  VObject [("keys", VArray (map (fun jwk => VObject (public_jwk_fields jwk)) (jwks_keys doc)))].

Definition atomic_write_json `{SerdeJson} (path : string) (value : JwksDocument) (mode : Z)
    : Io (result CliError unit) :=
  try? bytes <- map_err (fun err => runtime ("failed to encode " +:+ path +:+ ": " +:+ err))
    (json_to_string_pretty (jwks_document_value value)) in
  atomic_write_bytes path (bytes +:+ newline) mode.

Definition write_new_secret_text (path value : string) (mode : Z) : Io (result CliError unit) :=
  try! _ <- create_parent path "directory" in
  let failed what err := runtime ("failed to " +:+ what +:+ " " +:+ sanitize_path path +:+ ": " +:+ io_text err) in
  try! _ <- io_map_err (failed "create secret file") (io_call (OpenNew path mode)) in
  try! _ <- io_map_err (failed "write secret file") (io_call (WriteSync path value)) in
  io_map_err (failed "set permissions on secret file") (io_call (SetMode path mode)).

Definition write_secret_text (path value : string) (mode : Z) (force : bool) : Io (result CliError unit) :=
  if force then atomic_write_text path value mode else write_new_secret_text path value mode.

Definition atomic_write_json_if_allowed `{SerdeJson} (path : string) (value : JwksDocument) (mode : Z)
    (force : bool) : Io (result CliError unit) :=
  run! exists_ <- (if force then Ret false else io_call (PathExists path)) in
  if (negb force && exists_)%bool then
    Ret (Err (runtime ("refusing to replace existing file " +:+ sanitize_path path +:+
                       "; pass --force to overwrite")))
  else atomic_write_json path value mode.

(** * The rotation lock *)

Definition lock_path_of (key_file : string) : string := key_file +:+ ".rotate.lock".

(** [RotationLock::acquire]; an [OpenOptions] without a mode creates 0666. *)
Definition acquire (key_file : string) : Io (result CliError unit) :=
  let lock_path := lock_path_of key_file in
  try! _ <- create_parent lock_path "lock directory" in
  io_map_err (fun err => runtime ("failed to acquire rotation lock " +:+ lock_path +:+ ": " +:+ io_text err))
    (io_call (OpenNew lock_path 438)).

(** The scope of a [RotationLock]: [Drop] removes the lock file on every way
    out. *)
Definition with_lock {A} (key_file : string) (body : Io (result CliError A)) : Io (result CliError A) :=
  try! _ <- acquire key_file in
  run! r <- body in
  run! _ <- io_call (RemoveFile (lock_path_of key_file)) in
  Ret r.

(** * Key files *)

Section Keys.
Context `{Features} `{Base64} `{Sha256} `{SerdeJson} `{Asn1} `{AwsLc} `{Jwt} `{OpenSsl} `{JsonText} `{JwkReader}
  `{FromJson CompactJwsHeader} `{FromJson MintedClaims} `{FromJson PrivateRsaJwk} `{FromJson PrivateAkpJwk}.

Definition first_key {E} (doc : JwksDocument) (e : E) : result E PublicJwk := ok_or (head (jwks_keys doc)) e.

(** What [load_current_signing_key] makes of the file's text. *)
Definition parse_current_signing_key (path raw : string) : result CliError PublicJwk :=
  let at_key rest := "current signing key " +:+ path +:+ " " +:+ rest in
  let? value := map_err (fun err => usage (at_key ("must be an RSA private JWK JSON object: " +:+ err)))
    (json_from_str raw) in
  let? object := ok_or (as_object value) (usage (at_key "must be an RSA private JWK JSON object")) in
  if (map_contains_key "k" object || negb (map_contains_key "d" object))%bool then
    Err (usage (at_key "must be an RSA private JWK"))
  else if negb (is_some_and (fun kid => negb (is_empty kid)) (map_get "kid" object ≫= as_str)) then
    Err (usage (at_key "must include a non-empty kid for overlap staging"))
  else
  let? signer := map_err (fun err => usage (at_key ("is invalid: " +:+ jose_error_display err)))
    (rsa_from_private_jwk raw "unused") in
  first_key (public_jwks signer) (runtime "current signing key produced no public JWK").

Definition load_current_signing_key (path : string) : Io (result CliError PublicJwk) :=
  try! raw <- io_map_err (fun err => runtime ("failed to read current signing key " +:+ path +:+ ": " +:+ io_text err))
    (io_call (ReadToString path)) in
  Ret (parse_current_signing_key path raw).

Definition parse_current_pqc_signing_key (path raw : string) : result CliError PublicJwk :=
  let at_key rest := "current PQC signing key " +:+ sanitize_path path +:+ " " +:+ rest in
  let? value := map_err (fun err => usage (at_key ("must be an AKP private JWK JSON object: " +:+ err)))
    (json_from_str raw) in
  let? object := ok_or (as_object value) (usage (at_key "must be an AKP private JWK JSON object")) in
  if (negb (map_contains_key "priv" object)
      || negb (bool_decide (map_get "kty" object ≫= as_str = Some "AKP")))%bool then
    Err (usage (at_key "must be an AKP private JWK"))
  else
  let? alg := ok_or (map_get "alg" object ≫= as_str) (usage "current PQC signing key missing alg") in
  let? signer := map_err (fun err => usage (at_key ("is invalid: " +:+ jose_error_display err)))
    (mldsa_from_private_jwk_for_backend (backend_selection_parse alg) raw "") in
  first_key (public_jwks signer) (runtime "current PQC signing key produced no public JWK").

Definition load_current_pqc_signing_key (path : string) : Io (result CliError PublicJwk) :=
  try! raw <- io_map_err (fun err => runtime ("failed to read current PQC signing key " +:+ sanitize_path path
                                              +:+ ": " +:+ io_text err))
    (io_call (ReadToString path)) in
  Ret (parse_current_pqc_signing_key path raw).

(** A file that is not there holds no keys. *)
Definition load_existing_overlap (path : string) : Io (result CliError (list PublicJwk)) :=
  run! r <- io_call (ReadToString path) in
  Ret (match r with
       | Ok raw => parse_public_jwks_document raw "overlap JWKS"
       | Err err =>
           if io_not_found err then Ok []
           else Err (runtime ("failed to read overlap JWKS " +:+ path +:+ ": " +:+ io_text err))
       end).

(** * Rotation of the RSA key *)

Record RotateArgs : Type := mkRotateArgs {
  ra_key_file : option string;
  ra_extra_jwks_file : option string;
  ra_dry_run : bool
}.

Definition resolve_key_file (env : ConfigSource) (args : RotateArgs) : string :=
  default (default (path_join (default "./secrets" (source_get env "STS_SECRETS_DIR"))
                      "obo_sts_private_key.json")
             (source_get env "OBO_STS_KEY_FILE"))
    (ra_key_file args).

Definition resolve_extra_jwks_file (env : ConfigSource) (args : RotateArgs) (key_file : string) : string :=
  default (default (path_join (default "." (path_parent key_file)) "obo_sts_retiring_jwks.json")
             (source_get env "OBO_STS_EXTRA_JWKS_FILE"))
    (ra_extra_jwks_file args).

Definition line (name value : string) : string := name +:+ "=" +:+ value +:+ newline.

Definition count_others (kid : string) (overlap : list PublicJwk) : Z :=
  Z.of_nat (length (List.filter (fun key => negb (bool_decide (jwk_kid key = kid))) overlap)).

Definition render_rotation_dry_run (current : PublicJwk) (overlap : list PublicJwk)
    (key_file extra_jwks_file : string) : string :=
  line "rotate_status" "dry_run"
  +:+ line "current_kid" (sanitize (jwk_kid current))
  +:+ line "would_stage_kid" (sanitize (jwk_kid current))
  +:+ line "would_overlap_keys" (to_string (count_others (jwk_kid current) overlap + 1))
  +:+ line "private_key_file" (sanitize_path key_file)
  +:+ line "overlap_jwks_file" (sanitize_path extra_jwks_file)
  +:+ line "restart_required" "true".

Definition render_rotation_success (old new : PublicJwk) (overlap_keys : Z)
    (key_file extra_jwks_file : string) : string :=
  line "rotate_status" "rotated"
  +:+ line "old_kid" (sanitize (jwk_kid old))
  +:+ line "new_kid" (sanitize (jwk_kid new))
  +:+ line "private_key_file" (sanitize_path key_file)
  +:+ line "private_key_mode" "0600"
  +:+ line "overlap_jwks_file" (sanitize_path extra_jwks_file)
  +:+ line "overlap_keys" (to_string overlap_keys)
  +:+ line "restart_required" "true".

(** The keys of the overlap file that stay: neither the one being retired nor
    the new one. *)
Definition retained_keys (overlap : list PublicJwk) (current new : PublicJwk) : list PublicJwk :=
  List.filter (fun key => negb (bool_decide (jwk_kid key = jwk_kid current))
                          && negb (bool_decide (jwk_kid key = jwk_kid new)))%bool overlap.

Context `{!RsaGenerate}.

(** The part of a rotation that runs under the lock. *)
Definition rotate_locked (key_file extra_jwks_file : string) : Io (result CliError string) :=
  try! current <- load_current_signing_key key_file in
  run! random <- io_call RandomBytes in
  try? generated <- map_err (fun err => runtime ("failed to generate replacement key: " +:+ jose_error_display err))
    (rsa_generate_private_jwk (res_bind random rsa_key_pair_generate)) in
  try! overlap <- load_existing_overlap extra_jwks_file in
  let staged := mkJwksDocument (retained_keys overlap current (gr_public_jwk generated) ++ [current]) in
  try! _ <- atomic_write_json extra_jwks_file staged 420 in
  try! _ <- atomic_write_text key_file (gr_private_jwk_json generated) 384 in
  Ret (Ok (render_rotation_success current (gr_public_jwk generated)
             (Z.of_nat (length (jwks_keys staged))) key_file extra_jwks_file)).

Definition rotate_signing_key (env : ConfigSource) (args : RotateArgs) : Io (result CliError string) :=
  let key_file := resolve_key_file env args in
  let extra_jwks_file := resolve_extra_jwks_file env args key_file in
  if ra_dry_run args then
    try! current <- load_current_signing_key key_file in
    try! overlap <- load_existing_overlap extra_jwks_file in
    Ret (Ok (render_rotation_dry_run current overlap key_file extra_jwks_file))
  else with_lock key_file (rotate_locked key_file extra_jwks_file).

(** * ML-DSA keys *)

Record PqcKeyRotateArgs : Type := mkPqcRotateArgs {
  pr_key_file : string;
  pr_extra_jwks_file : string;
  pr_kid : option string;
  pr_dry_run : bool
}.

Record PqcKeyGenerateArgs : Type := mkPqcGenerateArgs {
  pg_alg : string;
  pg_kid : option string;
  pg_out : string;
  pg_public_jwks_out : option string;
  pg_force : bool
}.

Definition parse_mldsa_algorithm (value : string) : result CliError MlDsaAlgorithm :=
  ok_or (opt_or (from_jose_alg value) (from_selector value))
    (usage "PQC algorithm must be ML-DSA-44, ML-DSA-65, or ML-DSA-87").

(** The part of a rotation that runs under the lock; the current key and the
    overlap were read before. *)
Definition rotate_pqc_locked (args : PqcKeyRotateArgs) (current : PublicJwk) (overlap : list PublicJwk)
    : Io (result CliError string) :=
  try? algorithm <- parse_mldsa_algorithm (jwk_alg current) in
  run! random <- io_call RandomBytes in
  try? generated <- map_err (fun err => runtime ("failed to generate replacement ML-DSA key: "
                                                 +:+ jose_error_display err))
    (mldsa_generate_private_jwk random algorithm (pr_kid args)) in
  let retained := current :: retained_keys overlap current (gm_public_jwk generated) in
  try! _ <- atomic_write_json (pr_extra_jwks_file args) (mkJwksDocument retained) 420 in
  try! _ <- atomic_write_text (pr_key_file args) (gm_private_jwk_json generated) 384 in
  Ret (Ok (line "pqc_rotate_status" "rotated"
           +:+ line "old_kid" (sanitize (jwk_kid current))
           +:+ line "new_kid" (sanitize (jwk_kid (gm_public_jwk generated)))
           +:+ line "alg" (jwk_alg (gm_public_jwk generated))
           +:+ line "private_key_file" (sanitize_path (pr_key_file args))
           +:+ line "private_key_mode" "0600"
           +:+ line "overlap_jwks_file" (sanitize_path (pr_extra_jwks_file args))
           +:+ line "restart_required" "true")).

Definition rotate_pqc_key (args : PqcKeyRotateArgs) : Io (result CliError string) :=
  if negb pqc_openssl then Ret (Err (runtime "pqc key rotate requires the pqc-openssl-unstable feature"))
  else
  try! current <- load_current_pqc_signing_key (pr_key_file args) in
  try! overlap <- load_existing_overlap (pr_extra_jwks_file args) in
  if pr_dry_run args then
    Ret (Ok (line "pqc_rotate_status" "dry_run"
             +:+ line "current_kid" (sanitize (jwk_kid current))
             +:+ line "current_alg" (jwk_alg current)
             +:+ line "would_stage_kid" (sanitize (jwk_kid current))
             +:+ line "would_overlap_keys" (to_string (count_others (jwk_kid current) overlap + 1))
             +:+ line "private_key_file" (sanitize_path (pr_key_file args))
             +:+ line "overlap_jwks_file" (sanitize_path (pr_extra_jwks_file args))
             +:+ line "restart_required" "true"))
  else with_lock (pr_key_file args) (rotate_pqc_locked args current overlap).

Definition generate_pqc_key (args : PqcKeyGenerateArgs) : Io (result CliError string) :=
  if negb pqc_openssl then Ret (Err (runtime "pqc key generate requires the pqc-openssl-unstable feature"))
  else
  try? algorithm <- parse_mldsa_algorithm (pg_alg args) in
  run! random <- io_call RandomBytes in
  try? generated <- map_err (fun err => runtime ("failed to generate ML-DSA key: " +:+ jose_error_display err))
    (mldsa_generate_private_jwk random algorithm (pg_kid args)) in
  let public := gm_public_jwk generated in
  try! _ <- write_secret_text (pg_out args) (gm_private_jwk_json generated) 384 (pg_force args) in
  try! _ <- match pg_public_jwks_out args with
            | Some path => atomic_write_json_if_allowed path (mkJwksDocument [public]) 420 (pg_force args)
            | None => Ret (Ok tt)
            end in
  try? prefix <- akp_public_sha256_prefix public in
  Ret (Ok (line "pqc_key_status" "generated"
           +:+ line "private_key_file" (sanitize_path (pg_out args))
           +:+ line "private_key_mode" "0600"
           +:+ line "alg" (jwk_alg public)
           +:+ line "kty" "AKP"
           +:+ line "kid" (sanitize (jwk_kid public))
           +:+ line "public_key_sha256_prefix" prefix
           +:+ line "public_jwks_file" (match pg_public_jwks_out args with
                                        | Some path => sanitize_path path
                                        | None => "(not-written)"
                                        end))).

Definition inspect_pqc_private_key (raw : string) : result CliError string :=
  if negb pqc_openssl then
    Err (runtime "pqc key inspect for private AKP JWK requires the pqc-openssl-unstable feature")
  else
  let? value := map_err (fun err => usage ("PQC private key JSON is invalid: " +:+ err)) (json_from_str raw) in
  let? alg := ok_or (value_get "alg" value ≫= as_str) (usage "PQC private key missing alg") in
  let? signer := map_err (fun err => usage ("PQC private key is invalid: " +:+ jose_error_display err))
    (mldsa_from_private_jwk_for_backend (backend_selection_parse alg) raw "") in
  let public := md_public_jwk signer in
  let? bytes := akp_public_bytes public in
  let? prefix := akp_public_sha256_prefix public in
  Ok (line "pqc_key_status" "private-valid"
      +:+ line "alg" (jwk_alg public)
      +:+ line "kty" "AKP"
      +:+ line "kid" (sanitize (jwk_kid public))
      +:+ line "public_key_bytes" (to_string bytes)
      +:+ line "public_key_sha256_prefix" prefix
      +:+ line "private_material" "redacted").

Definition inspect_pqc_key (path : string) : Io (result CliError string) :=
  try! raw <- io_map_err (fun err => runtime ("failed to read PQC key file " +:+ sanitize_path path
                                              +:+ ": " +:+ io_text err))
    (io_call (ReadToString path)) in
  try? value <- map_err (fun err => usage ("PQC key file is invalid JSON: " +:+ err)) (json_from_str raw) in
  if opt_is_some (value_get "priv" value) then Ret (inspect_pqc_private_key raw)
  else
  try? keys <- normalize_jwks_value value in
  try? inspected <- inspect_public_keys keys in
  Ret (Ok (render_inspection inspected ModeJwks)).

Context `{DpopLib} `{JsonReader}.

(** The signing key that p256 draws from random bytes. *)
Context (signing_key_random : string -> SigningKey).

Definition generate_dpop_key (out : string) : Io (result CliError string) :=
  run! random <- io_call OsRngBytes in
  try? generated <- map_err (fun err => runtime ("failed to generate DPoP holder key: " +:+ dpop_error_display err))
    (holder_generate_private_jwk (signing_key_random random)) in
  try! _ <- write_new_secret_text out (gh_private_jwk_json generated) 384 in
  Ret (Ok (line "dpop_key_status" "generated"
           +:+ line "private_key_file" (sanitize_path out)
           +:+ line "private_key_mode" "0600"
           +:+ line "alg" "ES256"
           +:+ line "crv" "P-256"
           +:+ line "jkt_sha256_prefix" (sha256_hex_prefix (gh_public_jkt generated)))).

(** The three algorithms with the seed byte that the preflight uses. *)
Definition preflight_algorithms : list (MlDsaAlgorithm * Z) := [(MlDsa44, 44); (MlDsa65, 65); (MlDsa87, 87)]%Z.

Definition repeat_byte (n : nat) (b : Z) : string :=
  join "" (repeat (str1 (ascii_of_N (Z.to_N b))) n).

Context `{FromJson Value}.

#[local] Instance serialize_value : Serialize Value := fun v => v.

Definition preflight_claims : Value :=
  json_object [("iss", VString "urn:sts-delegate-rs:pqc-preflight"); ("sub", VString "preflight");
               ("aud", VString "urn:sts-delegate-rs:pqc-preflight"); ("iat", VNumber (PosInt 1));
               ("exp", VNumber (PosInt 2))].

Definition preflight_algorithm (algorithm : MlDsaAlgorithm) (seed : Z) : result CliError string :=
  let text (e : JoseError) := sanitize_oauth_text (jose_error_display e) in
  let checked :=
    let? signer := mldsa_from_seed_for_tests algorithm (repeat_byte 32 seed) "pqc-preflight" in
    let? token := mldsa_sign_json_claims signer preflight_claims in
    let? _ := verify_claims_against_jwks_with_header (T := Value) token (public_jwks signer) in
    Ok tt in
  match checked with
  | Ok _ => Ok (jose_alg algorithm +:+ "_sign_verify=ok")
  | Err e => Err (runtime ("PQC preflight failed for " +:+ jose_alg algorithm +:+ ": " +:+ text e))
  end.

(** [openssl_version] is the linked library's version text; [env] gives
    [STS_SIGNING_ALG]. *)
Definition run_pqc_preflight (env : ConfigSource) (openssl_version : string) : result CliError string :=
  let selected := default ("ML-DSA-65" +:+ "(default)")
    (opt_filter (fun value => negb (is_empty value))
       (option_map (fun value => sanitize (trim value)) (source_get env "STS_SIGNING_ALG"))) in
  let head := line "pqc_preflight_status" "ok" +:+ line "selected_sts_signing_alg" selected in
  if negb pqc_openssl then
    Ok (head +:+ line "pqc_openssl_feature_enabled" "false" +:+ line "openssl_version" "not_compiled"
        +:+ line "mldsa_sign_verify" "not_compiled")
  else
  let? lines := try_map (fun '(algorithm, seed) => preflight_algorithm algorithm seed) preflight_algorithms in
  Ok (head +:+ line "pqc_openssl_feature_enabled" "true" +:+ line "openssl_version" (sanitize openssl_version)
      +:+ join "" (map (fun l => l +:+ newline) lines)).

End Keys.
