(* ===== verification/CliExchange.v ===== *)
(** crates/sts-cli: the token exchange client, the verification of a token, and
    the remaining commands.  What is printed of a response is taken from it by
    name and sanitized; the tokens themselves appear only as hash prefixes
    unless the operator asks for the minted one. *)

From S2P Require Import Prelude RustStr Json Url Core Replay Jose JoseSigners Verify Dpop Config HttpForms HttpBootstrap.
From S2P Require Import CliIo CliText CliKeys CliRotate.
From Stdlib Require Import Ascii.

(** [serde_urlencoded::to_string] of pairs. *)
Class FormEncode : Type := form_encode : list (string * string) -> result string string.

Inductive ExchangeOutputFormat : Type := OutRedacted | OutClaims | OutJson.

Record TokenVerifyArgs : Type := mkTokenVerifyArgs {
  tv_token_file : string;
  tv_jwks_file : option string;
  tv_jwks_url : option string;
  tv_output : ExchangeOutputFormat
}.

Record ExchangeArgs : Type := mkExchangeArgs {
  ea_sts_url : option string;
  ea_token_endpoint : option string;
  ea_subject_token_file : string;
  ea_subject_token_type : string;
  ea_actor_token_file : option string;
  ea_actor_token_type : string;
  ea_client_assertion_file : option string;
  ea_client_assertion_type : string;
  ea_client_id : option string;
  ea_audience : list string;
  ea_resource : list string;
  ea_scope : option string;
  ea_requested_token_type : option string;
  ea_dpop_proof_file : option string;
  ea_dpop_key_file : option string;
  ea_jwks_file : option string;
  ea_jwks_url : option string;
  ea_output : ExchangeOutputFormat;
  ea_print_token : bool
}.

Record ExchangeHttpRequest : Type := mkExchangeHttpRequest {
  er_token_endpoint : string;
  er_body : string;
  er_dpop_proof : option string;
  er_dpop_jkt : option string
}.

(** * Requests *)

Definition resolve_token_endpoint (args : ExchangeArgs) : result CliError string :=
  let? endpoint :=
    match ea_token_endpoint args, ea_sts_url args with
    | Some token_endpoint, _ => Ok (trim token_endpoint)
    | None, Some sts_url => Ok (trim_end_char "/"%char (trim sts_url) +:+ "/token")
    | None, None => Err (usage "exchange requires --sts-url or --token-endpoint")
    end in
  if is_empty endpoint then Err (usage "exchange token endpoint must not be empty")
  else if (negb (starts_with "https://" endpoint) && negb (starts_with "http://" endpoint))%bool then
    Err (usage "exchange token endpoint must be an http or https URL")
  else Ok endpoint.

Definition read_secret_file (path label : string) : Io (result CliError string) :=
  try! raw <- io_map_err (fun err => runtime ("failed to read " +:+ label +:+ " file " +:+ sanitize_path path
                                              +:+ ": " +:+ io_text err))
    (io_call (ReadToString path)) in
  let value := trim raw in
  Ret (if is_empty value then Err (usage (label +:+ " file " +:+ sanitize_path path +:+ " is empty"))
       else Ok value).

(** [Option<PathBuf>] read if it is there. *)
Definition read_optional_secret (path : option string) (label : string) : Io (result CliError (option string)) :=
  match path with
  | Some path => try! value <- read_secret_file path label in Ret (Ok (Some value))
  | None => Ret (Ok None)
  end.

Definition unix_timestamp_now : Io (result CliError Z) :=
  run! clock <- io_call SinceEpoch in
  Ret match clock with
      | Err err => Err (runtime ("system clock is before Unix epoch: " +:+ err))
      | Ok nanos =>
          let seconds := (nanos / 10 ^ 9)%Z in
          if (seconds <=? i64_max)%Z then Ok seconds
          else Err (runtime "system time exceeds supported JWT timestamp range")
      end.

Definition push_form_param (name value : string) (form : list (string * string))
    : result CliError (list (string * string)) :=
  if is_empty (trim value) then Err (usage ("exchange parameter " +:+ name +:+ " must not be empty"))
  else Ok (form ++ [(name, value)]).

(** The parameters in the order in which they are pushed. *)
Definition exchange_params (args : ExchangeArgs) (subject_token : string)
    (actor_token client_assertion : option string) : list (string * string) :=
  let opt name value := match value with Some v => [(name, v)] | None => [] end in
  [("grant_type", TOKEN_EXCHANGE_GRANT_TYPE); ("subject_token", subject_token);
   ("subject_token_type", ea_subject_token_type args)]
  ++ match actor_token with
     | Some t => [("actor_token", t); ("actor_token_type", ea_actor_token_type args)]
     | None => []
     end
  ++ match client_assertion with
     | Some t => [("client_assertion", t); ("client_assertion_type", ea_client_assertion_type args)]
     | None => []
     end
  ++ opt "client_id" (ea_client_id args)
  ++ map (pair "audience") (ea_audience args)
  ++ map (pair "resource") (ea_resource args)
  ++ opt "scope" (ea_scope args)
  ++ opt "requested_token_type" (ea_requested_token_type args).

Definition exchange_form (args : ExchangeArgs) (subject_token : string)
    (actor_token client_assertion : option string) : result CliError (list (string * string)) :=
  try_fold (fun form nv => push_form_param nv.1 nv.2 form) []
    (exchange_params args subject_token actor_token client_assertion).

Section Exchange.
Context `{UrlLib} `{Base64} `{DpopLib} `{JsonReader} `{SerdeJson} `{FormEncode}.

(** The proof to send and the thumbprint that the minted token must carry. *)
Definition exchange_proof (args : ExchangeArgs) (token_endpoint : string)
    : Io (result CliError (option string * option string)) :=
  try! dpop_proof <- read_optional_secret (ea_dpop_proof_file args) "DPoP proof" in
  match ea_dpop_key_file args with
  | None => Ret (Ok (dpop_proof, None))
  | Some path =>
      try! raw <- read_secret_file path "DPoP holder key" in
      try? key <- map_err (fun err => usage ("invalid DPoP holder key: " +:+ dpop_error_display err))
        (holder_from_private_jwk raw) in
      try? htu <- map_err (fun err => usage ("invalid DPoP token endpoint: " +:+ dpop_error_display err))
        (dpop_htu_for_request_uri token_endpoint) in
      try! iat <- unix_timestamp_now in
      run! bytes <- io_call OsRngBytes in
      try? proof <- map_err (fun err => runtime ("failed to sign DPoP proof: " +:+ dpop_error_display err))
        (sign_proof key (mkOutbound (generate_dpop_jti bytes) "POST" htu iat)) in
      Ret (Ok (Some proof, Some (hk_jkt key)))
  end.

Definition build_exchange_http_request (args : ExchangeArgs) : Io (result CliError ExchangeHttpRequest) :=
  try? token_endpoint <- resolve_token_endpoint args in
  try! subject_token <- read_secret_file (ea_subject_token_file args) "subject token" in
  try! actor_token <- read_optional_secret (ea_actor_token_file args) "actor token" in
  try! client_assertion <- read_optional_secret (ea_client_assertion_file args) "client assertion" in
  try! proof <- exchange_proof args token_endpoint in
  try? form <- exchange_form args subject_token actor_token client_assertion in
  try? body <- map_err (fun err => runtime ("failed to encode exchange form: " +:+ err)) (form_encode form) in
  Ret (Ok (mkExchangeHttpRequest token_endpoint body proof.1 proof.2)).
End Exchange.

(** [StatusCode::is_success]. *)
Definition status_success (status : Z) : bool := ((200 <=? status) && (status <? 300))%Z%bool.

(** * Key sets *)

Section Verify.
Context `{Features} `{Base64} `{Sha256} `{SerdeJson} `{Jwt} `{OpenSsl} `{JsonText} `{JwkReader} `{FloatText}
  `{FromJson CompactJwsHeader} `{FromJson Value}.

Definition load_jwks_file (path : string) : Io (result CliError (JwksDocument * string)) :=
  try! raw <- io_map_err (fun err => runtime ("failed to read JWKS file " +:+ sanitize_path path +:+ ": "
                                              +:+ io_text err))
    (io_call (ReadToString path)) in
  Ret (res_map (fun jwks => (jwks, "file")) (parse_exchange_jwks_document raw "JWKS file")).

Definition load_jwks_url (url : string) : Io (result CliError (JwksDocument * string)) :=
  if (negb (starts_with "https://" url) && negb (starts_with "http://" url))%bool then
    Ret (Err (usage "JWKS URL must be an http or https URL"))
  else
  run! response <- io_call (HttpSend false url [] "") in
  try? response <- map_err (fun err => runtime ("failed to fetch JWKS URL: " +:+ sanitize_oauth_text err))
    response in
  try? raw <- map_err (fun err => runtime ("failed to read JWKS response body: " +:+ sanitize_oauth_text err))
    (reply_text response) in
  if negb (status_success (reply_status response)) then
    Ret (Err (runtime ("JWKS URL fetch failed" +:+ newline +:+ "http_status="
                       +:+ to_string (reply_status response))))
  else Ret (res_map (fun jwks => (jwks, "url")) (parse_exchange_jwks_document raw "JWKS URL")).

Definition load_exchange_jwks (args : ExchangeArgs) : Io (result CliError (option (JwksDocument * string))) :=
  match ea_jwks_file args, ea_jwks_url args with
  | Some path, _ => try! jwks <- load_jwks_file path in Ret (Ok (Some jwks))
  | None, Some url => try! jwks <- load_jwks_url url in Ret (Ok (Some jwks))
  | None, None => Ret (Ok None)
  end.

Definition load_jwks_for_verification (jwks_file jwks_url : option string)
    : Io (result CliError (JwksDocument * string)) :=
  match jwks_file, jwks_url with
  | Some path, _ => load_jwks_file path
  | None, Some url => load_jwks_url url
  | None, None => Ret (Err (usage "token verify requires --jwks-file or --jwks-url"))
  end.

(** * Verification of a token *)

Definition verified_summary (token source : string) (verified : VerifiedJws Value) : Map :=
  let safe := map_insert "token_verify_status" (VString "ok") [] in
  let safe := map_insert "access_token_sha256_prefix" (VString (sha256_hex_prefix token)) safe in
  let safe := map_insert "jwt_signature_verified" (VBool true) safe in
  let safe := map_insert "jwt_verification_source" (VString source) safe in
  let safe := map_insert "jwt_header_alg" (VString (sanitize (v_alg verified))) safe in
  let safe := map_insert "jwt_header_kid" (VString (sanitize (v_kid verified))) safe in
  map_insert "claims" (safe_claims_summary (v_claims verified)) safe.

(** The claims, or everything when there are none. *)
Definition claims_or_all (safe : Map) : Value := default (VObject safe) (map_get "claims" safe).

Definition render_verified (safe : Map) (output : ExchangeOutputFormat) : string :=
  match output with
  | OutRedacted => render_token_verify_map_lines safe
  | OutClaims => pretty_line "{}" (claims_or_all safe)
  | OutJson => pretty_line "{}" (VObject safe)
  end.

Definition verify_token (args : TokenVerifyArgs) : Io (result CliError string) :=
  try! token <- read_secret_file (tv_token_file args) "token" in
  try! jwks <- load_jwks_for_verification (tv_jwks_file args) (tv_jwks_url args) in
  try? verified <- map_err (fun err => runtime ("token verification failed: "
                                                +:+ sanitize_oauth_text (jose_error_display err)))
    (verify_claims_against_jwks_with_header (T := Value) token jwks.1) in
  Ret (Ok (render_verified (verified_summary token jwks.2 verified) (tv_output args))).

(** * Responses *)

Definition decode_compact_jwt_json_part (part label : string) : result CliError Value :=
  let? bytes := map_err (fun _ => runtime ("minted " +:+ label +:+ " is not valid base64url")) (b64_decode part) in
  map_err (fun err => runtime ("minted " +:+ label +:+ " is not JSON: " +:+ err)) (json_from_str bytes).

Definition decode_compact_jwt (token : string) : result CliError (option (Value * Value)) :=
  match split_char "."%char token with
  | [header; payload; _] =>
      let? header := decode_compact_jwt_json_part header "JWT header" in
      let? payload := decode_compact_jwt_json_part payload "JWT payload" in
      Ok (Some (header, payload))
  | _ => Ok None
  end.

Definition render_exchange_error (args : ExchangeArgs) (http_status : Z) (body : Value) : string :=
  let member name := value_get name body ≫= as_str in
  let oauth_error := match member "error" with Some e => sanitize_oauth_text e | None => "oauth_error" end in
  let safe := map_insert "exchange_status" (VString "error") [] in
  let safe := map_insert "http_status" (number http_status) safe in
  let safe := map_insert "error" (VString oauth_error) safe in
  let safe := insert_mapped "error_description" (member "error_description") sanitize_oauth_text safe in
  match ea_output args with
  | OutRedacted => render_exchange_map_lines safe None
  | OutClaims | OutJson =>
      pretty_line ("{" +:+ dquote +:+ "exchange_status" +:+ dquote +:+ ":" +:+ dquote +:+ "error" +:+ dquote +:+ "}")
        (VObject safe)
  end.

(** What is known of the minted token: its claims, and the algorithm, the key
    and the source when its signature was checked. *)
Record MintedView : Type := mkMintedView {
  mv_claims : option Value;
  mv_alg : option string;
  mv_kid : option string;
  mv_source : string
}.

Definition minted_view (access_token : string) (decoded : option (Value * Value))
    (jwks : option (JwksDocument * string)) : result CliError MintedView :=
  match jwks with
  | Some (jwks, source) =>
      let? verified := map_err (fun err => runtime ("minted token verification failed: "
                                                    +:+ sanitize_oauth_text (jose_error_display err)))
        (verify_claims_against_jwks_with_header (T := Value) access_token jwks) in
      Ok (mkMintedView (Some (v_claims verified)) (Some (v_alg verified)) (Some (v_kid verified)) source)
  | None => Ok (mkMintedView (option_map snd decoded) None None "none")
  end.

(** The members taken from the response's body and the token's header. *)
Definition response_members (http_status : Z) (body : Value) (access_token : string)
    (decoded : option (Value * Value)) (view : MintedView) : Map :=
  let member name := value_get name body ≫= as_str in
  let shown name := match member name with Some v => sanitize v | None => "(absent)" end in
  let header name := (option_map fst decoded ≫= value_get name) ≫= as_str in
  let unless (o v : option string) := match o with None => v | Some _ => None end in
  let safe := map_insert "exchange_status" (VString "ok") [] in
  let safe := map_insert "http_status" (number http_status) safe in
  let safe := map_insert "token_type" (VString (shown "token_type")) safe in
  let safe := map_insert "issued_token_type" (VString (shown "issued_token_type")) safe in
  let safe := map_insert "access_token_sha256_prefix" (VString (sha256_hex_prefix access_token)) safe in
  let safe := insert_mapped "scope" (member "scope") sanitize safe in
  let safe := insert_number "expires_in" (value_get "expires_in" body ≫= as_i64) safe in
  let safe := map_insert "jwt_signature_verified" (VBool (negb (bool_decide (mv_source view = "none")))) safe in
  let safe := map_insert "jwt_verification_source" (VString (mv_source view)) safe in
  let safe := insert_mapped "jwt_header_alg" (unless (mv_alg view) (header "alg")) sanitize safe in
  let safe := insert_mapped "jwt_header_kid" (unless (mv_kid view) (header "kid")) sanitize safe in
  let safe := insert_mapped "jwt_header_typ" (header "typ") sanitize safe in
  let safe := insert_mapped "jwt_header_alg" (mv_alg view) sanitize safe in
  insert_mapped "jwt_header_kid" (mv_kid view) sanitize safe.

(** The minted token must be bound to the key that made the proof. *)
Definition check_holder_binding (expected_dpop_jkt : option string) (claims : option Value) (safe : Map)
    : result CliError Map :=
  match expected_dpop_jkt with
  | None => Ok safe
  | Some expected_jkt =>
      let? claims := ok_or claims (runtime "DPoP exchange response access_token is not a compact JWT") in
      let? actual_jkt := ok_or ((value_get "cnf" claims ≫= value_get "jkt") ≫= as_str)
        (runtime "DPoP exchange response missing access_token cnf.jkt") in
      if negb (bool_decide (actual_jkt = expected_jkt)) then
        Err (runtime "DPoP exchange response cnf.jkt does not match holder key")
      else
        let safe := map_insert "dpop_cnf_jkt_matches_holder" (VBool true) safe in
        Ok (map_insert "dpop_holder_jkt_sha256_prefix" (VString (sha256_hex_prefix expected_jkt)) safe)
  end.

Definition render_minted (args : ExchangeArgs) (access_token : string) (safe : Map) : string :=
  let with_token :=
    if ea_print_token args then map_insert "access_token" (VString access_token) safe else safe in
  match ea_output args with
  | OutRedacted => render_exchange_map_lines safe (if ea_print_token args then Some access_token else None)
  | OutClaims => pretty_line "{}" (claims_or_all with_token)
  | OutJson => pretty_line "{}" (VObject with_token)
  end.

Definition render_exchange_success (args : ExchangeArgs) (http_status : Z) (body : Value)
    (expected_dpop_jkt : option string) : Io (result CliError string) :=
  try? access_token <- ok_or (value_get "access_token" body ≫= as_str)
    (runtime "exchange response missing access_token; refusing to print raw body") in
  try? decoded <- decode_compact_jwt access_token in
  try! jwks <- load_exchange_jwks args in
  try? view <- minted_view access_token decoded jwks in
  let safe := response_members http_status body access_token decoded view in
  try? safe <- check_holder_binding expected_dpop_jkt (mv_claims view) safe in
  let safe := match mv_claims view with
              | Some claims => map_insert "claims" (safe_claims_summary claims) safe
              | None => safe
              end in
  Ret (Ok (render_minted args access_token safe)).

Context `{UrlLib} `{DpopLib} `{JsonReader} `{FormEncode}.

Definition run_exchange (args : ExchangeArgs) : Io (result CliError string) :=
  try! request <- build_exchange_http_request args in
  let headers := [("accept", "application/json");
                  ("content-type", "application/x-www-form-urlencoded; charset=utf-8")]
                 ++ match er_dpop_proof request with Some proof => [("DPoP", proof)] | None => [] end in
  run! response <- io_call (HttpSend true (er_token_endpoint request) headers (er_body request)) in
  try? response <- map_err (fun err => runtime ("exchange request failed: " +:+ sanitize_oauth_text err)) response in
  let status := reply_status response in
  try? text <- map_err (fun err => runtime ("failed to read exchange response body: " +:+ sanitize_oauth_text err))
    (reply_text response) in
  try? body <- map_err (fun err => runtime ("exchange response was not JSON" +:+ newline +:+ "http_status="
                                            +:+ to_string status +:+ newline +:+ "parse_error="
                                            +:+ sanitize_oauth_text err))
    (json_from_str text) in
  if negb (status_success status) then Ret (Err (runtime (render_exchange_error args status body)))
  else render_exchange_success args status body (er_dpop_jkt request).

End Verify.
