(* ===== verification/CliFiles.v ===== *)
(** crates/sts-cli: what writing a key file does to the files.

    [atomic_write_bytes] replaces a file in one step, whatever fails and
    wherever the process stops; [write_new_secret_text] never touches a file
    that is there. *)

From S2P Require Import Prelude RustStr Json Jose Config CliIo CliText CliKeys CliRotate.
From Stdlib Require Import Ascii.

(** * Specifications *)

(** The atomic write of [new] as an abstract program over one cell: it idles,
    then gives up or commits in one step and idles.  [atomic_write new cell
    trace fin] lists the values that the cell takes on the way. *)
Inductive atomic_write (new : File) (cell : option File) : list (option File) -> bool -> Prop :=
| aw_give_up : atomic_write new cell [cell] false
| aw_commit n : atomic_write new cell (cell :: repeat (Some new) (S n)) true
| aw_idle trace fin : atomic_write new cell trace fin -> atomic_write new cell (cell :: trace) fin.

(** What a write of [new] to [path] may have done to the files before and after
    its one visible step. *)
Definition evolves (path : string) (new : File) (fs : Fs) (fin : bool) (fs' : Fs) : Prop :=
  fs' !! path = (if fin then Some new else fs !! path) /\
  forall q f, q <> path -> fs !! q = Some f -> fs' !! q = Some f.

(** What it has done in the end: all of it, or nothing to a file that was
    there. *)
Definition settled {E A} (path : string) (new : File) (fs : Fs) (r : result E A) (fs' : Fs) : Prop :=
  match r with
  | Ok _ => fs' = <[path := new]> fs
  | Err _ => fs' !! path = fs !! path /\ forall q f, fs !! q = Some f -> fs' !! q = Some f
  end.

(** * Phases *)

(** As [always], with a phase: the process begins a write, and from some call on
    it has done it. *)
Fixpoint phases {A} (ok : Outcome -> Prop) (I : bool -> Fs -> Prop) (Q : A -> bool -> Fs -> Prop) (fin : bool)
    (m : Io A) (fs : Fs) : Prop :=
  I fin fs /\
  match m with
  | Ret a => Q a fin fs
  | Call c k => forall o, ok o -> exists fin', (fin = true -> fin' = true) /\
      phases ok I Q fin' (k (sys c o fs).1) (sys c o fs).2
  end.

Section Phases.
Context {ok : Outcome -> Prop} {I : bool -> Fs -> Prop}.

Lemma phases_mono {A} (Q Q' : A -> bool -> Fs -> Prop) m fin fs :
  (forall a fin fs, I fin fs -> Q a fin fs -> Q' a fin fs) -> phases ok I Q fin m fs -> phases ok I Q' fin m fs.
Proof.
  intros HQ. revert fin fs. induction m as [a|X c k IH]; simpl; intros fin fs [Hi Hm]; split; auto.
  intros o Ho. destruct (Hm o Ho) as (fin' & Hd & Hk). eauto.
Qed.

Lemma phases_try {E A B} (Q : result E B -> bool -> Fs -> Prop) (m : Io (result E A)) (f : A -> Io (result E B)) fin fs :
  phases ok I (fun r fin fs' => match r with
                                 | Ok a => phases ok I Q fin (f a) fs'
                                 | Err e => Q (Err e) fin fs'
                                 end) fin m fs ->
  phases ok I Q fin (io_try m f) fs.
Proof.
  unfold io_try. revert fin fs. induction m as [[a|e]|X c k IH]; simpl; intros fin fs; [by intros []|done|].
  intros [Hi Hm]. split; [done|]. intros o Ho. destruct (Hm o Ho) as (fin' & Hd & Hk). eauto.
Qed.

(** A part that leaves the files alone. *)
Lemma phases_idle {A B} (Q : B -> bool -> Fs -> Prop) (m : Io A) (f : A -> Io B) fin fs :
  always ok (fun fs' => fs' = fs) (fun a fs' => phases ok I Q fin (f a) fs) m fs -> I fin fs ->
  phases ok I Q fin (io_bind m f) fs.
Proof.
  intros Hm Hi. revert Hm. induction m as [a|X c k IH]; [by intros []|]. intros [_ Hm]. split; [done|].
  intros o Ho. exists fin. split; [done|]. specialize (Hm o Ho).
  pose proof (always_now _ _ _ Hm) as Heq. cbn beta in Heq. rewrite Heq in Hm |- *. apply IH, Hm.
Qed.

Lemma phases_always {A} (Q : A -> bool -> Fs -> Prop) m fin fs :
  phases ok I Q fin m fs -> always ok (fun fs' => exists d, I d fs') (fun a fs' => exists d, Q a d fs') m fs.
Proof.
  revert fin fs. induction m as [a|X c k IH]; simpl; intros fin fs [Hi Hm]; (split; [eauto|]); [eauto|].
  intros o Ho. destruct (Hm o Ho) as (fin' & _ & Hk). eauto.
Qed.

(** The phases of one cell are those of the abstract write. *)
Lemma phases_refine {A} (path : string) (new : File) (cell : option File) (is_done : A -> bool) m outs n fs :
  (forall fin fs, I fin fs -> fs !! path = if fin then Some new else cell) ->
  (forall j, ok (outs j)) ->
  phases ok I (fun a fin _ => is_done a = fin) false m fs ->
  atomic_write new cell (map (fun fs => fs !! path) (states m outs n fs)) (is_done (run m outs n fs).1).
Proof.
  intros HI Hok. revert n fs. induction m as [a|X c k IH]; intros n fs [Hi Hm]; cbn [states run map fst].
  - rewrite Hm, (HI _ _ Hi). constructor.
  - rewrite (HI _ _ Hi). destruct (Hm (outs n) (Hok n)) as (fin & _ & Hk).
    destruct (sys c (outs n) fs) as [x fs1]. cbn [fst snd] in Hk. destruct fin; [|apply aw_idle; by apply IH].
    assert (Hlate : forall m n fs, phases ok I (fun (a : A) fin _ => is_done a = fin) true m fs ->
              is_done (run m outs n fs).1 = true /\
              exists l, map (fun fs => fs !! path) (states m outs n fs) = repeat (Some new) (S l)).
    { clear -HI Hok. intros m. induction m as [a|X c k IH]; intros n fs [Hi Hm]; cbn [states run map fst];
        rewrite (HI _ _ Hi).
      - split; [done|]. by exists 0.
      - destruct (Hm (outs n) (Hok n)) as (fin & Hd & Hk). rewrite (Hd eq_refl) in Hk.
        destruct (sys c (outs n) fs) as [x fs1]. cbn [fst snd] in Hk. destruct (IH _ (S n) _ Hk) as [? [l ->]].
        split; [done|]. by exists (S l). }
    destruct (Hlate _ (S n) _ Hk) as [-> [l ->]]. apply aw_commit.
Qed.
End Phases.

(** * Paths *)

Definition slash_free (s : string) : Prop := contains_char "/"%char s = false.

Lemma slash_free_app s t : slash_free s -> slash_free t -> slash_free (s +:+ t).
Proof. unfold slash_free. rewrite contains_char_app. by intros -> ->. Qed.

Lemma digits_slash_free s : forall acc z, digits_val acc s = Some z -> slash_free s.
Proof.
  induction s as [|a s IH]; intros acc z; [done|]. cbn. unfold slash_free in *. cbn [contains_char].
  destruct (digit_val a) as [d|] eqn:Hd; [|done]. intros Hs. rewrite (IH _ _ Hs).
  by destruct (decide (a = "/"%char)) as [->|Hne]; [|rewrite bool_decide_eq_false_2].
Qed.

Lemma to_string_slash_free z : slash_free (to_string z).
Proof.
  assert (Hn : forall x : N, slash_free (pretty x)) by (intros x; eapply digits_slash_free, digits_val_pretty).
  unfold to_string, pretty, pretty_Z. destruct z; [done|apply Hn|].
  unfold slash_free. cbn [contains_char]. apply Hn.
Qed.

Lemma trim_pieces_last l x : x <> "" -> x <> "." -> trim_pieces (l ++ [x]) = l ++ [x].
Proof.
  intros H1 H2. induction l as [|y l IH]; [done|]. cbn [app trim_pieces].
  destruct (l ++ [x]) as [|z rest] eqn:E; [by destruct l|]. rewrite IH.
  destruct rest; [|done]. destruct l as [|? []]; simplify_eq/=.
  destruct (is_empty z) eqn:Hz; [by apply is_empty_true in Hz|]. by rewrite bool_decide_eq_false_2.
Qed.

Lemma split_char_last_piece c s t :
  contains_char c t = false -> exists l, split_char c (s +:+ String c t) = l ++ [t].
Proof.
  intros Ht. induction s as [s IH] using (induction_ltof1 _ String.length). unfold ltof in IH.
  destruct (contains_char c s) eqn:Hs.
  - assert (exists u v, s = u +:+ String c v /\ contains_char c u = false) as (u & v & -> & Hu).
    { clear IH Ht. induction s as [|a s IH]; [done|]. cbn in Hs. case_bool_decide as Ha.
      - subst. by exists "", s.
      - destruct (IH Hs) as (u & v & -> & Hu). exists (String a u), v. split; [done|]. cbn.
        by rewrite bool_decide_eq_false_2. }
    destruct (IH v) as [l Hl]; [rewrite str_length_app; cbn; lia|].
    exists (u :: l). rewrite str_app_assoc, app_cons, split_char_sep by done. by rewrite Hl.
  - exists [s]. by rewrite split_char_sep, split_char_last.
Qed.

Lemma trim_end_char_ne c s : trim_end_char c s <> s -> exists p, s = p +:+ str1 c.
Proof.
  induction s as [|a s IH]; [done|]. cbn [trim_end_char].
  destruct (is_empty (trim_start_char c (String a s))) eqn:E; intros H.
  - apply is_empty_true in E. clear H IH. revert a E. induction s as [|b s IH]; intros a; cbn [trim_start_char].
    + case_bool_decide; [|done]. intros _. subst. by exists "".
    + case_bool_decide; [|done]. intros E. destruct (IH b E) as [p ->]. by exists (String a p).
  - destruct IH as [p ->]; [congruence|]. by exists (String a p).
Qed.

Lemma path_join_shape dir name : exists p, path_join dir name = name \/ path_join dir name = p +:+ String "/"%char name.
Proof.
  unfold path_join. destruct (is_empty dir); [exists ""; auto|]. case_bool_decide as Hd; [exists dir; auto|].
  destruct (trim_end_char_ne _ _ Hd) as [p ->].
  exists p. right. by rewrite str_app_assoc.
Qed.

Lemma path_file_name_join dir name :
  slash_free name -> name ∉ [""; "."; ".."] -> path_file_name (path_join dir name) = Some name.
Proof.
  intros Hs Hn. assert (name <> "" /\ name <> ".") as [H1 H2] by (split; intros ->; set_solver).
  assert (Hl : last (path_pieces (path_join dir name)) = Some name).
  { unfold path_pieces. destruct (path_join_shape dir name) as [p [->| ->]].
    - by rewrite split_char_last.
    - destruct (split_char_last_piece "/"%char p name Hs) as [l ->]. rewrite trim_pieces_last by done.
      apply last_snoc. }
  unfold path_file_name. rewrite Hl. by rewrite bool_decide_eq_false_2.
Qed.

Lemma trim_pieces_incl l x : x ∈ trim_pieces l -> x ∈ l.
Proof.
  revert x. induction l as [|y l IH]; intros x; [done|]. cbn [trim_pieces]. destruct l as [|z l]; [done|].
  destruct (trim_pieces (z :: l)) as [|w [|]] eqn:E; try case_match; rewrite ?elem_of_cons; set_solver.
Qed.

Lemma path_file_name_slash_free p name : path_file_name p = Some name -> slash_free name.
Proof.
  unfold path_file_name. destruct (last (path_pieces p)) as [x|] eqn:Hl; [|done]. case_bool_decide; [done|].
  intros [= <-]. apply last_Some_elem_of in Hl. apply trim_pieces_incl in Hl.
  destruct (split_char_parts "/"%char p) as [Hall _]. rewrite Forall_forall in Hall. by apply Hall.
Qed.

(** The temporary name is not the name that is written: its last piece is
    longer. *)
Lemma temp_path_ne path dir pid nanos :
  path_join dir ("." +:+ default "sts-key" (path_file_name path) +:+ "." +:+ pid +:+ "." +:+ nanos +:+ ".tmp") = path ->
  slash_free pid -> slash_free nanos -> False.
Proof.
  intros Hp H1 H2. set (base := default "sts-key" (path_file_name path)) in *.
  set (name := "." +:+ base +:+ "." +:+ pid +:+ "." +:+ nanos +:+ ".tmp") in *.
  assert (Hb : slash_free base).
  { unfold base. destruct (path_file_name path) eqn:E; [by eapply path_file_name_slash_free|done]. }
  assert (Hlen : (String.length base + 4 < String.length name)%nat).
  { unfold name. rewrite !str_length_app. cbn. lia. }
  assert (Hs : slash_free name) by (by repeat apply slash_free_app).
  clearbody name. assert (Hn : path_file_name path = Some name).
  { rewrite <- Hp. apply path_file_name_join; [done|].
    intros Hin. assert (String.length name <= 2)%nat; [|lia].
    clear -Hin. rewrite !elem_of_cons, elem_of_nil in Hin. destruct Hin as [->|[->|[->|[]]]]; cbn; lia. }
  unfold base in Hlen. rewrite Hn in Hlen. cbn [default from_option id] in Hlen. unfold id in Hlen. lia.
Qed.

(** * Writing *)

(** The outcomes of one system call. *)
Ltac sys_cases o :=
  cbn [sys fst snd]; unfold unless_fault;
  destruct (o_fault o) as [fault|] eqn:?; cbn [fst snd].

Lemma evolves_refl path new fs : evolves path new fs false fs.
Proof. by split. Qed.

Lemma evolves_temp path new fs tmp f : tmp <> path -> fs !! tmp = None -> evolves path new fs false (<[tmp := f]> fs).
Proof.
  intros Hne Htmp. split; [by rewrite lookup_insert_ne|].
  intros q g Hqp Hg. rewrite lookup_insert_ne by congruence. auto.
Qed.

Lemma evolves_done path new fs : evolves path new fs true (<[path := new]> fs).
Proof. split; [apply lookup_insert_eq|]. intros q f Hne Hq. by rewrite lookup_insert_ne. Qed.

(** From the point where the temporary file has its name. *)
Definition write_through (path bytes tmp_path parent : string) (mode : Z) : Io (result CliError unit) :=
  try! _ <- io_map_err (fun err => runtime ("failed to create temp file " +:+ tmp_path +:+ ": " +:+ io_text err))
    (io_call (OpenNew tmp_path mode)) in
  try! _ <- or_remove tmp_path (io_call (WriteSync tmp_path bytes))
    (fun err => "failed to write temp file " +:+ tmp_path +:+ ": " +:+ err) in
  try! _ <- or_remove tmp_path (io_call (SetMode tmp_path mode))
    (fun err => "failed to set permissions on " +:+ tmp_path +:+ ": " +:+ err) in
  try! _ <- or_remove tmp_path (io_call (Rename tmp_path path))
    (fun err => "failed to replace " +:+ path +:+ " atomically: " +:+ err) in
  run! _ <- io_call (SyncDir parent) in
  Ret (Ok tt).

Lemma atomic_write_unfold path bytes mode :
  atomic_write_bytes path bytes mode =
  io_try (create_parent path "directory") (fun _ =>
    run! clock <- io_call SinceEpoch in
    run! pid <- io_call ProcessId in
    let nanos := match clock with Ok n => n | Err _ => 0%Z end in
    write_through path bytes
      (path_join (default "." (path_parent path))
         ("." +:+ default "sts-key" (path_file_name path) +:+ "." +:+ to_string pid +:+ "." +:+
          to_string nanos +:+ ".tmp"))
      (default "." (path_parent path)) mode).
Proof. reflexivity. Qed.

#[export] Hint Resolve evolves_refl evolves_temp evolves_done : files.

Section WriteThrough.
Context (ok : Outcome -> Prop) (path bytes tmp parent : string) (mode : Z) (fs : Fs).
Context (tmp_ne : tmp <> path).

Let new : File := mkFile bytes mode.

Lemma settled_refl (e : CliError) : settled path new fs (Err (A := unit) e) fs.
Proof. by split. Qed.

Lemma settled_temp (f : File) (e : CliError) :
  fs !! tmp = None -> settled path new fs (Err (A := unit) e) (<[tmp := f]> fs).
Proof.
  intros Hfree. split; [by rewrite lookup_insert_ne|].
  intros q g Hg. by rewrite lookup_insert_ne by congruence.
Qed.

(** What the answer says of the phase and of the files. *)
Definition told (r : result CliError unit) (fin : bool) (fs' : Fs) : Prop :=
  is_ok r = fin /\ settled path new fs r fs'.

(** A step on the temporary file that leaves it there when it fails. *)
Lemma or_remove_phases (c : Sys (result IoError unit)) message (f : File) (later : bool) (Q : Fs -> Prop) :
  fs !! tmp = None ->
  (forall o, ok o -> match (sys c o (<[tmp := f]> fs)).1 with
                     | Ok _ => Q (sys c o (<[tmp := f]> fs)).2
                     | Err _ => exists g, (sys c o (<[tmp := f]> fs)).2 = <[tmp := g]> fs
                     end) ->
  (forall fs', Q fs' -> evolves path new fs later fs') ->
  phases ok (evolves path new fs)
    (fun r fin fs' => match r with Ok _ => fin = later /\ Q fs' | Err e => told (Err e) fin fs' end) false
    (or_remove tmp (io_call c) message) (<[tmp := f]> fs).
Proof.
  intros Hfree Hc HQ. split; [auto with files|]. intros o Ho. specialize (Hc o Ho).
  destruct (sys c o (<[tmp := f]> fs)) as [[[]|err] fs1]; cbn [fst snd io_bind] in *.
  - exists later. split; [done|]. split; auto.
  - destruct Hc as [g ->]. exists false. split; [done|]. split; [auto with files|]. intros o2 _.
    exists false. split; [done|]. sys_cases o2.
    + split; [auto with files|]. split; [done|]. by apply settled_temp.
    + rewrite lookup_insert_eq. cbn. rewrite delete_insert_eq, delete_id by done. by split; [auto with files|].
Qed.

Lemma write_through_phases :
  phases ok (evolves path new fs) told false (write_through path bytes tmp parent mode) fs.
Proof.
  unfold write_through. apply phases_try. split; [auto with files|]. intros o _. exists false. split; [done|].
  sys_cases o; [by split; [auto with files|]|].
  destruct (fs !! tmp) as [f|] eqn:Hfree; cbn [fst snd]; [by split; [auto with files|]|].
  split; [auto with files|]. cbn [map_err].
  apply phases_try. eapply phases_mono; [|apply or_remove_phases with (later := false)
    (Q := fun fs' => exists m, fs' = <[tmp := mkFile bytes m]> fs); [done| |by intros ? [? ->]; auto with files]].
  2: { intros o2 _. sys_cases o2; rewrite lookup_insert_eq, insert_insert_eq; eauto. }
  intros [[]|e] fin1 fs2 _; [|done]. intros [-> [m ->]].
  apply phases_try. eapply phases_mono; [|apply or_remove_phases with (later := false)
    (Q := fun fs' => fs' = <[tmp := new]> fs); [done| |intros ? ->; auto with files]].
  2: { intros o2 _. sys_cases o2; [eauto|]. rewrite lookup_insert_eq. cbn. by rewrite insert_insert_eq. }
  intros [[]|e] fin2 fs3 _; [|done]. intros [-> ->].
  apply phases_try. eapply phases_mono; [|apply or_remove_phases with (later := true)
    (Q := fun fs' => fs' = <[path := new]> fs); [done| |intros ? ->; auto with files]].
  2: { intros o2 _. sys_cases o2; [eauto|]. rewrite lookup_insert_eq. cbn.
       by rewrite delete_insert_eq, delete_id. }
  intros [[]|e] fin3 fs4 _; [|done]. intros [-> ->].
  split; [auto with files|]. intros o2 _. exists true. split; [done|].
  sys_cases o2; (split; [auto with files|done]).
Qed.
End WriteThrough.

Lemma create_parent_always ok (I : Fs -> Prop) path what fs :
  I fs -> always ok I (fun _ fs' => fs' = fs) (create_parent path what) fs.
Proof.
  intros Hi. unfold create_parent. case_match; [|by apply always_ret].
  apply always_bind, always_call; [done|]. intros o _. by sys_cases o.
Qed.

Lemma atomic_write_phases ok path bytes mode fs :
  phases ok (evolves path (mkFile bytes mode) fs) (told path bytes mode fs) false
    (atomic_write_bytes path bytes mode) fs.
Proof.
  rewrite atomic_write_unfold. apply phases_idle; [|auto with files].
  eapply always_mono; [|by apply create_parent_always].
  intros [[]|e] fs' _ _; [|by split; [auto with files|]].
  split; [auto with files|]. intros o _. exists false. split; [done|].
  split; [cbn; auto with files|]. intros o2 _. exists false. split; [done|].
  apply write_through_phases. intros Heq.
  eapply temp_path_ne; [exact Heq| |]; apply to_string_slash_free.
Qed.

(** Every state on the way, and the end. *)
Lemma atomic_write_always ok path bytes mode fs :
  always ok (fun fs' => exists fin, evolves path (mkFile bytes mode) fs fin fs')
    (settled path (mkFile bytes mode) fs) (atomic_write_bytes path bytes mode) fs.
Proof.
  eapply always_mono; [|eapply phases_always, atomic_write_phases]. by intros r fs' _ (done & _ & Hs).
Qed.

Lemma create_new_always ok path value mode fs :
  always ok (fun fs' => forall q f, fs !! q = Some f -> fs' !! q = Some f)
    (fun r fs' => forall u, r = Ok u -> fs !! path = None /\ fs' = <[path := mkFile value mode]> fs)
    (write_new_secret_text path value mode) fs.
Proof.
  unfold write_new_secret_text. apply always_try.
  eapply always_mono; [|by apply create_parent_always].
  intros [[]|e] fs' _ ->; [|done].
  apply always_try, always_bind, always_call; [done|]. intros o _.
  sys_cases o; [by split; [|apply always_ret]|].
  destruct (fs !! path) as [f|] eqn:Hfree; cbn [fst snd]; [by split; [|apply always_ret]|].
  assert (Hkeep : forall g q f, fs !! q = Some f -> <[path := g]> fs !! q = Some f).
  { intros g q f Hq. by rewrite lookup_insert_ne by congruence. }
  split; [by apply Hkeep|]. apply always_ret; [by apply Hkeep|]. cbn [map_err].
  apply always_try, always_bind, always_call; [by apply Hkeep|]. intros o2 _.
  sys_cases o2; rewrite lookup_insert_eq, insert_insert_eq; cbn [f_mode fst snd];
    (split; [by apply Hkeep|]); (apply always_ret; [by apply Hkeep|]); cbn [map_err]; [done|].
  apply always_bind, always_call; [by apply Hkeep|]. intros o3 _.
  sys_cases o3; [|rewrite lookup_insert_eq, insert_insert_eq]; cbn [f_content fst snd];
    (split; [by apply Hkeep|]); (apply always_ret; [by apply Hkeep|]); cbn [map_err]; [done|auto].
Qed.

(** The name of the temporary file of a write to [path], when the calls that make
    it meet the outcome [o]. *)
Definition temp_name (path : string) (o : Outcome) : string :=
  path_join (default "." (path_parent path))
    ("." +:+ default "sts-key" (path_file_name path) +:+ "." +:+ to_string (o_pid o) +:+ "." +:+
     to_string (match o_clock o with Ok n => n | Err _ => 0%Z end) +:+ ".tmp").

Lemma temp_name_ne path o : temp_name path o <> path.
Proof. intros Heq. eapply temp_path_ne; [exact Heq| |]; apply to_string_slash_free. Qed.

Section Calm.
Context (o : Outcome) (no_fault : o_fault o = None).

Lemma create_parent_calm path what fs : calmly o (create_parent path what) fs (Ok tt) fs.
Proof.
  unfold create_parent. case_match; [|apply calmly_ret]. apply calmly_map_err, calmly_call.
  cbn [sys]. unfold unless_fault. by rewrite no_fault.
Qed.

Lemma or_remove_calm tmp (c : Sys (result IoError unit)) message fs fs' :
  sys c o fs = (Ok tt, fs') -> calmly o (or_remove tmp (io_call c) message) fs (Ok tt) fs'.
Proof. intros Hc. eapply calmly_bind; [by apply calmly_call|]. apply calmly_ret. Qed.

(** An undisturbed write that finds its temporary name free writes the file. *)
Lemma atomic_write_calm path bytes mode fs :
  fs !! temp_name path o = None ->
  calmly o (atomic_write_bytes path bytes mode) fs (Ok tt) (<[path := mkFile bytes mode]> fs).
Proof.
  intros Hfree. rewrite atomic_write_unfold.
  eapply calmly_try; [apply create_parent_calm|].
  do 2 (eapply calmly_bind; [apply calmly_call; reflexivity|]). cbn zeta.
  unfold write_through. change (path_join _ _) with (temp_name path o).
  assert (Hu : forall X (x : result IoError X * Fs), unless_fault o fs x = x) by (intros; unfold unless_fault; by rewrite no_fault).
  eapply calmly_try; [apply calmly_map_err, calmly_call; cbn [sys]; rewrite Hu, Hfree; reflexivity|].
  eapply calmly_try; [apply or_remove_calm; cbn [sys]; rewrite no_fault, lookup_insert_eq, insert_insert_eq; reflexivity|].
  eapply calmly_try; [apply or_remove_calm; cbn [sys]; unfold unless_fault;
    rewrite no_fault, lookup_insert_eq, insert_insert_eq; reflexivity|].
  eapply calmly_try; [apply or_remove_calm; cbn [sys]; unfold unless_fault;
    rewrite no_fault, lookup_insert_eq, delete_insert_eq, delete_id by done; reflexivity|].
  eapply calmly_bind; [apply calmly_call; cbn [sys]; unfold unless_fault; rewrite no_fault; reflexivity|]. apply calmly_ret.
Qed.
End Calm.

(** * Properties *)

(** C17: A file is replaced in one step: whatever fails and wherever the process
    stops, the file under its name is the old one or the complete new one with
    its mode; the answer says which; what it goes through is a behaviour of the
    atomic write; and no other file that was there changes. *)
Theorem atomic_write_refines (path bytes : string) (mode : Z) (outs : nat -> Outcome) (n : nat) (fs : Fs) :
  let '(r, fs') := run (atomic_write_bytes path bytes mode) outs n fs in
  let trace := states (atomic_write_bytes path bytes mode) outs n fs in
  atomic_write (mkFile bytes mode) (fs !! path) (map (fun fs => fs !! path) trace) (is_ok r) /\
  Forall (fun fs' => forall q f, q <> path -> fs !! q = Some f -> fs' !! q = Some f) trace /\
  settled path (mkFile bytes mode) fs r fs'.
Proof.
  pose proof (atomic_write_phases any_outcome path bytes mode fs) as Hp.
  pose proof (phases_always _ _ _ _ Hp) as Ha.
  pose proof (always_run _ _ outs n fs (fun _ => I) Ha) as Hrun.
  pose proof (always_states _ _ outs n fs (fun _ => I) Ha) as Hstates.
  assert (Ht := phases_refine path (mkFile bytes mode) (fs !! path) is_ok _ outs n fs
    (fun fin fs' H => proj1 H) (fun _ => I) (phases_mono _ _ _ _ _ (fun _ _ _ _ H => proj1 H) Hp)).
  destruct (run (atomic_write_bytes path bytes mode) outs n fs) as [r fs'].
  split; [done|]. split; [|by destruct Hrun as (fin & _ & Hs)].
  eapply Forall_impl; [exact Hstates|]. by intros fs1 (done & _ & Hf).
Qed.

(** A secret is never written over a file: in every state on the way each
    file that was there is as it was, and when the answer is success the name
    was free and holds the complete secret with its mode. *)
Theorem new_secret_never_overwrites (path value : string) (mode : Z) (outs : nat -> Outcome) (n : nat) (fs : Fs) :
  let '(r, fs') := run (write_new_secret_text path value mode) outs n fs in
  Forall (fun fs1 => forall q f, fs !! q = Some f -> fs1 !! q = Some f)
    (states (write_new_secret_text path value mode) outs n fs) /\
  (is_ok r = true -> fs !! path = None /\ fs' = <[path := mkFile value mode]> fs).
Proof.
  pose proof (create_new_always any_outcome path value mode fs) as Ha.
  pose proof (always_run _ _ outs n fs (fun _ => I) Ha) as Hrun.
  pose proof (always_states _ _ outs n fs (fun _ => I) Ha) as Hstates.
  destruct (run (write_new_secret_text path value mode) outs n fs) as [[u|e] fs']; [|done].
  split; [done|]. intros _. by eapply Hrun.
Qed.
