(* ===== verification/CliDocs.v ===== *)
(** crates/sts-cli: which key documents the commands accept.

    What [parse_public_jwks_document] accepts, that a document which a rotation
    writes is read back key by key, and how this agrees with what the server
    accepts for the same file at start-up. *)

From S2P Require Import Prelude RustStr Json Url Core Replay Jose JoseSigners Verify Config HttpBootstrap CliIo CliText CliKeys CliRotate.
From Stdlib Require Import Ascii.

(** * Specifications *)

(** The members of a written key, in the order of their names. *)
Definition canonical (jwk : PublicJwk) : Map :=
  fold_left (fun o kv => map_insert kv.1 kv.2 o) (public_jwk_fields jwk) [].

(** What the operator expects of the overlap after a rotation: the keys that
    were there, in their order, without those whose id is one of the two. *)
Definition still_retiring (overlap : list PublicJwk) (current new : PublicJwk) : list PublicJwk :=
  filter (fun key => jwk_kid key ∉ [jwk_kid current; jwk_kid new]) overlap.

(** A public key that the overlap file may hold. *)
Definition storable `{Base64} (jwk : PublicJwk) : Prop :=
  jwk_kty jwk = "RSA" /\ (exists bits, rsa_public_key_bits_from_jwk jwk = Ok bits /\ (2048 <= bits)%Z)
  \/ jwk_kty jwk = "AKP" /\ exists bytes, akp_public_bytes jwk = Ok bytes.

(** serde_json reads a key set that it has written, and [PublicJwk] reads its
    own members.  A private key file is read with the kid it was written
    with. *)
Class KeyFileLaws `{SerdeJson} `{JsonText} `{JwkReader} `{FromJson PrivateRsaJwk} : Prop := {
  read_document doc text :
    json_to_string_pretty (jwks_document_value doc) = Ok text ->
    json_from_str (text +:+ newline) =
      Ok (VObject [("keys", VArray (map (fun jwk => VObject (canonical jwk)) (jwks_keys doc)))]);
  read_jwk jwk : HttpBootstrap.jwk_from_value (VObject (canonical jwk)) = Ok jwk;
  read_private_kid value text jwk :
    json_to_string_pretty value = Ok text -> from_json (text +:+ newline) = Ok jwk ->
    rsa_kid jwk = value_get "kid" value ≫= as_str
}.

(** The modulus of a key is the integer that stands second in its DER. *)
Class DerLaws `{Asn1} `{AwsLc} : Prop := {
  biguint_be bytes : biguint_from_bytes_be bytes = be_value bytes;
  der_modulus n rest der key :
    to_der (Sequence (Integer 0 :: Integer n :: rest)) = Ok der -> rsa_from_der der = Ok key ->
    be_value (rsa_public_n key) = n
}.

(** * Keys *)

Lemma canonical_get jwk :
  map_get "kty" (canonical jwk) = Some (VString (jwk_kty jwk)) /\
  map_get "kid" (canonical jwk) = Some (VString (jwk_kid jwk)) /\
  map_get "use" (canonical jwk) = Some (VString (jwk_use jwk)) /\
  map_get "alg" (canonical jwk) = Some (VString (jwk_alg jwk)) /\
  map_get "n" (canonical jwk) = option_map VString (jwk_n jwk) /\
  map_get "e" (canonical jwk) = option_map VString (jwk_e jwk) /\
  map_get "pub" (canonical jwk) = option_map VString (jwk_pub jwk).
Proof. by destruct jwk as [? ? ? ? [|] [|] [|]]. Qed.

Lemma canonical_public jwk :
  existsb (fun member => bool_decide (member ∈ HttpBootstrap.PRIVATE_JWK_MEMBERS)) (map fst (canonical jwk)) = false.
Proof. by destruct jwk as [? ? ? ? [|] [|] [|]]. Qed.

Lemma all_zero_first n : is_empty n = false -> first_byte_zero n = false -> all_zero n = false.
Proof. destruct n as [|b n]; [done|]. cbn. intros _. unfold all_zero. cbn [skip_zero_bytes]. by intros ->. Qed.

Lemma retained_still overlap current new :
  retained_keys overlap current new = still_retiring overlap current new.
Proof.
  unfold retained_keys, still_retiring. induction overlap as [|key overlap IH]; [done|]. cbn [List.filter].
  rewrite filter_cons, <- IH. do 2 case_bool_decide; cbn [negb andb]; case_decide; try done; set_solver.
Qed.

Section Documents.
Context `{Base64} `{Sha256} `{SerdeJson} `{JsonText} `{JwkReader}.

Lemma parse_overlap_key_storable label i key jwk :
  parse_overlap_key label i key = Ok jwk -> storable jwk.
Proof.
  unfold parse_overlap_key, storable. intros Hp. ok_inv. case_bool_decide as Hk.
  - ok_inv. bool_hyps. left. eauto.
  - case_bool_decide as Hk2; [|done]. ok_inv. right. eauto.
Qed.

Lemma akp_public_any_index key i j bytes :
  akp_public_from_key key i = Ok bytes -> akp_public_from_key key j = Ok bytes.
Proof.
  unfold akp_public_from_key, required_string, optional_string, key_err.
  destruct (_ || _)%bool; [done|]. destruct (map_get "alg" key) as [[]|]; cbn [res_bind]; try done.
  destruct (from_jose_alg s); [|done].
  destruct (map_get "pub" key) as [[]|]; cbn [res_bind]; try done.
  destruct (b64_decode _); [|done]. by case_match.
Qed.

(** What the library's check of an RSA public key establishes. *)
Lemma rsa_bits_components jwk bits :
  rsa_public_key_bits_from_jwk jwk = Ok bits ->
  exists n e nb eb, jwk_n jwk = Some n /\ jwk_e jwk = Some e /\ b64_decode n = Ok nb /\ b64_decode e = Ok eb /\
    all_zero nb = false /\ all_zero eb = false /\ is_empty nb = false /\ is_empty eb = false.
Proof.
  unfold rsa_public_key_bits_from_jwk, rsa_public_key_from_jwk, decode_jwk_component, decode_jwk_octets,
    validate_public_components, jose_err. intros Hb. ok_inv. bool_hyps.
  do 4 eexists. split_and!; eauto using all_zero_first.
Qed.

Lemma storable_inspect jwk i : storable jwk -> is_ok (inspect_public_key i (canonical jwk)) = true.
Proof.
  intros Hs. unfold inspect_public_key. rewrite canonical_public.
  destruct (canonical_get jwk) as (G1 & G2 & G3 & G4 & G5 & G6 & G7).
  unfold required_string, optional_string. rewrite G1, G2, G3, G4. cbn [res_bind].
  destruct Hs as [[-> (bits & Hb & _)]|[-> (bytes & Hb)]].
  - rewrite bool_decide_eq_true_2, bool_decide_eq_false_2 by done.
    apply rsa_bits_components in Hb as (n & e & nb & eb & Hn & He & Hnb & Heb & Z1 & Z2 & E1 & E2).
    unfold rsa_modulus_bits_from_key, required_string, optional_string, decode_base64url_uint.
    rewrite G5, G6, Hn, He. cbn [option_map res_bind]. rewrite Hnb. cbn [res_bind]. rewrite Heb.
    cbn [res_bind]. by rewrite Z1, Z2, E1, E2.
  - rewrite bool_decide_eq_false_2, bool_decide_eq_true_2 by done. cbn [res_bind].
    unfold akp_public_bytes, public_jwk_object in Hb. ok_inv.
    match goal with Hx : as_object _ = Some ?o |- _ =>
      change (Some (canonical jwk) = Some o) in Hx; injection Hx as <- end.
    match goal with Hx : akp_public_from_key _ _ = Ok _ |- _ =>
      by rewrite (akp_public_any_index _ _ i _ Hx) end.
Qed.

(** A loop that takes [g x] back to [x]. *)
Lemma try_imap_section {E A B} (f : nat -> B -> result E A) (g : A -> B) (l : list A) :
  (forall i x, x ∈ l -> f i (g x) = Ok x) -> try_imap f (map g l) = Ok l.
Proof.
  intros Hf. unfold try_imap. apply try_map_ok, Forall2_same_length_lookup.
  split; [by rewrite length_imap, length_map|]. intros i [j b] x Hb Hx.
  rewrite list_lookup_imap, list_lookup_fmap, Hx in Hb. injection Hb as <- <-. cbn.
  apply Hf. by eapply list_elem_of_lookup_2.
Qed.

Lemma try_imap_ok {E A B} (f : nat -> A -> result E B) (l : list A) :
  (forall i x, x ∈ l -> is_ok (f i x) = true) -> is_ok (try_imap f l) = true.
Proof.
  unfold try_imap. intros Hf.
  assert (Hg : forall ia : nat * A, ia ∈ imap pair l -> is_ok (f ia.1 ia.2) = true).
  { intros [i a] Hin. apply elem_of_lookup_imap in Hin as (j & x & [= -> ->] & Hx).
    apply Hf. by eapply list_elem_of_lookup_2. }
  revert Hg. generalize (imap pair l). clear. intros l. induction l as [|ia l IH]; intros Hg; [done|].
  cbn [try_map]. destruct (f ia.1 ia.2) eqn:Hi; cbn [res_bind]; [|specialize (Hg ia ltac:(by left)); by rewrite Hi in Hg].
  destruct (try_map _ l) eqn:Hl; [done|]. by apply IH; intros; apply Hg; right.
Qed.

Lemma parsed_storable raw label keys :
  parse_public_jwks_document raw label = Ok keys -> Forall storable keys.
Proof.
  unfold parse_public_jwks_document, try_imap. intros Hp. ok_inv.
  match goal with Hx : try_map _ _ = Ok keys |- _ => apply try_map_ok in Hx; rename Hx into Hall end.
  apply Forall_forall. intros jwk Hin. apply list_elem_of_lookup_1 in Hin as [i Hi].
  eapply Forall2_lookup_r in Hall as ([j key] & _ & Hk); [|exact Hi]. by eapply parse_overlap_key_storable.
Qed.

(** * What the server makes of the same document *)

Lemma akp_valid jwk bytes : jwk_kty jwk = "AKP" -> akp_public_bytes jwk = Ok bytes -> is_ok (akp_public_key_from_jwk jwk) = true.
Proof.
  intros Hk. unfold akp_public_bytes, public_jwk_object. intros Hb. ok_inv.
  match goal with Hx : as_object _ = Some ?o |- _ =>
    change (Some (canonical jwk) = Some o) in Hx; injection Hx as <- end.
  destruct (canonical_get jwk) as (_ & _ & _ & G4 & G5 & G6 & G7).
  match goal with Hx : akp_public_from_key _ _ = Ok _ |- _ => revert Hx end.
  unfold akp_public_from_key, akp_public_key_from_jwk, required_string, optional_string, map_contains_key,
    decode_jwk_octets, key_err, jose_err. rewrite G4, G5, G6, G7, Hk. cbn [res_bind bool_decide negb].
  rewrite bool_decide_eq_true_2 by done. cbn [negb].
  destruct (jwk_n jwk), (jwk_e jwk); cbn [option_map opt_is_some orb]; try done.
  destruct (from_jose_alg (jwk_alg jwk)); cbn [res_bind ok_or]; [|done].
  destruct (jwk_pub jwk) as [pub|]; cbn [res_bind ok_or option_map]; [|done].
  destruct (b64_decode pub); cbn [res_bind map_err]; [|done].
  by destruct (_ =? _)%Z.
Qed.

Lemma inspected_public i key x :
  inspect_public_key i key = Ok x -> forall member, member ∈ HttpBootstrap.PRIVATE_JWK_MEMBERS -> map_get member key = None.
Proof.
  unfold inspect_public_key. destruct (existsb _ _) eqn:He; [done|]. intros _ member Hm.
  destruct (map_get member key) as [v|] eqn:Hg; [|done]. exfalso.
  rewrite existsb_false_elem in He. specialize (He member).
  rewrite bool_decide_eq_true_2 in He by done. discriminate He.
  clear -Hg. induction key as [|[k w] key IH]; [done|]. cbn in Hg |- *. case_bool_decide; [subst; by left|right; auto].
Qed.

Lemma overlap_key_server i label key x jwk :
  inspect_public_key i key = Ok x -> parse_overlap_key label i key = Ok jwk ->
  public_key_of (VObject key) jwk <-> jwk_use jwk = "sig".
Proof.
  intros Hi Hp. unfold public_key_of. split.
  - intros (object & _ & _ & _ & Hv & _). unfold validate_public_jwk in Hv.
    by destruct (bool_decide _) eqn:Hu in Hv; [apply bool_decide_eq_true in Hu|].
  - intros Hu. exists key. split; [done|]. split; [by eapply inspected_public|].
    unfold parse_overlap_key in Hp. ok_inv.
    case_bool_decide as Hk; ok_inv; bool_hyps; unfold validate_public_jwk.
    + repeat match goal with Hx : HttpBootstrap.jwk_from_value _ = _ |- _ => rewrite Hx; clear Hx end.
      rewrite Hu, !bool_decide_eq_true_2 by done. cbn [negb].
      match goal with Hx : rsa_public_key_bits_from_jwk _ = Ok _ |- _ => pose proof Hx as Hbits end.
      unfold rsa_public_key_bits_from_jwk in Hbits. ok_inv.
      match goal with Hx : rsa_public_key_from_jwk _ = Ok _ |- _ => rewrite Hx end. eauto.
    + repeat match goal with Hx : HttpBootstrap.jwk_from_value _ = _ |- _ => rewrite Hx; clear Hx end.
      rewrite Hu, bool_decide_eq_true_2, bool_decide_eq_false_2, bool_decide_eq_true_2 by done. cbn [negb].
      match goal with Hx : akp_public_bytes _ = Ok _ |- _ => apply akp_valid in Hx; [|done] end.
      by destruct (akp_public_key_from_jwk jwk); [|done].
Qed.

Lemma normalize_keys_of value objects :
  normalize_jwks_value value = Ok objects -> keys_of value (map VObject objects) /\ objects <> [].
Proof.
  unfold normalize_jwks_value, keys_of. intros Hn. ok_inv.
  match goal with Hx : as_object _ = Some _ |- _ => apply as_object_Some in Hx as -> end.
  match goal with Hx : try_map _ ?l = Ok _ |- _ => rename l into values; apply try_map_ok in Hx; rename Hx into Hall end.
  assert (values = map VObject objects) as ->.
  { clear -Hall. induction Hall as [|v o vs os Hv _ IH]; [done|]. cbn. f_equal; [|done].
    apply ok_or_ok, as_object_Some in Hv. done. }
  bool_hyps. split; [|by intros ->].
  eexists. split; [done|]. destruct (map_get "keys" _) as [[]|]; simplify_eq/=; try done; try congruence.
Qed.

(** What start-up makes of a document that the commands read. *)
Lemma overlap_server raw label server_label value keys doc :
  json_from_str raw = Ok value -> parse_public_jwks_document raw label = Ok keys ->
  normalize_public_jwks_value value server_label = Ok doc <->
  doc = mkJwksDocument keys /\ Forall (fun jwk => jwk_use jwk = "sig") keys.
Proof.
  intros Hv Hp. unfold parse_public_jwks_document in Hp. rewrite Hv in Hp. cbn [map_err res_bind] in Hp. ok_inv.
  match goal with Hx : normalize_jwks_value _ = Ok ?l |- _ =>
    rename l into objects; apply normalize_keys_of in Hx as [Hof Hne] end.
  unfold inspect_public_keys, try_imap in *.
  match goal with Hx : try_map _ _ = Ok keys |- _ => apply try_map_ok in Hx; rename Hx into Hparse end.
  match goal with Hx : try_map _ _ = Ok _ |- _ => apply try_map_ok in Hx; rename Hx into Hinsp end.
  assert (Hkeys : Forall2 (fun o jwk => forall jwk', public_key_of (VObject o) jwk' <-> jwk' = jwk /\ jwk_use jwk = "sig")
    objects keys).
  { apply Forall2_same_length_lookup. split.
    - apply Forall2_length in Hparse. by rewrite length_imap in Hparse.
    - intros i o jwk Ho Hj jwk'.
      assert (Hio : imap pair objects !! i = Some (i, o)) by (apply list_lookup_imap_Some; eauto).
      eapply Forall2_lookup_lr in Hparse; [|exact Hio|exact Hj].
      eapply Forall2_lookup_l in Hinsp as (x & _ & Hx); [|exact Hio].
      pose proof (overlap_key_server _ _ _ _ _ Hx Hparse) as Hiff.
      enough (Hread : public_key_of (VObject o) jwk' -> jwk' = jwk).
      { split; [intros Hk; pose proof (Hread Hk); subst; split; [done|by apply Hiff]|intros [-> Hu]; by apply Hiff]. }
      intros (? & [= <-] & _ & Hr & _). unfold parse_overlap_key in Hparse. ok_inv.
      cbn [snd] in *. case_bool_decide; ok_inv; [congruence|]. case_bool_decide; ok_inv; congruence. }
  rewrite normalize_keys_spec. split.
  - intros (values & Hof' & _ & Hall).
    assert (values = map VObject objects) as ->.
    { destruct Hof as (o1 & -> & H1'), Hof' as (o2 & [= <-] & H2'). by destruct (map_get "keys" o1); simplify_eq. }
    destruct doc as [docs]. cbn [jwks_keys] in Hall.
    enough (docs = keys /\ Forall (fun jwk => jwk_use jwk = "sig") keys) as [-> ?] by done.
    clear -Hall Hkeys. revert docs Hall. induction Hkeys as [|o jwk os jwks Ho _ IH]; intros docs Hall;
      inversion Hall as [|? jwk' ? docs' Hk Hks]; subst; [done|].
    apply Ho in Hk as [-> Hu]. apply IH in Hks as [-> ?]. split; [done|by constructor].
  - intros [-> Hall]. exists (map VObject objects). split; [done|]. split; [by destruct objects|]. cbn [jwks_keys].
    clear -Hall Hkeys. induction Hkeys as [|o jwk os jwks Ho _ IH]; [constructor|].
    inversion Hall; subst. constructor; [by apply Ho|by apply IH].
Qed.

Context `{FromJson PrivateRsaJwk} `{!KeyFileLaws}.

Lemma storable_parse label jwk i : storable jwk -> parse_overlap_key label i (canonical jwk) = Ok jwk.
Proof.
  intros Hs. unfold parse_overlap_key. rewrite read_jwk. cbn [map_err res_bind].
  destruct Hs as [[-> (bits & Hb & Hl)]|[-> (bytes & Hb)]].
  - rewrite bool_decide_eq_true_2 by done. rewrite Hb. cbn. by rewrite (proj2 (Z.ltb_ge _ _)).
  - rewrite bool_decide_eq_false_2, bool_decide_eq_true_2 by done. by rewrite Hb.
Qed.

(** A written key set is read back. *)
Lemma document_roundtrip keys text label :
  Forall storable keys -> keys <> [] ->
  json_to_string_pretty (jwks_document_value (mkJwksDocument keys)) = Ok text ->
  parse_public_jwks_document (text +:+ newline) label = Ok keys.
Proof.
  intros Hall Hne Ht. rewrite Forall_forall in Hall. unfold parse_public_jwks_document.
  rewrite (read_document _ _ Ht). cbn [map_err res_bind jwks_keys].
  set (objects := map (fun jwk => VObject (canonical jwk)) keys).
  assert (Hn : normalize_jwks_value (VObject [("keys", VArray objects)]) = Ok (map canonical keys)).
  { unfold normalize_jwks_value. cbn [as_object ok_or res_bind]. change (map_get "keys" _) with (Some (VArray objects)). cbn [res_bind]. rewrite bool_decide_eq_false_2 by (subst objects; by destruct keys).
    apply try_map_ok. subst objects. clear. induction keys; by constructor. }
  rewrite Hn. cbn [res_bind]. unfold inspect_public_keys.
  assert (Hi : is_ok (try_imap inspect_public_key (map canonical keys)) = true).
  { apply try_imap_ok. intros i x Hx. apply list_elem_of_fmap in Hx as (jwk & -> & Hj).
    by apply storable_inspect, Hall. }
  destruct (try_imap inspect_public_key _) as [inspected|]; [|done]. cbn [res_bind].
  apply try_imap_section. intros i jwk Hj. by apply storable_parse, Hall.
Qed.
(** * The current key *)

Context `{Features} `{Asn1} `{AwsLcLaws} `{Jwt} `{OpenSsl} `{FromJson CompactJwsHeader} `{FromJson MintedClaims}
  `{!Base64Laws} `{!DerLaws}.

Lemma minimal_nonempty n e :
  validate_public_components n e = Ok tt -> is_empty n = false /\ is_empty e = false.
Proof. unfold validate_public_components, jose_err. by destruct (is_empty n), (is_empty e). Qed.

Lemma der_bits der kid s n rest :
  to_der (Sequence (Integer 0 :: Integer n :: rest)) = Ok der ->
  rsa_from_pkcs1_der der kid = Ok s ->
  exists key, rsa_from_der der = Ok key /\ be_value (rsa_public_n key) = n /\
    rs_public_jwk s = mkPublicJwk "RSA" kid "sig" "RS256" (Some (b64_encode (rsa_public_n key)))
      (Some (b64_encode (rsa_public_e key))) None.
Proof.
  intros Hd Hs. unfold rsa_from_pkcs1_der in Hs. ok_inv. eexists. split_and!; [done| |done].
  by eapply der_modulus.
Qed.

Lemma rsa_der_blocks jwk n der :
  decode_jwk_component "n" (rsa_n jwk) = Ok n -> rsa_private_jwk_to_pkcs1_der jwk = Ok der ->
  exists rest, to_der (Sequence (Integer 0 :: Integer (be_value n) :: rest)) = Ok der.
Proof.
  intros Hn Hd. unfold rsa_private_jwk_to_pkcs1_der in Hd. rewrite Hn in Hd. cbn [res_bind] in Hd. ok_inv.
  match goal with Hx : try_map _ _ = Ok ?l |- _ => rename l into blocks; apply try_map_ok in Hx; rename Hx into Hb end.
  inversion Hb as [|? block ? rest Hblock]; subst. cbn [fst snd] in Hblock.
  unfold positive_integer_block in Hblock. destruct (_ || _)%bool; [done|]. injection Hblock as <-.
  exists rest. by rewrite <- biguint_be.
Qed.

(** A signer made from a private JWK: its public key is storable, and its kid is
    the file's. *)
Lemma signer_key_storable raw fallback s :
  rsa_from_private_jwk raw fallback = Ok s ->
  storable (rs_public_jwk s) /\
  exists jwk, from_json raw = Ok jwk /\ jwk_kid (rs_public_jwk s) = default fallback (rsa_kid jwk).
Proof.
  unfold rsa_from_private_jwk. intros Hs. ok_inv. destruct (bool_decide _) eqn:Hk in Hs; [|done]. cbn [negb] in Hs. ok_inv. bool_hyps.
  match goal with Hx : decode_jwk_component "n" _ = Ok ?nb |- _ => rename nb into n; pose proof Hx as Hn end.
  match goal with Hx : rsa_private_jwk_to_pkcs1_der _ = Ok _ |- _ =>
    destruct (rsa_der_blocks _ _ _ Hn Hx) as [rest Hder] end.
  destruct (der_bits _ _ _ _ _ Hder Hs) as (key & Hkey & Hval & ->). cbn [jwk_kid].
  split; [|eauto]. left. split; [done|].
  exists (rsa_modulus_bits (rsa_public_n key)).
  pose proof (components_minimal _ _ Hkey) as Hmin. destruct (minimal_nonempty _ _ Hmin) as [En Ee].
  split.
  - unfold rsa_public_key_bits_from_jwk, rsa_public_key_from_jwk, decode_jwk_component, decode_jwk_octets. cbn.
    rewrite !b64_decode_encode. cbn. rewrite En, Ee. cbn. by rewrite Hmin.
  - rewrite rsa_modulus_bits_spec, Hval, <- rsa_modulus_bits_spec. lia.
Qed.

Lemma parse_current_spec path raw current :
  parse_current_signing_key path raw = Ok current ->
  storable current /\
  exists jwk, from_json raw = Ok jwk /\ jwk_kid current = default "unused" (rsa_kid jwk).
Proof.
  unfold parse_current_signing_key, first_key. intros Hp. ok_inv. bool_hyps.
  match goal with Hx : rsa_from_private_jwk _ _ = Ok ?sg |- _ => apply signer_key_storable in Hx as [Hs Hj] end.
  match goal with Hx : head _ = Some _ |- _ => cbn in Hx; injection Hx as <- end. done.
Qed.

Lemma private_jwk_text der public text :
  private_jwk_json_from_pkcs8_der der public = Ok text ->
  exists value t, json_to_string_pretty value = Ok t /\ text = t +:+ newline /\
    value_get "kid" value ≫= as_str = Some (jwk_kid public).
Proof.
  unfold private_jwk_json_from_pkcs8_der. cbn zeta. intros Ht.
  apply res_bind_ok in Ht as (? & _ & Ht). apply res_bind_ok in Ht as (? & _ & Ht).
  apply res_bind_ok in Ht as (? & _ & Ht). destruct (_ <? _)%nat; [done|].
  do 8 apply res_bind_ok in Ht as (? & _ & Ht).
  apply map_err_ok, res_map_ok in Ht as (t & Ht & ->). by do 2 eexists.
Qed.

(** A generated key file is read with the kid of the generated key. *)
Lemma generated_kid generated g path current :
  rsa_generate_private_jwk generated = Ok g ->
  parse_current_signing_key path (gr_private_jwk_json g) = Ok current ->
  jwk_kid current = jwk_kid (gr_public_jwk g).
Proof.
  intros Hg Hp. apply parse_current_spec in Hp as (_ & jwk & Hj & ->).
  unfold rsa_generate_private_jwk in Hg. cbn zeta in Hg.
  apply res_bind_ok in Hg as (? & _ & Hg). apply res_bind_ok in Hg as (? & _ & Hg).
  apply res_bind_ok in Hg as (text & Htext & Hg). injection Hg as <-. cbn [gr_private_jwk_json gr_public_jwk] in *.
  apply private_jwk_text in Htext as (value & t & Hv & -> & Hkid).
  by rewrite (read_private_kid _ _ _ Hv Hj), Hkid.
Qed.
End Documents.

(** * Properties *)

Section Properties.
Context `{BootFs} `{JsonText} `{JwkReader} `{Features} `{Base64} `{SerdeJson} `{Asn1} `{AwsLc} `{Sha256} `{Jwt}
  `{OpenSsl} `{UrlLib} `{FromJson CompactJwsHeader} `{FromJson MintedClaims} `{FromJson PrivateRsaJwk}
  `{FromJson PrivateAkpJwk} `{FromJson DiscoveryDocument} `{FromJson JwksDocument} {W : Type} `{HasHttp W}.

(** C31: What becomes of an overlap file that a rotation accepts and keeps when
    the server that names it starts: whatever the server makes of the document is
    the same key set; if every key in it is for signatures, and the file may be
    trusted, the server publishes its own key and those that do not repeat an
    id; and with a key for any other [use] in it the server does not start. *)
Theorem overlap_accepted_by_server (config : RuntimeConfig) (path raw label : string) (value : Value)
    (keys : list PublicJwk) :
  obo_sts_extra_jwks_file config = Some path -> fs_read_to_string path = Ok raw ->
  json_from_str raw = Ok value -> parse_public_jwks_document raw label = Ok keys ->
  (forall server_label doc, normalize_public_jwks_value value server_label = Ok doc <->
     doc = mkJwksDocument keys /\ Forall (fun jwk => jwk_use jwk = "sig") keys) /\
  if decide (Forall (fun jwk => jwk_use jwk = "sig") keys) then
    is_ok (check_file_mode path "extra STS JWKS" (allow_insecure_jwks config)) = true ->
    forall signer : AnySigner, published_jwks_of config signer
      = Ok (mkJwksDocument (add_extra_keys (jwks_keys (public_jwks signer)) keys))
  else forall w : W, is_ok (build_state_from_config config w).1 = false.
Proof.
  intros Hextra Hraw Hv Hp.
  pose proof (fun server_label doc => overlap_server raw label server_label value keys doc Hv Hp) as Hserver.
  split; [exact Hserver|]. case_decide as Hsig.
  - intros Hmode signer. unfold published_jwks_of, load_public_jwks_file, read_checked_file. rewrite Hextra.
    destruct (check_file_mode _ _ _) as [u|]; [|done]. cbn [res_bind]. rewrite Hraw. cbn [map_err res_bind].
    rewrite Hv. cbn [map_err res_bind]. by rewrite (proj2 (Hserver _ _) (conj eq_refl Hsig)).
  - intros w. destruct (build_state_from_config config w) as [[[state shared]|e] w'] eqn:Hb; [|done].
    destruct Hsig. unfold build_state_from_config in Hb. ok_inv.
    match goal with Hx : published_jwks_of _ _ = Ok _ |- _ => unfold published_jwks_of in Hx; rewrite Hextra in Hx;
      apply res_bind_ok in Hx as (doc & Hdoc & _) end.
    unfold load_public_jwks_file, read_checked_file in Hdoc. rewrite Hraw in Hdoc.
    destruct (check_file_mode _ _ _) as [u|]; [|done]. cbn [res_bind map_err] in Hdoc. rewrite Hv in Hdoc.
    by apply Hserver in Hdoc as [_ ?].
Qed.

End Properties.

(** * Libraries simple enough to evaluate *)

Module CliToy.
(** A modulus of 2048 bits. *)
Definition modulus : string := repeat_byte 256 200.

#[export] Instance features : Features := false.
#[export] Instance sha : Sha256 := fun _ => "thumb".
#[export] Instance base64 : Base64 := SignerToy.base64.
#[export] Instance base64_laws : Base64Laws := SignerToy.base64_laws.
#[export] Instance jwt : Jwt := Toy.jwt.
#[export] Instance openssl : OpenSsl := SignerToy.openssl.
#[export] Instance header_json : FromJson CompactJwsHeader := SignerToy.header_json.
#[export] Instance claims_json : FromJson MintedClaims := SignerToy.claims_json.
#[export] Instance akp_json : FromJson PrivateAkpJwk := SignerToy.akp_json.

(** The key in use, the new one, and the text of each file. *)
Definition old_key : PublicJwk :=
  mkPublicJwk "RSA" "k1" "sig" "RS256" (Some (b64_encode modulus)) (Some (b64_encode "e")) None.
Definition new_kid : string := b64_encode "thumb".

Definition key_strings (v : Value) : list (string * string) :=
  match v with VObject o => map (fun kv => (kv.1, default "" (as_str kv.2))) o | _ => [] end.

Definition old_strings : list (string * string) := key_strings (VObject (public_jwk_fields old_key)).

(** A key that is for encryption. *)
Definition foreign_key : PublicJwk :=
  mkPublicJwk "RSA" "k2" "enc" "RS256" (Some (b64_encode modulus)) (Some (b64_encode "e")) None.
Definition foreign_strings : list (string * string) := key_strings (VObject (public_jwk_fields foreign_key)).

#[export] Instance serde : SerdeJson := {|
  json_to_vec _ := Ok "";
  json_to_string_pretty v :=
    match value_get "keys" v with
    | Some (VArray keys) => if bool_decide (map key_strings keys = [old_strings]) then Ok "overlap" else Err "unknown"
    | _ => if bool_decide (value_get "kid" v ≫= as_str = Some new_kid) then Ok "new" else Err "unknown"
    end
|}.

Definition of_strings (l : list (string * string)) : Map :=
  fold_left (fun o kv => map_insert kv.1 kv.2 o) (map (fun kv => (kv.1, VString kv.2)) l) [].

#[export] Instance text : JsonText := fun s =>
  if bool_decide (s = "overlap" +:+ newline) then Ok (VObject [("keys", VArray [VObject (of_strings old_strings)])])
  else if bool_decide (s = "foreign") then Ok (VObject [("keys", VArray [VObject (of_strings foreign_strings)])])
  else if bool_decide (s = "old") then Ok (VObject [("d", VString "d"); ("kid", VString "k1")])
  else if bool_decide (s = "new" +:+ newline) then Ok (VObject [("d", VString "d"); ("kid", VString new_kid)])
  else Err "unknown".

#[export] Instance rsa_json : FromJson PrivateRsaJwk := fun s =>
  let key kid := mkPrivateRsaJwk "RSA" (Some kid) (b64_encode modulus) (b64_encode "e") (b64_encode "d")
    (b64_encode "p") (b64_encode "q") (Some (b64_encode "dp")) (Some (b64_encode "dq")) (Some (b64_encode "qi")) in
  if bool_decide (s = "old") then Ok (key "k1")
  else if bool_decide (s = "new" +:+ newline) then Ok (key new_kid) else Err "unknown".

#[export] Instance reader : JwkReader := fun v =>
  let str name := value_get name v ≫= as_str in
  let? kty := ok_or (str "kty") "missing kty" in
  let? kid := ok_or (str "kid") "missing kid" in
  Ok (mkPublicJwk kty kid (default default_jwk_use (str "use")) (default default_jwk_alg (str "alg"))
        (str "n") (str "e") (str "pub")).

#[export] Instance asn1 : Asn1 := {|
  to_der block :=
    match block with
    | Sequence (Integer 0 :: Integer n :: _) => if (n =? be_value modulus)%Z then Ok "der" else Err "unknown"
    | _ => Err "unknown"
    end;
  from_der _ := Ok [Sequence (repeat (Integer 1) 9)];
  biguint_from_bytes_be := be_value; bigint_to_bytes_be _ := "1"
|}.
#[export] Instance awslc : AwsLc := {|
  RsaKeyPair := unit; rsa_from_der _ := Ok tt; rsa_as_pkcs8_der _ := Ok "der";
  public_modulus_len _ := 256%Z; rsa_public_n _ := modulus; rsa_public_e _ := "e";
  rsa_sign_pkcs1_sha256 _ _ := Ok "sig"
|}.
#[export] Instance generate : RsaGenerate := fun _ => Ok tt.

#[export] Instance awslc_laws : AwsLcLaws.
Proof. split. by vm_compute. Qed.

#[export] Instance der_laws : DerLaws.
Proof.
  split; [done|]. intros n rest der key. cbn -[be_value modulus].
  destruct (Z.eqb_spec n (be_value modulus)) as [->|]; [reflexivity|discriminate].
Qed.

Lemma fields_strings jwk l :
  key_strings (VObject (public_jwk_fields jwk)) = l ->
  public_jwk_fields jwk = map (fun kv => (kv.1, VString kv.2)) l.
Proof. intros <-. by destruct jwk as [? ? ? ? [|] [|] [|]]. Qed.

#[export] Instance key_file_laws : KeyFileLaws.
Proof.
  split.
  - intros [keys] t. cbn [json_to_string_pretty serde jwks_document_value jwks_keys].
    change (value_get "keys" _) with (Some (VArray (map (fun jwk => VObject (public_jwk_fields jwk)) keys))).
    cbv beta iota. case_bool_decide as Hk; [|done]. intros [= <-].
    destruct keys as [|jwk [|]]; try discriminate Hk.
    apply (f_equal head) in Hk. cbn [map head] in Hk. apply (inj Some) in Hk.
    unfold json_from_str, text. rewrite bool_decide_eq_true_2 by done. do 4 f_equal.
    unfold of_strings, canonical. cbn [map jwks_keys]. by rewrite (fields_strings _ _ Hk).
  - by intros [? ? ? ? [|] [|] [|]].
  - intros v t jwk. cbn [json_to_string_pretty serde].
    assert (Hk : forall jwk, from_json ("overlap" +:+ newline) <> Ok (A := PrivateRsaJwk) jwk) by (intros ?; by vm_compute).
    destruct (value_get "keys" v) as [[]|];
      (case_bool_decide as Hv; [|done]); intros [= <-] Hj; try (by destruct (Hk _ Hj));
      rewrite Hv; by injection Hj as <-.
Qed.
Definition overlap_text : string := "overlap" +:+ newline.
Definition overlap_value : Value := VObject [("keys", VArray [VObject (of_strings old_strings)])].

(** Two servers, one with each kind of file. *)
Definition boot_files (text : string) : BootFs := {|
  file_mode _ := Some 384%Z; fs_read_to_string _ := Ok text; dir_at _ := FileReplay.healthy_dir ∅
|}.
Definition server_config : RuntimeConfig :=
  mkConfig "https://idp.example" {["api"]} "https://sts.example" "k1" "/secrets" "key.json" (Some "/idp") None "/actors"
    "/clients" (Some "extra.json") {["k1"]} "k1" {["k1"]} Both Auto ∅ ∅ "classical" true true
    ["ML-DSA-65"] false true ["RS256"] "file" None None 60 300 300 600 1000 Memory 8192 false true false
    false false false false None None "127.0.0.1:8080" true false "info" false.

Lemma overlap_accepted_by_server_witness :
  (let _ := boot_files "foreign" in
   let _ := BootToy.url in let _ := BootToy.discovery_json in let _ := BootToy.jwks_json in let _ := BootToy.http in
   is_ok (build_state_from_config server_config tt).1 = false) /\
  (let _ := boot_files overlap_text in
   forall signer : AnySigner, published_jwks_of server_config signer
     = Ok (mkJwksDocument (add_extra_keys (jwks_keys (public_jwks signer)) [old_key]))).
Proof.
  split; cbv zeta.
  - destruct (@overlap_accepted_by_server (boot_files "foreign") _ _ _ _ _ _ _ _ _ _ BootToy.url _ _ _ _
      BootToy.discovery_json BootToy.jwks_json unit BootToy.http server_config "extra.json" "foreign" "overlap JWKS"
      (VObject [("keys", VArray [VObject (of_strings foreign_strings)])]) [foreign_key]) as [_ Hno].
    + reflexivity.
    + reflexivity.
    + reflexivity.
    + vm_compute. reflexivity.
    + rewrite decide_False in Hno; [apply Hno|]. intros Hs%Forall_inv. discriminate Hs.
  - destruct (@overlap_accepted_by_server (boot_files overlap_text) _ _ _ _ _ _ _ _ _ _ BootToy.url _ _ _ _
      BootToy.discovery_json BootToy.jwks_json unit BootToy.http server_config "extra.json" overlap_text "overlap JWKS"
      overlap_value [old_key]) as [_ Hyes].
    + reflexivity.
    + reflexivity.
    + reflexivity.
    + vm_compute. reflexivity.
    + rewrite decide_True in Hyes by (repeat constructor). apply Hyes. reflexivity.
Defined.
End CliToy.
