(* ===== verification/CliSafety.v ===== *)
(** crates/sts-cli: rotations never lose a key that still has to verify tokens.

    Rotations of one key file run as processes that interleave call by call, may
    fail in any call and may stop anywhere.  Whatever they do, a key that the
    files hold is held ever after: as the key in use or in the overlap file. *)

From S2P Require Import Prelude RustStr Json Core Replay Jose JoseSigners Config HttpBootstrap CliIo CliText CliKeys CliRotate.
From S2P Require Import CliFiles CliDocs.
From Stdlib Require Import Ascii.

(** * Specifications *)

(** A program all of whose calls leave the files alone. *)
Fixpoint reads {A} (m : Io A) : Prop :=
  match m with
  | Ret _ => True
  | Call c k => (forall o fs, (sys c o fs).2 = fs) /\ forall x, reads (k x)
  end.

Section Specification.
Context `{Features} `{Base64} `{Sha256} `{SerdeJson} `{Asn1} `{AwsLc} `{Jwt} `{OpenSsl} `{JsonText} `{JwkReader}
  `{FromJson CompactJwsHeader} `{FromJson MintedClaims} `{FromJson PrivateRsaJwk} `{!RsaGenerate}.
Context (key_file extra : string).

(** The files hold the public key [jwk]: it belongs to the private key in use,
    or it is in the overlap file and the key in use has another kid. *)
Inductive kept (jwk : PublicJwk) (fs : Fs) : Prop :=
| kept_current f :
    fs !! key_file = Some f -> parse_current_signing_key key_file (f_content f) = Ok jwk -> kept jwk fs
| kept_overlap f keys :
    fs !! extra = Some f -> parse_public_jwks_document (f_content f) "overlap JWKS" = Ok keys -> jwk ∈ keys ->
    (forall g current, fs !! key_file = Some g ->
       parse_current_signing_key key_file (f_content g) = Ok current -> jwk_kid current <> jwk_kid jwk) ->
    kept jwk fs.

(** The random bytes do not give a key with the kid of [jwk]. *)
Definition fresh (jwk : PublicJwk) (o : Outcome) : Prop :=
  forall g, rsa_generate_private_jwk (res_bind (o_random o) rsa_key_pair_generate) = Ok g ->
    jwk_kid (gr_public_jwk g) <> jwk_kid jwk.

(** A process that rotates this key, or shows what it would do. *)
Definition rotation (m : Io (result CliError string)) : Prop :=
  exists env args, m = rotate_signing_key env args /\
    resolve_key_file env args = key_file /\ resolve_extra_jwks_file env args key_file = extra.
End Specification.

(** * Reading *)

Lemma respects_reads {A} lock ok I (m : Io A) : reads m -> respects lock ok I None m.
Proof.
  induction m as [a|X c k IH]; [done|]. intros [Hc Hk] o fs _ _. left. split; [by rewrite Hc|]. by apply IH.
Qed.

Lemma reads_bind {A B} (m : Io A) (f : A -> Io B) : reads m -> (forall a, reads (f a)) -> reads (io_bind m f).
Proof.
  intros Hm Hf. induction m as [a|X c k IH]; [apply Hf|]. destruct Hm as [Hc Hk]. split; [done|].
  intros x. by apply IH.
Qed.

Lemma reads_try {E A B} (m : Io (result E A)) (f : A -> Io (result E B)) :
  reads m -> (forall a, reads (f a)) -> reads (io_try m f).
Proof. intros Hm Hf. apply reads_bind; [done|]. intros [a|e]; [apply Hf|done]. Qed.

Lemma reads_file path : reads (io_call (ReadToString path)).
Proof. split; [|done]. intros o fs. cbn. unfold unless_fault. by destruct (o_fault o), (fs !! path). Qed.

Lemma lock_ne key_file : lock_path_of key_file <> key_file.
Proof.
  intros H. apply (f_equal String.length) in H. unfold lock_path_of in H. rewrite str_length_app in H. cbn in H. lia.
Qed.

Section Rotation.
Context `{Features} `{Base64Laws} `{Sha256} `{SerdeJson} `{Asn1} `{AwsLcLaws} `{Jwt} `{OpenSsl} `{JsonText}
  `{JwkReader} `{FromJson CompactJwsHeader} `{FromJson MintedClaims} `{FromJson PrivateRsaJwk} `{!RsaGenerate}
  `{!KeyFileLaws} `{!DerLaws}.

Lemma reads_current path : reads (load_current_signing_key path).
Proof. apply reads_try; [|done]. apply reads_bind; [apply reads_file|done]. Qed.

Lemma reads_overlap path : reads (load_existing_overlap path).
Proof. apply reads_bind; [apply reads_file|done]. Qed.

Section Reads.
Context {ok : Outcome -> Prop} {I : Fs -> Prop}.

Lemma load_current_always path fs :
  I fs -> always ok I (fun r fs' => fs' = fs /\ forall current, r = Ok current ->
    exists f, fs !! path = Some f /\ parse_current_signing_key path (f_content f) = Ok current)
    (load_current_signing_key path) fs.
Proof.
  intros Hi. apply always_try, always_bind, always_call; [done|]. intros o _.
  sys_cases o; [|destruct (fs !! path) as [f|] eqn:Hf]; (split; [done|]); (apply always_ret; [done|]); cbn; try done.
  split; [done|]. split; [done|]. eauto.
Qed.

Lemma load_overlap_always path fs :
  I fs -> always ok I (fun r fs' => fs' = fs /\ forall keys, r = Ok keys ->
    fs !! path = None /\ keys = [] \/
    exists f, fs !! path = Some f /\ parse_public_jwks_document (f_content f) "overlap JWKS" = Ok keys)
    (load_existing_overlap path) fs.
Proof.
  intros Hi. apply always_bind, always_call; [done|]. intros o _.
  sys_cases o; [|destruct (fs !! path) as [f|] eqn:Hf]; (split; [done|]); (apply always_ret; [done|]); cbn.
  - done.
  - split; [done|]. eauto.
  - split; [done|]. intros keys [= <-]. auto.
Qed.

Lemma always_impl {A} (I' : Fs -> Prop) (Q : A -> Fs -> Prop) m fs :
  (forall fs, I' fs -> I fs) -> always ok I' Q m fs -> always ok I Q m fs.
Proof.
  intros HI. revert fs. induction m as [a|X c k IH]; simpl; intros fs [Hi Hm]; split; auto.
Qed.
End Reads.

(** * What one rotation keeps *)

Context (key_file extra : string) (jwk : PublicJwk).
Context (files_differ : key_file <> extra) (lock_differs : lock_path_of key_file <> extra).

Notation kept := (kept key_file extra jwk).
Notation lock := (lock_path_of key_file).

Lemma kept_ext fs fs' :
  fs' !! key_file = fs !! key_file -> fs' !! extra = fs !! extra -> kept fs -> kept fs'.
Proof.
  intros Hk He Hfs. destruct Hfs as [f Hf Hp|f keys Hf Hp Hin Hother].
  - apply (kept_current _ _ _ _ f); [by rewrite Hk|done].
  - apply (kept_overlap _ _ _ _ f keys); [by rewrite He|done|done|]. intros g current Hg. rewrite Hk in Hg. eauto.
Qed.

(** The key set that a rotation stages. *)
Definition staged (overlap : list PublicJwk) (current new : PublicJwk) : list PublicJwk :=
  retained_keys overlap current new ++ [current].

Lemma staged_storable overlap current new :
  Forall storable overlap -> storable current -> Forall storable (staged overlap current new).
Proof.
  intros Ho Hc. apply Forall_app. split; [|by apply Forall_singleton].
  rewrite Forall_forall in Ho |- *. intros x Hx. apply list_elem_of_In, filter_In in Hx as [Hx _].
  by apply Ho, list_elem_of_In.
Qed.

Lemma staged_ne overlap current new : staged overlap current new <> [].
Proof. unfold staged. by destruct (retained_keys overlap current new). Qed.

Lemma staged_keeps overlap current new :
  jwk_kid new <> jwk_kid jwk -> jwk = current \/ jwk ∈ overlap /\ jwk_kid current <> jwk_kid jwk ->
  jwk ∈ staged overlap current new.
Proof.
  intros Hn [->|[Hin Hc]]; apply elem_of_app; [right; by left|left].
  apply list_elem_of_In, filter_In. split; [by apply list_elem_of_In|].
  by rewrite !bool_decide_eq_false_2 by congruence.
Qed.

(** The state in which a rotation writes: it has read the current key and the
    overlap. *)
Definition has_read (fs : Fs) (current : PublicJwk) (overlap : list PublicJwk) : Prop :=
  (exists f, fs !! key_file = Some f /\ parse_current_signing_key key_file (f_content f) = Ok current) /\
  (fs !! extra = None /\ overlap = [] \/
   exists f, fs !! extra = Some f /\ parse_public_jwks_document (f_content f) "overlap JWKS" = Ok overlap).

Lemma has_read_kept fs current overlap :
  kept fs -> has_read fs current overlap -> jwk = current \/ jwk ∈ overlap /\ jwk_kid current <> jwk_kid jwk.
Proof.
  intros Hk [(kf & Hkf & Hcur) Hover]. destruct Hk as [f Hf Hp|f keys Hf Hp Hin Hother].
  - left. congruence.
  - right. destruct Hover as [[He _]|(f' & Hf' & Hp')]; [congruence|].
    assert (keys = overlap) as <- by congruence. split; [done|]. eauto.
Qed.

(** The first write: the overlap file is as it was or holds the staged keys. *)
Lemma stage_step fs current overlap new text mode fin fs' :
  kept fs -> has_read fs current overlap -> jwk_kid new <> jwk_kid jwk ->
  json_to_string_pretty (jwks_document_value (mkJwksDocument (staged overlap current new))) = Ok text ->
  evolves extra (mkFile (text +:+ newline) mode) fs fin fs' -> kept fs'.
Proof.
  intros Hk Hr Hn Ht [He Hf]. pose proof (has_read_kept _ _ _ Hk Hr) as Hcase.
  destruct Hr as [(kf & Hkf & Hcur) Hover].
  assert (Hkf' : fs' !! key_file = Some kf) by by apply Hf.
  destruct fin; [|by apply (kept_ext fs); [congruence|done|]].
  destruct Hcase as [->|[Hin Hc]]; [by apply (kept_current _ _ _ _ kf)|].
  apply (kept_overlap _ _ _ _ _ (staged overlap current new) He); cbn [f_content].
  - apply document_roundtrip; [|apply staged_ne|done].
    apply staged_storable; [|by eapply parse_current_spec].
    destruct Hover as [[_ ->]|(f & _ & Hp)]; [constructor|by eapply parsed_storable].
  - apply staged_keeps; auto.
  - intros g c Hg Hpg. congruence.
Qed.

(** The second write: the key file is as it was or holds the generated key. *)
Lemma replace_step fs current overlap g random text mode mode' fin fs' :
  has_read fs current overlap -> kept fs -> fresh jwk random ->
  rsa_generate_private_jwk (res_bind (o_random random) rsa_key_pair_generate) = Ok g ->
  json_to_string_pretty (jwks_document_value (mkJwksDocument (staged overlap current (gr_public_jwk g)))) = Ok text ->
  evolves key_file (mkFile (gr_private_jwk_json g) mode)
    (<[extra := mkFile (text +:+ newline) mode']> fs) fin fs' -> kept fs'.
Proof.
  intros Hr Hk Hfresh Hg Ht [He Hf]. pose proof (has_read_kept _ _ _ Hk Hr) as Hcase.
  assert (Hx : fs' !! extra = Some (mkFile (text +:+ newline) mode')).
  { apply Hf; [done|]. apply lookup_insert_eq. }
  destruct fin.
  - destruct Hr as [(kf & Hkf & Hcur) Hover].
    apply (kept_overlap _ _ _ _ _ (staged overlap current (gr_public_jwk g)) Hx); cbn [f_content].
    + apply document_roundtrip; [|apply staged_ne|done].
      apply staged_storable; [|by eapply parse_current_spec].
      destruct Hover as [[_ ->]|(f & _ & Hp)]; [constructor|by eapply parsed_storable].
    + by apply staged_keeps; [apply Hfresh|].
    + intros f c Hfk Hpc. rewrite He in Hfk. injection Hfk as <-. cbn [f_content] in Hpc.
      rewrite (generated_kid _ _ _ _ Hg Hpc). by apply Hfresh.
  - apply (stage_step fs current overlap (gr_public_jwk g) text mode' true); [done|done|by apply Hfresh|done|].
    split; [done|]. intros q f Hq Hqf. destruct (decide (q = key_file)) as [->|Hqk].
    + rewrite He. by rewrite lookup_insert_ne.
    + apply Hf; [done|]. by rewrite lookup_insert_ne.
Qed.
(** The invariant of a rotation inside the lock. *)
Definition inside (fs : Fs) : Prop := kept fs /\ is_Some (fs !! lock).

Lemma inside_evolves path new fs fin fs' :
  lock <> path -> is_Some (fs !! lock) -> evolves path new fs fin fs' -> kept fs' -> inside fs'.
Proof. intros Hne [f Hf] [_ He] Hk. split; [done|]. exists f. by apply He. Qed.

Lemma rotate_locked_keeps fs :
  inside fs -> always (fresh jwk) inside (fun _ _ => True) (rotate_locked key_file extra) fs.
Proof.
  intros Hi. unfold rotate_locked. apply always_try. eapply always_mono; [|by apply load_current_always].
  intros [current|e] fs1 _ [-> Hcur]; [|done]. specialize (Hcur current eq_refl).
  apply always_bind, always_call; [done|]. intros random Hrandom. cbn [sys fst snd]. split; [done|].
  apply always_try, always_ret; [done|]. destruct (rsa_generate_private_jwk _) as [g|e] eqn:Hg; cbn [map_err]; [|done].
  apply always_try. eapply always_mono; [|by apply load_overlap_always].
  intros [overlap|e] fs1 _ [-> Hover]; [|done]. specialize (Hover overlap eq_refl).
  assert (Hr : has_read fs current overlap) by (split; [done|]; destruct Hover as [|(f & ? & ?)]; eauto).
  destruct Hi as [Hk Hl]. cbn zeta. apply always_try. unfold atomic_write_json.
  apply always_try, always_ret; [done|].
  destruct (json_to_string_pretty _) as [text|e] eqn:Ht; cbn [map_err]; [|done].
  eapply always_mono; [|eapply always_impl; [|apply atomic_write_always]].
  2: { intros fs' (fin & He). eapply inside_evolves; [done|done|exact He|]. eapply stage_step; eauto. }
  intros [[]|e] fs1 Hi1 Hs1; [|done]. cbn [settled] in Hs1. subst fs1.
  apply always_try. eapply always_mono; [|eapply always_impl; [|apply atomic_write_always]].
  2: { intros fs' (fin & He). destruct Hi1 as [_ Hl1]. eapply inside_evolves; [apply lock_ne|exact Hl1|exact He|].
       eapply replace_step; eauto. }
  by intros [[]|e] fs2 Hi2 Hs2.
Qed.

(** From the call that takes the lock on. *)
Lemma locked_respects (fail : IoError -> CliError) mode :
  respects lock (fresh jwk) kept None
    (io_try (io_map_err fail (io_call (OpenNew lock mode))) (fun _ =>
       run! r <- rotate_locked key_file extra in
       run! _ <- io_call (RemoveFile lock) in Ret r)).
Proof.
  intros o fs Ho Hk. sys_cases o; [by left|]. destruct (fs !! lock) eqn:Hl; cbn [fst snd]; [by left|right].
  split; [done|]. set (f := mkFile _ _).
  assert (Hk' : kept (<[lock := f]> fs)).
  { apply (kept_ext fs); [|by rewrite lookup_insert_ne|done]. rewrite lookup_insert_ne by apply lock_ne. done. }
  assert (Hl' : is_Some (<[lock := f]> fs !! lock)) by by rewrite lookup_insert_eq.
  split; [done|]. split; [done|]. unfold io_try, io_map_err. cbn [io_bind map_err].
  eapply respects_inside; [by apply rotate_locked_keeps|].
  intros r fs1 Hk1 Hl1 _ o1 Ho1. sys_cases o1; [by split; [|right]|].
  destruct Hl1 as [f1 Hf1]. rewrite Hf1. cbn [fst snd]. split; [|by right].
  apply (kept_ext fs1); [|by rewrite lookup_delete_ne|done]. by rewrite lookup_delete_ne by apply lock_ne.
Qed.

Lemma rotation_respects m : rotation key_file extra m -> respects lock (fresh jwk) kept None m.
Proof.
  intros (env & args & -> & Hkey & Hextra). unfold rotate_signing_key. cbn zeta. rewrite Hkey, Hextra.
  destruct (ra_dry_run args).
  { apply respects_reads, reads_try; [apply reads_current|]. intros c. by apply reads_try; [apply reads_overlap|]. }
  unfold with_lock, acquire, create_parent. destruct (opt_filter _ _) as [parent|]; [|apply locked_respects].
  intros o fs _ _. left. sys_cases o; [done|]. split; [done|]. apply locked_respects.
Qed.

(** * What one rotation does *)

(** How a rotation that starts from [fs] ends. *)
Definition rotated (fs : Fs) (r : result CliError string) (fs' : Fs) : Prop :=
  match r with
  | Ok _ =>
      exists current overlap random g text,
        has_read fs current overlap /\
        rsa_generate_private_jwk (res_bind random rsa_key_pair_generate) = Ok g /\
        json_to_string_pretty (jwks_document_value (mkJwksDocument
          (still_retiring overlap current (gr_public_jwk g) ++ [current]))) = Ok text /\
        fs' !! extra = Some (mkFile (text +:+ newline) 420) /\
        fs' !! key_file = Some (mkFile (gr_private_jwk_json g) 384)
  | Err _ => fs' !! key_file = fs !! key_file
  end.

Lemma rotated_ext fs fs1 fs' fs2 r :
  fs1 !! key_file = fs !! key_file -> fs1 !! extra = fs !! extra ->
  fs2 !! key_file = fs' !! key_file -> fs2 !! extra = fs' !! extra -> rotated fs1 r fs' -> rotated fs r fs2.
Proof. unfold rotated, has_read. intros E1 E2 E3 E4. by rewrite E1, E2, E3, E4. Qed.

Lemma rotate_locked_outcome ok fs :
  always ok (fun _ => True) (rotated fs) (rotate_locked key_file extra) fs.
Proof.
  unfold rotate_locked. apply always_try. eapply always_mono; [|by apply load_current_always].
  intros [current|e] fs1 _ [-> Hcur]; [|done]. specialize (Hcur current eq_refl).
  apply always_bind, always_call; [done|]. intros random _. cbn [sys fst snd]. split; [done|].
  apply always_try, always_ret; [done|]. destruct (rsa_generate_private_jwk _) as [g|e] eqn:Hg; cbn [map_err]; [|done].
  apply always_try. eapply always_mono; [|by apply load_overlap_always].
  intros [overlap|e] fs1 _ [-> Hover]; [|done]. specialize (Hover overlap eq_refl).
  cbn zeta. apply always_try. unfold atomic_write_json. apply always_try, always_ret; [done|].
  destruct (json_to_string_pretty _) as [text|e] eqn:Ht; cbn [map_err]; [|done].
  eapply always_mono; [|eapply always_impl; [|apply atomic_write_always]; done].
  intros [[]|e] fs1 _ Hs1; cbn [settled] in Hs1.
  - subst fs1. apply always_try. eapply always_mono; [|eapply always_impl; [|apply atomic_write_always]; done].
    intros [[]|e] fs2 _ Hs2; cbn [settled] in Hs2.
    + subst fs2. apply always_ret; [done|]. exists current, overlap, (o_random random), g, text.
      split; [done|]. split; [done|]. split; [by rewrite <- retained_still|]. split; [|apply lookup_insert_eq].
      by rewrite lookup_insert_ne, lookup_insert_eq.
    + destruct Hs2 as [Hs2 _]. cbn [rotated]. rewrite Hs2. by apply lookup_insert_ne.
  - destruct Hs1 as [_ Hs1], Hcur as (f & Hf & _). cbn [rotated]. rewrite Hf. by apply Hs1.
Qed.

Lemma rotate_outcome ok env args fs :
  resolve_key_file env args = key_file -> resolve_extra_jwks_file env args key_file = extra -> ra_dry_run args = false ->
  always ok (fun _ => True) (rotated fs) (rotate_signing_key env args) fs.
Proof.
  intros Hkey Hextra Hdry. unfold rotate_signing_key. cbn zeta. rewrite Hkey, Hextra, Hdry.
  unfold with_lock, acquire. apply always_try, always_try.
  eapply always_mono; [|by apply create_parent_always]. intros [[]|e] fs1 _ ->; [|done].
  apply always_bind, always_call; [done|]. intros o _. sys_cases o; [done|].
  destruct (fs !! lock) eqn:Hl; cbn [fst snd]; [done|]. split; [done|]. apply always_ret; [done|]. cbn [map_err].
  apply always_bind. eapply always_mono; [|apply rotate_locked_outcome]. intros r fs1 _ Hr.
  assert (Hr' : rotated fs r fs1).
  { eapply rotated_ext; [| |done|done|exact Hr]; apply lookup_insert_ne; [apply lock_ne|done]. }
  apply always_bind, always_call; [done|]. intros o1 _. sys_cases o1; [done|].
  destruct (fs1 !! lock); cbn [fst snd]; [|done]. split; [done|]. apply always_ret; [done|].
  eapply rotated_ext; [done|done| | |exact Hr']; apply lookup_delete_ne; [apply lock_ne|done].
Qed.
End Rotation.

(** * Properties *)

Section Properties.
Context `{Features} `{Base64Laws} `{Sha256} `{SerdeJson} `{Asn1} `{AwsLcLaws} `{Jwt} `{OpenSsl} `{JsonText}
  `{JwkReader} `{FromJson CompactJwsHeader} `{FromJson MintedClaims} `{FromJson PrivateRsaJwk} `{!RsaGenerate}
  `{!KeyFileLaws} `{!DerLaws}.

(** C15: However many rotations of one key run at a time, however their calls
    interleave and fail and wherever they stop, a public key that the files hold
    is held in every state they reach: it is the key in use, or it is in an
    overlap file that still parses. *)
Theorem rotations_keep_keys (key_file extra : string) (jwk : PublicJwk) (procs : list (Io (result CliError string)))
    (fs : Fs) (s : Pool (result CliError string)) :
  key_file <> extra -> lock_path_of key_file <> extra ->
  Forall (rotation key_file extra) procs -> kept key_file extra jwk fs ->
  rtc (pool_step (fresh jwk)) (mkPool fs procs) s -> kept key_file extra jwk (pool_fs s).
Proof.
  intros Hne Hlock Hprocs Hk Hr. eapply guarded_reachable; [|exact Hr].
  apply guarded_start; [done|]. eapply Forall_impl; [exact Hprocs|]. intros m. by apply rotation_respects.
Qed.

(** C28: A rotation that reports success has read a current key and an overlap,
    and leaves a freshly generated private key under mode 0600 and an overlap
    file with the old overlap less its entries for the two kids, and the old
    current key, under mode 0644; one that reports an error leaves the key in
    use as it was. *)
Theorem rotation_outcome (env : ConfigSource) (args : RotateArgs) (outs : nat -> Outcome) (n : nat) (fs : Fs) :
  let key_file := resolve_key_file env args in
  let extra := resolve_extra_jwks_file env args key_file in
  key_file <> extra -> lock_path_of key_file <> extra -> ra_dry_run args = false ->
  let '(r, fs') := run (rotate_signing_key env args) outs n fs in rotated key_file extra fs r fs'.
Proof.
  intros key_file extra Hne Hlock Hdry.
  pose proof (rotate_outcome key_file extra Hne Hlock any_outcome env args fs eq_refl eq_refl Hdry) as Ha.
  pose proof (always_run _ _ outs n fs (fun _ => I) Ha) as Hr.
  by destruct (run (rotate_signing_key env args) outs n fs).
Qed.

End Properties.

Module RotationToy.
Import CliToy.

Definition key_path : string := "secrets/k.json".
Definition extra_path : string := "secrets/retiring.json".
Definition files : Fs := {[ key_path := mkFile "old" 384 ]}.
Definition no_env : ConfigSource := ∅.
Definition rotate : Io (result CliError string) :=
  rotate_signing_key no_env (mkRotateArgs (Some key_path) (Some extra_path) false).
Definition calm : Outcome := mkOutcome None 0 18 (Ok 7%Z) 42 (Ok "random") "rng" (Err "offline").

Lemma calm_fresh : fresh old_key calm.
Proof. by intros g [= <-]. Qed.

Lemma toy_kept : kept key_path extra_path old_key files.
Proof. eapply kept_current; [reflexivity|]. vm_compute. reflexivity. Qed.

Lemma rotations_keep_keys_witness :
  is_ok (run rotate (fun _ => calm) 0 files).1 = true /\
  kept key_path extra_path old_key (run rotate (fun _ => calm) 0 files).2.
Proof.
  split; [vm_compute; reflexivity|].
  apply (rotations_keep_keys key_path extra_path old_key [rotate] files
           (mkPool (run rotate (fun _ => calm) 0 files).2 [Ret (run rotate (fun _ => calm) 0 files).1])).
  - done.
  - done.
  - constructor; [|constructor]. by exists no_env, (mkRotateArgs (Some key_path) (Some extra_path) false).
  - apply toy_kept.
  - apply run_reachable. intros _. apply calm_fresh.
Defined.

Lemma rotation_outcome_witness :
  is_ok (run rotate (fun _ => calm) 0 files).1 = true /\
  (let '(r, fs') := run rotate (fun _ => calm) 0 files in rotated key_path extra_path files r fs').
Proof.
  split; [vm_compute; reflexivity|].
  by apply (rotation_outcome no_env (mkRotateArgs (Some key_path) (Some extra_path) false) (fun _ => calm) 0 files).
Defined.
End RotationToy.
