(* ===== verification/CliRestart.v ===== *)
(** crates/sts-cli and crates/sts-http: a rotation and the restart after it.

    The rotation says [restart_required=true]: the server takes the new key and
    the retired ones when it starts.  Here the two programs meet at the files:
    what a successful rotation leaves there is what start-up loads, the key that
    was generated signs from then on, and every token that verified before still
    verifies. *)

From S2P Require Import Prelude RustStr Json Core Replay FileReplay Jose JoseSigners Config HttpBootstrap CliIo CliText CliKeys CliRotate.
From S2P Require Import CliFiles CliDocs CliSafety.
From Stdlib Require Import Ascii.

(** * Specifications *)

(** The members of a private key file. *)
Definition private_members (kid n e d p q dp dq qi : string) : list (string * Value) :=
  [("kty", VString "RSA"); ("kid", VString kid); ("use", VString "sig"); ("alg", VString "RS256");
   ("n", VString n); ("e", VString e); ("d", VString d); ("p", VString p); ("q", VString q);
   ("dp", VString dp); ("dq", VString dq); ("qi", VString qi)].

(** What the rotation relies on in the libraries: num-bigint gives minimal
    big-endian bytes; aws-lc exports a PKCS#8 document that holds a PKCS#1 key
    (version 0 and eight positive integers), which simple_asn1 reads and writes
    and aws-lc takes as the same key, of the size asked for; serde_json reads a
    private key that it has written, and JSON is not PEM. *)
Class KeyGenerationLaws `{Base64} `{SerdeJson} `{Asn1} `{AwsLc} `{JsonText} `{FromJson PrivateRsaJwk} `{!RsaGenerate}
    : Prop := {
  to_bytes n : (0 < n)%Z ->
    be_value (bigint_to_bytes_be n) = n /\ first_byte_zero (bigint_to_bytes_be n) = false;
  exported pair pkcs8 : rsa_as_pkcs8_der pair = Ok pkcs8 ->
    exists pkcs1 l key, normalize_rsa_private_key_der pkcs8 = Ok pkcs1 /\ length l = 8 /\ Forall (Z.lt 0) l /\
      from_der pkcs1 = Ok [Sequence (map Integer (0%Z :: l))] /\ to_der (Sequence (map Integer (0%Z :: l))) = Ok pkcs1 /\
      rsa_from_der pkcs1 = Ok key /\ rsa_public_n key = rsa_public_n pair /\ rsa_public_e key = rsa_public_e pair;
  generated_size random pair : rsa_key_pair_generate random = Ok pair ->
    (2048 <= rsa_modulus_bits (rsa_public_n pair))%Z;
  modulus_len key : (rsa_modulus_bits (rsa_public_n key) <= public_modulus_len key * 8)%Z;
  read_private kid n e d p q dp dq qi text :
    json_to_string_pretty (json_object (private_members kid n e d p q dp dq qi)) = Ok text ->
    from_json (text +:+ newline) = Ok (mkPrivateRsaJwk "RSA" (Some kid) n e d p q (Some dp) (Some dq) (Some qi));
  object_kid raw o (jwk : PrivateRsaJwk) : json_from_str raw = Ok (VObject o) -> from_json raw = Ok jwk ->
    rsa_kid jwk = map_get "kid" o ≫= as_str;
  json_not_pem raw (jwk : PrivateRsaJwk) : from_json raw = Ok jwk -> starts_with "-----BEGIN" (trim_start raw) = false
}.

(** The files as start-up sees them. *)
Definition boot (dirs : string -> Dir) (fs : Fs) : BootFs := {|
  file_mode path := f_mode <$> fs !! path;
  fs_read_to_string path := ok_or (f_content <$> fs !! path) "No such file or directory";
  dir_at := dirs
|}.

(** The signer and the published keys of [build_state_from_config]. *)
Definition start_keys `{JsonText} `{JwkReader} `{Features} `{Base64} `{SerdeJson} `{Asn1} `{AwsLc} `{Sha256} `{Jwt}
    `{OpenSsl} `{FromJson CompactJwsHeader} `{FromJson MintedClaims} `{FromJson PrivateRsaJwk} `{FromJson PrivateAkpJwk}
    (dirs : string -> Dir) (fs : Fs) (config : RuntimeConfig) : result BootstrapError (AnySigner * JwksDocument) :=
  let files := boot dirs fs in
  let? signer := load_signer config in
  let? published := published_jwks_of config signer in
  Ok (signer, published).

(** A configuration that signs with the RSA key of a file. *)
Record signs_with (config : RuntimeConfig) (key_file : string) : Prop := {
  sw_provider : sts_signing_provider config ∈ [""; "file"];
  sw_classical : backend_selection_parse (sts_signing_alg config) = Classical;
  sw_file : obo_sts_key_file config = key_file
}.

(** * Big-endian numbers *)

Lemma be_value_from_split acc s : be_value_from acc s = (acc * 256 ^ byte_len s + be_value s)%Z.
Proof.
  unfold be_value. revert acc. induction s as [|b s IH]; intros acc; cbn [be_value_from].
  - change (byte_len "") with 0%Z. rewrite Z.pow_0_r. lia.
  - rewrite IH, (IH (0 * 256 + byte_val b)%Z).
    replace (byte_len (String b s)) with (byte_len s + 1)%Z by (unfold byte_len; cbn; lia).
    rewrite Z.pow_add_r by (unfold byte_len; lia). rewrite Z.pow_1_r. ring.
Qed.

Lemma be_value_bound s : (0 <= be_value s < 256 ^ byte_len s)%Z.
Proof.
  induction s as [|b s IH]; [done|]. unfold be_value. cbn [be_value_from]. rewrite be_value_from_split.
  replace (byte_len (String b s)) with (byte_len s + 1)%Z by (unfold byte_len; cbn; lia).
  rewrite Z.pow_add_r by (unfold byte_len; lia). pose proof (byte_val_bound b). nia.
Qed.

Lemma be_value_cons b s : be_value (String b s) = (byte_val b * 256 ^ byte_len s + be_value s)%Z.
Proof. unfold be_value at 1. cbn [be_value_from]. by rewrite be_value_from_split. Qed.

Lemma be_value_inj_len s s' : byte_len s = byte_len s' -> be_value s = be_value s' -> s = s'.
Proof.
  revert s'. induction s as [|b s IH]; intros [|b' s'] Hl Hv; try done.
  assert (Hls : byte_len s = byte_len s') by (unfold byte_len in *; cbn in Hl; lia).
  rewrite !be_value_cons, Hls in Hv. pose proof (be_value_bound s). pose proof (be_value_bound s').
  rewrite <- Hls in *.
  assert (byte_val b = byte_val b') by nia. f_equal; [by apply byte_val_inj|]. apply IH; [done|]. nia.
Qed.

(** Minimal bytes are determined by their value. *)
Lemma be_value_inj s s' :
  first_byte_zero s = false -> first_byte_zero s' = false -> be_value s = be_value s' -> s = s'.
Proof.
  assert (Hlow : forall b r, first_byte_zero (String b r) = false -> (256 ^ byte_len r <= be_value (String b r))%Z).
  { intros b r Hz. rewrite be_value_cons. pose proof (be_value_bound r). pose proof (byte_val_bound b).
    cbn in Hz. apply Z.eqb_neq in Hz. nia. }
  assert (Hlen : forall s s', first_byte_zero s' = false -> be_value s = be_value s' -> (byte_len s' <= byte_len s)%Z).
  { intros x [|b r] Hz Hv; [unfold byte_len; cbn; lia|]. specialize (Hlow b r Hz). rewrite <- Hv in Hlow.
    pose proof (be_value_bound x). apply Z.nlt_ge. intros Hlt.
    assert (256 ^ byte_len x <= 256 ^ byte_len r)%Z; [|lia]. apply Z.pow_le_mono_r; [done|].
    unfold byte_len in *. cbn in Hlt. lia. }
  intros Hs Hs' Hv. apply be_value_inj_len; [|done].
  apply Z.le_antisymm; [by apply Hlen|by apply Hlen].
Qed.

Lemma positive_bytes s : (0 < be_value s)%Z -> is_empty s = false /\ all_zero s = false.
Proof.
  intros Hs. split; [by destruct s|]. unfold all_zero. rewrite <- be_value_skip in Hs.
  by destruct (skip_zero_bytes s).
Qed.

(** * A generated key is loaded as it was generated *)

Section Generated.
Context `{Features} `{Base64Laws} `{Sha256} `{SerdeJson} `{Asn1} `{AwsLcLaws} `{Jwt} `{OpenSsl} `{JsonText}
  `{JwkReader} `{FromJson CompactJwsHeader} `{FromJson MintedClaims} `{FromJson PrivateRsaJwk} `{!RsaGenerate}
  `{!KeyFileLaws} `{!DerLaws} `{!KeyGenerationLaws}.

(** One component, from the key through base64 and back. *)
Lemma component_read name value :
  (0 < value)%Z -> decode_jwk_component name (b64_encode (bigint_to_bytes_be value)) = Ok (bigint_to_bytes_be value).
Proof.
  intros Hv. unfold decode_jwk_component, decode_jwk_octets. rewrite b64_decode_encode. cbn.
  destruct (to_bytes value Hv) as [Hb _]. destruct (positive_bytes (bigint_to_bytes_be value)) as [-> _]; [by rewrite Hb|done].
Qed.

Lemma component_block name value :
  (0 < value)%Z -> positive_integer_block name (bigint_to_bytes_be value) = Ok (Integer value).
Proof.
  intros Hv. unfold positive_integer_block. destruct (to_bytes value Hv) as [Hb _].
  destruct (positive_bytes (bigint_to_bytes_be value)) as [-> ->]; [by rewrite Hb|]. cbn. by rewrite biguint_be, Hb.
Qed.

(** The text that is made of an exported key. *)
Lemma exported_text pair pkcs8 public text :
  rsa_as_pkcs8_der pair = Ok pkcs8 -> private_jwk_json_from_pkcs8_der pkcs8 public = Ok text ->
  exists pkcs1 n e d p q dp dq qi key t,
    let bytes := fun z => b64_encode (bigint_to_bytes_be z) in
    Forall (Z.lt 0) [n; e; d; p; q; dp; dq; qi] /\
    to_der (Sequence (map Integer [0; n; e; d; p; q; dp; dq; qi]%Z)) = Ok pkcs1 /\
    rsa_from_der pkcs1 = Ok key /\ rsa_public_n key = rsa_public_n pair /\ rsa_public_e key = rsa_public_e pair /\
    json_to_string_pretty (json_object (private_members (jwk_kid public) (bytes n) (bytes e) (bytes d) (bytes p)
      (bytes q) (bytes dp) (bytes dq) (bytes qi))) = Ok t /\ text = t +:+ newline.
Proof.
  intros Hx Ht. destruct (exported _ _ Hx) as (pkcs1 & l & key & Hn & Hl & Hpos & Hfrom & Hto & Hk & En & Ee).
  destruct l as [|n [|e [|d [|p [|q [|dp [|dq [|qi [|]]]]]]]]]; try discriminate Hl.
  exists pkcs1, n, e, d, p, q, dp, dq, qi, key. unfold private_jwk_json_from_pkcs8_der in Ht.
  rewrite Hn in Ht. cbn [res_bind] in Ht. rewrite Hfrom in Ht. cbn [map res_bind map_err length Nat.ltb Nat.leb] in Ht.
  assert (Hc : forall sequence i name z, sequence !! i = Some (Integer z) -> (0 < z)%Z ->
    rsa_integer_component sequence i name = Ok (b64_encode (bigint_to_bytes_be z))).
  { intros sequence i name z Hi Hz. unfold rsa_integer_component. rewrite Hi. by rewrite (proj2 (Z.leb_gt _ _)). }
  pose proof Hpos as Hpos'. repeat (apply Forall_cons in Hpos' as [? Hpos']).
  repeat (erewrite Hc in Ht; [|reflexivity|done]; cbn [res_bind] in Ht).
  apply map_err_ok, res_map_ok in Ht as (t & Ht & ->). exists t. by split_and!.
Qed.

(** The members are encoded as the key that they came from. *)
Lemma members_encoded kid n e d p q dp dq qi pkcs1 :
  let bytes := fun z => b64_encode (bigint_to_bytes_be z) in
  Forall (Z.lt 0) [n; e; d; p; q; dp; dq; qi] ->
  to_der (Sequence (map Integer [0; n; e; d; p; q; dp; dq; qi]%Z)) = Ok pkcs1 ->
  rsa_private_jwk_to_pkcs1_der (mkPrivateRsaJwk "RSA" kid (bytes n) (bytes e) (bytes d) (bytes p) (bytes q)
    (Some (bytes dp)) (Some (bytes dq)) (Some (bytes qi))) = Ok pkcs1.
Proof.
  intros bytes Hpos Hto. repeat (apply Forall_cons in Hpos as [? Hpos]).
  unfold rsa_private_jwk_to_pkcs1_der, decode_required_private_component, bytes.
  cbn [rsa_n rsa_e rsa_d rsa_p rsa_q rsa_dp rsa_dq rsa_qi ok_or res_bind]. rewrite !component_read by done. cbn [res_bind].
  cbn [try_map fst snd]. rewrite !component_block by done. cbn [res_bind]. cbn [map] in Hto. by rewrite Hto.
Qed.

Lemma generated_loads random g fallback :
  rsa_generate_private_jwk (res_bind random rsa_key_pair_generate) = Ok g ->
  exists s, rsa_from_private_jwk (gr_private_jwk_json g) fallback = Ok s /\ rs_public_jwk s = gr_public_jwk g.
Proof.
  unfold rsa_generate_private_jwk. cbn zeta. intros Hg. ok_inv. cbn [gr_private_jwk_json gr_public_jwk].
  match goal with Hx : rsa_key_pair_generate _ = Ok ?k |- _ => rename k into pair; apply generated_size in Hx as Hsize end.
  match goal with Hx : rsa_as_pkcs8_der pair = Ok _, Ht : private_jwk_json_from_pkcs8_der _ _ = Ok _ |- _ =>
    destruct (exported_text _ _ _ _ Hx Ht) as
      (pkcs1 & n & e & d & p & q & dp & dq & qi & key & t & Hpos & Hto & Hk & En & Ee & Hp & ->) end.
  pose proof Hpos as Hpos'. repeat (apply Forall_cons in Hpos' as [? Hpos']).
  destruct (to_bytes n) as [Vn Mn]; [done|]. destruct (to_bytes e) as [Ve Me]; [done|].
  assert (Hbytes : bigint_to_bytes_be n = rsa_public_n pair).
  { apply be_value_inj; [done| |].
    - rewrite <- En. pose proof (components_minimal _ _ Hk) as Hmin. unfold validate_public_components in Hmin.
      destruct (_ || _)%bool; [done|]. by destruct (first_byte_zero (rsa_public_n key)).
    - rewrite Vn, <- En. symmetry. exact (der_modulus n _ _ _ Hto Hk). }
  assert (Hbits : (rsa_modulus_bits (bigint_to_bytes_be n) <? 2048)%Z = false).
  { rewrite Hbytes. by apply Z.ltb_ge. }
  unfold rsa_from_private_jwk. rewrite (read_private _ _ _ _ _ _ _ _ _ _ Hp).
  cbn [res_bind map_err rsa_kty rsa_n rsa_e rsa_kid default]. rewrite bool_decide_eq_true_2 by done. cbn [negb].
  rewrite !component_read by done. cbn [res_bind].
  assert (Hval : validate_public_components (bigint_to_bytes_be n) (bigint_to_bytes_be e) = Ok tt).
  { unfold validate_public_components. rewrite Mn, Me.
    destruct (positive_bytes (bigint_to_bytes_be n)) as [-> _]; [by rewrite Vn|].
    destruct (positive_bytes (bigint_to_bytes_be e)) as [-> _]; [by rewrite Ve|done]. }
  rewrite Hval. cbn [res_bind]. rewrite Hbits.
  rewrite (members_encoded (Some (jwk_kid _)) _ _ _ _ _ _ _ _ _ Hpos Hto). cbn [res_bind]. unfold rsa_from_pkcs1_der. rewrite Hk. cbn [map_err res_bind].
  pose proof (modulus_len key) as Hlen. rewrite En in Hlen. rewrite (proj2 (Z.ltb_ge _ _)) by lia.
  eexists. split; [done|]. cbn. by rewrite En, Ee.
Qed.

(** * What start-up loads *)

Context `{FromJson PrivateAkpJwk} (dirs : string -> Dir).

Lemma trusted_read fs path label override f :
  fs !! path = Some f -> Z.land (Z.land (f_mode f) 511) 18 = 0%Z ->
  @read_checked_file (boot dirs fs) path label override = Ok (f_content f).
Proof.
  intros Hf Hm. unfold read_checked_file, check_file_mode. cbn. rewrite Hf. cbn. rewrite Hm. done.
Qed.

Lemma checked_read fs path label override raw :
  @read_checked_file (boot dirs fs) path label override = Ok raw -> exists f, fs !! path = Some f /\ f_content f = raw.
Proof.
  unfold read_checked_file. intros Hr. ok_inv.
  match goal with Hx : fs_read_to_string _ = _ |- _ => cbn in Hx end.
  destruct (fs !! path) as [f|]; [|done]. simplify_eq/=. eauto.
Qed.

Lemma loads_signer fs config key_file f s :
  signs_with config key_file -> fs !! key_file = Some f ->
  @read_checked_file (boot dirs fs) key_file "STS signing key" (allow_insecure_key_file config) = Ok (f_content f) ->
  rsa_from_private_jwk (f_content f) (our_kid config) = Ok s ->
  @load_signer (boot dirs fs) _ _ _ _ _ _ _ _ _ _ _ _ _ _ config = Ok (RsaFile s).
Proof.
  intros [Hp Hc Hk] Hf Hr Hs. unfold load_signer.
  assert (Hprov : (bool_decide (sts_signing_provider config = "") || bool_decide (sts_signing_provider config = "file"))%bool = true).
  { apply orb_true_iff. rewrite !bool_decide_eq_true. set_solver. }
  rewrite Hprov. unfold load_file_signer. rewrite Hk, Hr, Hc. cbn [res_bind].
  pose proof Hs as Hj. unfold rsa_from_private_jwk in Hj. ok_inv.
  match goal with Hx : from_json _ = Ok _ |- _ => rewrite (json_not_pem _ _ Hx) end.
  unfold rsa_from_private_jwk_for_backend. cbn. by rewrite Hs.
Qed.

(** What the commands call the current key is what the server signs with. *)
Lemma current_loads path raw current fallback :
  parse_current_signing_key path raw = Ok current ->
  exists s, rsa_from_private_jwk raw fallback = Ok s /\ rs_public_jwk s = current /\ jwk_use current = "sig".
Proof.
  unfold parse_current_signing_key, first_key. intros Hp. ok_inv. bool_hyps.
  match goal with Hx : rsa_from_private_jwk _ _ = Ok ?sg, Hh : head _ = Some _ |- _ =>
    rename sg into signer, Hx into Hs; cbn in Hh; injection Hh as Hh end.
  match goal with Hx : as_object _ = Some ?o |- _ => apply as_object_Some in Hx as -> ; rename o into object end.
  match goal with Hx : json_from_str _ = Ok _ |- _ => rename Hx into Hjson end.
  assert (Hkid : exists k, map_get "kid" object ≫= as_str = Some k).
  { match goal with Hx : is_some_and _ _ = true |- _ => revert Hx end. destruct (map_get "kid" object ≫= as_str); [by eauto|done]. }
  destruct Hkid as [kid Hkid].
  exists signer. split; [|split; [done|]].
  - unfold rsa_from_private_jwk in Hs |- *. destruct (from_json raw) as [jwk|e] eqn:Hj; [|done].
    pose proof (object_kid _ _ _ Hjson Hj) as Hk. rewrite Hkid in Hk. cbn [map_err res_bind] in *. rewrite Hk in *. exact Hs.
  - rewrite <- Hp. unfold rsa_from_private_jwk, rsa_from_pkcs1_der in Hs. ok_inv.
    destruct (bool_decide _) eqn:Hk in Hs; [|done]. cbn [negb] in Hs. by ok_inv.
Qed.

Lemma find_add_extra kid published extra :
  find_jwk kid (mkJwksDocument (add_extra_keys published extra)) =
  opt_or (find_jwk kid (mkJwksDocument published)) (find_jwk kid (mkJwksDocument extra)).
Proof.
  unfold find_jwk, add_extra_keys. cbn [jwks_keys]. revert published.
  induction extra as [|key extra IH]; intros published; cbn [fold_left].
  { cbn. by destruct (List.find _ published). }
  rewrite IH. cbn [List.find]. destruct (existsb _ published) eqn:He.
  - case_bool_decide as Hk; [|done]. subst kid. apply existsb_exists in He as (x & Hx & Hxk).
    destruct (List.find _ published) eqn:Hf; [done|].
    pose proof (find_none _ _ Hf x Hx) as Hn. cbn in Hn. congruence.
  - clear He IH. induction published as [|k published IH]; cbn [app List.find opt_or].
    + by case_bool_decide.
    + destruct (bool_decide (jwk_kid k = kid)); [done|exact IH].
Qed.

Lemma find_app kid l1 l2 :
  find_jwk kid (mkJwksDocument (l1 ++ l2)) = opt_or (find_jwk kid (mkJwksDocument l1)) (find_jwk kid (mkJwksDocument l2)).
Proof. unfold find_jwk. cbn [jwks_keys]. induction l1 as [|k l1 IH]; cbn; [done|]. by case_bool_decide. Qed.

(** The overlap after a rotation finds what was found before. *)
Lemma find_staged kid overlap current new :
  kid <> jwk_kid new ->
  find_jwk kid (mkJwksDocument (still_retiring overlap current new ++ [current])) =
  opt_or (find_jwk kid (mkJwksDocument [current])) (find_jwk kid (mkJwksDocument overlap)).
Proof.
  intros Hn. rewrite find_app.
  assert (Hstill : find_jwk kid (mkJwksDocument (still_retiring overlap current new)) =
    if decide (kid = jwk_kid current) then None else find_jwk kid (mkJwksDocument overlap)).
  { unfold find_jwk, still_retiring. cbn [jwks_keys]. induction overlap as [|k overlap IH].
    - cbn. by case_decide.
    - rewrite filter_cons. cbn [List.find]. destruct (decide (_ ∉ _)) as [Hk|Hk].
      + cbn [List.find]. rewrite IH. case_bool_decide as Hkk; [|done]. rewrite decide_False; [done|]. intros Hc. apply Hk. rewrite Hkk, Hc. by left.
      + rewrite IH. case_decide as Hc; [done|]. rewrite bool_decide_eq_false_2; [done|]. intros Hkk. apply Hk.
        rewrite Hkk. intros [?|[?|?%not_elem_of_nil]%elem_of_cons]%elem_of_cons; done. }
  rewrite Hstill. unfold find_jwk. cbn [jwks_keys List.find]. case_decide as Hc; case_bool_decide; try congruence; [done|].
  by destruct (List.find _ overlap).
Qed.

(** What the server had loaded when a rotation read the files. *)
Lemma loaded_before fs config key_file extra current overlap signer doc :
  signs_with config key_file ->
  obo_sts_extra_jwks_file config = Some extra \/ obo_sts_extra_jwks_file config = None /\ fs !! extra = None ->
  start_keys dirs fs config = Ok (signer, doc) -> has_read key_file extra fs current overlap ->
  doc = mkJwksDocument (add_extra_keys [current] overlap) /\ Forall (fun jwk => jwk_use jwk = "sig") overlap.
Proof.
  intros Hw Hx Hstart [(f & Hf & Hcur) Hover]. unfold start_keys in Hstart. ok_inv.
  match goal with Hx : load_signer _ = Ok _ |- _ => rename Hx into Hload end.
  match goal with Hx : published_jwks_of _ _ = Ok _ |- _ => rename Hx into Hpub end.
  assert (Hkey : public_jwks signer = mkJwksDocument [current]).
  { destruct (current_loads _ _ _ (our_kid config) Hcur) as (s & Hs & <- & _).
    assert (Hr : @read_checked_file (boot dirs fs) key_file "STS signing key" (allow_insecure_key_file config) = Ok (f_content f)).
    { pose proof Hload as Hl. destruct Hw as [Hp Hc Hk]. unfold load_signer in Hl.
      assert (Hprov : (bool_decide (sts_signing_provider config = "") || bool_decide (sts_signing_provider config = "file"))%bool = true).
      { apply orb_true_iff. rewrite !bool_decide_eq_true. set_solver. }
      rewrite Hprov in Hl. unfold load_file_signer in Hl. apply res_bind_ok in Hl as (raw & Hr & _). rewrite Hk in Hr.
      rewrite Hr. apply checked_read in Hr as (f' & Hf' & <-). congruence. }
    rewrite (loads_signer _ _ _ _ _ Hw Hf Hr Hs) in Hload. by injection Hload as <-. }
  unfold published_jwks_of in Hpub. rewrite Hkey in Hpub.
  destruct Hx as [Hx|[Hx Hnone]]; rewrite Hx in Hpub.
  - apply res_bind_ok in Hpub as (extras & Hl & Hpub). injection Hpub as <-.
    unfold load_public_jwks_file in Hl. ok_inv.
    match goal with Hx : read_checked_file _ _ _ = Ok _ |- _ => apply checked_read in Hx as (g & Hg & <-) end.
    destruct Hover as [[Hn _]|(g' & Hg' & Hp)]; [congruence|]. replace g' with g in Hp by congruence.
    match goal with Hn : normalize_public_jwks_value _ _ = Ok _, Hj : json_from_str _ = Ok _ |- _ =>
      apply (overlap_server _ _ _ _ _ _ Hj Hp) in Hn as [-> Hu] end. done.
  - injection Hpub as <-. destruct Hover as [[_ ->]|(g' & Hg' & _)]; [done|congruence].
Qed.

(** What it loads after a rotation. *)
Lemma loaded_after fs config key_file extra current overlap random g text :
  signs_with config key_file -> obo_sts_extra_jwks_file config = Some extra ->
  storable current -> jwk_use current = "sig" -> Forall storable overlap -> Forall (fun jwk => jwk_use jwk = "sig") overlap ->
  rsa_generate_private_jwk (res_bind random rsa_key_pair_generate) = Ok g ->
  let staged := still_retiring overlap current (gr_public_jwk g) ++ [current] in
  json_to_string_pretty (jwks_document_value (mkJwksDocument staged)) = Ok text ->
  fs !! extra = Some (mkFile (text +:+ newline) 420) -> fs !! key_file = Some (mkFile (gr_private_jwk_json g) 384) ->
  exists signer, start_keys dirs fs config = Ok (signer, mkJwksDocument (add_extra_keys [gr_public_jwk g] staged)) /\
    public_jwks signer = mkJwksDocument [gr_public_jwk g].
Proof.
  intros Hw Hx Hcs Hcu Hos Hou Hg staged Ht Hfx Hfk.
  destruct (generated_loads _ _ (our_kid config) Hg) as (s & Hs & Hpub). exists (RsaFile s).
  assert (Hown : public_jwks (RsaFile s) = mkJwksDocument [gr_public_jwk g]) by (by rewrite <- Hpub).
  split; [|exact Hown]. unfold start_keys.
  rewrite (loads_signer fs config key_file _ s Hw Hfk (trusted_read _ _ _ _ _ Hfk eq_refl) Hs). cbn [res_bind].
  assert (Hall : Forall storable staged /\ Forall (fun jwk => jwk_use jwk = "sig") staged).
  { assert (Hstill : forall P : PublicJwk -> Prop, Forall P overlap -> P current -> Forall P staged).
    { intros P Ho Hc. apply Forall_app. split; [|by apply Forall_singleton].
      rewrite Forall_forall in Ho |- *. intros x [_ Hin]%list_elem_of_filter. by apply Ho. }
    split; by apply Hstill. }
  destruct Hall as [Hss Hsu].
  assert (Hparse : parse_public_jwks_document (text +:+ newline) "overlap JWKS" = Ok staged).
  { apply document_roundtrip; [done| |done]. subst staged. by destruct (still_retiring _ _ _). }
  unfold published_jwks_of. rewrite Hown, Hx. unfold load_public_jwks_file.
  rewrite (trusted_read fs extra _ _ _ Hfx eq_refl). cbn [res_bind f_content].
  pose proof (read_document _ _ Ht) as Hjson. rewrite Hjson. cbn [map_err res_bind].
  rewrite (proj2 (overlap_server _ _ "extra STS JWKS" _ _ (mkJwksDocument staged) Hjson Hparse)) by done. done.
Qed.
End Generated.

(** * Properties *)

Section Properties.
Context `{Features} `{Base64Laws} `{Sha256} `{SerdeJson} `{Asn1} `{AwsLcLaws} `{Jwt} `{OpenSsl} `{JsonText}
  `{JwkReader} `{FromJson CompactJwsHeader} `{FromJson MintedClaims} `{FromJson PrivateRsaJwk} `{FromJson PrivateAkpJwk}
  `{!RsaGenerate} `{!KeyFileLaws} `{!DerLaws} `{!KeyGenerationLaws} (dirs : string -> Dir).

(** C16: a rotation and a restart change the signing key and nothing else: if the
    server started from the files before a successful rotation, it starts from
    the files after it, whatever happened during the rotation's calls; it signs
    with the key that was generated and publishes it; and every token, of this
    server or of anyone, verifies against the published keys exactly as before
    unless its header names the new key.  (Before the first rotation there may be no
    overlap file.) *)
Theorem rotation_then_restart (env : ConfigSource) (args : RotateArgs) (outs : nat -> Outcome) (n : nat) (fs fs' : Fs)
    (report : string) (before after : RuntimeConfig) (signer0 : AnySigner) (doc0 : JwksDocument) :
  let key_file := resolve_key_file env args in
  let extra := resolve_extra_jwks_file env args key_file in
  key_file <> extra -> lock_path_of key_file <> extra -> ra_dry_run args = false ->
  run (rotate_signing_key env args) outs n fs = (Ok report, fs') ->
  signs_with before key_file -> signs_with after key_file -> obo_sts_extra_jwks_file after = Some extra ->
  obo_sts_extra_jwks_file before = Some extra \/ obo_sts_extra_jwks_file before = None /\ fs !! extra = None ->
  start_keys dirs fs before = Ok (signer0, doc0) ->
  exists random g signer doc,
    rsa_generate_private_jwk (res_bind random rsa_key_pair_generate) = Ok g /\
    start_keys dirs fs' after = Ok (signer, doc) /\
    public_jwks signer = mkJwksDocument [gr_public_jwk g] /\
    find_jwk (jwk_kid (gr_public_jwk g)) doc = Some (gr_public_jwk g) /\
    forall (T : Type) (from : FromJson T) (token : string) (allowed : option (list string)),
      (forall header, decode_compact_jws_header token = Ok header -> h_kid header <> Some (jwk_kid (gr_public_jwk g))) ->
      verify_claims_against_jwks_inner (T := T) token doc allowed = verify_claims_against_jwks_inner token doc0 allowed.
Proof.
  intros key_file extra Hne Hlock Hdry Hrun Hw0 Hw1 Hx1 Hx0 Hstart.
  pose proof (rotate_outcome key_file extra Hne Hlock any_outcome env args fs eq_refl eq_refl Hdry) as Ha.
  apply (always_run _ _ outs n fs (fun _ => I)) in Ha. rewrite Hrun in Ha.
  destruct Ha as (current & overlap & random & g & text & Hread & Hg & Ht & Hfx & Hfk).
  destruct (loaded_before dirs _ _ _ _ _ _ _ _ Hw0 Hx0 Hstart Hread) as [-> Hou].
  destruct Hread as [(f & Hf & Hcur) Hover].
  assert (Hos : Forall storable overlap).
  { destruct Hover as [[_ ->]|(f' & _ & Hp)]; [constructor|by eapply parsed_storable]. }
  destruct (current_loads _ _ _ "" Hcur) as (_ & _ & _ & Hcu). pose proof (parse_current_spec _ _ _ Hcur) as [Hcs _].
  destruct (loaded_after dirs _ _ _ _ _ _ _ _ _ Hw1 Hx1 Hcs Hcu Hos Hou Hg Ht Hfx Hfk) as (signer & Hs & Hown).
  exists random, g, signer. eexists. split; [exact Hg|]. split; [exact Hs|]. split; [exact Hown|]. split.
  { rewrite find_add_extra. unfold find_jwk. cbn. by rewrite bool_decide_eq_true_2. }
  intros T from token allowed Hkid. unfold verify_claims_against_jwks_inner.
  destruct (decode_compact_jws_header token) as [header|e]; [|done]. cbn [res_bind]. specialize (Hkid header eq_refl).
  destruct (is_some_and _ allowed); [done|]. destruct (h_kid header) as [kid|]; [|done]. cbn [ok_or res_bind].
  assert (Hk : kid <> jwk_kid (gr_public_jwk g)) by congruence.
  rewrite !find_add_extra, find_staged by done.
  unfold find_jwk at 1. cbn [jwks_keys List.find]. by rewrite bool_decide_eq_false_2 by congruence.
Qed.
End Properties.

(** * Libraries simple enough to evaluate *)

Module RestartToy.
Import CliToy.

(** The big-endian bytes of a number, without leading zeros. *)
Fixpoint be_bytes (fuel : nat) (z : Z) (acc : string) : string :=
  match fuel with
  | O => acc
  | S fuel' => if (z =? 0)%Z then acc else be_bytes fuel' (z / 256) (String (ascii_of_N (Z.to_N (z mod 256))) acc)
  end.
Definition bytes_of (z : Z) : string := be_bytes (Z.to_nat (Z.log2 z) + 1) z "".

Lemma byte_val_mod z : byte_val (ascii_of_N (Z.to_N (z mod 256))) = (z mod 256)%Z.
Proof.
  pose proof (Z.mod_pos_bound z 256 ltac:(lia)). unfold byte_val. rewrite N_ascii_embedding by lia. lia.
Qed.

Lemma be_bytes_spec fuel z acc :
  (0 <= z < 2 ^ Z.of_nat fuel)%Z ->
  be_value (be_bytes fuel z acc) = (z * 256 ^ byte_len acc + be_value acc)%Z /\
  ((0 < z)%Z -> first_byte_zero (be_bytes fuel z acc) = false).
Proof.
  revert z acc. induction fuel as [|fuel IH]; intros z acc Hz; cbn [be_bytes].
  { change (2 ^ Z.of_nat 0)%Z with 1%Z in Hz. split; [|lia]. replace z with 0%Z by lia. lia. }
  destruct (Z.eqb_spec z 0) as [->|Hne]; [split; lia|].
  pose proof (Z.mod_pos_bound z 256 ltac:(lia)). pose proof (Z.div_mod z 256 ltac:(lia)) as Hdiv.
  rewrite Nat2Z.inj_succ, Z.pow_succ_r in Hz by lia.
  assert (Hlt : (0 <= z / 256 < 2 ^ Z.of_nat fuel)%Z).
  { split; [apply Z.div_pos; lia|]. apply Z.div_lt_upper_bound; lia. }
  set (acc1 := String _ acc). destruct (IH (z / 256)%Z acc1 Hlt) as [IHv IHf]. split.
  - rewrite IHv. unfold acc1. rewrite be_value_cons, byte_val_mod.
    replace (byte_len (String _ acc)) with (byte_len acc + 1)%Z by (unfold byte_len; cbn; lia).
    rewrite Z.pow_add_r, Z.pow_1_r by (unfold byte_len; lia). rewrite Hdiv at 3. ring.
  - intros _. destruct (Z.eq_dec (z / 256) 0) as [Hd|Hd]; [|apply IHf; lia].
    rewrite Hd. replace (be_bytes fuel 0 acc1) with acc1 by by destruct fuel.
    cbn. rewrite byte_val_mod. apply Z.eqb_neq. lia.
Qed.

Lemma bytes_of_spec z : (0 < z)%Z -> be_value (bytes_of z) = z /\ first_byte_zero (bytes_of z) = false.
Proof.
  intros Hz. unfold bytes_of. destruct (be_bytes_spec (Z.to_nat (Z.log2 z) + 1) z "") as [Hv Hf].
  - split; [lia|]. rewrite Nat2Z.inj_add, Z2Nat.id by apply Z.log2_nonneg. apply Z.log2_spec. done.
  - split; [|by apply Hf]. rewrite Hv. change (byte_len "") with 0%Z. change (be_value "") with 0%Z. lia.
Qed.

#[local] Instance asn1 : Asn1 := {|
  to_der := @to_der CliToy.asn1;
  from_der _ := Ok [Sequence (map Integer [0; be_value modulus; be_value "e"; 1; 1; 1; 1; 1; 1]%Z)];
  biguint_from_bytes_be := be_value; bigint_to_bytes_be := bytes_of
|}.
#[local] Instance der_laws : DerLaws.
Proof. split; [done|]. exact (@der_modulus _ _ CliToy.der_laws). Qed.

(** The members of the new private key. *)
Definition new_strings : list (string * string) :=
  let b z := b64_encode (bytes_of z) in
  key_strings (json_object (private_members new_kid (b (be_value modulus)) (b (be_value "e")) (b 1%Z) (b 1%Z) (b 1%Z)
    (b 1%Z) (b 1%Z) (b 1%Z))).
Definition member (name : string) : string :=
  default "" (List.find (fun kv => bool_decide (kv.1 = name)) new_strings ≫= fun kv => Some kv.2).

#[local] Instance serde : SerdeJson := {|
  json_to_vec _ := Ok "";
  json_to_string_pretty v :=
    match value_get "keys" v with
    | Some (VArray keys) => if bool_decide (map key_strings keys = [old_strings]) then Ok "overlap" else Err "unknown"
    | _ => if bool_decide (key_strings v = new_strings /\ value_get "kid" v ≫= as_str = Some new_kid)
           then Ok "new" else Err "unknown"
    end
|}.
#[local] Instance rsa_json : FromJson PrivateRsaJwk := fun s =>
  if bool_decide (s = "old") then
    Ok (mkPrivateRsaJwk "RSA" (Some "k1") (b64_encode modulus) (b64_encode "e") (b64_encode "d") (b64_encode "p")
          (b64_encode "q") (Some (b64_encode "dp")) (Some (b64_encode "dq")) (Some (b64_encode "qi")))
  else if bool_decide (s = "new" +:+ newline) then
    Ok (mkPrivateRsaJwk "RSA" (Some new_kid) (member "n") (member "e") (member "d") (member "p") (member "q")
          (Some (member "dp")) (Some (member "dq")) (Some (member "qi")))
  else Err "unknown".

#[local] Instance key_file_laws : KeyFileLaws.
Proof.
  split.
  - intros [keys] t. cbn [json_to_string_pretty serde jwks_document_value jwks_keys].
    change (value_get "keys" _) with (Some (VArray (map (fun jwk => VObject (public_jwk_fields jwk)) keys))).
    cbv beta iota. case_bool_decide as Hk; [|done]. intros [= <-].
    assert (Hc : @json_to_string_pretty CliToy.serde (jwks_document_value (mkJwksDocument keys)) = Ok "overlap").
    { cbn [json_to_string_pretty CliToy.serde jwks_document_value jwks_keys].
      change (value_get "keys" _) with (Some (VArray (map (fun jwk => VObject (public_jwk_fields jwk)) keys))).
      cbv beta iota. by rewrite bool_decide_eq_true_2. }
    exact (@read_document _ _ _ _ CliToy.key_file_laws _ _ Hc).
  - exact (@read_jwk _ _ _ _ CliToy.key_file_laws).
  - intros v t jwk. cbn [json_to_string_pretty serde].
    assert (Hold : forall jwk, from_json ("overlap" +:+ newline) <> Ok (A := PrivateRsaJwk) jwk) by (intros ?; by vm_compute).
    destruct (value_get "keys" v) as [[]|];
      (case_bool_decide as Hv; [|done]); intros [= <-] Hj; try (by destruct (Hold _ Hj));
      destruct Hv as [_ ->]; by injection Hj as <-.
Qed.

#[local] Instance generation_laws : KeyGenerationLaws.
Proof.
  split.
  - apply bytes_of_spec.
  - intros [] pkcs8 [= <-]. exists "der", [be_value modulus; be_value "e"; 1; 1; 1; 1; 1; 1]%Z, tt.
    split; [reflexivity|]. split; [reflexivity|]. split.
    { repeat constructor; try lia; vm_compute; reflexivity. }
    split; [reflexivity|]. split; [|done]. cbn. by rewrite Z.eqb_refl.
  - intros random [] _. vm_compute. discriminate.
  - intros []. vm_compute. discriminate.
  - intros kid n e d p q dp dq qi text. cbn [json_to_string_pretty serde].
    change (value_get "keys" _) with (@None Value). cbv beta iota. case_bool_decide as Hk; [|done]. destruct Hk as [Hk _]. intros [= <-].
    assert (Hm : forall name, member name = default "" (List.find (fun kv => bool_decide (kv.1 = name))
      (key_strings (json_object (private_members kid n e d p q dp dq qi))) ≫= fun kv => Some kv.2)).
    { intros name. unfold member. by rewrite Hk. }
    assert (Hkid : member "kid" = new_kid) by (vm_compute; reflexivity).
    unfold from_json, rsa_json. rewrite bool_decide_eq_false_2, bool_decide_eq_true_2 by done.
    rewrite <- Hkid, !Hm. reflexivity.
  - intros raw o jwk. unfold json_from_str, text, from_json, rsa_json. repeat case_bool_decide; subst; try done.
    + by intros [= <-] [= <-].
    + by intros [= <-] [= <-].
  - intros raw jwk. unfold from_json, rsa_json. repeat case_bool_decide; subst; try done; by intros [= <-].
Qed.

Definition key_path : string := "secrets/k.json".
Definition extra_path : string := "secrets/retiring.json".
Definition files : Fs := {[ key_path := mkFile "old" 384 ]}.
Definition no_env : ConfigSource := ∅.
Definition args : RotateArgs := mkRotateArgs (Some key_path) (Some extra_path) false.
Definition calm : Outcome := mkOutcome None 0 18 (Ok 7%Z) 42 (Ok "random") "rng" (Err "offline").
Definition rotate : result CliError string * Fs := run (rotate_signing_key no_env args) (fun _ => calm) 0 files.
Definition dirs (path : string) : Dir := healthy_dir ∅.

(** A server on that key, without and with the overlap file. *)
Definition server_config (extra : option string) : RuntimeConfig :=
  mkConfig "https://idp.example" {["api"]} "https://sts.example" "unused" "secrets" key_path None None "/actors"
    "/clients" extra ∅ "k1" ∅ Both Auto ∅ ∅ "classical" true true ["ML-DSA-65"] false true ["RS256"] "file"
    None None 60 300 300 600 1000 Memory 8192 false true false false false false false None None
    "127.0.0.1:8080" true false "info" false.

Lemma server_signs extra : signs_with (server_config extra) key_path.
Proof. by split; [right; left| |]. Qed.

Lemma rotation_then_restart_witness :
  is_ok rotate.1 = true /\
  exists signer doc g, start_keys dirs rotate.2 (server_config (Some extra_path)) = Ok (signer, doc) /\
    public_jwks signer = mkJwksDocument [gr_public_jwk g] /\ gr_public_jwk g <> old_key.
Proof.
  assert (Hok : is_ok rotate.1 = true) by (vm_compute; reflexivity). split; [exact Hok|].
  destruct rotate as [[report|e] fs'] eqn:Hrun; [|discriminate Hok].
  destruct (start_keys dirs files (server_config None)) as [[signer0 doc0]|e] eqn:Hstart.
  2: { assert (Hs : is_ok (start_keys dirs files (server_config None)) = true) by (vm_compute; reflexivity).
       rewrite Hstart in Hs. discriminate Hs. }
  destruct (rotation_then_restart dirs no_env args (fun _ => calm) 0 files fs' report (server_config None)
              (server_config (Some extra_path)) signer0 doc0) as (random & g & signer & doc & Hg & Hs & Hown & _).
  - discriminate.
  - discriminate.
  - reflexivity.
  - exact Hrun.
  - apply server_signs.
  - apply server_signs.
  - reflexivity.
  - right. split; reflexivity.
  - exact Hstart.
  - exists signer, doc, g. split; [exact Hs|]. split; [exact Hown|].
    intros Ho. destruct random as [random|e]; [|discriminate Hg].
    apply (f_equal (fun r => match r with Ok g => jwk_kid (gr_public_jwk g) | Err _ => "" end)) in Hg.
    rewrite Ho in Hg. vm_compute in Hg. discriminate Hg.
Defined.
End RestartToy.
