(* ===== verification/CliPqc.v ===== *)
(** crates/sts-cli: the rotation of ML-DSA keys reads before it locks.

    [rotate_pqc_key] loads the key in use and the overlap, and takes the lock
    afterwards.  Of two that have read before either takes the lock, the later one
    writes what it had read, and the key that the other one had put in use is in
    neither file in the end. *)

From S2P Require Import Prelude RustStr Json Core Replay Jose JoseSigners Config HttpBootstrap CliIo CliText CliKeys CliRotate.
From S2P Require Import CliFiles CliDocs CliSafety.
From Stdlib Require Import Ascii.

Section Pqc.
Context `{Features} `{Base64} `{Sha256} `{SerdeJson} `{Asn1} `{AwsLc} `{Jwt} `{OpenSsl} `{JsonText} `{JwkReader}
  `{FromJson CompactJwsHeader} `{FromJson MintedClaims} `{FromJson PrivateRsaJwk} `{FromJson PrivateAkpJwk}.

(** * Specifications *)

(** What a rotation has read from the files [fs]. *)
Definition pqc_read (args : PqcKeyRotateArgs) (fs : Fs) (current : PublicJwk) (overlap : list PublicJwk) : Prop :=
  (exists f, fs !! pr_key_file args = Some f /\
     parse_current_pqc_signing_key (pr_key_file args) (f_content f) = Ok current) /\
  (fs !! pr_extra_jwks_file args = None /\ overlap = [] \/
   exists f, fs !! pr_extra_jwks_file args = Some f /\
     parse_public_jwks_document (f_content f) "overlap JWKS" = Ok overlap).

(** There is room for the files that a rotation makes for a while: the lock, and
    a temporary file per write. *)
Definition room (args : PqcKeyRotateArgs) (fs : Fs) (o : Outcome) : Prop :=
  fs !! lock_path_of (pr_key_file args) = None /\
  forall path, path ∈ [pr_key_file args; pr_extra_jwks_file args] ->
    fs !! temp_name path o = None /\
    temp_name path o ∉ [pr_key_file args; pr_extra_jwks_file args; lock_path_of (pr_key_file args)].

(** The random bytes of [o] give the new key [g], and the overlap file with which
    it is put in use can be printed. *)
Definition makes (args : PqcKeyRotateArgs) (current : PublicJwk) (overlap : list PublicJwk) (o : Outcome)
    (g : GeneratedMlDsaKey) (text : string) : Prop :=
  (exists algorithm, parse_mldsa_algorithm (jwk_alg current) = Ok algorithm /\
     mldsa_generate_private_jwk (o_random o) algorithm (pr_kid args) = Ok g) /\
  json_to_string_pretty
    (jwks_document_value (mkJwksDocument (current :: still_retiring overlap current (gm_public_jwk g)))) = Ok text.

(** What is left of the program after its reads. *)
Definition pqc_rest (args : PqcKeyRotateArgs) (current : PublicJwk) (overlap : list PublicJwk)
    : Io (result CliError string) :=
  with_lock (pr_key_file args) (rotate_pqc_locked args current overlap).

(** * Lemmas *)

Definition no_fault (o : Outcome) : Prop := o_fault o = None.
Definition calm : Outcome := mkOutcome None 0 18 (Ok 0%Z) 1 (Err "none") "" (Err "none").

(** A process that reads a file, alone in the pool or not. *)
Lemma read_step {A} (k : result IoError string -> Io A) path fs procs i :
  procs !! i = Some (io_bind (io_call (ReadToString path)) k) ->
  pool_step no_fault (mkPool fs procs)
    (mkPool fs (<[i := k (match fs !! path with Some f => Ok (f_content f) | None => Err not_found end)]> procs)).
Proof.
  intros Hi. pose proof (pool_call no_fault (mkPool fs procs) i _ _ _ calm Hi eq_refl) as Hs.
  cbn [pool_fs pool_procs sys] in Hs. unfold unless_fault in Hs. cbn [o_fault calm] in Hs.
  by destruct (fs !! path).
Qed.

Lemma pqc_reads args fs current overlap procs i :
  pqc_openssl = true -> pr_dry_run args = false -> pqc_read args fs current overlap ->
  procs !! i = Some (rotate_pqc_key args) ->
  rtc (pool_step no_fault) (mkPool fs procs) (mkPool fs (<[i := pqc_rest args current overlap]> procs)).
Proof.
  intros Hpqc Hdry [(kf & Hkf & Hcur) Hover] Hi.
  unfold rotate_pqc_key in Hi. rewrite Hpqc, Hdry in Hi. cbn [negb] in Hi.
  set (rest := fun overlap => with_lock (pr_key_file args) (rotate_pqc_locked args current overlap)).
  assert (Hone : pool_step no_fault (mkPool fs procs)
    (mkPool fs (<[i := io_try (load_existing_overlap (pr_extra_jwks_file args)) rest]> procs))).
  { pose proof (read_step _ _ fs procs i Hi) as Hs. rewrite Hkf in Hs. cbn in Hs. rewrite Hcur in Hs. exact Hs. }
  eapply rtc_l; [exact Hone|]. apply rtc_once.
  set (procs' := <[i := _]> procs).
  assert (Hi' : procs' !! i = Some (io_try (load_existing_overlap (pr_extra_jwks_file args)) rest)).
  { apply list_lookup_insert_eq. by eapply lookup_lt_Some. }
  pose proof (read_step _ _ fs procs' i Hi') as Hs. unfold procs' in Hs at 2. rewrite list_insert_insert_eq in Hs.
  destruct Hover as [[Hx ->]|(f & Hx & Hp)]; rewrite Hx in Hs; [exact Hs|]. cbn in Hs. rewrite Hp in Hs. exact Hs.
Qed.

(** The files after an undisturbed rotation that put [g] in use. *)
Definition put_in_use (args : PqcKeyRotateArgs) (g : GeneratedMlDsaKey) (text : string) (fs : Fs) : Fs :=
  <[pr_key_file args := mkFile (gm_private_jwk_json g) 384]>
    (<[pr_extra_jwks_file args := mkFile (text +:+ newline) 420]> fs).

Lemma rotate_pqc_locked_calm args current overlap o g text fs :
  no_fault o -> makes args current overlap o g text ->
  fs !! temp_name (pr_extra_jwks_file args) o = None ->
  fs !! temp_name (pr_key_file args) o = None ->
  temp_name (pr_key_file args) o <> pr_extra_jwks_file args ->
  exists out, calmly o (rotate_pqc_locked args current overlap) fs (Ok out) (put_in_use args g text fs).
Proof.
  intros Ho [(algorithm & Halg & Hg) Ht] Hx Hk Hne. eexists. unfold rotate_pqc_locked. rewrite Halg.
  eapply calmly_try; [apply calmly_ret|]. eapply calmly_bind; [apply calmly_call; reflexivity|]. rewrite Hg.
  eapply calmly_try; [apply calmly_ret|]. cbn zeta. rewrite retained_still.
  eapply calmly_try.
  { unfold atomic_write_json. rewrite Ht. eapply calmly_try; [apply calmly_ret|]. by apply atomic_write_calm. }
  eapply calmly_try; [|apply calmly_ret]. apply atomic_write_calm; [done|]. by rewrite lookup_insert_ne.
Qed.

Lemma pqc_rest_calm args current overlap o g text fs :
  no_fault o -> makes args current overlap o g text -> room args fs o ->
  exists out, calmly o (pqc_rest args current overlap) fs (Ok out)
    (delete (lock_path_of (pr_key_file args))
       (put_in_use args g text (<[lock_path_of (pr_key_file args) := mkFile "" (Z.land 438 (Z.lnot (o_umask o)))]> fs))).
Proof.
  intros Ho Hm [Hl Ht]. set (lock := lock_path_of (pr_key_file args)) in *.
  destruct (Ht (pr_key_file args)) as [Hk Hkne]; [by left|].
  destruct (Ht (pr_extra_jwks_file args)) as [Hx Hxne]; [by right; left|].
  rewrite !not_elem_of_cons in Hkne, Hxne.
  assert (Hr : exists out, calmly o (rotate_pqc_locked args current overlap)
    (<[lock := mkFile "" (Z.land 438 (Z.lnot (o_umask o)))]> fs) (Ok out)
    (put_in_use args g text (<[lock := mkFile "" (Z.land 438 (Z.lnot (o_umask o)))]> fs))).
  { apply rotate_pqc_locked_calm; rewrite ?lookup_insert_ne by (apply not_eq_sym; tauto); tauto. }
  destruct Hr as [out Hr]. exists out. unfold pqc_rest, with_lock, acquire. fold lock.
  eapply calmly_try.
  { eapply calmly_try; [by apply create_parent_calm|]. apply calmly_map_err, calmly_call. cbn [sys]. rewrite Hl.
    unfold unless_fault. rewrite Ho. reflexivity. }
  eapply calmly_bind; [exact Hr|]. eapply calmly_bind; [|apply calmly_ret].
  apply calmly_call. cbn [sys]. unfold unless_fault. rewrite Ho.
  assert (is_Some (put_in_use args g text (<[lock := mkFile "" (Z.land 438 (Z.lnot (o_umask o)))]> fs) !! lock)) as [f ->].
  { unfold put_in_use. rewrite !lookup_insert_is_Some. destruct (decide (pr_key_file args = lock)); [tauto|].
    destruct (decide (pr_extra_jwks_file args = lock)); tauto. }
  reflexivity.
Qed.

(** Room for another rotation is left. *)
Lemma room_after args g text f fs o :
  room args fs o ->
  room args (delete (lock_path_of (pr_key_file args))
    (put_in_use args g text (<[lock_path_of (pr_key_file args) := f]> fs))) o.
Proof.
  intros [Hl Ht]. split; [apply lookup_delete_eq|]. intros path Hp. destruct (Ht path Hp) as [Hfree Hne].
  split; [|done]. rewrite !not_elem_of_cons in Hne. unfold put_in_use.
  rewrite lookup_delete_ne, !lookup_insert_ne by (apply not_eq_sym; tauto). done.
Qed.

(** A key file holds one public key, whatever algorithm it is read for. *)
Lemma mldsa_text_one_key selection selection' raw kid s s' :
  mldsa_from_private_jwk_for_backend selection raw kid = Ok s ->
  mldsa_from_private_jwk_for_backend selection' raw kid = Ok s' -> s = s'.
Proof.
  unfold mldsa_from_private_jwk_for_backend, jose_err. intros Hs Hs'. ok_inv. bool_hyps. subst.
  by repeat match goal with E : ?x = Ok _, F : ?x = Ok _ |- _ => rewrite E in F; simplify_eq end.
Qed.

Lemma generated_one_key random algorithm kid g path jwk :
  mldsa_generate_private_jwk random algorithm kid = Ok g ->
  parse_current_pqc_signing_key path (gm_private_jwk_json g) = Ok jwk -> jwk = gm_public_jwk g.
Proof.
  unfold mldsa_generate_private_jwk, parse_current_pqc_signing_key. cbn zeta. intros Hg Hp.
  apply res_bind_ok in Hg as (? & _ & Hg). apply res_bind_ok in Hg as (? & _ & Hg).
  apply res_bind_ok in Hg as (? & _ & Hg). apply res_bind_ok in Hg as (text & _ & Hg).
  apply res_bind_ok in Hg as (s & Hs & Hg). injection Hg as <-. cbn [gm_private_jwk_json gm_public_jwk] in *.
  ok_inv. match goal with Hr : mldsa_from_private_jwk_for_backend _ _ _ = Ok ?s |- _ =>
    rewrite (mldsa_text_one_key _ _ _ _ _ _ Hs Hr) end.
  by injection Hp as <-.
Qed.
End Pqc.

(** * Properties *)

Section Properties.
Context `{Features} `{Base64} `{Sha256} `{SerdeJson} `{Asn1} `{AwsLc} `{Jwt} `{OpenSsl} `{JsonText} `{JwkReader}
  `{FromJson CompactJwsHeader} `{FromJson MintedClaims} `{FromJson PrivateRsaJwk} `{FromJson PrivateAkpJwk}.

(** C38: Two rotations of one ML-DSA key can lose a key that was in use: some
    interleaving of their calls, in which no call fails and both of them report
    success, passes through a state in which the first one has finished and its
    new key is in the key file, and ends with the key of the second one in the
    key file and an overlap file made of the keys that both of them had read at
    first.  The first one's key is in neither. *)
Theorem pqc_rotations_lose_key (args : PqcKeyRotateArgs) (fs : Fs) (current : PublicJwk) (overlap : list PublicJwk)
    (o1 o2 : Outcome) (g1 g2 : GeneratedMlDsaKey) (text1 text2 : string) :
  pqc_openssl = true -> pr_dry_run args = false -> pqc_read args fs current overlap ->
  pr_key_file args <> pr_extra_jwks_file args -> lock_path_of (pr_key_file args) <> pr_extra_jwks_file args ->
  no_fault o1 -> room args fs o1 -> makes args current overlap o1 g1 text1 ->
  no_fault o2 -> room args fs o2 -> makes args current overlap o2 g2 text2 ->
  gm_public_jwk g1 ∉ current :: gm_public_jwk g2 :: overlap ->
  exists mid fin out1 out2,
    rtc (pool_step no_fault) (mkPool fs [rotate_pqc_key args; rotate_pqc_key args]) mid /\
    pool_procs mid !! 0 = Some (Ret (Ok out1)) /\
    pool_fs mid !! pr_key_file args = Some (mkFile (gm_private_jwk_json g1) 384) /\
    rtc (pool_step no_fault) mid fin /\
    pool_procs fin = [Ret (Ok out1); Ret (Ok out2)] /\
    pool_fs fin !! pr_key_file args = Some (mkFile (gm_private_jwk_json g2) 384) /\
    parse_current_pqc_signing_key (pr_key_file args) (gm_private_jwk_json g2) <> Ok (gm_public_jwk g1) /\
    exists keys text,
      json_to_string_pretty (jwks_document_value (mkJwksDocument keys)) = Ok text /\
      pool_fs fin !! pr_extra_jwks_file args = Some (mkFile (text +:+ newline) 420) /\
      gm_public_jwk g1 ∉ keys.
Proof.
  intros Hpqc Hdry Hread Hne Hlock Ho1 Hroom1 Hm1 Ho2 Hroom2 Hm2 Hlost.
  rewrite !not_elem_of_cons in Hlost. destruct Hlost as (Hcur & Hg2 & Hover).
  destruct (pqc_rest_calm args current overlap o1 g1 text1 fs Ho1 Hm1 Hroom1) as [out1 Hrun1].
  set (fs1 := delete _ _) in Hrun1.
  destruct (pqc_rest_calm args current overlap o2 g2 text2 fs1 Ho2 Hm2 (room_after _ _ _ _ _ _ Hroom2)) as [out2 Hrun2].
  set (fs2 := delete _ _) in Hrun2. set (rest := pqc_rest args current overlap) in *.
  exists (mkPool fs1 [Ret (Ok out1); rest]), (mkPool fs2 [Ret (Ok out1); Ret (Ok out2)]), out1, out2.
  assert (Hkey : forall g text f fs, delete (lock_path_of (pr_key_file args))
      (put_in_use args g text (<[lock_path_of (pr_key_file args) := f]> fs)) !! pr_key_file args =
      Some (mkFile (gm_private_jwk_json g) 384)).
  { intros. rewrite lookup_delete_ne by apply lock_ne. apply lookup_insert_eq. }
  split.
  { etrans; [by apply (pqc_reads args fs current overlap _ 0)|].
    etrans; [by apply (pqc_reads args fs current overlap _ 1)|]. fold rest.
    pose proof (run_in_pool no_fault rest (fun _ => o1) 0 fs [rest; rest] 0 (fun _ => Ho1) eq_refl) as Hr.
    by rewrite (Hrun1 0) in Hr. }
  split; [done|]. split; [apply Hkey|]. split.
  { pose proof (run_in_pool no_fault rest (fun _ => o2) 0 fs1 [Ret (Ok out1); rest] 1 (fun _ => Ho2) eq_refl) as Hr.
    by rewrite (Hrun2 0) in Hr. }
  split; [done|]. split; [apply Hkey|].
  destruct Hm2 as [(algorithm & _ & Hgen) Htext]. split.
  { intros Hp. by rewrite (generated_one_key _ _ _ _ _ _ Hgen Hp) in Hg2. }
  eexists _, text2. split; [exact Htext|]. split.
  - cbn [pool_fs]. unfold fs2. rewrite lookup_delete_ne by done. unfold put_in_use. by rewrite lookup_insert_ne, lookup_insert_eq.
  - rewrite not_elem_of_cons. split; [done|]. intros [_ Hin]%list_elem_of_filter. done.
Qed.

End Properties.

(** Two rotations whose random bytes are not the same.  A private key is printed
    as its seed, a document as the ids of its keys, and the public key of a seed
    begins with the seed. *)
Module PqcToy.
#[local] Existing Instances SignerToy.features SignerToy.sha SignerToy.header_json SignerToy.claims_json.
#[local] Existing Instances SignerToy.rsa_json SignerToy.jwt SignerToy.asn1 SignerToy.awslc.
#[local] Instance base64 : Base64 := {| b64_encode x := x; b64_decode := Ok |}.

Definition private_members : Value :=
  VObject [("alg", VString "ML-DSA-65"); ("kty", VString "AKP"); ("priv", VString "seed")].
Definition kid_of (jwk : Value) : string := default "none" (value_get "kid" jwk ≫= as_str).

#[local] Instance serde : SerdeJson := {|
  json_to_vec _ := Ok "";
  json_to_string_pretty v :=
    match value_get "priv" v, value_get "keys" v with
    | Some (VString seed), _ => Ok seed
    | _, Some (VArray keys) => Ok (join "," (map kid_of keys))
    | _, _ => Err "not printed"
    end
|}.
#[local] Instance openssl : OpenSsl := {|
  PKeyPrivate := MlDsaAlgorithm * string; PKeyPublic := unit;
  private_key_from_seed a seed := Ok (a, seed); public_key_from_raw_bytes_ex _ _ := Ok tt;
  raw_public_key key := Ok (key.2 +:+ SignerToy.zeros (public_key_len key.1 - 32));
  signer_new_without_digest _ := Ok tt; sign_oneshot_to_vec _ _ := Ok "sig";
  verifier_new_without_digest _ := Ok tt; verify_oneshot _ _ _ := Ok true
|}.
#[local] Instance akp_json : FromJson PrivateAkpJwk := fun raw =>
  let seed := String.substring 0 32 raw in
  Ok (mkPrivateAkpJwk "AKP" (Some seed) "ML-DSA-65" (seed +:+ SignerToy.zeros (public_key_len MlDsa65 - 32)) seed).
#[local] Instance text : JsonText := fun _ => Ok private_members.
#[local] Instance reader : JwkReader := fun _ => Err "unknown".

Definition args : PqcKeyRotateArgs := mkPqcRotateArgs "k.json" "retiring.json" None false.
Definition files : Fs := {[ "k.json" := mkFile (repeat_byte 32 97) 384 ]}.
Definition outcome (pid seed : Z) : Outcome :=
  mkOutcome None 0 18 (Ok 7%Z) pid (Ok (repeat_byte 32 seed)) "" (Err "offline").
Definition key_of (seed : Z) : PublicJwk :=
  akp_public_jwk (repeat_byte 32 seed) MlDsa65
    (repeat_byte 32 seed +:+ SignerToy.zeros (public_key_len MlDsa65 - 32)).
Definition generated (seed : Z) : GeneratedMlDsaKey :=
  mkGeneratedMlDsaKey (repeat_byte 32 seed +:+ newline) (key_of seed).

Lemma toy_room pid : pid = 1%Z \/ pid = 2%Z -> forall seed, room args files (outcome pid seed).
Proof.
  intros Hpid seed. split; [reflexivity|]. intros path Hp. rewrite !elem_of_cons, elem_of_nil in Hp.
  destruct Hpid as [->| ->], Hp as [->|[->|[]]]; split; try reflexivity;
    apply (bool_decide_eq_true_1 _); vm_compute; reflexivity.
Qed.

Lemma toy_makes pid seed :
  mldsa_generate_private_jwk (Ok (repeat_byte 32 seed)) MlDsa65 None = Ok (generated seed) ->
  makes args (key_of 97) [] (outcome pid seed) (generated seed) (repeat_byte 32 97).
Proof. intros Hg. split; [exists MlDsa65; by split|]. reflexivity. Qed.

Lemma toy_distinct : gm_public_jwk (generated 98) ∉ [key_of 97; gm_public_jwk (generated 99)].
Proof.
  rewrite !not_elem_of_cons. split; [|split; [|apply not_elem_of_nil]];
    intros Heq; apply (f_equal jwk_kid) in Heq; vm_compute in Heq; discriminate.
Qed.

Lemma pqc_rotations_lose_key_witness :
  exists mid fin,
    rtc (pool_step no_fault) (mkPool files [rotate_pqc_key args; rotate_pqc_key args]) mid /\
    pool_fs mid !! "k.json" = Some (mkFile (repeat_byte 32 98 +:+ newline) 384) /\
    rtc (pool_step no_fault) mid fin /\
    pool_fs fin !! "k.json" = Some (mkFile (repeat_byte 32 99 +:+ newline) 384).
Proof.
  destruct (pqc_rotations_lose_key args files (key_of 97) [] (outcome 1 98) (outcome 2 99) (generated 98) (generated 99)
    (repeat_byte 32 97) (repeat_byte 32 97)) as (mid & fin & out1 & out2 & Hr & _ & Hm & Hr2 & _ & Hf & _).
  - reflexivity.
  - reflexivity.
  - split; [|left; split; reflexivity]. eexists. split; [reflexivity|]. vm_compute. reflexivity.
  - discriminate.
  - discriminate.
  - reflexivity.
  - apply toy_room. by left.
  - apply toy_makes. vm_compute. reflexivity.
  - reflexivity.
  - apply toy_room. by right.
  - apply toy_makes. vm_compute. reflexivity.
  - apply toy_distinct.
  - exists mid, fin. split; [exact Hr|]. split; [exact Hm|]. split; [exact Hr2|exact Hf].
Defined.
End PqcToy.
