(* ===== verification/CliClient.v ===== *)
(** crates/sts-cli: the token exchange client against the server.

    The form that the client sends is the request that the operator asked for
    when the server's parser reads it, and a success that the client reports was
    checked as far as its options say. *)

From S2P Require Import Prelude RustStr Json Url Core Replay Jose JoseSigners Verify Dpop Config HttpForms HttpBootstrap.
From S2P Require Import CliIo CliText CliKeys CliRotate CliExchange CliFiles.
From Stdlib Require Import Ascii.

(** * Specifications *)

(** The request that the arguments stand for, as the server's form. *)
Definition intended_form (args : ExchangeArgs) (subject_token : string)
    (actor_token client_assertion : option string) : TokenForm :=
  mkTokenForm (Some TOKEN_EXCHANGE_GRANT_TYPE) (Some subject_token) (Some (ea_subject_token_type args))
    actor_token (option_map (fun _ => ea_actor_token_type args) actor_token) false
    (head (ea_audience args)) (head (ea_resource args)) (ea_scope args) (ea_requested_token_type args)
    (ea_client_id args) client_assertion
    (option_map (fun _ => ea_client_assertion_type args) client_assertion).

(** The server reads the pairs that the client has encoded. *)
Class FormLaws `{HttpLib} `{FormEncode} : Prop := {
  form_roundtrip pairs body : form_encode pairs = Ok body -> form_parse body = pairs
}.

(** * The form *)

Lemma pair_get_app key l1 l2 :
  pair_get key (l1 ++ l2) = match pair_get key l1 with Some v => Some v | None => pair_get key l2 end.
Proof. induction l1 as [|[k v] l1 IH]; [done|]. cbn. by case_bool_decide. Qed.

Lemma pair_get_map key name l :
  pair_get key (map (pair name) l) = if bool_decide (name = key) then head l else None.
Proof. induction l as [|v l IH]; cbn; by case_bool_decide. Qed.

Lemma exchange_form_ok args s a c form :
  exchange_form args s a c = Ok form ->
  form = exchange_params args s a c /\ forall k v, (k, v) ∈ form -> v <> "".
Proof.
  unfold exchange_form. set (params := exchange_params args s a c). clearbody params. intros Hf.
  assert (Hgen : forall l acc form, try_fold (fun form nv => push_form_param nv.1 nv.2 form) acc l = Ok form ->
            form = acc ++ l /\ forall k v, (k, v) ∈ l -> v <> "").
  { clear. induction l as [|[k v] l IH]; intros acc form Hf; cbn in Hf.
    - injection Hf as <-. rewrite app_nil_r. split; [done|]. intros k v Hin. by apply not_elem_of_nil in Hin.
    - unfold push_form_param in Hf. destruct (is_empty (trim v)) eqn:Hv; [done|].
      apply IH in Hf as [-> Hall]. rewrite <- app_assoc. split; [done|]. intros k' v' [[= -> ->]|Hin]%elem_of_cons; [|eauto].
      intros ->. discriminate Hv. }
  apply Hgen in Hf as [-> Hall]. done.
Qed.

Lemma used_keys_app l1 l2 : used_keys (l1 ++ l2) = used_keys l1 ++ used_keys l2.
Proof. unfold used_keys. rewrite fmap_app. apply List.filter_app. Qed.

Lemma used_keys_map name l :
  name ∈ token_form_keys -> used_keys (map (pair name) l) = repeat name (length l).
Proof.
  intros Hn. unfold used_keys. induction l as [|v l IH]; [done|]. cbn.
  unfold is_recognized_token_form_key at 1. rewrite bool_decide_eq_true_2 by done. by rewrite IH.
Qed.

(** The keys of the form: the fixed ones, each at most once, and the targets. *)
Lemma exchange_keys args s a c :
  used_keys (exchange_params args s a c) =
  ["grant_type"; "subject_token"; "subject_token_type"]
  ++ match a with Some _ => ["actor_token"; "actor_token_type"] | None => [] end
  ++ match c with Some _ => ["client_assertion"; "client_assertion_type"] | None => [] end
  ++ match ea_client_id args with Some _ => ["client_id"] | None => [] end
  ++ repeat "audience" (length (ea_audience args)) ++ repeat "resource" (length (ea_resource args))
  ++ match ea_scope args with Some _ => ["scope"] | None => [] end
  ++ match ea_requested_token_type args with Some _ => ["requested_token_type"] | None => [] end.
Proof.
  unfold exchange_params. cbn zeta. rewrite !used_keys_app, !used_keys_map by (unfold token_form_keys; set_solver).
  destruct a, c, (ea_client_id args), (ea_scope args), (ea_requested_token_type args); reflexivity.
Qed.

Lemma exchange_keys_NoDup args s a c :
  NoDup (used_keys (exchange_params args s a c)) <->
  (length (ea_audience args) <= 1 /\ length (ea_resource args) <= 1)%nat.
Proof.
  rewrite exchange_keys. generalize (length (ea_audience args)), (length (ea_resource args)). intros n m. split.
  - intros Hnd. apply NoDup_app in Hnd as (_ & _ & Hnd). do 3 (apply NoDup_app in Hnd as (_ & _ & Hnd)).
    apply NoDup_app in Hnd as (Ha & _ & Hnd). apply NoDup_app in Hnd as (Hr & _ & _).
    split; [destruct n as [|[|]]|destruct m as [|[|]]]; try lia;
      [apply NoDup_cons in Ha as [Ha _]; destruct Ha|apply NoDup_cons in Hr as [Hr _]; destruct Hr]; by left.
  - intros [Hn Hm]. destruct n as [|[|]]; [| |lia]; (destruct m as [|[|]]; [| |lia]);
      destruct a, c, (ea_client_id args), (ea_scope args), (ea_requested_token_type args);
      apply (bool_decide_unpack _); vm_compute; exact I.
Qed.

Lemma pair_get_opt key name (o : option string) :
  pair_get key (match o with Some v => [(name, v)] | None => [] end) =
  if bool_decide (name = key) then o else None.
Proof. destruct o; cbn; by case_bool_decide. Qed.

Lemma pair_get_opt2 key n1 n2 t (o : option string) :
  pair_get key (match o with Some v => [(n1, v); (n2, t)] | None => [] end) =
  if bool_decide (n1 = key) then o else if bool_decide (n2 = key) then option_map (fun _ => t) o else None.
Proof. destruct o; cbn; by repeat case_bool_decide. Qed.

(** The value of each parameter. *)
Lemma exchange_param key args s a c :
  key ∈ token_form_keys ->
  pair_get key (exchange_params args s a c) = form_field (intended_form args s a c) key.
Proof.
  intros Hk. unfold exchange_params. cbn zeta. rewrite !pair_get_app, !pair_get_map, !pair_get_opt, !pair_get_opt2.
  unfold token_form_keys in Hk. key_cases Hk; vm_compute;
    repeat match goal with |- context [match ?o with Some _ => _ | None => _ end] => destruct o end; reflexivity.
Qed.

Ltac form_key k :=
  match goal with Hf : forall key, key ∈ token_form_keys -> _ |- _ =>
    exact (Hf k (proj1 (recognized_spec k) eq_refl)) end.

Lemma form_ext f g :
  (forall key, key ∈ token_form_keys -> form_field f key = form_field g key) ->
  tf_empty_actor_token_supplied f = tf_empty_actor_token_supplied g -> f = g.
Proof.
  intros Hf He. destruct f, g. cbn in He. subst. f_equal;
    [form_key "grant_type"|form_key "subject_token"|form_key "subject_token_type"|form_key "actor_token"
    |form_key "actor_token_type"|form_key "audience"|form_key "resource"|form_key "scope"
    |form_key "requested_token_type"|form_key "client_id"|form_key "client_assertion"
    |form_key "client_assertion_type"].
Qed.

Lemma pair_get_in key pairs v : pair_get key pairs = Some v -> (key, v) ∈ pairs.
Proof.
  induction pairs as [|[k w] pairs IH]; [done|]. cbn. case_bool_decide as Hk; [|right; auto].
  intros [= ->]. subst. by left.
Qed.

Lemma non_empty_value v : v <> "" -> non_empty_form_value v = Some v.
Proof. intros Hv. unfold non_empty_form_value. by rewrite (proj2 (is_empty_false _) Hv). Qed.

(** * What a success stands for *)

Section Successes.
Context `{Features} `{Base64} `{Sha256} `{SerdeJson} `{Jwt} `{OpenSsl} `{JsonText} `{JwkReader} `{FloatText}
  `{FromJson CompactJwsHeader} `{FromJson Value} `{UrlLib} `{DpopLib} `{JsonReader} `{FormEncode}.
Context (fs : Fs) (args : ExchangeArgs).

(** The secret in a file, and that of a file that may not be named. *)
Definition secret_in (path value : string) : Prop := exists f, fs !! path = Some f /\ value = trim (f_content f).
Definition secret_given (path value : option string) : Prop :=
  match path with Some path => exists v, value = Some v /\ secret_in path v | None => value = None end.

(** The proof that goes with the request and the thumbprint that the token must
    carry: with a holder key, a proof that it has signed for this endpoint and
    its thumbprint; without, the proof from its file and no thumbprint. *)
Definition proof_sent (endpoint : string) (proof jkt : option string) : Prop :=
  match ea_dpop_key_file args with
  | Some path => exists raw key htu jti iat signed, secret_in path raw /\ holder_from_private_jwk raw = Ok key /\
      dpop_htu_for_request_uri endpoint = Ok htu /\ sign_proof key (mkOutbound jti "POST" htu iat) = Ok signed /\
      proof = Some signed /\ jkt = Some (hk_jkt key)
  | None => secret_given (ea_dpop_proof_file args) proof /\ jkt = None
  end.

(** The form is the one of the options and of the secrets in their files. *)
Definition form_sent (body : string) : Prop :=
  exists subject actor assertion form, secret_in (ea_subject_token_file args) subject /\
    secret_given (ea_actor_token_file args) actor /\ secret_given (ea_client_assertion_file args) assertion /\
    exchange_form args subject actor assertion = Ok form /\ form_encode form = Ok body.

Definition request_headers (proof : option string) : list (string * string) :=
  [("accept", "application/json"); ("content-type", "application/x-www-form-urlencoded; charset=utf-8")]
  ++ match proof with Some proof => [("DPoP", proof)] | None => [] end.

(** The token verifies under the key set whose text is [raw]. *)
Definition verified_under (raw label source token : string) (view : MintedView) : Prop :=
  exists jwks verified, parse_exchange_jwks_document raw label = Ok jwks /\
    verify_claims_against_jwks_with_header (T := Value) token jwks = Ok verified /\
    view = mkMintedView (Some (v_claims verified)) (Some (v_alg verified)) (Some (v_kid verified)) source.

(** How far the minted token was checked, and the requests sent for that: under
    the key set of the file that the options name, under the one that the URL
    answers with, or not at all. *)
Definition token_checked (token : string) (decoded : option (Value * Value)) (view : MintedView) (log : list Sent) : Prop :=
  match ea_jwks_file args, ea_jwks_url args with
  | Some path, _ => log = [] /\ exists f, fs !! path = Some f /\ verified_under (f_content f) "JWKS file" "file" token view
  | None, Some url => exists reply raw, log = [mkSent false url [] "" (Ok reply)] /\
      status_success (reply_status reply) = true /\ reply_text reply = Ok raw /\
      verified_under raw "JWKS URL" "url" token view
  | None, None => log = [] /\ view = mkMintedView (option_map snd decoded) None None "none"
  end.

(** The minted token is bound to the key with thumbprint [jkt]. *)
Definition bound_to (jkt : string) (view : MintedView) : Prop :=
  exists claims, mv_claims view = Some claims /\ (value_get "cnf" claims ≫= value_get "jkt") ≫= as_str = Some jkt.

Definition with_claims (view : MintedView) (safe : Map) : Map :=
  match mv_claims view with Some claims => map_insert "claims" (safe_claims_summary claims) safe | None => safe end.

(** The output for a response with this body, and the requests sent for it. *)
Definition reported (status : Z) (body : Value) (jkt : option string) (output : string) (log : list Sent) : Prop :=
  exists token decoded view safe,
    value_get "access_token" body ≫= as_str = Some token /\ decode_compact_jwt token = Ok decoded /\
    token_checked token decoded view log /\ (forall j, jkt = Some j -> bound_to j view) /\
    check_holder_binding jkt (mv_claims view) (response_members status body token decoded view) = Ok safe /\
    map_get "jwt_signature_verified" (with_claims view safe)
      = Some (VBool (negb (bool_decide (mv_source view = "none")))) /\
    output = render_minted args token (with_claims view safe).

(** A run that has sent [log] and printed [output]: one POST of the form, its
    reply, and what the reply says. *)
Definition exchanged (output : string) (log : list Sent) : Prop :=
  exists endpoint proof jkt form reply text body rest,
    resolve_token_endpoint args = Ok endpoint /\ proof_sent endpoint proof jkt /\ form_sent form /\
    log = mkSent true endpoint (request_headers proof) form (Ok reply) :: rest /\
    status_success (reply_status reply) = true /\ reply_text reply = Ok text /\ json_from_str text = Ok body /\
    reported (reply_status reply) body jkt output rest.

(** ** The request *)

#[local] Notation succeeds := (succeeds (fs := fs)).

Lemma secret_read path label : succeeds (read_secret_file path label) (fun v log => log = [] /\ secret_in path v).
Proof.
  unfold read_secret_file. eapply succeeds_quiet; [apply succeeds_map_err, succeeds_read|].
  intros raw (f & Hf & ->). apply succeeds_ret. intros v Hv. split; [done|]. exists f.
  destruct (is_empty _); [done|]. by injection Hv as <-.
Qed.

Lemma secret_option path label :
  succeeds (read_optional_secret path label) (fun v log => log = [] /\ secret_given path v).
Proof.
  unfold read_optional_secret. destruct path as [path|]; [|apply succeeds_ret; by intros v [= <-]].
  eapply succeeds_quiet; [apply secret_read|]. intros v Hv. apply succeeds_ret. intros a [= <-].
  split; [done|]. by exists v.
Qed.

Lemma proof_made endpoint :
  succeeds (exchange_proof args endpoint) (fun p log => log = [] /\ proof_sent endpoint p.1 p.2).
Proof.
  unfold exchange_proof, proof_sent. eapply succeeds_quiet; [apply secret_option|]. intros given Hgiven.
  destruct (ea_dpop_key_file args) as [path|]; [|apply succeeds_ret; by intros p [= <-]].
  eapply succeeds_quiet; [apply secret_read|]. intros raw Hraw.
  apply succeeds_pure. intros key Hkey%map_err_ok. apply succeeds_pure. intros htu Hhtu%map_err_ok.
  eapply (succeeds_quiet _ _ (fun _ => True)).
  { unfold unix_timestamp_now. eapply (succeeds_bind _ _ (fun _ log => log = [])); [by apply tells_call|].
    intros clock log ->. by apply succeeds_ret. }
  intros iat _. eapply (succeeds_bind _ _ (fun _ log => log = [])); [by apply tells_call|]. intros bytes log ->.
  apply succeeds_pure. intros signed Hsigned%map_err_ok. apply succeeds_ret. intros p [= <-]. split; [done|].
  by exists raw, key, htu, (generate_dpop_jti bytes), iat, signed.
Qed.

Lemma request_built :
  succeeds (build_exchange_http_request args) (fun request log => log = [] /\
    resolve_token_endpoint args = Ok (er_token_endpoint request) /\
    proof_sent (er_token_endpoint request) (er_dpop_proof request) (er_dpop_jkt request) /\
    form_sent (er_body request)).
Proof.
  unfold build_exchange_http_request, form_sent. apply succeeds_pure. intros endpoint He.
  eapply succeeds_quiet; [apply secret_read|]. intros subject Hs.
  eapply succeeds_quiet; [apply secret_option|]. intros actor Ha.
  eapply succeeds_quiet; [apply secret_option|]. intros assertion Hc.
  eapply succeeds_quiet; [apply proof_made|]. intros proof Hp.
  apply succeeds_pure. intros form Hf. apply succeeds_pure. intros body Hb%map_err_ok.
  apply succeeds_ret. intros request [= <-]. split_and!; [done|done|done|]. by exists subject, actor, assertion, form.
Qed.

(** ** The response *)

Lemma view_verified token decoded raw label source jwks view :
  parse_exchange_jwks_document raw label = Ok jwks ->
  minted_view token decoded (Some (jwks, source)) = Ok view -> verified_under raw label source token view.
Proof. unfold minted_view, verified_under. intros Hj Hv. ok_inv. eauto. Qed.

(** A key set that is loaded is the one that checks the token. *)
Lemma jwks_loaded :
  succeeds (load_exchange_jwks args) (fun jwks log => forall token decoded view,
    minted_view token decoded jwks = Ok view -> token_checked token decoded view log).
Proof.
  unfold load_exchange_jwks, token_checked.
  destruct (ea_jwks_file args) as [path|]; [|destruct (ea_jwks_url args) as [url|]].
  - eapply (succeeds_quiet _ _ (fun jwks => exists f doc, fs !! path = Some f /\ jwks = (doc, "file") /\
      parse_exchange_jwks_document (f_content f) "JWKS file" = Ok doc)).
    + unfold load_jwks_file. eapply succeeds_quiet; [apply succeeds_map_err, succeeds_read|].
      intros raw (f & Hf & ->). apply succeeds_ret. intros jwks (doc & Hd & ->)%res_map_ok. split; [done|]. by exists f, doc.
    + intros jwks (f & doc & Hf & -> & Hd). apply succeeds_ret. intros a [= <-] token decoded view Hv.
      split; [done|]. exists f. split; [done|]. by eapply view_verified.
  - eapply (succeeds_try _ _ (fun jwks log => exists reply raw doc, log = [mkSent false url [] "" (Ok reply)] /\
      status_success (reply_status reply) = true /\ reply_text reply = Ok raw /\ jwks = (doc, "url") /\
      parse_exchange_jwks_document raw "JWKS URL" = Ok doc)).
    + unfold load_jwks_url. destruct (_ && _)%bool; [by apply succeeds_ret|].
      eapply (succeeds_bind _ _ (fun r log => log = [mkSent false url [] "" r])); [by apply tells_call|].
      intros r log ->. apply succeeds_pure. intros reply ->%map_err_ok. apply succeeds_pure. intros raw Hraw%map_err_ok.
      destruct (status_success (reply_status reply)) eqn:Hst; cbn [negb]; [|by apply succeeds_ret].
      apply succeeds_ret. intros jwks (doc & Hd & ->)%res_map_ok. by exists reply, raw, doc.
    + intros jwks log (reply & raw & doc & -> & Hst & Hraw & -> & Hd). apply succeeds_ret.
      intros a [= <-] token decoded view Hv. rewrite app_nil_r. exists reply, raw. split_and!; [done|done|done|].
      by eapply view_verified.
  - apply succeeds_ret. by intros jwks [= <-] token decoded view [= <-].
Qed.

Lemma insert_mapped_ne k name o f safe : k <> name -> map_get k (insert_mapped name o f safe) = map_get k safe.
Proof. intros Hne. destruct o; cbn; [|done]. by rewrite map_get_insert, bool_decide_eq_false_2. Qed.

Lemma response_flag status body token decoded view :
  map_get "jwt_signature_verified" (response_members status body token decoded view) =
  Some (VBool (negb (bool_decide (mv_source view = "none")))).
Proof.
  unfold response_members. rewrite !insert_mapped_ne by done. by rewrite !map_get_insert.
Qed.

Lemma holder_binding_ok jkt view safe safe' :
  check_holder_binding jkt (mv_claims view) safe = Ok safe' ->
  (forall j, jkt = Some j -> bound_to j view) /\
  map_get "jwt_signature_verified" safe' = map_get "jwt_signature_verified" safe.
Proof.
  unfold check_holder_binding. destruct jkt as [expected|]; [|by intros [= <-]].
  intros Hc. ok_inv. bool_hyps. split; [|by rewrite !map_get_insert].
  subst. intros j [= <-]. unfold bound_to. eauto.
Qed.

Lemma success_reported status body jkt :
  succeeds (render_exchange_success args status body jkt) (fun output log => reported status body jkt output log).
Proof.
  unfold render_exchange_success, reported. apply succeeds_pure. intros token Htoken%ok_or_ok.
  apply succeeds_pure. intros decoded Hd. eapply succeeds_try; [apply jwks_loaded|]. intros jwks log Hj.
  apply succeeds_pure. intros view Hv. apply succeeds_pure. intros safe Hs.
  destruct (holder_binding_ok _ _ _ _ Hs) as [Hbound Hflag]. rewrite response_flag in Hflag.
  apply succeeds_ret. intros output [= <-]. rewrite app_nil_r. exists token, decoded, view, safe.
  split_and!; [done|done|by apply (Hj _ _ _ Hv)|done|done| |done].
  unfold with_claims. by destruct (mv_claims view); [rewrite map_get_insert|].
Qed.

Lemma exchange_run : succeeds (run_exchange args) exchanged.
Proof.
  unfold run_exchange. eapply succeeds_quiet; [apply request_built|]. intros request (He & Hp & Hf).
  eapply (succeeds_bind _ _ (fun r log => log = [mkSent true (er_token_endpoint request)
    (request_headers (er_dpop_proof request)) (er_body request) r])); [by apply tells_call|].
  intros r log ->. apply succeeds_pure. intros reply ->%map_err_ok.
  apply succeeds_pure. intros text Ht%map_err_ok. apply succeeds_pure. intros body Hb%map_err_ok.
  destruct (status_success (reply_status reply)) eqn:Hst; cbn [negb]; [|by apply succeeds_ret].
  eapply succeeds_mono; [apply success_reported|]. intros output rest Hr.
  by exists (er_token_endpoint request), (er_dpop_proof request), (er_dpop_jkt request), (er_body request), reply, text, body, rest.
Qed.
End Successes.

(** * Properties *)

Section Properties.
Context `{HttpLib} `{FormEncode} `{!FormLaws}.

(** C30: What the client sends reads at the token endpoint as the request the
    operator asked for, each parameter with its value, when at most one audience
    and one resource are given; with a second one, which the command accepts, the
    endpoint refuses the request. *)
Theorem client_form_understood (args : ExchangeArgs) (subject_token : string)
    (actor_token client_assertion : option string) (form : list (string * string)) (body : string) (headers : HeaderMap) :
  exchange_form args subject_token actor_token client_assertion = Ok form -> form_encode form = Ok body ->
  require_form_urlencoded headers = Ok tt -> header_get "authorization" headers = None ->
  if ((length (ea_audience args) <=? 1) && (length (ea_resource args) <=? 1))%nat%bool
  then parse_token_form headers body = Ok (intended_form args subject_token actor_token client_assertion)
  else is_ok (parse_token_form headers body) = false.
Proof.
  intros Hform Hbody Hct Hauth. apply exchange_form_ok in Hform as [-> Hne].
  set (params := exchange_params args subject_token actor_token client_assertion) in *.
  unfold parse_token_form, reject_authorization_header_client_auth.
  rewrite Hct, Hauth, (form_roundtrip _ _ Hbody). cbn [res_bind].
  destruct (token_form_loop_spec params ∅ default_token_form) as [I1 I2].
  pose proof (exchange_keys_NoDup args subject_token actor_token client_assertion) as Hnd. fold params in Hnd.
  destruct (_ && _)%bool eqn:Hlen.
  - apply andb_true_iff in Hlen as [Ha Hr]. apply Nat.leb_le in Ha, Hr. destruct I1 as [form Hloop].
    { split; [by apply Hnd|]. intros k _. apply not_elem_of_empty. }
    rewrite Hloop. f_equal. destruct (I2 _ Hloop) as (_ & _ & Hfield & Hempty). apply form_ext.
    + intros key Hkey. rewrite (Hfield key Hkey).
      rewrite <- (exchange_param key args subject_token actor_token client_assertion Hkey). fold params.
      destruct (pair_get key params) as [v|] eqn:Hv.
      * apply non_empty_value, (Hne key). by apply pair_get_in.
      * unfold token_form_keys in Hkey. by key_cases Hkey.
    + rewrite Hempty. cbn [default_token_form tf_empty_actor_token_supplied orb intended_form].
      apply bool_decide_eq_false. intros Hv. apply pair_get_in in Hv. by apply (Hne _ _ Hv).
  - destruct (token_form_loop ∅ default_token_form params) as [form|e] eqn:Hloop; [|done].
    destruct (I2 _ eq_refl) as (Hn & _). apply Hnd in Hn as [Ha Hr].
    apply andb_false_iff in Hlen as [Hl|Hl]; apply Nat.leb_gt in Hl; lia.
Qed.

Context `{Features} `{Base64} `{Sha256} `{SerdeJson} `{Jwt} `{OpenSsl} `{JsonText} `{JwkReader} `{FloatText}
  `{FromJson CompactJwsHeader} `{FromJson Value} `{UrlLib} `{DpopLib} `{JsonReader}.

(** C29: The exchange command changes no file.  When it reports success it has
    sent one POST to the endpoint of its options, with the form of the options
    and of the secrets in their files and, with a holder key, a proof signed by
    it for that endpoint; the reply to that request was 2xx with JSON that holds
    an access token; where a key set file was named the token's signature
    verified under the keys in it, where a URL was named under the keys that one
    GET of it returned with 2xx, and otherwise nothing else was sent; with a
    holder key the token is bound to that key's thumbprint; and the output is
    printed from members that say verified exactly when the signature was.  (The
    claims form prints the claims only.) *)
Theorem exchange_success_sound (args : ExchangeArgs) (outs : nat -> Outcome) (n : nat) (fs : Fs) :
  let '(r, fs') := run (run_exchange args) outs n fs in
  fs' = fs /\
  forall output, r = Ok output -> exchanged fs args output (sends (run_exchange args) outs n fs).
Proof.
  pose proof (exchange_run fs args outs n) as [Hfs Hr].
  by destruct (run (run_exchange args) outs n fs) as [r fs'].
Qed.

End Properties.

Module ClientToy.
Definition args : ExchangeArgs :=
  mkExchangeArgs (Some "https://sts.example") None "subject.jwt" JWT_TOKEN_TYPE (Some "actor.jwt") JWT_TOKEN_TYPE
    None "assertion-type" (Some "agent") ["https://api.example"] [] (Some "read") None None None None None
    OutRedacted false.
Definition pairs : list (string * string) := exchange_params args "subject" (Some "actor") None.

#[local] Instance lib : HttpLib := {|
  header_to_str v := Some v; header_value_from_str v := Some v;
  form_parse body := if bool_decide (body = "body") then pairs else []
|}.
#[local] Instance encode : FormEncode := fun l => if bool_decide (l = pairs) then Ok "body" else Err "not this form".
#[local] Instance laws : FormLaws.
Proof. split. intros l body. unfold form_encode, encode. case_bool_decide; [by intros [= <-]; subst|done]. Qed.

Definition headers : HeaderMap := [("content-type", "application/x-www-form-urlencoded; charset=utf-8")].

Lemma client_form_understood_witness :
  exchange_form args "subject" (Some "actor") None = Ok pairs /\
  parse_token_form headers "body" = Ok (intended_form args "subject" (Some "actor") None).
Proof.
  split; [vm_compute; reflexivity|].
  apply (client_form_understood args "subject" (Some "actor") None pairs "body" headers);
    vm_compute; reflexivity.
Defined.
End ClientToy.
