(* ===== verification/CliMain.v ===== *)
(** crates/sts-cli: the command line itself.

    The commands, what each runs, and what the process prints and exits with.
    The commands on files and keys are programs over system calls; the start-up
    commands run the server's own bootstrap over the outside world [W]. *)

From S2P Require Import Prelude RustStr Json Url NetAddr Core Replay Jose JoseSigners Verify Dpop Config HttpForms.
From S2P Require Import HttpState HttpToken HttpBootstrap CliIo CliText CliKeys CliRotate CliExchange.
From Stdlib Require Import Ascii.

(** * Commands *)

Inductive CanaryCommand : Type := CheckConfig.
Inductive JwksCommand : Type := JwksInspect (file : string).
Inductive KeyCommand : Type := KeyInspect (file : string) | KeyRotate (args : RotateArgs).
Inductive DpopKeyCommand : Type := DpopKeyGenerate (out : string).
Inductive DpopCommand : Type := DpopKey (command : DpopKeyCommand).
Inductive PqcKeyCommand : Type :=
| PqcKeyGenerate (args : PqcKeyGenerateArgs)
| PqcKeyInspect (file : string)
| PqcKeyRotate (args : PqcKeyRotateArgs).
Inductive PqcCommand : Type := PqcPreflight | PqcKey (command : PqcKeyCommand).
Inductive TokenCommand : Type := TokenVerify (args : TokenVerifyArgs).

Inductive Command : Type :=
| Serve
| BootstrapCheck
| Smoke (allow_network : bool)
| Canary (command : CanaryCommand)
| Jwks (command : JwksCommand)
| Key (command : KeyCommand)
| DpopCmd (command : DpopCommand)
| Pqc (command : PqcCommand)
| Token (command : TokenCommand)
| Exchange (args : ExchangeArgs).

(** What a command does: a program over system calls, or a start-up in the
    world [W]. *)
Inductive Action (W : Type) : Type :=
| Program (m : Io (result CliError string))
| StartUp (m : Eff W CliError string).
Arguments Program {W} m.
Arguments StartUp {W} m.

(** [TcpListener::bind] and [axum::serve]: the server serves until it fails. *)
Class Listener (W : Type) : Type := {
  TcpListener : Type;
  tcp_bind : SocketAddr -> Eff W string TcpListener;
  axum_serve : forall {State}, TcpListener -> State -> Eff W string unit
}.

(** * Start-up *)

Section Main.
Context `{BootFs} `{JsonText} `{JwkReader} `{Features} `{Base64} `{SerdeJson} `{Asn1} `{AwsLc} `{Sha256} `{Jwt}
  `{OpenSsl} `{UrlLib} `{FromJson CompactJwsHeader} `{FromJson MintedClaims} `{FromJson PrivateRsaJwk}
  `{FromJson PrivateAkpJwk} `{FromJson DiscoveryDocument} `{FromJson JwksDocument} `{FromJson Value}
  `{FileReader} `{RsaGenerate} `{DpopLib} `{JsonReader} `{FloatText} `{FormEncode}
  {W : Type} `{HasHttp W} `{Listener W}.
Context (signing_key_random : string -> SigningKey) (openssl_version : string).

(** [addr_text] prints the address. *)
Definition serve_from_env (env : ConfigSource) (addr_text : SocketAddr -> string) : Eff W BootstrapError unit :=
  do? config <- map_err BConfig (from_source env) in
  do? addr <- parse_bind_addr config in
  do! state <- build_state_from_config config in
  do! listener <- eff_map_err (fun err => BInvalidBind ("failed to bind " +:+ addr_text addr +:+ ": " +:+ err))
    (tcp_bind addr) in
  eff_map_err (fun err => BInvalidBind ("server failed: " +:+ err)) (axum_serve listener state).

Definition run_smoke (env : ConfigSource) (allow_network : bool) : Eff W CliError string :=
  if (negb allow_network && opt_is_none (source_get env "IDP_JWKS_FILE"))%bool then
    eff_err (usage "offline smoke requires IDP_JWKS_FILE; pass --allow-network to allow live IdP JWKS retrieval")
  else
  do! _ <- eff_map_err cli_error_of_bootstrap (bootstrap_check_from_source env) in
  let network := if allow_network then "allowed" else "disabled" in
  eff_ret (line "smoke_status" "ok" +:+ line "network" network).

Definition run_command (env : ConfigSource) (addr_text : SocketAddr -> string) (command : Command) : Action W :=
  match command with
  | Serve =>
      StartUp (do! _ <- eff_map_err cli_error_of_bootstrap (serve_from_env env addr_text) in eff_ret "")
  | BootstrapCheck =>
      StartUp (do! _ <- eff_map_err cli_error_of_bootstrap (bootstrap_check_from_source env) in
               eff_ret (line "bootstrap_status" "ok"))
  | Smoke allow_network => StartUp (run_smoke env allow_network)
  | Canary CheckConfig => Program (Ret (Ok (render_canary_config_status_from_env env)))
  | Jwks (JwksInspect file) => Program (inspect_file file ModeJwks)
  | Key (KeyInspect file) => Program (inspect_file file ModeSingleKey)
  | Key (KeyRotate args) => Program (rotate_signing_key env args)
  | DpopCmd (DpopKey (DpopKeyGenerate out)) => Program (generate_dpop_key signing_key_random out)
  | Pqc PqcPreflight => Program (Ret (run_pqc_preflight env openssl_version))
  | Pqc (PqcKey (PqcKeyGenerate args)) => Program (generate_pqc_key args)
  | Pqc (PqcKey (PqcKeyInspect file)) => Program (inspect_pqc_key file)
  | Pqc (PqcKey (PqcKeyRotate args)) => Program (rotate_pqc_key args)
  | Token (TokenVerify args) => Program (verify_token args)
  | Exchange args => Program (run_exchange args)
  end.

(** What the process shows: standard output, standard error, exit code. *)
Definition main_exit (r : result CliError string) : string * string * Z :=
  match r with
  | Ok output => (output, "", 0%Z)
  | Err err => ("", cli_message err +:+ newline, cli_code err)
  end.

(** * Lemmas *)

Lemma from_source_idp_file env config :
  from_source env = Ok config -> idp_jwks_file config = get_non_blank env "IDP_JWKS_FILE".
Proof. unfold from_source. cbn zeta. intros Hs. repeat (apply res_bind_ok in Hs as (? & _ & Hs) || (case_match; try done)). by injection Hs as <-. Qed.

Lemma eff_lift_world {E A} (r : result E A) (w : W) : (eff_lift r w).2 = w.
Proof. done. Qed.

(** With a key file start-up leaves the world alone. *)
Lemma start_up_local config w :
  opt_is_some (idp_jwks_file config) = true -> (build_state_from_config config w).2 = w.
Proof.
  intros Hf. unfold build_state_from_config, load_subject_jwks.
  destruct (idp_jwks_file config) as [file|]; [|done]. unfold eff_bind, eff_lift, eff_ret.
  repeat case_match; by simplify_eq/=.
Qed.

(** * Properties *)

(** The smoke check without [--allow-network] does nothing in the world
    outside, whatever else is configured, unless [IDP_JWKS_FILE] is set to
    blanks. *)
Theorem smoke_offline (env : ConfigSource) (w : W) :
  (forall file, source_get env "IDP_JWKS_FILE" = Some file -> trim file <> "") ->
  (run_smoke env false w).2 = w.
Proof.
  intros Hfile. unfold run_smoke. destruct (source_get env "IDP_JWKS_FILE") as [file|] eqn:Hf; [|done].
  specialize (Hfile file eq_refl). cbn [negb andb opt_is_none opt_is_some]. unfold bootstrap_check_from_source.
  destruct (from_source env) as [config|e] eqn:Hc; [|done]. cbn [map_err].
  assert (Hidp : opt_is_some (idp_jwks_file config) = true).
  { rewrite (from_source_idp_file _ _ Hc). unfold get_non_blank. rewrite Hf. cbn.
    by rewrite (proj2 (is_empty_false _) Hfile). }
  pose proof (start_up_local config w Hidp) as Hw.
  unfold eff_bind, eff_map_err, eff_lift, eff_ret. destruct (parse_bind_addr config); [|done].
  by destruct (build_state_from_config config w) as [[?|?] ?].
Qed.

End Main.

Module SmokeToy.
#[local] Existing Instances BootToy.features BootToy.sha BootToy.url BootToy.text BootToy.reader BootToy.base64.
#[local] Existing Instances BootToy.serde BootToy.header_json BootToy.claims_json BootToy.akp_json BootToy.rsa_json.
#[local] Existing Instances BootToy.discovery_json BootToy.jwks_json BootToy.jwt BootToy.asn1 BootToy.openssl.
#[local] Existing Instances BootToy.awslc BootToy.keys BootToy.fs.

(** The world counts the requests that leave the machine. *)
#[local] Instance counting : HasHttp nat :=
  {| http_get _ w := (Err "offline", S w); status_text := to_string |}.

Definition with_idp_file (file : string) : ConfigSource := <["IDP_JWKS_FILE" := file]> BootToy.env.

(** An [IDP_JWKS_FILE] that is set to blanks passes the check that keeps the
    smoke run offline, and the run then goes to the network for the keys. *)
Theorem smoke_blank_goes_online :
  (run_smoke (with_idp_file "idp.json") false 0).2 = 0 /\
  (run_smoke (with_idp_file " ") false 0).2 = 1.
Proof. split; vm_compute; reflexivity. Qed.

Lemma smoke_offline_witness :
  source_get (with_idp_file "idp.json") "IDP_JWKS_FILE" = Some "idp.json" /\
  (run_smoke (with_idp_file "idp.json") false 0).2 = 0.
Proof.
  split; [reflexivity|]. apply (smoke_offline (with_idp_file "idp.json") 0). by intros file [= <-].
Defined.
End SmokeToy.
